(* ===== verification/_CoqProject ===== *)
-Q . S2P
Prelude.v
GoLib.v
GoUnicode.v
GoSort.v
Metrics.v
GoHash.v
GoAes.v
GoNet.v
GoUrl.v
GoMux.v
GoJson.v
GoText.v
GoTime.v
Schema.v
World.v
Logic.v
Crypto.v
Users.v
ImportCmd.v
Session.v
RateLimit.v
Tokens.v
AuditLog.v
Keyring.v
Outbox.v
Svix.v
Worker.v
OAuth.v
Senders.v
Config.v
ConfigLoad.v
Ui.v
Http.v
Documents.v
Descriptor.v
Webhook.v
Service.v
EndUser.v
Races.v
GoHtml.v
Pages.v
Flows.v
Answer.v
Server.v
OpenApi.v
Maintenance.v
Migrate.v
Lifecycle.v
Upkeep.v
System.v
Deployment.v
Commands.v
