(* ===== verification/Prelude.v ===== *)
(** * Sesamo: a verification development

    Sesamo ([src/]) is a single-binary authentication server written in Go:
    opaque sessions, passwords, OAuth and e-mail links over one Postgres
    database, with a durable e-mail queue, an admin and introspection API, and
    a command line.  This library models its Go code, handler by handler and
    statement by statement, and proves what makes it correct.

    ** How the program is modelled

    - A Go string is its sequence of bytes.  Integers are [Z]; where the code
      can overflow (durations, Retry-After, counters) the product is wrapped
      at 64 bits.  float64 and DOUBLE PRECISION values are rationals: rounding
      is not modelled.  Instants are nanoseconds since the epoch.
    - Postgres is a record of tables ([Schema]), a statement a pure function
      of the clock and the tables, with the constraints that can refuse it.
    - Everything with an effect is a computation [M A] ([World]): a state over
      the tables, the open transaction, the response and the counters, against
      an oracle that answers every effect: it decides for each statement
      whether Postgres applies it, refuses it, or applies it and loses the
      answer, and supplies clocks and random bytes.  A theorem "whatever the
      database answers" quantifies over oracles.  [Logic] has the rules.
    - A request runs without another one in between.  Where concurrency
      decides, the single statements are the steps of a relation and the
      theorems range over all interleavings: sessions ([Session.step]), tokens
      ([Tokens.tstep]), the queue ([Worker.ostep]), the counters
      ([Metrics.step]) and migrations ([Migrate.mstep]).  [Races] splits the
      password login where its transactions do: [Deployment] holds for
      requests that run alone, and two of its promises (a reset stays, no
      session of a disabled account) can fail in such an overlap.
    - Standard library code the program calls is an executable definition:
      strings and strconv ([GoLib]), utf8 and case ([GoUnicode]), sorting
      ([GoSort]), SHA-256, HMAC, base64 and hex ([GoHash]), AES-256-GCM
      ([GoAes]), addresses and MIME types ([GoNet]), url and path ([GoUrl]),
      ServeMux ([GoMux]), encoding/json ([GoJson]) with its round trips
      ([GoText]), time ([GoTime]), html/template ([GoHtml]).
    - What is not in the repository is a parameter: the text rules of
      Postgres types ([Users.Postgres]), Argon2id and bcrypt
      ([Crypto.PasswordLib], with the law [PasswordLibLaws] that a key has
      the length asked for), what the network answers ([net]), ECDSA signing
      and the parser of Apple's key, the printing of a float, the SQL of a
      migration ([script]), which rows another transaction has locked.

    ** The files

    - Data and identity.  [Crypto] (internal/crypto): tokens, UUIDs, password
      hashes.  [Users] (internal/user): accounts, identities, import of
      records.  [Session] (internal/session), [RateLimit]
      (internal/ratelimit), [AuditLog] (internal/audit).
    - E-mail (internal/email).  [Tokens] one-time tokens, [Keyring] encryption
      at rest, [Outbox] the queue, [Svix] webhook signatures, [Worker]
      delivery, [Senders] the provider adapters.
    - [OAuth] (internal/oauth): PKCE, providers, key sets, id_tokens.
    - [Config], [ConfigLoad] (internal/config): the record and its loading.
      [Ui] and [Pages] (internal/ui): the generated stylesheet; the HTML
      templates, over html/template and a reader of its output ([GoHtml]).
    - HTTP (internal/http).  [Http] cookies, CSRF, redirects, errors, audited
      transactions; [Service] (service.go, admin.go); [EndUser] (enduser.go)
      with further guarantees in [Flows] and its password login across
      another request in [Races]; [Webhook] (webhook.go);
      [Documents] and [Descriptor] (descriptor.go); [Server] (server.go): the
      construction, the routes, the middleware and [ServeHTTP]; [Answer] the
      logic by which every handler is shown to answer; [OpenApi] the OpenAPI
      document against the routes.
    - [Metrics] (internal/metrics), [Migrate] (internal/db), and the commands
      (cmd/sesamo): [ImportCmd] (import.go), [Maintenance] and [Lifecycle]
      (serve.go: the purges, the shutdown), [Commands] (main.go, admin.go,
      describe.go).
    - The whole.  [Upkeep] is the interface between an invariant of the tables
      and the program: a class of the statements and transactions across which
      an invariant must survive ([Maintained], and [Enters] for the ones that
      open sessions), from which it survives every handler, [ServeHTTP], the
      worker, the purges and the import.  [System] implements it for seven
      invariants, [Deployment] has the program and its database over time.

    Components meet as they do in the code: handlers call the stores through
    [M] with the executor (pool or transaction) they pass; the worker sees a
    mail provider only as a [Worker.Sender] and the handlers an identity
    provider only as an [OAuth.Provider]: a class and a record of operations,
    which [Senders] and [OAuth] implement.

    ** What the theorems show

    - The deployment over time: [system_invariant] holds of every state that
      requests, workers, purges and imports reach; [only_logins_open_sessions];
      [mailed_links_work], from the request to the mail and back.
    - The screens: [pages_read_as_written], no data becomes markup;
      [forms_pass_csrf], the forms post what their handlers accept.
    - Who gets a session: [Session.Validate_sound], [password_login_sound],
      [oauth_callback_sound], [exchange_vouched], [magic_link_sound],
      [reset_confirm_atomic], [kill_switch], [reachable_sessions_capped].
    - What the outside cannot do or learn: [csrf_guard],
      [safeRedirectTarget_safe], [guarded_endpoints], [introspect_truthful],
      [login_failures_alike], [link_requests_reveal_nothing],
      [signup_reveals_nothing], [webhook_records_signed_events],
      [window_bound], [password_roundtrip], [Issue_Consume_once].
    - Evidence: [auditedTx_strict].
    - The queue: [Claim_sound], [sends_bounded], [deliver_records],
      [events_order_irrelevant], [Send_policy], [payload_roundtrip].
    - The server as a whole: [every_request_answered], the OpenAPI document
      against the routes ([openapi_document]), [load_production],
      [load_wellformed].
    - Operations: [migrations_once], [migrate_ends], [maintenance_prunes],
      [import_accounts], [updates_linearizable].

    Each has a witness at a concrete input where it has hypotheses; examples
    named [toy_*] are those inputs.  Comments at the examples
    [Ui.font_url_breaks_out], [Server.csp_wildcard], [ConfigLoad.days_wrap],
    [Senders.retry_wraps], [Lifecycle.shutdown_cuts_batch],
    [Outbox.failed_reduction_is_not_retried],
    [Races.rehash_undoes_reset], [Races.session_survives_kill_switch],
    [Migrate.lock_leaks] and
    [Deployment.purged_token_mails_dead_link] record where the code does less
    than it says.

    ** Bounds and fuel

    Recursion is structural almost everywhere.  The JSON parser has the
    decoder's nesting limit of 10000, and its loops the length of the text,
    which [GoJson.json_loops_suffice] shows is never what ends them.
    [Worker.Run] and [Maintenance.runMaintenance] take the number of turns
    before the context ends, [Migrate.run_alone] a number of statements that
    [migrate_ends] shows enough.

    ** Not modelled

    Log lines and the wording of errors; the text of theme.css; the latency
    observations of a request ([Metrics] has the histogram itself); requests
    that run inside one another, but for the step relations named above, so
    that [system_invariant] speaks of requests one after the other; the
    driver's pool and timeouts, which are answers of the oracle; the
    goroutines and signals of serve.go and the transport timeouts of
    internal/httpx, which are configuration of the runtime without state of
    its own ([Lifecycle] has the order and the deadlines of the shutdown); the
    text the server's /metrics endpoint writes, a parameter there
    ([Metrics.WritePrometheus] has it); how a browser builds a tree from the
    tags of a page and what it does with a carriage return; the indentation
    of [sesamo describe]; microsecond rounding of stored instants. *)

From stdpp Require Export base gmap strings list fin_maps relations.
From Stdlib Require Export ZArith Lia Ascii.
#[export] Set Default Goal Selector "!".
#[export] Set Warnings "-clear-no-such-hyp".
Open Scope Z_scope.
#[global] Arguments String.append !_ _ : simpl nomatch.

(** ** Record update: [r <| field := v |>]

    A record type gives its eta expansion once ([Eta]); the setter of any of
    its fields is then found by instance search. *)
Class Eta (R : Type) := eta : R → R.
Class Setter {R E : Type} (p : R → E) := set : (E → E) → R → R.
Arguments set {R E} p {_} f r.

Ltac solve_setter :=
  lazymatch goal with
  | |- @Setter ?R ?E ?p =>
      let inst := lazymatch constr:(@eta R _) with @eta _ ?i => i end in
      let f := fresh "f" in
      let r := fresh "r" in
      exact (fun (f : E → E) (r : R) => ltac:(
        let b := eval cbv beta delta [inst] in (inst r) in
        let b := eval pattern (p r) in b in
        lazymatch b with
        | ?g _ => let t := eval cbv beta in (g (f (p r))) in exact t
        end))
  end.
#[export] Hint Extern 1 (Setter _) => solve_setter : typeclass_instances.

Declare Scope sesamo_scope.
Open Scope sesamo_scope.
Notation "r <| p := v |>" := (set p (λ _, v) r)
  (at level 1, left associativity, p constr at level 1, v constr at level 99)
  : sesamo_scope.
Notation "r <| p ::= f |>" := (set p f r)
  (at level 1, left associativity, p constr at level 1, f constr at level 99)
  : sesamo_scope.

(** Unfold the setters and project. *)
Ltac rsimp := unfold set in *; cbn in *.

(** ** Results: a Go pair [(value, error)] with a nil or non-nil error. *)
Inductive res (E A : Type) : Type :=
| Ok (a : A)
| Err (e : E).
Arguments Ok {E A} a.
Arguments Err {E A} e.

Definition is_ok {E A} (r : res E A) : bool :=
  match r with Ok _ => true | Err _ => false end.

(** ** Case analysis helpers *)
Ltac destr_match :=
  match goal with
  | |- context [match ?x with _ => _ end] => destruct x eqn:?
  | H : context [match ?x with _ => _ end] |- _ => destruct x eqn:?
  end.

(** Turn boolean comparisons on [Z] into propositions everywhere. *)
Ltac zb :=
  repeat match goal with
  | H : (_ && _)%bool = true |- _ => apply andb_true_iff in H as [? ?]
  | H : (_ || _)%bool = false |- _ => apply orb_false_iff in H as [? ?]
  | H : negb _ = true |- _ => apply negb_true_iff in H
  | H : negb _ = false |- _ => apply negb_false_iff in H
  | H : (_ <? _) = true |- _ => apply Z.ltb_lt in H
  | H : (_ <? _) = false |- _ => apply Z.ltb_ge in H
  | H : (_ <=? _) = true |- _ => apply Z.leb_le in H
  | H : (_ <=? _) = false |- _ => apply Z.leb_gt in H
  | H : (_ =? _) = true |- _ => apply Z.eqb_eq in H
  | H : (_ =? _) = false |- _ => apply Z.eqb_neq in H
  | H : bool_decide _ = true |- _ => apply bool_decide_eq_true in H
  | H : bool_decide _ = false |- _ => apply bool_decide_eq_false in H
  end.

(** An invariant of a step relation holds of every reachable state. *)
Lemma rtc_invariant {A} (R : relation A) (P : A → Prop) x y :
  P x → (∀ a b, P a → R a b → P b) → rtc R x y → P y.
Proof. intros Hx HR. induction 1 as [|a b c Hab Hbc IH]; eauto. Qed.

Lemma last_default {A} (x : A) l d d' : List.last (x :: l) d = List.last (x :: l) d'.
Proof. revert x. induction l as [|y l IH]; intros x; [done|]. apply (IH y). Qed.

(** An index that occurs once determines its element. *)
Lemma NoDup_map_inj {A B} (f : A → B) (l : list A) x y :
  NoDup (map f l) → x ∈ l → y ∈ l → f x = f y → x = y.
Proof.
  induction l as [|z l IH]; simpl; [by intros _ ?%elem_of_nil|].
  intros [Hz Hn]%NoDup_cons [->|Hx]%elem_of_cons [->|Hy]%elem_of_cons E; [done| | |by apply IH].
  - destruct Hz. apply list_elem_of_fmap. by exists y.
  - destruct Hz. apply list_elem_of_fmap. by exists x.
Qed.

(** ** Durations: nanoseconds, as [time.Duration] *)
Definition Nanosecond : Z := 1.
Definition Millisecond : Z := 1000000.
Definition Second : Z := 1000000000.
Definition Minute : Z := 60 * Second.
Definition Hour : Z := 60 * Minute.
