(* ===== verification/GoLib.v ===== *)
(** * GoLib: the parts of Go's standard library the program calls on strings

    Models of [strings], [strconv] as [src/] uses them.  A Go string is a
    sequence of bytes: [string] (one [ascii] per byte). *)

From S2P Require Import Prelude.
From Stdlib Require Import DecimalString DecimalZ DecimalPos Decimal DecimalFacts.

Definition byte (n : nat) : ascii := ascii_of_nat n.
Definition dquote : string := String (byte 34) EmptyString.
Definition newline : string := String (byte 10) EmptyString.

Definition str_eqb (a b : string) : bool := bool_decide (a = b).

Definition ascii_ltb (a b : ascii) : bool := N.ltb (N_of_ascii a) (N_of_ascii b).
Definition ascii_leb (a b : ascii) : bool := N.leb (N_of_ascii a) (N_of_ascii b).

Fixpoint str_rev_app (s acc : string) : string :=
  match s with
  | EmptyString => acc
  | String c r => str_rev_app r (String c acc)
  end.
Definition str_rev (s : string) : string := str_rev_app s EmptyString.

(** ** White space: [unicode.IsSpace] on UTF-8 text.
    [space_prefix s] is the rest of [s] when [s] starts with a white-space
    rune; the multi-byte ones are U+0085, U+00A0, U+1680, U+2000..U+200A,
    U+2028, U+2029, U+202F, U+205F and U+3000. *)
Definition ascii_space (c : ascii) : bool :=
  let n := N_of_ascii c in
  (n =? 32)%N || ((9 <=? n)%N && (n <=? 13)%N).

Definition space2 (a b : ascii) : bool :=
  (N_of_ascii a =? 194)%N && ((N_of_ascii b =? 133)%N || (N_of_ascii b =? 160)%N).

Definition space3 (a b c : ascii) : bool :=
  let x := N_of_ascii a in let y := N_of_ascii b in let z := N_of_ascii c in
  ((x =? 225)%N && (y =? 154)%N && (z =? 128)%N)
  || ((x =? 226)%N && (y =? 128)%N &&
      (((128 <=? z)%N && (z <=? 138)%N) || (z =? 168)%N || (z =? 169)%N || (z =? 175)%N))
  || ((x =? 226)%N && (y =? 129)%N && (z =? 159)%N)
  || ((x =? 227)%N && (y =? 128)%N && (z =? 128)%N).

Fixpoint trim_left (s : string) : string :=
  match s with
  | String a r =>
      if ascii_space a then trim_left r else
      match r with
      | String b r1 =>
          if space2 a b then trim_left r1 else
          match r1 with
          | String c r2 => if space3 a b c then trim_left r2 else s
          | EmptyString => s
          end
      | EmptyString => s
      end
  | EmptyString => EmptyString
  end.

(** The same on a reversed string (a rune's bytes appear last byte first). *)
Fixpoint trim_left_rev (s : string) : string :=
  match s with
  | String a r =>
      if ascii_space a then trim_left_rev r else
      match r with
      | String b r1 =>
          if space2 b a then trim_left_rev r1 else
          match r1 with
          | String c r2 => if space3 c b a then trim_left_rev r2 else s
          | EmptyString => s
          end
      | EmptyString => s
      end
  | EmptyString => EmptyString
  end.

(** [strings.TrimSpace]. *)
Definition TrimSpace (s : string) : string :=
  str_rev (trim_left_rev (str_rev (trim_left s))).

(** [strings.Fields]: maximal runs of non-space runes. *)
Definition emit (cur : string) (rest : list string) : list string :=
  match cur with EmptyString => rest | _ => str_rev cur :: rest end.

Fixpoint fields_from (cur s : string) : list string :=
  match s with
  | String a r =>
      if ascii_space a then emit cur (fields_from EmptyString r) else
      match r with
      | String b r1 =>
          if space2 a b then emit cur (fields_from EmptyString r1) else
          match r1 with
          | String c r2 =>
              if space3 a b c then emit cur (fields_from EmptyString r2)
              else fields_from (String a cur) r
          | EmptyString => fields_from (String a cur) r
          end
      | EmptyString => fields_from (String a cur) r
      end
  | EmptyString => emit cur []
  end.
Definition Fields (s : string) : list string := fields_from EmptyString s.

(** ** Prefixes, cutting, splitting *)
Fixpoint HasPrefix (s p : string) {struct p} : bool :=
  match p, s with
  | EmptyString, _ => true
  | String a p', String b s' => Ascii.eqb a b && HasPrefix s' p'
  | String _ _, EmptyString => false
  end.

Fixpoint str_drop (n : nat) (s : string) : string :=
  match n, s with
  | S n', String _ r => str_drop n' r
  | _, _ => s
  end.
Fixpoint str_take (n : nat) (s : string) : string :=
  match n, s with
  | S n', String c r => String c (str_take n' r)
  | _, _ => EmptyString
  end.

Definition HasSuffix (s p : string) : bool := HasPrefix (str_rev s) (str_rev p).
Definition TrimPrefix (s p : string) : string :=
  if HasPrefix s p then str_drop (String.length p) s else s.

Fixpoint Contains (s sub : string) : bool :=
  HasPrefix s sub ||
  match s with EmptyString => false | String _ r => Contains r sub end.

(** [strings.Cut] for a one-byte separator. *)
Fixpoint Cut (s : string) (sep : ascii) : string * string * bool :=
  match s with
  | EmptyString => (EmptyString, EmptyString, false)
  | String c r =>
      if Ascii.eqb c sep then (EmptyString, r, true)
      else let '(b, a, ok) := Cut r sep in
           (if ok then String c b else s, a, ok)
  end.

(** [strings.Split] for a one-byte separator (never empty). *)
Fixpoint Split (s : string) (sep : ascii) : list string :=
  match s with
  | EmptyString => [EmptyString]
  | String c r =>
      if Ascii.eqb c sep then EmptyString :: Split r sep
      else match Split r sep with
           | h :: t => String c h :: t
           | [] => [String c EmptyString]
           end
  end.

Fixpoint Join (l : list string) (sep : string) : string :=
  match l with
  | [] => EmptyString
  | [x] => x
  | x :: r => x +:+ sep +:+ Join r sep
  end.

(** [strings.ReplaceAll] of one byte by another. *)
Fixpoint ReplaceByte (s : string) (old new : ascii) : string :=
  match s with
  | EmptyString => EmptyString
  | String c r => String (if Ascii.eqb c old then new else c) (ReplaceByte r old new)
  end.

(** ASCII case folding: [strings.EqualFold] for patterns none of whose
    letters has a non-ASCII case variant. *)
Definition lower_byte (c : ascii) : ascii :=
  let n := N_of_ascii c in
  if ((65 <=? n) && (n <=? 90))%N then ascii_of_N (n + 32) else c.
Fixpoint lower_ascii (s : string) : string :=
  match s with
  | EmptyString => EmptyString
  | String c r => String (lower_byte c) (lower_ascii r)
  end.
Definition EqualFold (a b : string) : bool := str_eqb (lower_ascii a) (lower_ascii b).

Definition is_ascii_byte (c : ascii) : bool := (N_of_ascii c <? 128)%N.
Fixpoint str_forallb (f : ascii → bool) (s : string) : bool :=
  match s with
  | EmptyString => true
  | String c r => f c && str_forallb f r
  end.

(** ** [strconv] *)
Definition max_int64 : Z := 9223372036854775807.
Definition min_int64 : Z := -9223372036854775808.
(** The 64-bit two's complement value of an integer. *)
Definition wrap64 (z : Z) : Z := (z + 9223372036854775808) mod 18446744073709551616 - 9223372036854775808.

Definition FormatInt (z : Z) : string := NilZero.string_of_int (Z.to_int z).
Definition Itoa := FormatInt.

Definition parse_uint_digits (s : string) : option Z :=
  match NilZero.uint_of_string s with
  | Some u => Some (Z.of_uint u)
  | None => None
  end.

(** [strconv.ParseInt(s, 10, 64)] / [strconv.Atoi]; [None] is an error. *)
Definition ParseInt (s : string) : option Z :=
  let v :=
    match s with
    | String c r =>
        if Ascii.eqb c (byte 45) then Z.opp <$> parse_uint_digits r
        else if Ascii.eqb c (byte 43) then parse_uint_digits r
        else parse_uint_digits s
    | EmptyString => None
    end in
  match v with
  | Some z => if (min_int64 <=? z) && (z <=? max_int64) then Some z else None
  | None => None
  end.
Definition Atoi := ParseInt.

(** [strconv.ParseBool]. *)
Definition ParseBool (s : string) : option bool :=
  if bool_decide (s ∈ ["1"; "t"; "T"; "TRUE"; "true"; "True"]) then Some true
  else if bool_decide (s ∈ ["0"; "f"; "F"; "FALSE"; "false"; "False"]) then Some false
  else None.

(** ** Facts shared by the components *)
Lemma str_eqb_true a b : str_eqb a b = true ↔ a = b.
Proof. unfold str_eqb. apply bool_decide_eq_true. Qed.
Lemma str_eqb_false a b : str_eqb a b = false ↔ a ≠ b.
Proof. unfold str_eqb. apply bool_decide_eq_false. Qed.
Lemma str_eqb_refl a : str_eqb a a = true.
Proof. by apply str_eqb_true. Qed.

Lemma str_app_assoc (a b c : string) : (a +:+ b) +:+ c = a +:+ b +:+ c.
Proof. induction a as [|x a IH]; cbn; [done|]. by rewrite IH. Qed.
Lemma str_app_nil (a : string) : a +:+ "" = a.
Proof. induction a as [|x a IH]; cbn; [done|]. by rewrite IH. Qed.
Lemma str_app_inj_l (a b c : string) : a +:+ b = a +:+ c → b = c.
Proof. induction a as [|x a IH]; cbn; [done|]. intros [=]. auto. Qed.
Lemma str_length_app (a b : string) :
  String.length (a +:+ b) = (String.length a + String.length b)%nat.
Proof. induction a as [|x a IH]; cbn; [done|]. by rewrite IH. Qed.

Lemma HasPrefix_spec s p : HasPrefix s p = true ↔ ∃ t, s = p +:+ t.
Proof.
  revert s. induction p as [|c p IH]; intros s; simpl.
  - split; [by intros _; exists s|done].
  - destruct s as [|b s]; [split; [done|by intros [t Ht]]|].
    rewrite andb_true_iff, Ascii.eqb_eq, IH. split.
    + intros [-> [t ->]]. by exists t.
    + intros [t [= -> ->]]. eauto.
Qed.
Lemma HasPrefix_app p t : HasPrefix (p +:+ t) p = true.
Proof. apply HasPrefix_spec. eauto. Qed.
Lemma str_drop_app p t : str_drop (String.length p) (p +:+ t) = t.
Proof. induction p as [|c p IH]; cbn; auto. Qed.

Lemma str_take_app a b : str_take (String.length a) (a +:+ b) = a.
Proof. induction a as [|c a IH]; cbn; [by destruct b|]. by rewrite IH. Qed.
Lemma str_take_length n s : (n ≤ String.length s)%nat → String.length (str_take n s) = n.
Proof. revert s. induction n as [|n IH]; intros [|c s]; simpl; intros Hn; [done..|lia|]. rewrite IH; lia. Qed.
Lemma str_take_drop n s : str_take n s +:+ str_drop n s = s.
Proof. revert s. induction n as [|n IH]; intros [|c s]; simpl; [done..|]. by rewrite IH. Qed.

Lemma str_forallb_app f a b : str_forallb f (a +:+ b) = str_forallb f a && str_forallb f b.
Proof. induction a as [|c a IH]; simpl; [done|]. by rewrite IH, andb_assoc. Qed.
Lemma str_forallb_impl (f g : ascii → bool) s :
  (∀ c, f c = true → g c = true) → str_forallb f s = true → str_forallb g s = true.
Proof.
  intros Hfg. induction s as [|c s IH]; simpl; [done|].
  rewrite !andb_true_iff. intros [? ?]. auto.
Qed.

Definition not_byte (sep c : ascii) : bool := negb (Ascii.eqb c sep).

(** A field without the separator splits off whole. *)
Lemma Split_app sep a b :
  str_forallb (not_byte sep) a = true → Split (a +:+ String sep b) sep = a :: Split b sep.
Proof.
  induction a as [|c a IH]; simpl; [by rewrite Ascii.eqb_refl|].
  intros [Hc Ha]%andb_true_iff. unfold not_byte in Hc. apply negb_true_iff in Hc.
  by rewrite Hc, IH.
Qed.
Lemma Split_last sep a : str_forallb (not_byte sep) a = true → Split a sep = [a].
Proof.
  induction a as [|c a IH]; simpl; [done|].
  intros [Hc Ha]%andb_true_iff. unfold not_byte in Hc. apply negb_true_iff in Hc.
  by rewrite Hc, IH.
Qed.
Lemma Cut_app sep a b :
  str_forallb (not_byte sep) a = true → Cut (a +:+ String sep b) sep = (a, b, true).
Proof.
  induction a as [|c a IH]; simpl; [by rewrite Ascii.eqb_refl|].
  intros [Hc Ha]%andb_true_iff. unfold not_byte in Hc. apply negb_true_iff in Hc.
  by rewrite Hc, IH.
Qed.

(** What holds of every byte holds of the two sides of a cut. *)
Lemma Cut_forallb f s sep b a ok :
  Cut s sep = (b, a, ok) → str_forallb f s = true → str_forallb f b = true ∧ str_forallb f a = true.
Proof.
  revert b a ok. induction s as [|c s IH]; intros b a ok; cbn [Cut str_forallb]; [by intros [= <- <- _]|].
  intros HC [Hc Hs]%andb_true_iff. destruct (Ascii.eqb c sep); [by injection HC as <- <- _|].
  destruct (Cut s sep) as [[b' a'] ok'] eqn:E. injection HC as <- <- ->. destruct (IH _ _ _ eq_refl Hs) as [Hb Ha].
  split; [|done]. destruct ok; cbn [str_forallb]; by rewrite Hc.
Qed.

(** Printing then parsing a machine integer. *)
Lemma uint_not_nil z : 0 ≤ z → ∃ u, Z.to_int z = Pos u ∧ u ≠ Nil.
Proof.
  intros Hz. destruct z as [|p|p]; [by exists (D0 Nil)| |lia].
  exists (Pos.to_uint p). split; [done|]. apply DecimalPos.Unsigned.to_uint_nonnil.
Qed.

Lemma parse_uint_FormatInt z : 0 ≤ z → parse_uint_digits (FormatInt z) = Some z.
Proof.
  intros Hz. destruct (uint_not_nil z Hz) as (u & Hu & Hn).
  unfold parse_uint_digits, FormatInt. rewrite Hu. simpl.
  rewrite NilZero.usu by done. f_equal.
  transitivity (Z.of_int (Z.to_int z)); [by rewrite Hu|apply DecimalZ.of_to].
Qed.

(** ** Graphic ASCII text has no white space to trim or split at *)
Definition is_graphic (c : ascii) : bool := let n := N_of_ascii c in ((33 <=? n) && (n <=? 126))%N.

Lemma graphic_not_space c : is_graphic c = true →
  ascii_space c = false ∧ (∀ b, space2 c b = false) ∧ (∀ b, space2 b c = false)
  ∧ (∀ x y, space3 c x y = false) ∧ (∀ x y, space3 x y c = false).
Proof.
  unfold is_graphic, ascii_space, space2, space3. intros [H1%N.leb_le H2%N.leb_le]%andb_true_iff.
  assert (E : ∀ k, (127 <= k)%N → (N_of_ascii c =? k)%N = false) by (intros k Hk; apply N.eqb_neq; lia).
  assert (G : ∀ k, (127 <= k)%N → (k <=? N_of_ascii c)%N = false) by (intros k Hk; apply N.leb_gt; lia).
  split_and!; intros; rewrite ?(E 194%N), ?(E 225%N), ?(E 226%N), ?(E 227%N), ?(E 133%N), ?(E 160%N),
    ?(E 128%N), ?(E 168%N), ?(E 169%N), ?(E 175%N), ?(E 159%N), ?(G 128%N) by lia;
    rewrite ?andb_false_r; try done.
  apply orb_false_iff. rewrite N.eqb_neq, andb_false_iff, !N.leb_gt. lia.
Qed.

Lemma trim_left_graphic c s : is_graphic c = true → trim_left (String c s) = String c s.
Proof.
  intros (H1 & H2 & _ & H3 & _)%graphic_not_space. cbn [trim_left]. rewrite H1.
  destruct s as [|b [|d s]]; [done|by rewrite H2|by rewrite H2, H3].
Qed.
Lemma trim_left_rev_graphic c s : is_graphic c = true → trim_left_rev (String c s) = String c s.
Proof.
  intros (H1 & _ & H2 & _ & H3)%graphic_not_space. cbn [trim_left_rev]. rewrite H1.
  destruct s as [|b [|d s]]; [done|by rewrite H2|by rewrite H2, H3].
Qed.

Lemma str_rev_app_spec s acc : str_rev_app s acc = str_rev_app s "" +:+ acc.
Proof.
  revert acc. induction s as [|c s IH]; intros acc; [done|]. cbn [str_rev_app].
  rewrite IH, (IH (String c "")), str_app_assoc. done.
Qed.
Lemma str_rev_cons c s : str_rev (String c s) = str_rev s +:+ String c "".
Proof. unfold str_rev. cbn [str_rev_app]. apply str_rev_app_spec. Qed.
Lemma str_rev_append a b : str_rev (a +:+ b) = str_rev b +:+ str_rev a.
Proof.
  induction a as [|c a IH]; [by rewrite str_app_nil|].
  cbn [String.append]. by rewrite !str_rev_cons, IH, str_app_assoc.
Qed.
Lemma str_rev_involutive s : str_rev (str_rev s) = s.
Proof. induction s as [|c s IH]; [done|]. by rewrite str_rev_cons, str_rev_append, IH. Qed.
Lemma str_forallb_rev f s : str_forallb f (str_rev s) = str_forallb f s.
Proof.
  induction s as [|c s IH]; [done|]. rewrite str_rev_cons, str_forallb_app, IH. cbn [str_forallb].
  by rewrite andb_true_r, andb_comm.
Qed.

Lemma TrimSpace_graphic s : str_forallb is_graphic s = true → TrimSpace s = s.
Proof.
  unfold TrimSpace. destruct s as [|c s]; [done|]. intros Hs.
  pose proof Hs as [Hc _]%andb_true_iff. rewrite trim_left_graphic by done.
  rewrite <-str_forallb_rev in Hs. destruct (str_rev (String c s)) as [|d t] eqn:E.
  - by rewrite <-(str_rev_involutive (String c s)), E.
  - apply andb_true_iff in Hs as [Hd _]. rewrite trim_left_rev_graphic by done.
    by rewrite <-E, str_rev_involutive.
Qed.

Lemma fields_from_graphic cur s :
  str_forallb is_graphic s = true → fields_from cur s = emit (str_rev s +:+ cur) [].
Proof.
  revert cur. induction s as [|c s IH]; intros cur; [done|].
  intros [Hc Hs]%andb_true_iff. pose proof (graphic_not_space c Hc) as (H1 & H2 & _ & H3 & _).
  assert (fields_from cur (String c s) = fields_from (String c cur) s) as ->.
  { cbn [fields_from]. rewrite H1. destruct s as [|b [|d s]]; [done|by rewrite H2|by rewrite H2, H3]. }
  rewrite IH by done. by rewrite str_rev_cons, str_app_assoc.
Qed.
Lemma Fields_graphic s : str_forallb is_graphic s = true → s ≠ "" → Fields s = [s].
Proof.
  intros Hs Hne. unfold Fields. rewrite fields_from_graphic, str_app_nil by done. unfold emit.
  destruct (str_rev s) as [|c t] eqn:E.
  - by rewrite <-(str_rev_involutive s), E in Hne.
  - by rewrite <-E, str_rev_involutive.
Qed.

(** ** Decimal numbers print as digits *)
Lemma string_of_uint_digits u : str_forallb is_graphic (NilEmpty.string_of_uint u) = true.
Proof. induction u; [done|..]; cbn; by rewrite IHu. Qed.

Lemma decimal_graphic z : 0 ≤ z → str_forallb is_graphic (FormatInt z) = true ∧ FormatInt z ≠ "".
Proof.
  intros Hz. unfold FormatInt. destruct (uint_not_nil z Hz) as (u & -> & Hu).
  cbn [NilZero.string_of_int]. destruct u; [done|..]; cbn [NilZero.string_of_uint];
    (split; [apply string_of_uint_digits|done]).
Qed.

Lemma ParseInt_FormatInt z : 0 ≤ z → z ≤ max_int64 → ParseInt (FormatInt z) = Some z.
Proof.
  intros Hz Hmax. unfold ParseInt. pose proof (parse_uint_FormatInt z Hz) as HP. revert HP.
  unfold FormatInt. destruct (uint_not_nil z Hz) as (u & -> & Hu). cbn [NilZero.string_of_int].
  assert ((min_int64 <=? z) && (z <=? max_int64) = true) as Hr.
  { apply andb_true_iff. rewrite !Z.leb_le. unfold min_int64. lia. }
  destruct u; [done|..]; cbn [NilZero.string_of_uint NilEmpty.string_of_uint];
    intros HP; change (Ascii.eqb _ (byte 45)) with false; change (Ascii.eqb _ (byte 43)) with false;
    by rewrite HP, Hr.
Qed.
