(* ===== verification/GoSort.v ===== *)
(** * GoSort: sorting strings

    [slices.Sort] and [sort.Strings] on strings, whose order is that of their
    bytes: a total order, so that the result does not depend on the order the
    strings came in. *)

From stdpp Require Import sorting.
From S2P Require Import Prelude GoLib.

(** ** [slices.Sort] of strings: bytewise *)
Definition str_le (a b : string) : Prop := String.leb a b = true.
#[export] Instance str_le_dec : RelDecision str_le.
Proof. intros a b. unfold str_le. apply _. Defined.
#[export] Instance str_le_total : Total str_le.
Proof.
  intros a b. unfold str_le, String.leb. rewrite (String.compare_antisym a b).
  destruct (String.compare b a); auto.
Qed.
#[export] Instance str_le_antisymm : AntiSymm (=) str_le.
Proof.
  intros a b. unfold str_le, String.leb. rewrite (String.compare_antisym a b).
  destruct (String.compare b a) eqn:E; [|done|done]. intros _ _. symmetry. by apply String.compare_eq_iff.
Qed.
Lemma compare_ascii_N a b : Ascii.compare a b = (N_of_ascii a ?= N_of_ascii b)%N.
Proof. reflexivity. Qed.
#[export] Instance str_le_trans : Transitive str_le.
Proof.
  unfold str_le, String.leb. intros a. induction a as [|x a IH]; intros [|y b] [|z c]; cbn; try done.
  unfold Ascii.compare.
  destruct (N_of_ascii x ?= N_of_ascii y)%N eqn:E1; [| |done];
    destruct (N_of_ascii y ?= N_of_ascii z)%N eqn:E2; try done; intros H1 H2.
  - apply N.compare_eq_iff in E1, E2. rewrite E1, E2, N.compare_refl. by apply (IH b).
  - apply N.compare_eq_iff in E1. by rewrite E1, E2.
  - apply N.compare_eq_iff in E2. by rewrite <-E2, E1.
  - apply N.compare_lt_iff in E1, E2. rewrite (proj2 (N.compare_lt_iff _ _)) by (by eapply N.lt_trans). done.
Qed.
Definition slices_Sort (l : list string) : list string := merge_sort str_le l.

(** Sorting forgets the order in which the strings came. *)
Lemma slices_Sort_permutation l l' : l ≡ₚ l' → slices_Sort l = slices_Sort l'.
Proof.
  intros Hl. unfold slices_Sort. apply (Sorted_unique str_le); [by apply (Sorted_merge_sort str_le)..|].
  by rewrite !merge_sort_Permutation.
Qed.
Lemma slices_Sort_Permutation l : slices_Sort l ≡ₚ l.
Proof. apply merge_sort_Permutation. Qed.
Lemma slices_Sort_sorted l : Sorted str_le (slices_Sort l).
Proof. apply (Sorted_merge_sort str_le). Qed.
