(* ===== verification/Metrics.v ===== *)
(** * Metrics: src/internal/metrics/metrics.go

    The registry that all handlers and the worker share.  Each of its three
    tables finds or creates a cell under a read-write lock, twice checked,
    and then updates the cell: the steps of concurrent calls interleave.  The
    exposition is the text of /metrics.  A float64 is a rational; how %g
    prints one is a parameter. *)

From Stdlib Require Import QArith.
Close Scope Q_scope.
Open Scope Z_scope.
From S2P Require Import Prelude GoLib GoSort.

(** ** A table under concurrent calls *)
Section table.
Context {C U : Type} (new : C) (update : U → C → C).

(** The map from names to cells, and the cells. *)
Record shared := MkShared { names : gmap string nat; cells : list C }.
(** A call: before the lookup under the read lock, before the one under the
    write lock, before the update, or over. *)
Inductive call :=
| Looking (n : string) (u : U)
| Missing (n : string) (u : U)
| Holding (l : nat) (n : string) (u : U)
| Finished (n : string) (u : U).
Record conf := MkConf { calls : list call; table : shared; history : list (string * U) }.

(** The section under the write lock: look again, then create. *)
Definition find_or_create (n : string) (s : shared) : nat * shared :=
  match names s !! n with
  | Some l => (l, s)
  | None => (length (cells s), MkShared (<[n := length (cells s)]> (names s)) (cells s ++ [new]))
  end.
Definition advance (i : nat) (c : conf) : option conf :=
  match calls c !! i with
  | Some (Looking n u) =>
      Some (MkConf (<[i := match names (table c) !! n with Some l => Holding l n u | None => Missing n u end]> (calls c))
              (table c) (history c))
  | Some (Missing n u) =>
      let '(l, s) := find_or_create n (table c) in
      Some (MkConf (<[i := Holding l n u]> (calls c)) s (history c))
  | Some (Holding l n u) =>
      Some (MkConf (<[i := Finished n u]> (calls c))
              (MkShared (names (table c)) (alter (update u) l (cells (table c)))) (history c ++ [(n, u)]))
  | _ => None
  end.
Inductive step : conf → conf → Prop :=
| step_call n u c : step c (MkConf (calls c ++ [Looking n u]) (table c) (history c))
| step_advance i c c' : advance i c = Some c' → step c c'.
Definition started : conf := MkConf [] (MkShared ∅ []) [].

(** What a reader sees under a name, and what the updates of a history,
    applied one after the other, make of it. *)
Definition value (s : shared) (n : string) : C :=
  default new (l ← names s !! n; cells s !! l).
Definition replay (h : list (string * U)) (n : string) : C :=
  foldl (λ c nu, if str_eqb (fst nu) n then update (snd nu) c else c) new h.
Definition finished (cs : list call) : list (string * U) :=
  omap (λ c, match c with Finished n u => Some (n, u) | _ => None end) cs.

(** *** The invariant *)
Record table_ok (s : shared) : Prop := {
  ok_bound : ∀ n l, names s !! n = Some l → (l < length (cells s))%nat;
  ok_inj : ∀ n n' l, names s !! n = Some l → names s !! n' = Some l → n = n'
}.
Record conf_ok (c : conf) : Prop := {
  ok_table : table_ok (table c);
  ok_holding : ∀ l n u, Holding l n u ∈ calls c → names (table c) !! n = Some l;
  ok_value : ∀ n, value (table c) n = replay (history c) n;
  ok_finished : finished (calls c) ≡ₚ history c
}.

Lemma replay_snoc h n u n' :
  replay (h ++ [(n, u)]) n' = if str_eqb n n' then update u (replay h n') else replay h n'.
Proof. unfold replay. by rewrite foldl_app. Qed.

(** Replacing the unfinished call at [i]. *)
Lemma elem_of_replaced (cs : list call) (i : nat) x y z : cs !! i = Some x → z ∈ <[i := y]> cs → z = y ∨ z ∈ cs.
Proof.
  intros Hx [j Hj]%list_elem_of_lookup. destruct (decide (j = i)) as [->|Hne].
  - rewrite list_lookup_insert_eq in Hj by (by eapply lookup_lt_Some). injection Hj as <-. by left.
  - rewrite list_lookup_insert_ne in Hj by done. right. by eapply list_elem_of_lookup_2.
Qed.
Lemma finished_insert (cs : list call) (i : nat) x y :
  cs !! i = Some x → (∀ n u, x ≠ Finished n u) →
  finished (<[i := y]> cs) ≡ₚ match y with Finished n u => (n, u) :: finished cs | _ => finished cs end.
Proof.
  intros Hx Hn. unfold finished. rewrite insert_take_drop by (by eapply lookup_lt_Some).
  pose proof (take_drop_middle cs i x Hx) as Hc. set (a := take i cs) in *. set (b := drop (S i) cs) in *.
  clearbody a b. subst cs. clear Hx.
  assert (Hskip : ∀ l, omap (λ c, match c with Finished n u => Some (n, u) | _ => None end) (x :: l)
    = omap (λ c, match c with Finished n u => Some (n, u) | _ => None end) l).
  { intros l. destruct x as [| | |n u]; try done. by destruct (Hn n u). }
  rewrite !omap_app, Hskip. destruct y; cbn; try done. by rewrite Permutation_middle.
Qed.

Lemma find_or_create_ok n s l s' :
  table_ok s → find_or_create n s = (l, s') →
  table_ok s' ∧ names s' !! n = Some l ∧ (∀ n', value s' n' = value s n')
  ∧ (∀ n' l', names s !! n' = Some l' → names s' !! n' = Some l').
Proof.
  intros [Hb Hi]. unfold find_or_create. destruct (names s !! n) as [l0|] eqn:En; intros [= <- <-]; [done|].
  split_and!.
  - split; cbn.
    + intros n' l' [[<- <-]|[_ H']]%lookup_insert_Some; rewrite length_app; cbn; [lia|]. apply Hb in H'. lia.
    + intros n1 n2 l' [[<- <-]|[H1 H1']]%lookup_insert_Some [[<- ?]|[H2 H2']]%lookup_insert_Some; [done| | |].
      * apply Hb in H2'. lia.
      * apply Hb in H1'. lia.
      * by eapply Hi.
  - cbn. by rewrite lookup_insert_eq.
  - intros n'. unfold value. cbn. destruct (decide (n' = n)) as [->|Hne].
    + rewrite lookup_insert_eq, En. cbn. by rewrite lookup_app_r, Nat.sub_diag by lia.
    + rewrite lookup_insert_ne by done. destruct (names s !! n') as [l'|] eqn:E'; [|done]. cbn.
      rewrite lookup_app_l; [done|by eapply Hb].
  - intros n' l' H'. cbn. rewrite lookup_insert_ne; [done|]. intros ->. by rewrite En in H'.
Qed.

Lemma step_ok c c' : conf_ok c → step c c' → conf_ok c'.
Proof.
  intros [Ht Hh Hv Hf] Hs. destruct Hs as [n u c|i c c' Ha].
  - split; cbn; [done| |done|].
    + intros l n' u' [Hin|Hin]%elem_of_app; [by eapply Hh|]. by apply list_elem_of_singleton in Hin.
    + unfold finished in *. rewrite omap_app. cbn. by rewrite app_nil_r.
  - unfold advance in Ha. destruct (calls c !! i) as [[n u|n u|l n u|n u]|] eqn:Ei; [..|done|done].
    + injection Ha as <-. split; cbn; [done| |done|].
      * intros l n' u' Hin. destruct (elem_of_replaced _ _ _ _ _ Ei Hin) as [E|Hin']; [|by eapply Hh].
        destruct (names (table c) !! n) as [l0|] eqn:En; [|done]. by injection E as -> -> ->.
      * rewrite (finished_insert _ _ _ _ Ei) by done. by destruct (names (table c) !! n).
    + destruct (find_or_create n (table c)) as [l s] eqn:EF. injection Ha as <-.
      destruct (find_or_create_ok _ _ _ _ Ht EF) as (Ht' & Hn & Hv' & Hmono). split; cbn; [done| | |].
      * intros l' n' u' Hin. destruct (elem_of_replaced _ _ _ _ _ Ei Hin) as [[= -> -> ->]|Hin']; [done|].
        by eapply Hmono, Hh.
      * intros n'. by rewrite Hv', Hv.
      * by rewrite (finished_insert _ _ _ _ Ei) by done.
    + injection Ha as <-. assert (Hl : names (table c) !! n = Some l) by (eapply Hh; by eapply list_elem_of_lookup_2).
      split; cbn [table calls history names cells].
      * destruct Ht as [Hb Hi]. split; cbn; [|done]. intros n' l' H'. rewrite length_alter. by eapply Hb.
      * intros l' n' u' Hin. destruct (elem_of_replaced _ _ _ _ _ Ei Hin) as [?|Hin']; [done|by eapply Hh].
      * intros n'. rewrite replay_snoc, <-Hv. unfold value. cbn [names cells]. destruct (str_eqb n n') eqn:En.
        -- apply str_eqb_true in En as <-. rewrite Hl. cbn. rewrite list_lookup_alter_eq.
           destruct (lookup_lt_is_Some_2 (cells (table c)) l) as [x ->]; [by eapply ok_bound|done].
        -- apply str_eqb_false in En. destruct (names (table c) !! n') as [l'|] eqn:El'; [|done]. cbn.
           rewrite list_lookup_alter_ne; [done|]. intros ->. apply En. by eapply (ok_inj _ Ht).
      * rewrite (finished_insert _ _ _ _ Ei) by done. by rewrite Hf, Permutation_app_comm.
Qed.

(** C30. No update of a metric is lost or counted twice: whatever the
    interleaving of concurrent calls, including several that race to create
    the same metric, every metric has the value that the updates of the calls
    that are over give it when they are applied one after the other, each
    exactly once. *)
Theorem updates_linearizable c :
  rtc step started c →
  finished (calls c) ≡ₚ history c ∧ ∀ n, value (table c) n = replay (history c) n.
Proof.
  intros Hr. assert (Hok : conf_ok c).
  { apply (rtc_invariant step conf_ok started); [|apply step_ok|done].
    split; cbn; [|by intros l n u ?%elem_of_nil|done|done].
    split; cbn; [by intros n l|by intros n n' l]. }
  destruct Hok. done.
Qed.
End table.

(** ** Counters, gauges and histograms *)
Definition counter_add (_ : unit) (z : Z) : Z := wrap64 (z + 1).
Definition gauge_store (v : Q) (_ : Q) : Q := v.

Record histogram := MkHistogram { buckets : list Q; counts : list Z; h_sum : Q; h_total : Z }.
Definition histogram_bounds : list Q :=
  [1 # 1000; 25 # 10000; 5 # 1000; 1 # 100; 25 # 1000; 5 # 100; 1 # 10; 25 # 100; 5 # 10; 1 # 1]%Q.
Definition newHistogram : histogram := MkHistogram histogram_bounds (replicate 11 0) 0 0.
(** The first bucket whose bound is not below the value; past the last one
    when there is none. *)
Fixpoint bucket_of (bounds : list Q) (v : Q) : nat :=
  match bounds with
  | [] => O
  | b :: bounds => if Qle_bool v b then O else S (bucket_of bounds v)
  end.
Definition wrapu64 (z : Z) : Z := z mod 2 ^ 64.
Definition bump (z : Z) : Z := wrapu64 (z + 1).
Definition observe (v : Q) (h : histogram) : histogram :=
  MkHistogram (buckets h) (alter bump (bucket_of (buckets h) v) (counts h))
    (h_sum h + v)%Q (bump (h_total h)).

(** ** The exposition *)
Record Registry := MkRegistry {
  counters : gmap string Z; gauges : gmap string Q; histograms : gmap string histogram
}.
Fixpoint running (acc : Z) (l : list Z) : list Z :=
  match l with [] => [] | c :: l => wrapu64 (acc + c) :: running (wrapu64 (acc + c)) l end.

Section exposition.
Context (format_g : Q → string).    (* %g *)

Definition sorted_entries {A} (m : gmap string A) : list (string * A) :=
  omap (λ n, pair n <$> m !! n) (slices_Sort (map fst (map_to_list m))).
Definition type_line (n kind : string) : string := "# TYPE " +:+ n +:+ " " +:+ kind +:+ newline.
Definition counter_text (e : string * Z) : string :=
  type_line (fst e) "counter" +:+ fst e +:+ " " +:+ FormatInt (snd e) +:+ newline.
Definition gauge_text (e : string * Q) : string :=
  type_line (fst e) "gauge" +:+ fst e +:+ " " +:+ format_g (snd e) +:+ newline.
Definition bucket_line (n le : string) (cumulative : Z) : string :=
  n +:+ "_bucket{le=" +:+ dquote +:+ le +:+ dquote +:+ "} " +:+ FormatInt cumulative +:+ newline.
Definition histogram_text (e : string * histogram) : string :=
  let '(n, h) := e in
  type_line n "histogram"
  +:+ Join (zip_with (λ le c, bucket_line n le c) (map format_g (buckets h) ++ ["+Inf"]) (running 0 (counts h))) ""
  +:+ n +:+ "_sum " +:+ format_g (h_sum h) +:+ newline
  +:+ n +:+ "_count " +:+ FormatInt (h_total h) +:+ newline.
Definition WritePrometheus (r : Registry) : string :=
  Join (map counter_text (sorted_entries (counters r))) ""
  +:+ Join (map gauge_text (sorted_entries (gauges r))) ""
  +:+ Join (map histogram_text (sorted_entries (histograms r))) "".
End exposition.

(** ** What a histogram says *)
Definition observed (vs : list Q) : histogram := foldl (λ h v, observe v h) newHistogram vs.
(** How many of the values are at most a bound. *)
Definition at_most (b : Q) (vs : list Q) : Z := Z.of_nat (length (List.filter (λ v, Qle_bool v b) vs)).

Definition sorted_bounds (l : list Q) : Prop := ∀ i j a b, (i ≤ j)%nat → l !! i = Some a → l !! j = Some b → (a <= b)%Q.
Lemma bucket_of_spec l v i b :
  sorted_bounds l → l !! i = Some b → Qle_bool v b = (bucket_of l v <=? i)%nat.
Proof.
  revert i. induction l as [|b0 l IH]; intros i Hs Hb; [done|]. cbn [bucket_of].
  destruct (Qle_bool v b0) eqn:E.
  - apply Qle_bool_iff in E. cbn. apply Qle_bool_iff. apply Qle_trans with b0; [done|].
    apply (Hs 0%nat i); [lia|done|done].
  - destruct i as [|i]; cbn in Hb |- *; [by injection Hb as <-|]. apply IH; [|done].
    intros j k x y Hjk Hx Hy. apply (Hs (S j) (S k)); [lia|done|done].
Qed.
Lemma bucket_of_bound l v : (bucket_of l v ≤ length l)%nat.
Proof. induction l as [|b l IH]; cbn; [done|]. destruct (Qle_bool v b); lia. Qed.
Lemma histogram_bounds_sorted : sorted_bounds histogram_bounds.
Proof.
  intros i j a b Hij Ha Hb.
  do 10 (destruct i as [|i]; [do 10 (destruct j as [|j]; [cbn in Ha, Hb; injection Ha as <-; injection Hb as <-;
    first [lia | by apply Qle_bool_iff]|]); done|]). done.
Qed.

Lemma wrapu64_add_l a b : wrapu64 (wrapu64 a + b) = wrapu64 (a + b).
Proof. apply Zplus_mod_idemp_l. Qed.
Lemma wrapu64_add_r a b : wrapu64 (a + wrapu64 b) = wrapu64 (a + b).
Proof. apply Zplus_mod_idemp_r. Qed.
Lemma running_bump acc l i : running (bump acc) l !! i = bump <$> running acc l !! i.
Proof.
  revert acc i. induction l as [|c l IH]; intros acc i; [done|]. cbn [running].
  replace (wrapu64 (bump acc + c)) with (bump (wrapu64 (acc + c))).
  - destruct i as [|i]; [done|]. apply IH.
  - unfold bump. rewrite !wrapu64_add_l. f_equal. lia.
Qed.
Lemma running_alter acc l k i :
  running acc (alter bump k l) !! i = (if (k <=? i)%nat then bump else id) <$> running acc l !! i.
Proof.
  revert acc k i. induction l as [|c l IH]; intros acc k i.
  - replace (alter bump k []) with (@nil Z) by done. done.
  - destruct k as [|k].
    + change (alter bump 0%nat (c :: l)) with (bump c :: l). cbn [running].
      replace (wrapu64 (acc + bump c)) with (bump (wrapu64 (acc + c))).
      * destruct i as [|i]; [done|]. apply running_bump.
      * unfold bump. rewrite wrapu64_add_l, wrapu64_add_r. f_equal. lia.
    + change (alter bump (S k) (c :: l)) with (c :: alter bump k l). cbn [running].
      destruct i as [|i]; [done|]. apply IH.
Qed.

Lemma observed_snoc vs v : observed (vs ++ [v]) = observe v (observed vs).
Proof. unfold observed. by rewrite foldl_app. Qed.
Lemma observed_buckets vs : buckets (observed vs) = histogram_bounds.
Proof. induction vs as [|v vs IH] using rev_ind; [done|]. by rewrite observed_snoc. Qed.
Lemma at_most_snoc b vs v : at_most b (vs ++ [v]) = at_most b vs + (if Qle_bool v b then 1 else 0).
Proof.
  unfold at_most. rewrite List.filter_app, length_app. cbn. destruct (Qle_bool v b); cbn; lia.
Qed.
Definition exposed (vs : list Q) : list Z :=
  map (λ b, wrapu64 (at_most b vs)) histogram_bounds ++ [wrapu64 (Z.of_nat (length vs))].
Lemma exposed_snoc vs v i :
  exposed (vs ++ [v]) !! i
  = (if (bucket_of histogram_bounds v <=? i)%nat then bump else id) <$> exposed vs !! i.
Proof.
  unfold exposed. destruct (decide (i < length histogram_bounds)%nat) as [Hi|Hi].
  - rewrite !lookup_app_l by (by rewrite length_map). rewrite !list_lookup_fmap.
    destruct (lookup_lt_is_Some_2 histogram_bounds i Hi) as [b Hb].
    rewrite <-(bucket_of_spec _ v _ _ histogram_bounds_sorted Hb), Hb. cbn [fmap option_fmap option_map].
    rewrite at_most_snoc.
    destruct (Qle_bool v b); [unfold bump; by rewrite wrapu64_add_l|by rewrite Z.add_0_r].
  - rewrite !lookup_app_r by (rewrite length_map; lia). rewrite !length_map.
    destruct (i - length histogram_bounds)%nat as [|k] eqn:Ek; [|done].
    pose proof (bucket_of_bound histogram_bounds v) as Hk. rewrite (proj2 (Nat.leb_le _ i)) by lia.
    unfold bump. cbn [fmap option_fmap option_map lookup list_lookup].
    rewrite wrapu64_add_l, length_app, Nat2Z.inj_add. done.
Qed.

(** The exposed histogram is the empirical distribution: after any
    observations, the cumulative count printed for a bound is the number of
    observed values at most that bound, and the +Inf bucket and _count are
    both the number of observations (all modulo 2^64). *)
Theorem histogram_exposes_distribution vs :
  running 0 (counts (observed vs)) = exposed vs
  ∧ h_total (observed vs) = wrapu64 (Z.of_nat (length vs)).
Proof.
  induction vs as [|v vs [IHc IHt]] using rev_ind; [done|]. rewrite observed_snoc. split.
  - apply list_eq. intros i. cbn [counts observe]. rewrite observed_buckets, running_alter, exposed_snoc.
    by rewrite IHc.
  - cbn [h_total observe]. rewrite IHt. unfold bump. by rewrite wrapu64_add_l, length_app, Nat2Z.inj_add.
Qed.

(** Two requests race to create the counter; both are counted. *)
Definition toy_race : conf (C:=Z) (U:=unit) :=
  let run c i := default c (advance 0 counter_add i c) in
  foldl run (MkConf [Looking "requests" tt; Looking "requests" tt] (MkShared ∅ []) []) [0; 1; 1; 0; 1; 0]%nat.
Lemma toy_race_reachable : rtc (step 0 counter_add) started toy_race.
Proof.
  do 2 (eapply rtc_l; [apply (step_call _ _ "requests" tt)|]).
  eapply rtc_l; [by apply (step_advance _ _ 0)|]. eapply rtc_l; [by apply (step_advance _ _ 1)|].
  eapply rtc_l; [by apply (step_advance _ _ 1)|]. eapply rtc_l; [by apply (step_advance _ _ 0)|].
  eapply rtc_l; [by apply (step_advance _ _ 1)|]. eapply rtc_l; [by apply (step_advance _ _ 0)|].
  reflexivity.
Qed.
Lemma updates_linearizable_witness : value 0 (table toy_race) "requests" = 2.
Proof.
  destruct (updates_linearizable 0 counter_add toy_race toy_race_reachable) as [_ Hv].
  rewrite (Hv "requests"). reflexivity.
Defined.
