(* ===== verification/GoHash.v ===== *)
(** * GoHash: the byte codecs and digests of Go's standard library

    [encoding/base64] (the four alphabets and paddings [src/] uses),
    [encoding/hex], [crypto/sha256] and [crypto/hmac], executable, with the
    published test vectors, and the round trip of base64. *)

From S2P Require Import Prelude GoLib.

(** ** base64 *)
Definition sextet : Type := bool * bool * bool * bool * bool * bool.

Definition sextet_N (x : sextet) : N :=
  let '(a, b, c, d, e, f) := x in
  let bit (v : bool) (w : N) := if v then w else 0%N in
  (bit a 32 + bit b 16 + bit c 8 + bit d 4 + bit e 2 + bit f 1)%N.

Definition N_sextet (n : N) : sextet :=
  (N.testbit n 5, N.testbit n 4, N.testbit n 3, N.testbit n 2, N.testbit n 1, N.testbit n 0).

(** An encoding: the URL-safe alphabet or the standard one, padded or raw. *)
Record encoding := { enc_url : bool; enc_pad : bool }.
Definition StdEncoding := {| enc_url := false; enc_pad := true |}.
Definition RawStdEncoding := {| enc_url := false; enc_pad := false |}.
Definition URLEncoding := {| enc_url := true; enc_pad := true |}.
Definition RawURLEncoding := {| enc_url := true; enc_pad := false |}.

Definition b64_char (url : bool) (x : sextet) : ascii :=
  let n := sextet_N x in
  ascii_of_N
    (if n <? 26 then 65 + n
     else if n <? 52 then 71 + n
     else if n <? 62 then n - 4
     else if n =? 62 then (if url then 45 else 43)
     else (if url then 95 else 47))%N.

Definition b64_value (url : bool) (c : ascii) : option sextet :=
  let n := N_of_ascii c in
  (if (65 <=? n) && (n <=? 90) then Some (N_sextet (n - 65))
   else if (97 <=? n) && (n <=? 122) then Some (N_sextet (n - 71))
   else if (48 <=? n) && (n <=? 57) then Some (N_sextet (n + 4))
   else if n =? (if url then 45 else 43) then Some (N_sextet 62)
   else if n =? (if url then 95 else 47) then Some (N_sextet 63)
   else None)%N.

(** A byte [Ascii b0 .. b7] has [b7] as its high bit. *)
Definition split3 (x y z : ascii) : sextet * sextet * sextet * sextet :=
  let 'Ascii x0 x1 x2 x3 x4 x5 x6 x7 := x in
  let 'Ascii y0 y1 y2 y3 y4 y5 y6 y7 := y in
  let 'Ascii z0 z1 z2 z3 z4 z5 z6 z7 := z in
  ((x7, x6, x5, x4, x3, x2), (x1, x0, y7, y6, y5, y4),
   (y3, y2, y1, y0, z7, z6), (z5, z4, z3, z2, z1, z0)).

Definition join4 (p q r s : sextet) : ascii * ascii * ascii :=
  let '(x7, x6, x5, x4, x3, x2) := p in
  let '(x1, x0, y7, y6, y5, y4) := q in
  let '(y3, y2, y1, y0, z7, z6) := r in
  let '(z5, z4, z3, z2, z1, z0) := s in
  (Ascii x0 x1 x2 x3 x4 x5 x6 x7, Ascii y0 y1 y2 y3 y4 y5 y6 y7,
   Ascii z0 z1 z2 z3 z4 z5 z6 z7).

Definition pad_char : ascii := byte 61.
Definition zero_byte : ascii := Ascii false false false false false false false false.

(** [enc.EncodeToString]. *)
Fixpoint b64_encode (e : encoding) (s : string) : string :=
  let ch := b64_char (enc_url e) in
  match s with
  | String x (String y (String z r)) =>
      let '(p, q, u, v) := split3 x y z in
      String (ch p) (String (ch q) (String (ch u) (String (ch v) (b64_encode e r))))
  | String x (String y EmptyString) =>
      let '(p, q, u, _) := split3 x y zero_byte in
      String (ch p) (String (ch q) (String (ch u)
        (if enc_pad e then String pad_char EmptyString else EmptyString)))
  | String x EmptyString =>
      let '(p, q, _, _) := split3 x zero_byte zero_byte in
      String (ch p) (String (ch q)
        (if enc_pad e then String pad_char (String pad_char EmptyString) else EmptyString))
  | EmptyString => EmptyString
  end.

(** The decoder skips carriage returns and newlines. *)
Fixpoint strip_crlf (s : string) : string :=
  match s with
  | EmptyString => EmptyString
  | String c r =>
      if Ascii.eqb c (byte 10) || Ascii.eqb c (byte 13) then strip_crlf r
      else String c (strip_crlf r)
  end.

(** [enc.DecodeString] on the stripped input; [None] is a
    [CorruptInputError].  Trailing bits of the last quantum are not checked
    (the encodings are not strict). *)
Fixpoint b64_quanta (e : encoding) (s : string) : option string :=
  let val := b64_value (enc_url e) in
  match s with
  | EmptyString => Some EmptyString
  | String a (String b (String c (String d r))) =>
      match val a, val b, val c, val d with
      | Some p, Some q, Some u, Some v =>
          let '(x, y, z) := join4 p q u v in
          (λ t, String x (String y (String z t))) <$> b64_quanta e r
      | Some p, Some q, Some u, None =>
          if enc_pad e && Ascii.eqb d pad_char && str_eqb r EmptyString then
            let '(x, y, _) := join4 p q u (N_sextet 0) in
            Some (String x (String y EmptyString))
          else None
      | Some p, Some q, None, _ =>
          if enc_pad e && Ascii.eqb c pad_char && Ascii.eqb d pad_char
             && str_eqb r EmptyString then
            let '(x, _, _) := join4 p q (N_sextet 0) (N_sextet 0) in
            Some (String x EmptyString)
          else None
      | _, _, _, _ => None
      end
  | String a (String b (String c EmptyString)) =>
      if enc_pad e then None else
      match val a, val b, val c with
      | Some p, Some q, Some u =>
          let '(x, y, _) := join4 p q u (N_sextet 0) in
          Some (String x (String y EmptyString))
      | _, _, _ => None
      end
  | String a (String b EmptyString) =>
      if enc_pad e then None else
      match val a, val b with
      | Some p, Some q =>
          let '(x, _, _) := join4 p q (N_sextet 0) (N_sextet 0) in
          Some (String x EmptyString)
      | _, _ => None
      end
  | String _ EmptyString => None
  end.

Definition b64_decode (e : encoding) (s : string) : option string :=
  b64_quanta e (strip_crlf s).

(** ** hex *)
Definition hex_digit (n : N) : ascii :=
  ascii_of_N (if (n <? 10)%N then 48 + n else 87 + n)%N.
Fixpoint hex_encode (s : string) : string :=
  match s with
  | EmptyString => EmptyString
  | String c r =>
      let n := N_of_ascii c in
      String (hex_digit (N.shiftr n 4)) (String (hex_digit (N.land n 15)) (hex_encode r))
  end.

(** ** SHA-256 (FIPS 180-4), words as [N] below [2^32] *)
Definition w32 (n : N) : N := N.land n 4294967295.
Definition add32 (a b : N) : N := w32 (a + b).
Definition rotr (n x : N) : N := w32 (N.lor (N.shiftr x n) (N.shiftl x (32 - n))).

(** FIPS 180-4 defines the constants: the first 32 bits of the fractional
    parts of the cube roots (round constants) and of the square roots
    (initial state) of the first primes. *)
Definition is_prime (n : N) : bool :=
  forallb (λ d, negb (n mod N.of_nat d =? 0)%N) (seq 2 (N.to_nat (N.sqrt n) - 1)).
Definition first_primes (k : nat) : list N :=
  take k (List.filter is_prime (map N.of_nat (seq 2 311))).
(** The cube root of [n], rounded down: its bits from bit [k - 1] downwards. *)
Fixpoint cube_root (k : nat) (n acc : N) : N :=
  match k with
  | O => acc
  | S k' =>
      let r := (acc + 2 ^ N.of_nat k')%N in
      cube_root k' n (if (r * r * r <=? n)%N then r else acc)
  end.
Definition sha_k : list N := Eval vm_compute in
  map (λ p, w32 (cube_root 36 (p * 2 ^ 96) 0)) (first_primes 64).
Definition sha_h0 : list N := Eval vm_compute in
  map (λ p, w32 (N.sqrt (p * 2 ^ 64))) (first_primes 8).

(** One round: the eight working variables, the round constant, the
    schedule word. *)
Definition sha_round (st : list N) (kw : N * N) : list N :=
  match st with
  | [a; b; c; d; e; f; g; h] =>
      let s1 := N.lxor (rotr 6 e) (N.lxor (rotr 11 e) (rotr 25 e)) in
      let ch := N.lxor (N.land e f) (N.land (N.lxor e 4294967295) g) in
      let t1 := add32 h (add32 s1 (add32 ch (add32 (fst kw) (snd kw)))) in
      let s0 := N.lxor (rotr 2 a) (N.lxor (rotr 13 a) (rotr 22 a)) in
      let mj := N.lxor (N.land a b) (N.lxor (N.land a c) (N.land b c)) in
      let t2 := add32 s0 mj in
      [add32 t1 t2; a; b; c; add32 d t1; e; f; g]
  | _ => st
  end.

(** The message schedule, most recent word first. *)
Fixpoint sha_extend (n : nat) (w : list N) : list N :=
  match n with
  | O => w
  | S n' =>
      let x i := nth i w 0%N in
      let s0 := N.lxor (rotr 7 (x 14%nat)) (N.lxor (rotr 18 (x 14%nat)) (N.shiftr (x 14%nat) 3)) in
      let s1 := N.lxor (rotr 17 (x 1%nat)) (N.lxor (rotr 19 (x 1%nat)) (N.shiftr (x 1%nat) 10)) in
      sha_extend n' (add32 (x 15%nat) (add32 s0 (add32 (x 6%nat) s1)) :: w)
  end.

Fixpoint words_of (l : list N) : list N :=
  match l with
  | a :: b :: c :: d :: r =>
      (N.shiftl a 24 + N.shiftl b 16 + N.shiftl c 8 + d)%N :: words_of r
  | _ => []
  end.

Definition sha_block (h : list N) (block : list N) : list N :=
  let w := rev (sha_extend 48 (rev (words_of block))) in
  zip_with add32 h (fold_left sha_round (zip sha_k w) h).

Fixpoint sha_blocks (fuel : nat) (h : list N) (msg : list N) : list N :=
  match fuel with
  | O => h
  | S f => match msg with
           | [] => h
           | _ => sha_blocks f (sha_block h (take 64 msg)) (drop 64 msg)
           end
  end.

Definition be_bytes (n : nat) (v : N) : list N :=
  map (λ i, N.land (N.shiftr v (8 * N.of_nat i)) 255) (rev (seq 0 n)).

Definition bytes_of (s : string) : list N := map N_of_ascii (String.list_ascii_of_string s).
Definition string_of (l : list N) : string := String.string_of_list_ascii (map ascii_of_N l).

Definition sha_pad (l : list N) : list N :=
  let n := length l in
  let z := ((119 - n mod 64) mod 64)%nat in
  l ++ [128%N] ++ replicate z 0%N ++ be_bytes 8 (8 * N.of_nat n).

(** [sha256.Sum256]: the padded message is a whole number of 64-byte blocks,
    so one unit of fuel per byte is enough. *)
Definition sha256 (s : string) : string :=
  let m := sha_pad (bytes_of s) in
  string_of (concat (map (be_bytes 4) (sha_blocks (length m) sha_h0 m))).

(** [hmac.New(sha256.New, key)] over one message. *)
Definition hmac_sha256 (key msg : string) : string :=
  let k := if (64 <? Z.of_nat (String.length key)) then sha256 key else key in
  let kb := bytes_of k ++ replicate (64 - String.length k) 0%N in
  let pad v := string_of (map (N.lxor v) kb) in
  sha256 (pad 92%N +:+ sha256 (pad 54%N +:+ msg)).

(** ** Test vectors (FIPS 180-4, RFC 4231, RFC 4648) *)
Example sha256_abc :
  hex_encode (sha256 "abc")
  = "ba7816bf8f01cfea414140de5dae2223b00361a396177a9cb410ff61f20015ad".
Proof. vm_compute. reflexivity. Qed.
Example sha256_empty :
  hex_encode (sha256 "")
  = "e3b0c44298fc1c149afbf4c8996fb92427ae41e4649b934ca495991b7852b855".
Proof. vm_compute. reflexivity. Qed.
Example sha256_two_blocks :
  hex_encode (sha256 "abcdbcdecdefdefgefghfghighijhijkijkljklmklmnlmnomnopnopq")
  = "248d6a61d20638b8e5c026930c3e6039a33ce45964ff2167f6ecedd419db06c1".
Proof. vm_compute. reflexivity. Qed.
Example hmac_jefe :
  hex_encode (hmac_sha256 "Jefe" "what do ya want for nothing?")
  = "5bdcc146bf60754e6a042426089575c75a003f089d2739839dec58b964ec3843".
Proof. vm_compute. reflexivity. Qed.
Example b64_foob : b64_encode StdEncoding "foob" = "Zm9vYg==".
Proof. vm_compute. reflexivity. Qed.
Example b64_fooba : b64_decode RawStdEncoding "Zm9vYmE" = Some "fooba".
Proof. vm_compute. reflexivity. Qed.

(** ** Round trip of base64 *)
Lemma b64_char_value url x : b64_value url (b64_char url x) = Some x.
Proof.
  destruct x as [[[[[[] []] []] []] []] []]; destruct url; vm_compute; reflexivity.
Qed.

Lemma b64_char_not_crlf url x :
  Ascii.eqb (b64_char url x) (byte 10) || Ascii.eqb (b64_char url x) (byte 13) = false.
Proof.
  destruct x as [[[[[[] []] []] []] []] []]; destruct url; vm_compute; reflexivity.
Qed.

Lemma join4_split3 x y z :
  (let '(p, q, u, v) := split3 x y z in join4 p q u v) = (x, y, z).
Proof. destruct x, y, z; reflexivity. Qed.

(** Induction three bytes at a time, as the encoder consumes them. *)
Lemma string_ind3 (P : string → Prop) :
  P EmptyString → (∀ x, P (String x EmptyString)) →
  (∀ x y, P (String x (String y EmptyString))) →
  (∀ x y z r, P r → P (String x (String y (String z r)))) →
  ∀ s, P s.
Proof.
  intros H0 H1 H2 H3. fix IH 1. intros [|x [|y [|z r]]].
  - exact H0.
  - exact (H1 x).
  - exact (H2 x y).
  - exact (H3 x y z r (IH r)).
Qed.

Lemma strip_crlf_encode e s : strip_crlf (b64_encode e s) = b64_encode e s.
Proof.
  assert (Hc : ∀ url x r, strip_crlf (String (b64_char url x) r)
                          = String (b64_char url x) (strip_crlf r)).
  { intros url x r. simpl. by rewrite b64_char_not_crlf. }
  induction s as [|x|x y|x y z r IH] using string_ind3; [done|..];
    cbn [b64_encode]; destruct (split3 _ _ _) as [[[p q] u] v];
    rewrite !Hc, ?IH; by destruct (enc_pad e).
Qed.

(** [DecodeString] undoes [EncodeToString], for every encoding. *)
Lemma b64_decode_encode e s : b64_decode e (b64_encode e s) = Some s.
Proof.
  unfold b64_decode. rewrite strip_crlf_encode.
  induction s as [|x|x y|x y z r IH] using string_ind3; [done|..];
    cbn [b64_encode].
  - destruct x as [[] [] [] [] [] [] [] []], e as [[] []]; vm_compute; reflexivity.
  - pose proof (join4_split3 x y zero_byte) as Hj.
    destruct (split3 x y zero_byte) as [[[p q] u] v] eqn:Hs.
    assert (v = N_sextet 0) as -> by (destruct x, y; cbn in Hs; by injection Hs).
    destruct e as [url []]; cbn [enc_pad enc_url b64_quanta];
      rewrite ?b64_char_value.
    + replace (b64_value url pad_char) with (@None sextet) by (by destruct url).
      rewrite Ascii.eqb_refl. simpl. by rewrite Hj.
    + by rewrite Hj.
  - pose proof (join4_split3 x y z) as Hj.
    destruct (split3 x y z) as [[[p q] u] v].
    cbn [b64_quanta]. rewrite !b64_char_value, IH, Hj. done.
Qed.

(** Length of a raw encoding: four characters per three bytes, rounded up. *)
Lemma b64_encode_raw_length url s :
  Z.of_nat (String.length (b64_encode {| enc_url := url; enc_pad := false |} s))
  = (4 * Z.of_nat (String.length s) + 2) / 3.
Proof.
  induction s as [|x|x y|x y z r IH] using string_ind3; [done|..];
    cbn [b64_encode]; destruct (split3 _ _ _) as [[[p q] u] v];
    cbn [enc_pad enc_url String.length] in *; [reflexivity..|].
  Z.to_euclidean_division_equations. lia.
Qed.


(** The characters of an encoding. *)
Definition b64_alphabet (e : encoding) (c : ascii) : bool :=
  match b64_value (enc_url e) c with Some _ => true | None => false end
  || (enc_pad e && Ascii.eqb c pad_char).

Lemma b64_encode_alphabet e s : str_forallb (b64_alphabet e) (b64_encode e s) = true.
Proof.
  assert (Hc : ∀ x, b64_alphabet e (b64_char (enc_url e) x) = true).
  { intros x. unfold b64_alphabet. by rewrite b64_char_value. }
  assert (Hpad : enc_pad e = true → b64_alphabet e pad_char = true).
  { intros Hp. unfold b64_alphabet. by rewrite Hp, Ascii.eqb_refl, orb_true_r. }
  induction s as [|x|x y|x y z r IH] using string_ind3; [done|..];
    cbn [b64_encode]; destruct (split3 _ _ _) as [[[p q] u] v];
    cbn [str_forallb]; rewrite ?Hc, ?IH; [..|done];
    destruct (enc_pad e) eqn:Hp; cbn [str_forallb]; rewrite ?Hpad by done; done.
Qed.

Lemma b64_encode_no_byte e s c :
  b64_alphabet e c = false → str_forallb (not_byte c) (b64_encode e s) = true.
Proof.
  intros Hc. eapply str_forallb_impl; [|apply b64_encode_alphabet].
  intros c' Hc'. unfold not_byte. apply negb_true_iff, Ascii.eqb_neq. congruence.
Qed.

Lemma b64_encode_inj e a b : b64_encode e a = b64_encode e b → a = b.
Proof.
  intros E. pose proof (b64_decode_encode e a) as Ha.
  rewrite E, b64_decode_encode in Ha. congruence.
Qed.

(** Hashes are never computed by conversion, only by [vm_compute]. *)
#[global] Opaque sha256 hmac_sha256.
