(* ===== verification/GoAes.v ===== *)
(** * GoAes: [crypto/aes] and [crypto/cipher]'s GCM

    AES-256 in Galois/counter mode (FIPS 197, NIST SP 800-38D) with 12-byte
    nonces and 16-byte tags, what [aes.NewCipher] and [cipher.NewGCM] give. *)

From S2P Require Import Prelude GoLib GoHash.
Open Scope N_scope.

(** ** The block cipher, on lists of bytes *)
Definition sbox : list N := [
   99; 124; 119; 123; 242; 107; 111; 197; 48; 1; 103; 43; 254; 215; 171; 118;
   202; 130; 201; 125; 250; 89; 71; 240; 173; 212; 162; 175; 156; 164; 114; 192;
   183; 253; 147; 38; 54; 63; 247; 204; 52; 165; 229; 241; 113; 216; 49; 21;
   4; 199; 35; 195; 24; 150; 5; 154; 7; 18; 128; 226; 235; 39; 178; 117;
   9; 131; 44; 26; 27; 110; 90; 160; 82; 59; 214; 179; 41; 227; 47; 132;
   83; 209; 0; 237; 32; 252; 177; 91; 106; 203; 190; 57; 74; 76; 88; 207;
   208; 239; 170; 251; 67; 77; 51; 133; 69; 249; 2; 127; 80; 60; 159; 168;
   81; 163; 64; 143; 146; 157; 56; 245; 188; 182; 218; 33; 16; 255; 243; 210;
   205; 12; 19; 236; 95; 151; 68; 23; 196; 167; 126; 61; 100; 93; 25; 115;
   96; 129; 79; 220; 34; 42; 144; 136; 70; 238; 184; 20; 222; 94; 11; 219;
   224; 50; 58; 10; 73; 6; 36; 92; 194; 211; 172; 98; 145; 149; 228; 121;
   231; 200; 55; 109; 141; 213; 78; 169; 108; 86; 244; 234; 101; 122; 174; 8;
   186; 120; 37; 46; 28; 166; 180; 198; 232; 221; 116; 31; 75; 189; 139; 138;
   112; 62; 181; 102; 72; 3; 246; 14; 97; 53; 87; 185; 134; 193; 29; 158;
   225; 248; 152; 17; 105; 217; 142; 148; 155; 30; 135; 233; 206; 85; 40; 223;
   140; 161; 137; 13; 191; 230; 66; 104; 65; 153; 45; 15; 176; 84; 187; 22].
Definition sub_byte (b : N) : N := nth (N.to_nat b) sbox 0.
Definition xor_bytes (a b : list N) : list N := zip_with N.lxor a b.

(** Key schedule: eight words make the next eight. *)
Definition rot_word (w : list N) : list N :=
  match w with a :: r => r ++ [a] | [] => [] end.
Definition chain (prev : list N) (ws : list (list N)) : list (list N) :=
  snd (fold_left (λ acc w, let n := xor_bytes w (fst acc) in (n, snd acc ++ [n])) ws (prev, [])).
Definition next_words (rcon : N) (ws : list (list N)) : list (list N) :=
  let t := xor_bytes (map sub_byte (rot_word (nth 7 ws []))) [rcon; 0; 0; 0] in
  let lo := chain t (take 4 ws) in
  lo ++ chain (map sub_byte (nth 3 lo [])) (drop 4 ws).
Fixpoint chunks (fuel n : nat) (l : list N) : list (list N) :=
  match fuel, l with
  | S fuel, _ :: _ => take n l :: chunks fuel n (drop n l)
  | _, _ => []
  end.
Definition round_keys (key : list N) : list (list N) :=
  let w0 := chunks 8 4 key in
  let all := snd (fold_left (λ acc rcon, let ws := next_words rcon (fst acc) in (ws, snd acc ++ ws))
                    [1; 2; 4; 8; 16; 32; 64] (w0, w0)) in
  map (@concat N) (map (λ i, take 4 (drop (4 * i) all)) (seq 0 15)).

Definition shift_rows (s : list N) : list N :=
  map (λ i, nth i s 0) [0; 5; 10; 15; 4; 9; 14; 3; 8; 13; 2; 7; 12; 1; 6; 11]%nat.
Definition xtime (b : N) : N :=
  N.land (N.lxor (N.shiftl b 1) (if 128 <=? b then 27 else 0)) 255.
Definition mix_column (c : list N) : list N :=
  match c with
  | [a; b; x; d] =>
      let t := N.lxor (N.lxor a b) (N.lxor x d) in
      [N.lxor (N.lxor a t) (xtime (N.lxor a b)); N.lxor (N.lxor b t) (xtime (N.lxor b x));
       N.lxor (N.lxor x t) (xtime (N.lxor x d)); N.lxor (N.lxor d t) (xtime (N.lxor d a))]
  | _ => c
  end.
Definition mix_columns (s : list N) : list N := concat (map mix_column (chunks 4 4 s)).

Definition aes_round (s rk : list N) : list N :=
  xor_bytes (mix_columns (shift_rows (map sub_byte s))) rk.
Definition aes_encrypt (rks : list (list N)) (block : list N) : list N :=
  let s := xor_bytes block (nth 0 rks []) in
  let s := fold_left aes_round (take 13 (drop 1 rks)) s in
  xor_bytes (shift_rows (map sub_byte s)) (nth 14 rks []).

(** FIPS 197, appendix C.3. *)
Example aes256_vector :
  aes_encrypt (round_keys (map N.of_nat (seq 0 32))) (map (λ i, 17 * N.of_nat i) (seq 0 16))
  = [142; 162; 183; 202; 81; 103; 69; 191; 234; 252; 73; 144; 75; 73; 96; 137].
Proof. by vm_compute. Qed.

(** ** GHASH, on 128-bit words *)
Definition be_word (l : list N) : N := fold_left (λ a b, a * 256 + b) l 0.
Definition gf_r : N := N.shiftl 225 120.
Fixpoint gf_mult (bits : nat) (x z v : N) : N :=
  match bits with
  | O => z
  | S n =>
      gf_mult n x (if N.testbit x (N.of_nat n) then N.lxor z v else z)
        (if N.testbit v 0 then N.lxor (N.shiftr v 1) gf_r else N.shiftr v 1)
  end.
Definition ghash_step (h : N) (acc : N) (block : list N) : N :=
  gf_mult 128 (N.lxor acc (be_word (take 16 (block ++ replicate 16 0)))) 0 h.
Definition ghash (h : N) (aad ct : list N) : N :=
  let blocks l := chunks (length l) 16 l in
  ghash_step h
    (fold_left (ghash_step h) (blocks aad ++ blocks ct) 0)
    (be_bytes 8 (8 * N.of_nat (length aad)) ++ be_bytes 8 (8 * N.of_nat (length ct))).

(** ** The mode *)
Definition xor_ascii (a b : ascii) : ascii :=
  match a, b with
  | Ascii a0 a1 a2 a3 a4 a5 a6 a7, Ascii b0 b1 b2 b3 b4 b5 b6 b7 =>
      Ascii (xorb a0 b0) (xorb a1 b1) (xorb a2 b2) (xorb a3 b3)
        (xorb a4 b4) (xorb a5 b5) (xorb a6 b6) (xorb a7 b7)
  end.
(** [s] under a key stream (as long as [s] needs). *)
Fixpoint xor_stream (s ks : string) : string :=
  match s, ks with
  | String a s, String k ks => String (xor_ascii a k) (xor_stream s ks)
  | _, _ => s
  end.

Definition counter_block (nonce : string) (n : N) : list N := bytes_of nonce ++ be_bytes 4 n.
Definition key_stream (rks : list (list N)) (nonce : string) (len : nat) : string :=
  string_of (concat (map (λ i, aes_encrypt rks (counter_block nonce (2 + N.of_nat i)))
    (seq 0 (len / 16 + 1)))).
Definition gcm_tag (rks : list (list N)) (nonce ct aad : string) : string :=
  let h := be_word (aes_encrypt rks (replicate 16 0)) in
  string_of (be_bytes 16 (N.lxor (ghash h (bytes_of aad) (bytes_of ct))
    (be_word (aes_encrypt rks (counter_block nonce 1))))).

Definition gcm_Seal (key nonce plaintext aad : string) : string :=
  let rks := round_keys (bytes_of key) in
  let ct := xor_stream plaintext (key_stream rks nonce (String.length plaintext)) in
  ct +:+ gcm_tag rks nonce ct aad.

Definition gcm_Open (key nonce sealed aad : string) : option string :=
  let rks := round_keys (bytes_of key) in
  let n := (String.length sealed - 16)%nat in
  if (String.length sealed <? 16)%nat then None else
  let ct := str_take n sealed in
  if str_eqb (str_drop n sealed) (gcm_tag rks nonce ct aad)
  then Some (xor_stream ct (key_stream rks nonce n)) else None.

(** GCM specification, test cases 13 and 14. *)
Definition zeros (n : nat) : string := string_of (replicate n 0).
Example gcm_vector_empty :
  hex_encode (gcm_Seal (zeros 32) (zeros 12) "" "") = "530f8afbc74536b9a963b4f1c4cb738b"%string.
Proof. by vm_compute. Qed.
Example gcm_vector_block :
  hex_encode (gcm_Seal (zeros 32) (zeros 12) (zeros 16) "")
  = "cea7403d4d606b6e074ec5d3baf39d18d0d1c8a799996bf0265b98b5d48ab919"%string.
Proof. by vm_compute. Qed.

(** ** Opening what was sealed *)
Lemma xor_ascii_twice a k : xor_ascii (xor_ascii a k) k = a.
Proof.
  destruct a, k. simpl. by rewrite !xorb_assoc, !xorb_nilpotent, !xorb_false_r.
Qed.

Lemma xor_stream_twice s ks : xor_stream (xor_stream s ks) ks = s.
Proof.
  revert ks. induction s as [|a s IH]; intros [|k ks]; simpl; [done..|].
  by rewrite xor_ascii_twice, IH.
Qed.

Lemma xor_stream_length s ks : String.length (xor_stream s ks) = String.length s.
Proof. revert ks. induction s as [|a s IH]; intros [|k ks]; simpl; [done..|]. by rewrite IH. Qed.

Lemma gcm_tag_length rks nonce ct aad : String.length (gcm_tag rks nonce ct aad) = 16%nat.
Proof. reflexivity. Qed.
#[global] Arguments gcm_tag : simpl never.

Lemma gcm_Open_Seal key nonce plaintext aad :
  gcm_Open key nonce (gcm_Seal key nonce plaintext aad) aad = Some plaintext.
Proof.
  unfold gcm_Seal, gcm_Open. set (ct := xor_stream _ _).
  assert (Hl : String.length (ct +:+ gcm_tag (round_keys (bytes_of key)) nonce ct aad)
               = (String.length plaintext + 16)%nat).
  { rewrite str_length_app, gcm_tag_length. unfold ct. by rewrite xor_stream_length. }
  rewrite Hl, Nat.add_sub.
  replace (_ + 16 <? 16)%nat with false by (symmetry; apply Nat.ltb_ge; lia).
  assert (Hc : String.length plaintext = String.length ct) by (unfold ct; by rewrite xor_stream_length).
  rewrite Hc, str_take_app, str_drop_app, str_eqb_refl. f_equal. unfold ct at 1. rewrite <-Hc.
  apply xor_stream_twice.
Qed.

(** What opens was sealed under the same key, nonce and associated data. *)
Lemma gcm_Open_Some key nonce sealed aad plaintext :
  gcm_Open key nonce sealed aad = Some plaintext →
  sealed = gcm_Seal key nonce plaintext aad.
Proof.
  unfold gcm_Open, gcm_Seal. set (rks := round_keys _). set (n := (_ - 16)%nat).
  destruct (_ <? 16)%nat eqn:El; [done|]. destruct (str_eqb _ _) eqn:Et; [|done].
  intros [= <-]. apply str_eqb_true in Et. apply Nat.ltb_ge in El.
  rewrite xor_stream_length, str_take_length, xor_stream_twice, <-Et by lia.
  by rewrite str_take_drop.
Qed.
