(* ===== verification/GoNet.v ===== *)
(** * GoNet: the parts of Go's [net] package the program calls

    [net.ParseIP] and [IP.String] (audit addresses), [net.SplitHostPort]
    (client address).  An IP address is its list of bytes. *)

From S2P Require Import Prelude GoLib GoHash.

Fixpoint contains_byte (c : ascii) (s : string) : bool :=
  match s with
  | EmptyString => false
  | String a r => Ascii.eqb a c || contains_byte c r
  end.

Definition colon : ascii := byte 58.
Definition dot : ascii := byte 46.

(** ** Parsing *)

(** The decimal fields of a dotted quad: no leading zero, at most 255. *)
Definition ipv4_field (s : string) : option N :=
  match s with
  | String c (String _ _) => if Ascii.eqb c (byte 48) then None else
      v ← parse_uint_digits s; if v <=? 255 then Some (Z.to_N v) else None
  | _ => v ← parse_uint_digits s; if v <=? 255 then Some (Z.to_N v) else None
  end.

Definition parseIPv4 (s : string) : option (list N) :=
  match Split s dot with
  | [a; b; c; d] => mapM ipv4_field [a; b; c; d]
  | _ => None
  end.

Definition hex_value_of (c : ascii) : option N :=
  let n := N_of_ascii c in
  if ((48 <=? n) && (n <=? 57))%N then Some (n - 48)%N
  else if ((97 <=? n) && (n <=? 102))%N then Some (n - 87)%N
  else if ((65 <=? n) && (n <=? 70))%N then Some (n - 55)%N
  else None.

(** The hexadecimal digits in front of [s]: their value, how many, the rest. *)
Fixpoint hex_group (s : string) (acc : N) (off : nat) : N * nat * string :=
  match s with
  | String c r =>
      match hex_value_of c with
      | Some v => hex_group r (acc * 16 + v)%N (S off)
      | None => (acc, off, s)
      end
  | EmptyString => (acc, off, s)
  end.

(** The loop over the 16-bit groups: [ip] are the bytes so far, [ell] the
    position of the "::"; one unit of fuel per group, of which there are at
    most eight. *)
Fixpoint ipv6_groups (fuel : nat) (s : string) (ip : list N) (ell : option nat)
  : option (list N * option nat * string) :=
  match fuel with
  | O => Some (ip, ell, s)
  | S fuel =>
      let '(acc, off, rest) := hex_group s 0%N 0 in
      if (off =? 0)%nat || (4 <? off)%nat then None else
      match rest with
      | EmptyString => Some (ip ++ [N.shiftr acc 8; N.land acc 255], ell, EmptyString)
      | String c r =>
          if Ascii.eqb c dot then
            if match ell with None => negb (length ip =? 12)%nat | Some _ => false end then None
            else if (16 <? length ip + 4)%nat then None
            else (λ q, (ip ++ q, ell, EmptyString)) <$> parseIPv4 s
          else if negb (Ascii.eqb c colon) then None
          else
            let ip := ip ++ [N.shiftr acc 8; N.land acc 255] in
            match r with
            | EmptyString => None
            | String c2 r2 =>
                if Ascii.eqb c2 colon then
                  match ell with
                  | Some _ => None
                  | None =>
                      match r2 with
                      | EmptyString => Some (ip, Some (length ip), EmptyString)
                      | _ => ipv6_groups fuel r2 ip (Some (length ip))
                      end
                  end
                else ipv6_groups fuel r ip ell
            end
      end
  end.

(** Without a zone: [ParseIP] refuses one. *)
Definition parseIPv6 (s : string) : option (list N) :=
  let '(ell, s) := if HasPrefix s "::" then (Some 0%nat, str_drop 2 s) else (None, s) in
  match ell, s with
  | Some _, EmptyString => Some (replicate 16 0%N)
  | _, _ =>
      '(ip, ell, rest) ← ipv6_groups 8 s [] ell;
      if negb (str_eqb rest "") then None else
      match ell with
      | Some e =>
          if (length ip <? 16)%nat
          then Some (take e ip ++ replicate (16 - length ip) 0%N ++ drop e ip) else None
      | None => if (length ip <? 16)%nat then None else Some ip
      end
  end.

(** The first '.', ':' or '%' decides. *)
Fixpoint ip_family (s : string) : option ascii :=
  match s with
  | EmptyString => None
  | String c r => if Ascii.eqb c dot || Ascii.eqb c colon || Ascii.eqb c (byte 37)
                  then Some c else ip_family r
  end.

Definition v4_in_v6 : list N := replicate 10 0%N ++ [255; 255]%N.

Definition ParseIP (s : string) : option (list N) :=
  match ip_family s with
  | None => None
  | Some c =>
      if Ascii.eqb c dot then app v4_in_v6 <$> parseIPv4 s
      else if Ascii.eqb c colon then
        if contains_byte (byte 37) s then None else parseIPv6 s
      else None
  end.

(** ** Printing *)
Definition hex_digit_string (n : N) : string := String (hex_digit n) EmptyString.
Definition hex16 (n : N) : string :=
  if (4096 <=? n)%N then hex_digit_string (N.shiftr n 12) +:+ hex_digit_string (N.land (N.shiftr n 8) 15)
       +:+ hex_digit_string (N.land (N.shiftr n 4) 15) +:+ hex_digit_string (N.land n 15)
  else if (256 <=? n)%N then hex_digit_string (N.shiftr n 8)
       +:+ hex_digit_string (N.land (N.shiftr n 4) 15) +:+ hex_digit_string (N.land n 15)
  else if (16 <=? n)%N then hex_digit_string (N.shiftr n 4) +:+ hex_digit_string (N.land n 15)
  else hex_digit_string n.

Fixpoint groups16 (l : list N) : list N :=
  match l with
  | a :: b :: r => (a * 256 + b)%N :: groups16 r
  | _ => []
  end.

Fixpoint zeros_prefix (l : list N) : nat :=
  match l with
  | 0%N :: r => S (zeros_prefix r)
  | _ => 0
  end.

(** The longest run of at least two zero groups, the first of equals:
    its start and its length. *)
Fixpoint zero_run (i : nat) (l : list N) (best : nat * nat) : nat * nat :=
  match l with
  | [] => best
  | _ :: r =>
      let n := zeros_prefix l in
      zero_run (S i) r (if ((2 <=? n) && (snd best <? n))%nat then (i, n) else best)
  end.

Definition ip_string (ip : list N) : string :=
  if decide (take 12 ip = v4_in_v6) then
    Join (map (λ b, FormatInt (Z.of_N b)) (drop 12 ip)) "."
  else
    let g := groups16 ip in
    match zero_run 0 g (0, 0)%nat with
    | (_, O) => Join (map hex16 g) ":"
    | (i, n) => Join (map hex16 (take i g)) ":" +:+ "::" +:+ Join (map hex16 (drop (i + n) g)) ":"
    end.

(** [net.ParseIP(s)], then [String()] when it is not nil. *)
Definition canonical_ip (s : string) : option string := ip_string <$> ParseIP s.

Example parse_ip_v4 : canonical_ip "192.0.2.7" = Some "192.0.2.7".
Proof. by vm_compute. Qed.
Example parse_ip_v4_zero : canonical_ip "192.0.2.07" = None.
Proof. by vm_compute. Qed.
Example parse_ip_v4_short : canonical_ip "1.2.3" = None ∧ canonical_ip "1.2.3.4.5" = None.
Proof. by vm_compute. Qed.
Example parse_ip_v6 : canonical_ip "2001:DB8:0:0:1:0:0:1" = Some "2001:db8::1:0:0:1".
Proof. by vm_compute. Qed.
Example parse_ip_v6_loop : canonical_ip "::1" = Some "::1" ∧ canonical_ip "::" = Some "::".
Proof. by vm_compute. Qed.
Example parse_ip_mapped : canonical_ip "::ffff:10.0.0.1" = Some "10.0.0.1".
Proof. by vm_compute. Qed.
Example parse_ip_zone : canonical_ip "fe80::1%eth0" = None ∧ canonical_ip "unknown" = None.
Proof. by vm_compute. Qed.
Example parse_ip_bad : canonical_ip "1::2::3" = None ∧ canonical_ip "1:2:3:4:5:6:7:8:9" = None
  ∧ canonical_ip "12345::" = None ∧ canonical_ip "1:2:3:4:5:6:7::8" = None.
Proof. by vm_compute. Qed.

(** ** [net.SplitHostPort], the host only; [None] is an error. *)
Fixpoint last_index (c : ascii) (s : string) (i : nat) (found : option nat) : option nat :=
  match s with
  | EmptyString => found
  | String a r => last_index c r (S i) (if Ascii.eqb a c then Some i else found)
  end.
Fixpoint first_index (c : ascii) (s : string) (i : nat) : option nat :=
  match s with
  | EmptyString => None
  | String a r => if Ascii.eqb a c then Some i else first_index c r (S i)
  end.

Definition SplitHostPort (hostport : string) : option string :=
  i ← last_index colon hostport 0 None;
  let bracket := HasPrefix hostport "[" in
  '(host, j, k) ←
    (if bracket then
       e ← first_index (byte 93) hostport 0;
       if (e + 1 =? i)%nat then Some (str_take (e - 1) (str_drop 1 hostport), 1%nat, (e + 1)%nat)
       else None
     else
       let host := str_take i hostport in
       if contains_byte colon host then None else Some (host, 0%nat, 0%nat));
  if contains_byte (byte 91) (str_drop j hostport) then None
  else if contains_byte (byte 93) (str_drop k hostport) then None
  else Some host.

Example split_v4 : SplitHostPort "192.0.2.7:51034" = Some "192.0.2.7".
Proof. by vm_compute. Qed.
Example split_v6 : SplitHostPort "[::1]:8080" = Some "::1".
Proof. by vm_compute. Qed.
Example split_none : SplitHostPort "192.0.2.7" = None ∧ SplitHostPort "::1:80" = None.
Proof. by vm_compute. Qed.
