(* ===== verification/GoUrl.v ===== *)
(** * GoUrl: what the program uses of net/url, path and net/http redirects

    [url.Parse] with its schemes, authorities, escapes and path encodings,
    [URL.EscapedPath], [path.Clean], and the Location that [http.Redirect]
    computes (net/url and net/http of Go 1.26). *)

From S2P Require Import Prelude GoLib GoHash GoNet.

(** ** Percent encoding *)
Inductive url_mode := encodePath | encodeHost | encodeZone | encodeUserPassword | encodeFragment.
#[export] Instance url_mode_eq_dec : EqDecision url_mode.
Proof. solve_decision. Defined.

Definition is_lower (c : ascii) : bool := let n := N_of_ascii c in ((97 <=? n) && (n <=? 122))%N.
Definition is_upper (c : ascii) : bool := let n := N_of_ascii c in ((65 <=? n) && (n <=? 90))%N.
Definition is_digit (c : ascii) : bool := let n := N_of_ascii c in ((48 <=? n) && (n <=? 57))%N.
Definition is_alnum (c : ascii) : bool := is_lower c || is_upper c || is_digit c.

Definition shouldEscape (mode : url_mode) (c : ascii) : bool :=
  if is_alnum c then false
  else if (bool_decide (mode = encodeHost) || bool_decide (mode = encodeZone))
          && contains_byte c ("!$&'()*+,;=:[]<>" +:+ dquote) then false
  else if contains_byte c "-_.~" then false
  else if contains_byte c "$&+,/:;=?@" then
    match mode with
    | encodePath => Ascii.eqb c "?"%char
    | encodeUserPassword => contains_byte c "@/?:"
    | encodeFragment => false
    | encodeHost | encodeZone => true
    end
  else negb (bool_decide (mode = encodeFragment) && contains_byte c "!()*").

Definition upper_hex (n : N) : ascii := ascii_of_N (if (n <? 10)%N then 48 + n else 55 + n)%N.
Fixpoint url_escape (mode : url_mode) (s : string) : string :=
  match s with
  | EmptyString => EmptyString
  | String c r =>
      if shouldEscape mode c then
        let n := N_of_ascii c in
        String "%"%char (String (upper_hex (N.shiftr n 4))
          (String (upper_hex (N.land n 15)) (url_escape mode r)))
      else String c (url_escape mode r)
  end.

(** A percent escape is refused in a host unless it stands for a non-ASCII
    byte or for "%" itself, in a zone unless the byte is allowed there. *)
Definition escape_ok (mode : url_mode) (a b : N) : bool :=
  let v := (a * 16 + b)%N in
  match mode with
  | encodeHost => negb (a <? 8)%N || (v =? 37)%N
  | encodeZone => (v =? 37)%N || (v =? 32)%N || negb (shouldEscape encodeHost (ascii_of_N v))
  | _ => true
  end.
Definition byte_ok (mode : url_mode) (c : ascii) : bool :=
  match mode with
  | encodeHost | encodeZone => negb (is_ascii_byte c && shouldEscape mode c)
  | _ => true
  end.
Fixpoint url_unescape (mode : url_mode) (s : string) : option string :=
  match s with
  | EmptyString => Some EmptyString
  | String c r =>
      if Ascii.eqb c "%"%char then
        match r with
        | String x (String y r') =>
            match hex_value_of x, hex_value_of y with
            | Some a, Some b =>
                if escape_ok mode a b
                then String (ascii_of_N (a * 16 + b)%N) <$> url_unescape mode r'
                else None
            | _, _ => None
            end
        | _ => None
        end
      else if byte_ok mode c then String c <$> url_unescape mode r else None
  end.

Definition valid_path_byte (c : ascii) : bool :=
  contains_byte c "!$&'()*+,;=:@[]%" || negb (shouldEscape encodePath c).
Definition validEncoded (s : string) : bool := str_forallb valid_path_byte s.

(** ** [url.Parse] *)
Record URL := MkURL {
  Scheme : string;
  HasUser : bool;        (* u.User != nil *)
  Host : string;
  Path : string;         (* decoded *)
  RawPath : string;      (* the encoding hint, "" when the default encoding is meant *)
  RawQuery : string;
  Fragment : string      (* decoded *)
}.

Definition is_ctl (c : ascii) : bool := let n := N_of_ascii c in ((n <? 32) || (n =? 127))%N.

(** [getScheme]: [None] is "missing protocol scheme". *)
Fixpoint scheme_from (first : bool) (s : string) : option (option (string * string)) :=
  match s with
  | EmptyString => Some None
  | String c r =>
      if Ascii.eqb c ":"%char then if first then None else Some (Some (EmptyString, r))
      else if is_lower c || is_upper c
              || (negb first && (is_digit c || contains_byte c "+-."))
      then match scheme_from false r with
           | Some (Some (sch, rest)) => Some (Some (String c sch, rest))
           | x => x
           end
      else Some None
  end.
Definition getScheme (s : string) : option (string * string) :=
  match scheme_from true s with
  | None => None
  | Some None => Some ("", s)
  | Some (Some p) => Some p
  end.

Definition validOptionalPort (s : string) : bool :=
  match s with
  | EmptyString => true
  | String c r => Ascii.eqb c ":"%char && str_forallb is_digit r
  end.

(** Everything before the last occurrence of a byte, and what follows it. *)
Fixpoint cut_last (c : ascii) (s : string) : option (string * string) :=
  match s with
  | EmptyString => None
  | String a r =>
      match cut_last c r with
      | Some (x, y) => Some (String a x, y)
      | None => if Ascii.eqb a c then Some (EmptyString, r) else None
      end
  end.
(** The text before the first "%25", and the text from there on. *)
Fixpoint cut_zone (s : string) : string * string :=
  match s with
  | EmptyString => (EmptyString, EmptyString)
  | String a r =>
      if HasPrefix s "%25" then (EmptyString, s)
      else let '(x, y) := cut_zone r in (String a x, y)
  end.

(** [netip.ParseAddr] of the inside of a bracketed host: IPv6, and a zone
    that is not empty. *)
Definition ipv6_literal (s : string) : bool :=
  let '(addr, zone, found) := Cut s "%"%char in
  match parseIPv6 addr with
  | Some _ => negb (found && str_eqb zone "")
  | None => false
  end.

Definition parseHost (host : string) : option string :=
  if HasPrefix host "[" then
    match cut_last "]"%char (str_drop 1 host) with
    | None => None
    | Some (inside, port) =>
        if contains_byte "["%char inside || contains_byte "["%char port then None
        else if validOptionalPort port then
          let '(addr, zone) := cut_zone inside in
          a ← url_unescape encodeHost addr;
          z ← url_unescape encodeZone zone;
          p ← url_unescape encodeHost port;
          if ipv6_literal (a +:+ z) then Some ("[" +:+ a +:+ z +:+ "]" +:+ p) else None
        else None
    end
  else if contains_byte "["%char host then None
  else
    let '(_, port, found) := Cut host ":"%char in
    if found && negb (str_forallb is_digit port) then None
    else url_unescape encodeHost host.

Definition userinfo_byte (c : ascii) : bool :=
  is_alnum c || contains_byte c "-._:~!$&'()*+,;=%@".
Definition parseAuthority (a : string) : option (bool * string) :=
  match cut_last "@"%char a with
  | None => pair false <$> parseHost a
  | Some (userinfo, h) =>
      host ← parseHost h;
      if str_forallb userinfo_byte userinfo then
        let '(user, password, found) := Cut userinfo ":"%char in
        _ ← url_unescape encodeUserPassword user;
        _ ← url_unescape encodeUserPassword password;
        Some (true, host)
      else None
  end.

Definition parse_path (scheme : string) (user : bool) (host p query : string) : option URL :=
  path ← url_unescape encodePath p;
  Some (MkURL scheme user host path
          (if str_eqb p (url_escape encodePath path) then "" else p) query "").

(** The part of a URL before the fragment. *)
Definition url_parse (raw : string) : option URL :=
  if negb (str_forallb (λ c, negb (is_ctl c)) raw) then None
  else if str_eqb raw "*" then Some (MkURL "" false "" "*" "" "" "")
  else
    '(sch, rest) ← getScheme raw;
    let scheme := lower_ascii sch in
    let '(rest, query, _) := Cut rest "?"%char in
    if negb (HasPrefix rest "/") then
      if negb (str_eqb scheme "") then Some (MkURL scheme false "" "" "" query "")
      else if contains_byte ":"%char (fst (fst (Cut rest "/"%char))) then None
      else parse_path scheme false "" rest query
    else if HasPrefix rest "//" && (negb (str_eqb scheme "") || negb (HasPrefix rest "///")) then
      let '(authority, tail, found) := Cut (str_drop 2 rest) "/"%char in
      '(user, host) ← parseAuthority authority;
      parse_path scheme user host (if found : bool then String "/"%char tail else "") query
    else parse_path scheme false "" rest query.

Definition url_Parse (raw : string) : option URL :=
  let '(u, frag, _) := Cut raw "#"%char in
  url ← url_parse u;
  f ← url_unescape encodeFragment frag;
  Some (MkURL (Scheme url) (HasUser url) (Host url) (Path url) (RawPath url) (RawQuery url) f).

(** [url.QueryUnescape] and [URL.Query().Get]: the first well-formed pair of
    the key; pairs with a semicolon or a bad escape are skipped. *)
Definition QueryUnescape (s : string) : option string :=
  url_unescape encodePath (ReplaceByte s "+"%char " "%char).
Fixpoint query_get (pieces : list string) (key : string) : string :=
  match pieces with
  | [] => ""
  | piece :: l =>
      if contains_byte ";"%char piece then query_get l key else
      let '(k, v, _) := Cut piece "="%char in
      match QueryUnescape k, QueryUnescape v with
      | Some k, Some v => if negb (str_eqb piece "") && str_eqb k key then v else query_get l key
      | _, _ => query_get l key
      end
  end.
Definition Query_Get (u : URL) (key : string) : string := query_get (Split (RawQuery u) "&"%char) key.

Definition EscapedPath (u : URL) : string :=
  if negb (str_eqb (RawPath u) "") && validEncoded (RawPath u)
     && bool_decide (url_unescape encodePath (RawPath u) = Some (Path u))
  then RawPath u
  else if str_eqb (Path u) "*" then "%2A"
  else url_escape encodePath (Path u).

(** ** [path.Clean] and [path.Split] *)

(** The segments kept, most recent first: "." and empty ones vanish, ".."
    takes back the one before it. *)
Fixpoint clean_segments (rooted : bool) (l kept : list string) : list string :=
  match l with
  | [] => rev kept
  | x :: l =>
      if str_eqb x "" || str_eqb x "." then clean_segments rooted l kept
      else if str_eqb x ".." then
        match kept with
        | y :: kept' => if str_eqb y ".." then clean_segments rooted l (x :: kept)
                        else clean_segments rooted l kept'
        | [] => clean_segments rooted l (if rooted then [] else [x])
        end
      else clean_segments rooted l (x :: kept)
  end.
Definition path_Clean (p : string) : string :=
  let rooted := HasPrefix p "/" in
  let out := Join (clean_segments rooted (Split p "/"%char) []) "/" in
  if rooted then "/" +:+ out else if str_eqb out "" then "." else out.

(** The directory part of [path.Split]. *)
Definition path_dir (p : string) : string :=
  match cut_last "/"%char p with Some (d, _) => d +:+ "/" | None => "" end.

(** ** [http.Redirect]: the Location header *)
Fixpoint hexEscapeNonASCII (s : string) : string :=
  match s with
  | EmptyString => EmptyString
  | String c r =>
      if is_ascii_byte c then String c (hexEscapeNonASCII r)
      else "%" +:+ hex_encode (String c EmptyString) +:+ hexEscapeNonASCII r
  end.

Definition redirect_url (request_path url : string) : string :=
  match url_Parse url with
  | Some u =>
      if str_eqb (Scheme u) "" && str_eqb (Host u) "" then
        let oldpath := if str_eqb request_path "" then "/" else request_path in
        let url := if HasPrefix url "/" then url else path_dir oldpath +:+ url in
        let '(p, query, found) := Cut url "?"%char in
        let cleaned := path_Clean p in
        let p' := if HasSuffix p "/" && negb (HasSuffix cleaned "/") then cleaned +:+ "/" else cleaned in
        p' +:+ (if found : bool then String "?"%char query else "")
      else url
  | None => url
  end.
Definition redirect_location (request_path url : string) : string :=
  hexEscapeNonASCII (redirect_url request_path url).

(** ** No control characters *)
Definition not_ctl (c : ascii) : bool := negb (is_ctl c).
Lemma valid_path_byte_not_ctl c : valid_path_byte c = true → not_ctl c = true.
Proof. destruct c as [[] [] [] [] [] [] [] []]; vm_compute; done. Qed.
Lemma escaped_byte_not_ctl mode c :
  if shouldEscape mode c
  then not_ctl (upper_hex (N.shiftr (N_of_ascii c) 4)) = true ∧ not_ctl (upper_hex (N.land (N_of_ascii c) 15)) = true
  else mode = encodePath → not_ctl c = true.
Proof. destruct mode, c as [[] [] [] [] [] [] [] []]; vm_compute; done. Qed.
Lemma url_escape_not_ctl s : str_forallb not_ctl (url_escape encodePath s) = true.
Proof.
  induction s as [|c s IH]; [done|]. cbn [url_escape]. pose proof (escaped_byte_not_ctl encodePath c) as Hc.
  destruct (shouldEscape encodePath c); cbn [str_forallb]; rewrite IH.
  - destruct Hc as [-> ->]. done.
  - by rewrite Hc.
Qed.
Lemma EscapedPath_not_ctl u : str_forallb not_ctl (EscapedPath u) = true.
Proof.
  unfold EscapedPath. destruct (negb _ && _ && _) eqn:E.
  - apply andb_true_iff in E as [[_ E]%andb_true_iff _]. revert E. apply str_forallb_impl, valid_path_byte_not_ctl.
  - destruct (str_eqb (Path u) "*"); [done|apply url_escape_not_ctl].
Qed.

(** The parser refuses them, so that a query holds none. *)
Lemma scheme_from_rest f first s sch rest :
  scheme_from first s = Some (Some (sch, rest)) → str_forallb f s = true → str_forallb f rest = true.
Proof.
  revert first sch. induction s as [|c s IH]; intros first sch; cbn [scheme_from str_forallb]; [done|].
  intros HS [_ Hs]%andb_true_iff. destruct (Ascii.eqb c ":"%char).
  { destruct first; [done|]. by injection HS as <- <-. }
  destruct (_ || _ || _) in HS; [|done].
  destruct (scheme_from false s) as [[[sch' rest']|]|] eqn:E; [|done..]. injection HS as _ <-. by eapply IH.
Qed.
Lemma getScheme_rest f s sch rest :
  getScheme s = Some (sch, rest) → str_forallb f s = true → str_forallb f rest = true.
Proof.
  unfold getScheme. destruct (scheme_from true s) as [[[sch' rest']|]|] eqn:E; intros [=]; subst; [|done].
  by eapply scheme_from_rest.
Qed.
Lemma url_parse_query raw u : url_parse raw = Some u → str_forallb not_ctl (RawQuery u) = true.
Proof.
  unfold url_parse. destruct (str_forallb _ raw) eqn:Hr; [|done]. cbn [negb].
  destruct (str_eqb raw "*"); [by intros [= <-]|]. intros ([sch rest] & Hs & HU)%bind_Some.
  apply (getScheme_rest not_ctl) in Hs; [|exact Hr]. destruct (Cut rest "?"%char) as [[p query] ok] eqn:EC.
  destruct (Cut_forallb _ _ _ _ _ _ EC Hs) as [_ Hq].
  assert (Hp : ∀ a b c d, parse_path a b c d query = Some u → RawQuery u = query).
  { unfold parse_path. intros a b c d (x & _ & [= <-])%bind_Some. done. }
  assert (HR : RawQuery u = query); [|by rewrite HR].
  destruct (negb (HasPrefix p "/")).
  { destruct (negb (str_eqb _ "")); [by injection HU as <-|]. destruct (contains_byte _ _); [done|]. by eapply Hp. }
  destruct (_ && _) in HU; [|by eapply Hp]. destruct (Cut (str_drop 2 p) "/"%char) as [[au tail] found].
  apply bind_Some in HU as ([user host] & _ & HU). by eapply Hp.
Qed.
Lemma url_Parse_query raw u : url_Parse raw = Some u → str_forallb not_ctl (RawQuery u) = true.
Proof.
  unfold url_Parse. destruct (Cut raw "#"%char) as [[v frag] ok].
  intros (u' & Hu & (f & _ & [= <-])%bind_Some)%bind_Some. by apply url_parse_query in Hu.
Qed.

(** ** Checked against the library's documented examples *)
Example parse_host_port : url_Parse "HTTPS://User:pw@Example.com:8443/a%20b/c?x=1#f"
  = Some (MkURL "https" true "Example.com:8443" "/a b/c" "" "x=1" "f").
Proof. vm_compute. reflexivity. Qed.
Example parse_opaque : url_Parse "mailto:ana@x.com" = Some (MkURL "mailto" false "" "" "" "" "").
Proof. vm_compute. reflexivity. Qed.
Example parse_ipv6 : Host <$> url_Parse "http://[2001:db8::1]:80/" = Some "[2001:db8::1]:80".
Proof. vm_compute. reflexivity. Qed.
Example parse_bad_port : url_Parse "http://x.com:8o/" = None.
Proof. vm_compute. reflexivity. Qed.
Example parse_colon_segment : url_Parse "1a:b/c" = None.
Proof. vm_compute. reflexivity. Qed.
Example parse_bad_escape : url_Parse "/a%zz" = None.
Proof. vm_compute. reflexivity. Qed.
Example escaped_path_hint : EscapedPath <$> url_Parse "http://x.com/a%2fb" = Some "/a%2fb".
Proof. vm_compute. reflexivity. Qed.
Example clean_dots : path_Clean "/a/./b/../../c//d/" = "/c/d".
Proof. vm_compute. reflexivity. Qed.
Example clean_relative : path_Clean "../a/../../b" = "../../b".
Proof. vm_compute. reflexivity. Qed.
Example redirect_relative : redirect_location "/auth/google/callback" "login?error=x" = "/auth/google/login?error=x".
Proof. vm_compute. reflexivity. Qed.
