(* ===== verification/GoMux.v ===== *)
(** * GoMux: what the program uses of net/http's ServeMux

    Patterns of literals and single-segment wildcards, the cleaned path, the
    redirect to it, 404 and 405 (net/http of Go 1.22 and later).  A route is
    generic in its handler. *)

From S2P Require Import Prelude GoLib GoHash GoNet GoUrl.

(** ** Patterns *)
Inductive segment := Lit (s : string) | Wild (name : string).
Definition parse_segment (s : string) : segment :=
  if HasPrefix s "{" && HasSuffix s "}" then Wild (str_take (String.length s - 2) (str_drop 1 s)) else Lit s.
Definition pattern_segments (p : string) : list segment :=
  map parse_segment (Split (str_drop 1 p) "/"%char).

(** The segments of an escaped path, unescaped; a bad escape is kept as it
    is, the empty last segment of a trailing slash is "/". *)
Definition pathUnescape (s : string) : string := default s (url_unescape encodePath s).
Definition path_segments (p : string) : list string :=
  map (λ s, if str_eqb s "" then "/" else pathUnescape s) (Split (str_drop 1 p) "/"%char).

(** The values of the wildcards, when the path matches; a wildcard does not
    stand for a trailing slash. *)
Fixpoint match_segments (pat : list segment) (segs : list string) : option (list (string * string)) :=
  match pat, segs with
  | [], [] => Some []
  | Lit a :: pat, s :: segs => if str_eqb a s then match_segments pat segs else None
  | Wild n :: pat, s :: segs =>
      if str_eqb s "/" then None else cons (n, s) <$> match_segments pat segs
  | _, _ => None
  end.

(** [cleanPath]: [path.Clean] with the trailing slash kept. *)
Definition cleanPath (p : string) : string :=
  if str_eqb p "" then "/" else
  let p := if HasPrefix p "/" then p else "/" +:+ p in
  let np := path_Clean p in
  if HasSuffix p "/" && negb (str_eqb np "/") then np +:+ "/" else np.

(** ** The table *)
Record route (H : Type) := MkRoute { rt_method : string; rt_pattern : string; rt_handler : H }.
Arguments MkRoute {H}. Arguments rt_method {H}. Arguments rt_pattern {H}. Arguments rt_handler {H}.

Section table.
Context {H : Type}.
Implicit Types (rs : list (route H)) (r : route H).

Definition route_match (path : string) r : option (list (string * string)) :=
  match_segments (pattern_segments (rt_pattern r)) (path_segments path).
(** The first route of a method; for tables without overlap, the only one. *)
Fixpoint find_exact rs (method path : string) : option (H * list (string * string)) :=
  match rs with
  | [] => None
  | r :: rs =>
      match (if str_eqb (rt_method r) method then route_match path r else None) with
      | Some vals => Some (rt_handler r, vals)
      | None => find_exact rs method path
      end
  end.
(** GET serves HEAD. *)
Definition find_route rs (method path : string) : option (H * list (string * string)) :=
  match find_exact rs method path with
  | Some x => Some x
  | None => if str_eqb method "HEAD" then find_exact rs "GET" path else None
  end.

(** The methods of a 405's Allow header, in order. *)
Definition serves rs (path method : string) : bool :=
  existsb (λ r, str_eqb (rt_method r) method && bool_decide (is_Some (route_match path r))) rs.
Definition matching_methods rs (path : string) : list string :=
  let get := serves rs path "GET" in
  List.filter (λ m, serves rs path m || (str_eqb m "HEAD" && get)) ["DELETE"; "GET"; "HEAD"; "PATCH"; "POST"; "PUT"].

Inductive mux_answer :=
| MuxMoved (url : string)                                  (* to the cleaned path *)
| MuxServe (h : H) (values : list (string * string))
| MuxNotAllowed (methods : list string)
| MuxNotFound.

(** [findHandler] for a table none of whose patterns ends in a slash: the
    path is the escaped one; CONNECT is not cleaned. *)
Definition mux_find rs (method escaped rawquery : string) : mux_answer :=
  let connect := str_eqb method "CONNECT" in
  let path := if connect then escaped else cleanPath escaped in
  if negb connect && negb (str_eqb path escaped)
  then MuxMoved (url_escape encodePath path +:+ (if str_eqb rawquery "" then "" else "?" +:+ rawquery))
  else
    match find_route rs method path with
    | Some (h, vals) => MuxServe h vals
    | None =>
        match matching_methods rs path with
        | [] => MuxNotFound
        | ms => MuxNotAllowed ms
        end
    end.
End table.
Arguments mux_answer : clear implicits.

(** ** Tables without overlap *)
Definition segments_overlap : list segment → list segment → bool :=
  fix go p q :=
    match p, q with
    | [], [] => true
    | Lit a :: p, Lit b :: q => str_eqb a b && go p q
    | _ :: p, _ :: q => go p q
    | _, _ => false
    end.
Definition routes_overlap {H H'} (r : route H) (r' : route H') : bool :=
  str_eqb (rt_method r) (rt_method r')
  && segments_overlap (pattern_segments (rt_pattern r)) (pattern_segments (rt_pattern r')).
Fixpoint unambiguous {H} (rs : list (route H)) : bool :=
  match rs with
  | [] => true
  | r :: rs => forallb (λ r', negb (routes_overlap r r')) rs && unambiguous rs
  end.

Lemma match_segments_overlap p q segs a b :
  match_segments p segs = Some a → match_segments q segs = Some b → segments_overlap p q = true.
Proof.
  revert p q a b. induction segs as [|s segs IH]; intros [|[x|x] p] [|[y|y] q] a b; cbn; try done.
  - destruct (str_eqb x s) eqn:Ex; [|done]. destruct (str_eqb y s) eqn:Ey; [|done].
    apply str_eqb_true in Ex as ->. apply str_eqb_true in Ey as ->. rewrite str_eqb_refl. apply IH.
  - destruct (str_eqb x s); [|done]. destruct (str_eqb s "/"); [done|].
    intros Hp (c & Hq & _)%fmap_Some. by eapply IH.
  - destruct (str_eqb s "/"); [done|]. destruct (str_eqb y s); [|done].
    intros (c & Hp & _)%fmap_Some Hq. by eapply IH.
  - destruct (str_eqb s "/"); [done|]. intros (c & Hp & _)%fmap_Some (c' & Hq & _)%fmap_Some. by eapply IH.
Qed.

(** In a table without overlap every matching route is the one served,
    wherever it stands. *)
Lemma find_exact_unique {H} (rs : list (route H)) r path vals :
  unambiguous rs = true → r ∈ rs → route_match path r = Some vals →
  find_exact rs (rt_method r) path = Some (rt_handler r, vals).
Proof.
  induction rs as [|r0 rs IH]; [by intros _ ?%elem_of_nil|]. cbn [unambiguous find_exact].
  intros [Hf Hu]%andb_true_iff [->|Hin]%elem_of_cons Hm; [by rewrite str_eqb_refl, Hm|].
  rewrite forallb_forall in Hf. specialize (Hf r (proj1 (list_elem_of_In _ _) Hin)).
  destruct (str_eqb (rt_method r0) (rt_method r)) eqn:Em; [|by apply IH].
  destruct (route_match path r0) as [v0|] eqn:E0; [|by apply IH].
  unfold routes_overlap in Hf. rewrite Em in Hf. cbn [andb] in Hf.
  unfold route_match in *. by rewrite (match_segments_overlap _ _ _ _ _ E0 Hm) in Hf.
Qed.
Lemma find_exact_in {H} (rs : list (route H)) method path h vals :
  find_exact rs method path = Some (h, vals) →
  ∃ r, r ∈ rs ∧ rt_method r = method ∧ rt_handler r = h ∧ route_match path r = Some vals.
Proof.
  induction rs as [|r rs IH]; [done|]. cbn [find_exact]. intros E.
  destruct (if str_eqb (rt_method r) method then route_match path r else None) as [v|] eqn:Em.
  - injection E as <- <-. destruct (str_eqb (rt_method r) method) eqn:Es; [|done].
    exists r. split_and!; [by left| by apply str_eqb_true|done|done].
  - destruct (IH E) as (r' & Hin & Hr'). exists r'. split; [by right|done].
Qed.

Example clean_keeps_slash : cleanPath "/a//b/../" = "/a/".
Proof. reflexivity. Qed.
Example match_wildcard :
  match_segments (pattern_segments "/v1/admin/users/{id}/disable") (path_segments "/v1/admin/users/a%2Fb/disable")
  = Some [("id", "a/b")].
Proof. reflexivity. Qed.
