(* ===== verification/GoJson.v ===== *)
(** * GoJson: what the program uses of encoding/json (version 1)

    A parser of JSON texts with the decoder's limits, and the rules by which
    [Unmarshal] stores a value in a field of a struct: names match without
    case, null stores nothing, another kind of value is an error. *)

From S2P Require Import Prelude GoLib GoUnicode GoNet.
#[local] Set Warnings "-register-all".

(** A number keeps its text, an object its members in order. *)
Inductive jvalue :=
| VNull
| VBool (b : bool)
| VNum (text : string)
| VStr (s : string)
| VArr (l : list jvalue)
| VObj (l : list (string * jvalue)).

(** ** Lexing *)
Definition json_space (c : ascii) : bool :=
  let n := N_of_ascii c in ((n =? 32) || (n =? 9) || (n =? 10) || (n =? 13))%N.
Fixpoint skip_space (s : string) : string :=
  match s with
  | String c r => if json_space c then skip_space r else s
  | EmptyString => EmptyString
  end.

(** A string token up to its closing quote: escaped and plain pieces. *)
Inductive piece := PByte (c : ascii) | PUnit (u : N).
Definition simple_escape (c : ascii) : option ascii :=
  match N_of_ascii c with
  | 98 => Some (byte 8) | 102 => Some (byte 12) | 110 => Some (byte 10)
  | 114 => Some (byte 13) | 116 => Some (byte 9)
  | 34 => Some (byte 34) | 92 => Some (byte 92) | 47 => Some (byte 47)
  | _ => None
  end%N.
Definition hex4 (a b c d : ascii) : option N :=
  a ← hex_value_of a; b ← hex_value_of b; c ← hex_value_of c; d ← hex_value_of d;
  Some (((a * 16 + b) * 16 + c) * 16 + d)%N.
Fixpoint scan_string (s : string) : option (list piece * string) :=
  match s with
  | EmptyString => None
  | String c r =>
      if Ascii.eqb c (byte 34) then Some ([], r)
      else if Ascii.eqb c (byte 92) then
        match r with
        | String x r1 =>
            if Ascii.eqb x "u"%char then
              match r1 with
              | String h1 (String h2 (String h3 (String h4 r2))) =>
                  u ← hex4 h1 h2 h3 h4;
                  '(l, rest) ← scan_string r2;
                  Some (PUnit u :: l, rest)
              | _ => None
              end
            else
              e ← simple_escape x;
              '(l, rest) ← scan_string r1;
              Some (PByte e :: l, rest)
        | EmptyString => None
        end
      else if (N_of_ascii c <? 32)%N then None
      else '(l, rest) ← scan_string r; Some (PByte c :: l, rest)
  end.

Definition high_surrogate (u : N) : bool := ((55296 <=? u) && (u <? 56320))%N.
Definition low_surrogate (u : N) : bool := ((56320 <=? u) && (u <? 57344))%N.
(** Escaped pairs become one rune; [encode_rune] replaces a lone half. *)
Fixpoint unquote_pieces (l : list piece) : string :=
  match l with
  | [] => ""
  | PByte c :: l => String c (unquote_pieces l)
  | PUnit u :: l' =>
      match l' with
      | PUnit v :: l =>
          if high_surrogate u && low_surrogate v
          then encode_rune ((u - 55296) * 1024 + (v - 56320) + 65536)%N +:+ unquote_pieces l
          else encode_rune u +:+ unquote_pieces l'
      | _ => encode_rune u +:+ unquote_pieces l'
      end
  end.
(** Ill-formed UTF-8 is replaced as well. *)
Definition unquote (l : list piece) : string :=
  let s := unquote_pieces l in
  if str_forallb is_ascii_byte s then s else of_runes (runes s).

Definition digit (c : ascii) : bool := let n := N_of_ascii c in ((48 <=? n) && (n <=? 57))%N.
Fixpoint take_digits (s : string) : string * string :=
  match s with
  | String c r => if digit c then let '(d, rest) := take_digits r in (String c d, rest) else ("", s)
  | EmptyString => ("", "")
  end.
Definition digits1 (s : string) : option (string * string) :=
  let '(d, r) := take_digits s in if str_eqb d "" then None else Some (d, r).
Definition scan_int (s : string) : option (string * string) :=
  match s with
  | String c r => if Ascii.eqb c "0"%char then Some ("0", r) else digits1 s
  | EmptyString => None
  end.
Definition scan_frac (s : string) : option (string * string) :=
  match s with
  | String c r =>
      if Ascii.eqb c "."%char then '(d, r) ← digits1 r; Some (String "."%char d, r) else Some ("", s)
  | EmptyString => Some ("", s)
  end.
Definition scan_exp (s : string) : option (string * string) :=
  match s with
  | String c r =>
      if Ascii.eqb c "e"%char || Ascii.eqb c "E"%char then
        let '(sign, r) := match r with
                          | String x r' => if Ascii.eqb x "+"%char || Ascii.eqb x "-"%char
                                           then (String x "", r') else ("", r)
                          | EmptyString => ("", r)
                          end in
        '(d, r) ← digits1 r; Some (String c (sign +:+ d), r)
      else Some ("", s)
  | EmptyString => Some ("", s)
  end.
Definition scan_number (s : string) : option (string * string) :=
  let '(sign, r) := match s with
                    | String c r => if Ascii.eqb c "-"%char then ("-", r) else ("", s)
                    | EmptyString => ("", s)
                    end in
  '(i, r) ← scan_int r; '(f, r) ← scan_frac r; '(e, r) ← scan_exp r;
  Some (sign +:+ i +:+ f +:+ e, r).

(** ** Parsing *)
Definition maxNestingDepth : nat := 100 * 100.
Definition literal (word s : string) (v : jvalue) : option (jvalue * string) :=
  if HasPrefix s word then Some (v, str_drop (String.length word) s) else None.

Section parser.
(** The two loops, over the parser of one value. *)
Context (value : string → option (jvalue * string)).

(** Inside "[", after white space; [first]: "]" may follow. *)
Definition member (s : string) : option (string * jvalue * string) :=
  match s with
  | String c r =>
      if Ascii.eqb c (byte 34) then
        '(k, r) ← scan_string r;
        match skip_space r with
        | String c r =>
            if Ascii.eqb c ":"%char then '(v, r) ← value (skip_space r); Some (unquote k, v, skip_space r)
            else None
        | EmptyString => None
        end
      else None
  | EmptyString => None
  end.
Fixpoint elements (fuel : nat) (s : string) : option (list jvalue * string) :=
  match fuel with
  | O => None
  | S fuel =>
      '(v, r) ← value s;
      match skip_space r with
      | String c r =>
          if Ascii.eqb c "]"%char then Some ([v], r)
          else if Ascii.eqb c ","%char then
            '(l, r) ← elements fuel (skip_space r); Some (v :: l, r)
          else None
      | EmptyString => None
      end
  end.
Fixpoint members (fuel : nat) (s : string) : option (list (string * jvalue) * string) :=
  match fuel with
  | O => None
  | S fuel =>
      '(k, v, r) ← member s;
      match r with
      | String c r =>
          if Ascii.eqb c "}"%char then Some ([(k, v)], r)
          else if Ascii.eqb c ","%char then
            '(l, r) ← members fuel (skip_space r); Some ((k, v) :: l, r)
          else None
      | EmptyString => None
      end
  end.
End parser.

(** One value; [fuel] bounds the nesting, the loops are bounded by the text. *)
Fixpoint parse_value (fuel : nat) (s : string) : option (jvalue * string) :=
  match s with
  | EmptyString => None
  | String c r =>
      if Ascii.eqb c "{"%char then
        match fuel with
        | O => None
        | S fuel =>
            let r := skip_space r in
            if HasPrefix r "}" then Some (VObj [], str_drop 1 r)
            else '(l, r) ← members (parse_value fuel) (String.length r) r; Some (VObj l, r)
        end
      else if Ascii.eqb c "["%char then
        match fuel with
        | O => None
        | S fuel =>
            let r := skip_space r in
            if HasPrefix r "]" then Some (VArr [], str_drop 1 r)
            else '(l, r) ← elements (parse_value fuel) (String.length r) r; Some (VArr l, r)
        end
      else if Ascii.eqb c (byte 34) then '(l, r) ← scan_string r; Some (VStr (unquote l), r)
      else if Ascii.eqb c "n"%char then literal "null" s VNull
      else if Ascii.eqb c "t"%char then literal "true" s (VBool true)
      else if Ascii.eqb c "f"%char then literal "false" s (VBool false)
      else '(t, r) ← scan_number s; Some (VNum t, r)
  end.

(** The first value of a text, and a text that is one value. *)
Definition json_first (s : string) : option jvalue :=
  fst <$> parse_value maxNestingDepth (skip_space s).
Definition json_parse (s : string) : option jvalue :=
  '(v, r) ← parse_value maxNestingDepth (skip_space s);
  if str_eqb (skip_space r) "" then Some v else None.

(** ** Storing into Go values *)

(** Field names match exactly or under case folding; two letters beyond ASCII
    fold to ASCII ones. *)
Definition fold_rune (r : N) : N :=
  if ((97 <=? r) && (r <=? 122))%N then (r - 32)%N
  else if (r =? 8490)%N then 75%N
  else if (r =? 383)%N then 83%N
  else r.
Definition name_matches (name key : string) : bool :=
  str_eqb key name || bool_decide (map fold_rune (runes key) = map fold_rune (runes name)).

(** What a value of a JSON text does to a Go variable: [None] is an
    [UnmarshalTypeError], which fails the whole call. *)
Definition store_string (v : jvalue) (cur : string) : option string :=
  match v with VStr s => Some s | VNull => Some cur | _ => None end.
Definition store_bool (v : jvalue) (cur : bool) : option bool :=
  match v with VBool b => Some b | VNull => Some cur | _ => None end.
Definition store_int64 (v : jvalue) (cur : Z) : option Z :=
  match v with VNum t => ParseInt t | VNull => Some cur | _ => None end.

(** A struct: its fields with what each does to it. *)
Fixpoint find_field {A} (fields : list (string * A)) (key : string) : option A :=
  match fields with
  | [] => None
  | (name, a) :: l => if name_matches name key then Some a else find_field l key
  end.
Fixpoint store_members {S} (fields : list (string * (jvalue → S → option S)))
    (ms : list (string * jvalue)) (s : S) : option S :=
  match ms with
  | [] => Some s
  | (k, v) :: ms =>
      match find_field fields k with
      | Some f => s ← f v s; store_members fields ms s
      | None => store_members fields ms s
      end
  end.
Definition store_struct {S} (fields : list (string * (jvalue → S → option S))) (v : jvalue) (s : S)
  : option S :=
  match v with VObj ms => store_members fields ms s | VNull => Some s | _ => None end.

(** A slice: the elements it has are stored into, new ones start from zero. *)
Fixpoint store_elements {S} (f : jvalue → S → option S) (zero : S) (l : list jvalue) (cur : list S)
  : option (list S) :=
  match l with
  | [] => Some []
  | v :: l =>
      s ← f v (default zero (head cur));
      r ← store_elements f zero l (tail cur); Some (s :: r)
  end.
Definition store_slice {S} (f : jvalue → S → option S) (zero : S) (v : jvalue) (cur : list S)
  : option (list S) :=
  match v with VArr l => store_elements f zero l cur | VNull => Some [] | _ => None end.

(** ** Examples *)
Example json_object :
  json_parse (" {" +:+ dquote +:+ "a\u00e9" +:+ dquote +:+ ": [1, -2.5e+3, true , null, {}] } ")
  = Some (VObj [("a" +:+ encode_rune 233, VArr [VNum "1"; VNum "-2.5e+3"; VBool true; VNull; VObj []])]).
Proof. reflexivity. Qed.
Example json_trailing : json_parse "{} x" = None.
Proof. reflexivity. Qed.
Example json_leading_zero : json_parse "[01]" = None.
Proof. reflexivity. Qed.
Example json_surrogates :
  json_parse (dquote +:+ "\ud83d\ude00\ud83d" +:+ dquote)
  = Some (VStr (encode_rune 128512 +:+ encode_rune RuneError)).
Proof. reflexivity. Qed.

(** ** The parser consumes its input, so the loops never run out *)
Lemma skip_space_length s : (String.length (skip_space s) <= String.length s)%nat.
Proof. induction s as [|c s IH]; [done|]. cbn. destruct (json_space c); cbn; lia. Qed.
Lemma str_drop_length n s : String.length (str_drop n s) = (String.length s - n)%nat.
Proof. revert s. induction n as [|n IH]; intros [|c s]; cbn; [done..|]. apply IH. Qed.

(** A scanner that succeeds leaves a shorter text ([strict]) or no longer one. *)
Definition consumes {A} (f : string → option (A * string)) : Prop :=
  ∀ s a r, f s = Some (a, r) → (String.length r < String.length s)%nat.
Definition shrinks {A} (f : string → option (A * string)) : Prop :=
  ∀ s a r, f s = Some (a, r) → (String.length r <= String.length s)%nat.
Lemma consumes_shrinks {A} (f : string → option (A * string)) : consumes f → shrinks f.
Proof. intros H s a r E. apply H in E. lia. Qed.

(** Runs a scanner's definition backwards. *)
Ltac scan_inv :=
  repeat match goal with
  | H : None = Some _ |- _ => discriminate H
  | H : Some _ = Some _ |- _ => injection H; clear H; intros; subst
  | H : (_ ≫= _) = Some _ |- _ => apply bind_Some in H as (? & ? & H)
  | H : (if ?b then _ else _) = Some _ |- _ => destruct b eqn:?
  | x : (_ * _)%type |- _ => destruct x
  | H : (match ?x with _ => _ end) = Some _ |- _ => destruct x eqn:?
  end.

Lemma string_length_ind (P : string → Prop) :
  (∀ s, (∀ t, (String.length t < String.length s)%nat → P t) → P s) → ∀ s, P s.
Proof.
  intros H s. remember (String.length s) as n eqn:E. revert s E.
  induction (Nat.lt_wf_0 n) as [n _ IH]. intros s ->. apply H. intros t Ht. by apply (IH (String.length t)).
Qed.

Lemma scan_string_consumes : consumes scan_string.
Proof.
  intros s. induction s as [s IH] using string_length_ind. intros l r H.
  destruct s as [|c s]; [done|]. cbn [scan_string] in H. scan_inv;
    repeat match goal with
    | H : scan_string ?t = Some _ |- _ => apply IH in H; cbn in *; [|lia]
    end; cbn in *; lia.
Qed.
Lemma take_digits_shrinks s d r : take_digits s = (d, r) → (String.length r <= String.length s)%nat.
Proof.
  revert d r. induction s as [|c s IH]; intros d r; cbn; [by intros [= <- <-]|].
  destruct (digit c); [|by intros [= <- <-]]. destruct (take_digits s) as [d' r'] eqn:E.
  intros [= <- <-]. specialize (IH _ _ eq_refl). lia.
Qed.
Lemma digits1_consumes : consumes digits1.
Proof.
  intros s d r. unfold digits1. destruct (take_digits s) as [d' r'] eqn:E.
  destruct (str_eqb d' "") eqn:Ed; [done|]. intros [= <- <-]. destruct s as [|c s]; cbn in E.
  - by injection E as <- <-.
  - destruct (digit c); [|by injection E as <- <-].
    destruct (take_digits s) as [d2 r2] eqn:E2. injection E as <- <-.
    apply take_digits_shrinks in E2. cbn. lia.
Qed.
Lemma scan_number_consumes : consumes scan_number.
Proof.
  intros s t r H. unfold scan_number in H.
  assert (Hi : consumes scan_int).
  { intros [|c s'] a r'; cbn; [done|]. destruct (Ascii.eqb c "0"%char); [intros [= <- <-]; cbn; lia|].
    apply digits1_consumes. }
  assert (Hf : shrinks scan_frac).
  { intros [|c s'] a r'; cbn; [by intros [= <- <-]|]. destruct (Ascii.eqb c "."%char); [|by intros [= <- <-]].
    intros E. scan_inv. apply digits1_consumes in H0. lia. }
  assert (He : shrinks scan_exp).
  { intros [|c s'] a r'; cbn; [by intros [= <- <-]|]. destruct (_ || _); [|by intros [= <- <-]].
    destruct s' as [|x s'']; [done|]. destruct (Ascii.eqb x "+"%char || Ascii.eqb x "-"%char);
      intros E; scan_inv; apply digits1_consumes in H0; cbn in *; lia. }
  destruct s as [|c s]; [done|]. destruct (Ascii.eqb c "-"%char); scan_inv;
    repeat match goal with
    | H : scan_int _ = Some _ |- _ => apply Hi in H
    | H : scan_frac _ = Some _ |- _ => apply Hf in H
    | H : scan_exp _ = Some _ |- _ => apply He in H
    end; cbn in *; lia.
Qed.

Section loops.
Context (value : string → option (jvalue * string)) (Hvalue : consumes value).

Lemma member_consumes : consumes (member value).
Proof.
  intros s [k v] r H. unfold member in H. scan_inv.
  repeat match goal with
  | H : scan_string _ = Some _ |- _ => apply scan_string_consumes in H
  | H : value _ = Some _ |- _ => apply Hvalue in H
  | H : skip_space ?t = String _ _ |- _ =>
      let L := fresh in pose proof (skip_space_length t) as L; rewrite H in L; clear H
  end.
  repeat match goal with
  | |- context [String.length (skip_space ?t)] => pose proof (skip_space_length t); generalize dependent (skip_space t); intros
  | H : context [String.length (skip_space ?t)] |- _ =>
      pose proof (skip_space_length t); generalize dependent (skip_space t); intros
  end.
  cbn in *; lia.
Qed.

(** Neither loop is cut short: any two bounds that cover the text agree. *)
Lemma elements_fuel n m s :
  (String.length s <= n)%nat → (String.length s <= m)%nat → elements value n s = elements value m s.
Proof.
  revert m s. induction n as [|n IH]; intros m s Hn Hm.
  - destruct s; [|cbn in Hn; lia]. destruct m; [done|]. cbn.
    destruct (value "") as [[v r]|] eqn:E; [apply Hvalue in E; cbn in E; lia|done].
  - destruct m as [|m].
    + destruct s; [|cbn in Hm; lia]. cbn.
      destruct (value "") as [[v r]|] eqn:E; [apply Hvalue in E; cbn in E; lia|done].
    + cbn. destruct (value s) as [[v r]|] eqn:E; [|done]. cbn. apply Hvalue in E.
      pose proof (skip_space_length r) as Hr.
      destruct (skip_space r) as [|c r']; [done|]. destruct (Ascii.eqb c "]"%char); [done|].
      destruct (Ascii.eqb c ","%char); [|done]. pose proof (skip_space_length r'). cbn in Hr.
      by rewrite (IH m) by lia.
Qed.
Lemma members_fuel n m s :
  (String.length s <= n)%nat → (String.length s <= m)%nat → members value n s = members value m s.
Proof.
  revert m s. induction n as [|n IH]; intros m s Hn Hm.
  - destruct s; [|cbn in Hn; lia]. by destruct m.
  - destruct m as [|m].
    + by destruct s; [|cbn in Hm; lia].
    + cbn. destruct (member value s) as [[[k v] r]|] eqn:E; [|done]. cbn. apply member_consumes in E.
      destruct r as [|c r']; [done|]. destruct (Ascii.eqb c "}"%char); [done|].
      destruct (Ascii.eqb c ","%char); [|done]. pose proof (skip_space_length r'). cbn in E.
      by rewrite (IH m) by lia.
Qed.
Lemma elements_consumes n : consumes (elements value n).
Proof.
  induction n as [|n IH]; intros s l r H; [done|]. cbn in H.
  destruct (value s) as [[v r1]|] eqn:E; [|done]. cbn in H. apply Hvalue in E.
  pose proof (skip_space_length r1) as Hr.
  destruct (skip_space r1) as [|c r2]; [done|]. cbn in Hr.
  destruct (Ascii.eqb c "]"%char); [injection H as <- <-; lia|].
  destruct (Ascii.eqb c ","%char); [|done]. scan_inv. apply IH in H0.
  pose proof (skip_space_length r2). lia.
Qed.
Lemma members_consumes n : consumes (members value n).
Proof.
  induction n as [|n IH]; intros s l r H; [done|]. cbn in H.
  destruct (member value s) as [[[k v] r1]|] eqn:E; [|done]. cbn in H. apply member_consumes in E.
  destruct r1 as [|c r2]; [done|]. cbn in E.
  destruct (Ascii.eqb c "}"%char); [injection H as <- <-; lia|].
  destruct (Ascii.eqb c ","%char); [|done]. scan_inv. apply IH in H0.
  pose proof (skip_space_length r2). lia.
Qed.
End loops.

Lemma HasPrefix_length s p : HasPrefix s p = true → (String.length p <= String.length s)%nat.
Proof. intros (t & ->)%HasPrefix_spec. rewrite str_length_app. lia. Qed.

Lemma literal_consumes word v : word ≠ "" → consumes (λ s, literal word s v).
Proof.
  intros Hw s a r. unfold literal. destruct (HasPrefix s word) eqn:E; [|done]. intros [= <- <-].
  rewrite str_drop_length. apply HasPrefix_length in E. destruct word; [done|]. cbn in *. lia.
Qed.
Lemma parse_value_consumes fuel : consumes (parse_value fuel).
Proof.
  induction fuel as [|fuel IH]; intros [|c s] v r H; try done; cbn [parse_value] in H.
  all: destruct (Ascii.eqb c "{"%char);
    [try done|destruct (Ascii.eqb c "["%char);
      [try done|destruct (Ascii.eqb c (byte 34));
        [scan_inv; apply scan_string_consumes in H0; cbn; lia|]]].
  all: try (destruct (Ascii.eqb c "n"%char); [by apply (literal_consumes "null" VNull) in H|];
    destruct (Ascii.eqb c "t"%char); [by apply (literal_consumes "true" (VBool true)) in H|];
    destruct (Ascii.eqb c "f"%char); [by apply (literal_consumes "false" (VBool false)) in H|];
    scan_inv; by apply scan_number_consumes in H0).
  all: pose proof (skip_space_length s).
  all: destruct (HasPrefix (skip_space s) _);
    [pose proof (str_drop_length 1 (skip_space s)); injection H as <- <-; cbn in *; lia|]; scan_inv.
  - apply (members_consumes _ IH) in H1. cbn. lia.
  - apply (elements_consumes _ IH) in H1. cbn. lia.
Qed.

(** The parser terminates without cutting a text short: its only bound is
    the decoder's nesting limit.  The bound on each of its loops, the length
    of the text, is never what ends them: any larger bound gives the same
    result. *)
Theorem json_loops_suffice depth n s :
  (String.length s <= n)%nat →
  members (parse_value depth) n s = members (parse_value depth) (String.length s) s
  ∧ elements (parse_value depth) n s = elements (parse_value depth) (String.length s) s.
Proof.
  intros Hn. pose proof (parse_value_consumes depth) as Hc.
  split; [by apply members_fuel|by apply elements_fuel].
Qed.
Lemma json_loops_suffice_witness :
  elements (parse_value 3) 100 "1, [2]] rest" = Some ([VNum "1"; VArr [VNum "2"]], " rest").
Proof.
  destruct (json_loops_suffice 3 100 "1, [2]] rest") as [_ ->]; [cbn; lia|reflexivity].
Defined.

(** ** [json.Marshal] of texts and of maps whose keys are given in order *)
Definition hex_char (n : N) : ascii := ascii_of_N (if (n <? 10)%N then 48 + n else 87 + n)%N.
Definition unicode_escape (r : N) : string :=
  "\u" +:+ String (hex_char (r / 4096)) (String (hex_char ((r / 256) mod 16))
    (String (hex_char ((r / 16) mod 16)) (String (hex_char (r mod 16)) ""))).
Definition quote_rune (r : option N) : string :=
  match r with
  | None => "\ufffd"
  | Some r =>
      match r with
      | 34 => "\" +:+ dquote | 92 => "\\" | 8 => "\b" | 12 => "\f" | 10 => "\n" | 13 => "\r" | 9 => "\t"
      | 60 | 62 | 38 | 8232 | 8233 => unicode_escape r
      | _ => if (r <? 32)%N then unicode_escape r else encode_rune r
      end%N
  end.
Definition json_quote (s : string) : string :=
  dquote +:+ Join (map quote_rune (decode_runes s)) "" +:+ dquote.
Definition json_marshal_map (l : list (string * string)) : string :=
  "{" +:+ Join (map (λ kv, json_quote (fst kv) +:+ ":" +:+ snd kv) l) "," +:+ "}".
Example json_quote_example :
  json_parse (json_quote ("a<" +:+ dquote +:+ newline)) = Some (VStr ("a<" +:+ dquote +:+ newline)).
Proof. reflexivity. Qed.
