(* ===== verification/GoText.v ===== *)
(** * GoText: UTF-8 and JSON texts there and back

    Decoding undoes the encoding of runes, and the JSON parser undoes
    [json_quote]: what a quoted text is read back as does not depend on what
    follows it. *)

From S2P Require Import Prelude GoLib GoUnicode GoNet GoJson.
#[local] Set Warnings "-register-all".

(** ** UTF-8 *)
Definition scalar (r : N) : Prop := (r < 55296 ∨ 57344 ≤ r ≤ 1114111)%N.
(** A text with every ill-formed byte replaced, as a decoder reads it. *)
Definition valid_text (s : string) : string := of_runes (runes s).

Lemma N_ascii n : (n < 256)%N → N_of_ascii (ascii_of_N n) = n.
Proof. apply N_ascii_embedding. Qed.
Lemma N_ascii_lt c : (N_of_ascii c < 256)%N.
Proof. apply N_ascii_bounded. Qed.

Ltac nb :=
  repeat match goal with
  | H : (_ <? _)%N = true |- _ => apply N.ltb_lt in H
  | H : (_ <? _)%N = false |- _ => apply N.ltb_ge in H
  | H : (_ <=? _)%N = true |- _ => apply N.leb_le in H
  | H : (_ <=? _)%N = false |- _ => apply N.leb_gt in H
  | H : (_ =? _)%N = true |- _ => apply N.eqb_eq in H
  | H : (_ =? _)%N = false |- _ => apply N.eqb_neq in H
  | H : _ && _ = true |- _ => apply andb_true_iff in H as [? ?]
  end.
Lemma ltb_true a b : (a < b)%N → (a <? b)%N = true.
Proof. apply N.ltb_lt. Qed.
Lemma ltb_false a b : (b <= a)%N → (a <? b)%N = false.
Proof. apply N.ltb_ge. Qed.
Lemma range_true lo hi n : (lo <= n <= hi)%N → (lo <=? n)%N && (n <=? hi)%N = true.
Proof. intros [H1 H2]. apply andb_true_iff. by rewrite !N.leb_le. Qed.
Lemma range_false lo hi n : (n < lo ∨ hi < n)%N → (lo <=? n)%N && (n <=? hi)%N = false.
Proof. intros H. apply andb_false_iff. rewrite !N.leb_gt. done. Qed.
Lemma in_range_ascii lo hi n : (lo <= n <= hi)%N → (n < 256)%N → in_range lo hi (ascii_of_N n) = true.
Proof. intros H1 H2. unfold in_range. rewrite N_ascii by done. by apply range_true. Qed.

(** The four lengths of a sequence. *)
Lemma decode_1 n t : (n < 128)%N → decode_runes (String (ascii_of_N n) t) = Some n :: decode_runes t.
Proof. intros Hn. cbn [decode_runes]. rewrite N_ascii by lia. by rewrite ltb_true. Qed.
Lemma decode_2 n b t :
  (2 <= n < 32)%N → (b < 64)%N →
  decode_runes (String (ascii_of_N (192 + n)) (String (ascii_of_N (128 + b)) t)) = Some (n * 64 + b)%N :: decode_runes t.
Proof.
  intros Hn Hb. cbn [decode_runes]. rewrite (N_ascii (192 + n)) by lia.
  rewrite ltb_false, range_true by lia. unfold cont. rewrite in_range_ascii by lia.
  unfold low6. rewrite N_ascii by lia. do 2 f_equal. lia.
Qed.
Lemma decode_3 n b c t :
  (n < 16)%N → (b < 64)%N → (c < 64)%N → (n = 0 → 32 <= b)%N → (n = 13 → b < 32)%N →
  decode_runes (String (ascii_of_N (224 + n)) (String (ascii_of_N (128 + b)) (String (ascii_of_N (128 + c)) t)))
  = Some (n * 4096 + b * 64 + c)%N :: decode_runes t.
Proof.
  intros Hn Hb Hc H0 H13. cbn [decode_runes]. rewrite (N_ascii (224 + n)) by lia.
  rewrite ltb_false, range_false, range_true by lia.
  assert (second_of_3 (224 + n) (ascii_of_N (128 + b)) = true) as ->.
  { unfold second_of_3, cont. destruct (224 + n =? 224)%N eqn:E1; [|destruct (224 + n =? 237)%N eqn:E2]; nb;
      apply in_range_ascii; lia. }
  unfold cont. rewrite in_range_ascii by lia. cbn [andb].
  unfold low6. rewrite !N_ascii by lia. do 2 f_equal. lia.
Qed.
Lemma decode_4 n b c d t :
  (n <= 4)%N → (b < 64)%N → (c < 64)%N → (d < 64)%N → (n = 0 → 16 <= b)%N → (n = 4 → b < 16)%N →
  decode_runes (String (ascii_of_N (240 + n)) (String (ascii_of_N (128 + b))
    (String (ascii_of_N (128 + c)) (String (ascii_of_N (128 + d)) t))))
  = Some (n * 262144 + b * 4096 + c * 64 + d)%N :: decode_runes t.
Proof.
  intros Hn Hb Hc Hd H0 H4. cbn [decode_runes]. rewrite (N_ascii (240 + n)) by lia.
  rewrite ltb_false, !range_false, range_true by lia.
  assert (second_of_4 (240 + n) (ascii_of_N (128 + b)) = true) as ->.
  { unfold second_of_4, cont. destruct (240 + n =? 240)%N eqn:E1; [|destruct (240 + n =? 244)%N eqn:E2]; nb;
      apply in_range_ascii; lia. }
  unfold cont. rewrite !in_range_ascii by lia. cbn [andb].
  unfold low6. rewrite !N_ascii by lia. do 2 f_equal. lia.
Qed.

(** The digits of a number to the base 64, which is all that is used of them. *)
Lemma digits64 r : ∃ a b, (r = a * 64 + b)%N ∧ (b < 64)%N ∧ (r / 64 = a)%N ∧ (r mod 64 = b)%N.
Proof.
  exists (r / 64)%N, (r mod 64)%N. split_and!; [|by apply N.mod_lt|done..].
  rewrite N.mul_comm. by apply N.div_mod.
Qed.
Lemma decode_encode r t : scalar r → decode_runes (encode_rune r +:+ t) = Some r :: decode_runes t.
Proof.
  unfold scalar. intros Hr. unfold encode_rune.
  change 4096%N with (64 * 64)%N. change 262144%N with (64 * 64 * 64)%N. rewrite <-!N.Div0.div_div.
  destruct (digits64 r) as (a & c & E & Hc & -> & ->). destruct (digits64 a) as (b & d & E' & Hd & -> & ->).
  destruct (digits64 b) as (e & f & E'' & Hf & -> & ->).
  destruct (r <? 128)%N eqn:E1; nb; [by apply decode_1|].
  destruct (r <? 2048)%N eqn:E2; nb; cbn [String.append].
  { rewrite decode_2 by lia. do 2 f_equal. lia. }
  destruct (r <? 65536)%N eqn:E3; nb.
  - rewrite range_false by lia. cbn [andb negb String.append].
    rewrite decode_3 by lia. do 2 f_equal. lia.
  - cbn [andb]. rewrite range_true by lia. cbn [String.append].
    rewrite decode_4 by lia. do 2 f_equal. lia.
Qed.

Lemma N_ascii_eq a n : N_of_ascii a = n → a = ascii_of_N n.
Proof. intros <-. by rewrite ascii_N_embedding. Qed.
Lemma in_range_bounds lo hi c : in_range lo hi c = true → (lo <= N_of_ascii c <= hi)%N.
Proof. unfold in_range. intros [H1 H2]%andb_true_iff. by nb. Qed.
(** Decoding yields scalar values. *)
Lemma decode_scalar s : Forall (λ o, scalar (default RuneError o)) (decode_runes s).
Proof.
  assert (Hbad : scalar (default RuneError None)) by (unfold scalar, RuneError; cbn; lia).
  induction s as [s IH] using string_length_ind. destruct s as [|a r]; [constructor|].
  assert (Hr : ∀ t, (String.length t <= String.length r)%nat → Forall (λ o, scalar (default RuneError o)) (decode_runes t)).
  { intros t Ht. apply IH. cbn. lia. }
  cbn [decode_runes]. destruct (N_of_ascii a <? 128)%N eqn:E1; nb.
  { constructor; [|by apply Hr]. unfold scalar. cbn. lia. }
  destruct ((194 <=? N_of_ascii a) && _)%N eqn:E2; nb.
  { destruct r as [|b r1]; [by repeat constructor|]. destruct (cont b) eqn:Eb; [|by constructor; [|apply Hr]].
    apply in_range_bounds in Eb. constructor; [|apply Hr; cbn; lia]. unfold scalar, low6. cbn [default from_option]; unfold id. lia. }
  destruct ((224 <=? N_of_ascii a) && _)%N eqn:E3; nb.
  { destruct r as [|b [|c r2]]; [by repeat constructor..|by constructor; [|apply Hr]|].
    destruct (second_of_3 _ b && cont c) eqn:Eb; [|by constructor; [|apply Hr]].
    apply andb_true_iff in Eb as [Eb Ec]. apply in_range_bounds in Ec. constructor; [|apply Hr; cbn; lia].
    unfold scalar, low6. cbn [default from_option]; unfold id. revert Eb. unfold second_of_3.
    destruct (N_of_ascii a =? 224)%N eqn:F1; [|destruct (N_of_ascii a =? 237)%N eqn:F2];
      intros Eb%in_range_bounds; nb; lia. }
  destruct ((240 <=? N_of_ascii a) && _)%N eqn:E4; nb; [|by constructor; [|apply Hr]].
  destruct r as [|b [|c [|d r3]]]; [by repeat constructor..|by constructor; [|apply Hr]|by constructor; [|apply Hr]|].
  destruct (second_of_4 _ b && cont c && cont d) eqn:Eb; [|by constructor; [|apply Hr]].
  apply andb_true_iff in Eb as [[Eb Ec]%andb_true_iff Ed]. apply in_range_bounds in Ec, Ed.
  constructor; [|apply Hr; cbn; lia]. unfold scalar, low6. cbn [default from_option]; unfold id. revert Eb. unfold second_of_4.
  destruct (N_of_ascii a =? 240)%N eqn:F1; [|destruct (N_of_ascii a =? 244)%N eqn:F2];
    intros Eb%in_range_bounds; nb; lia.
Qed.

Lemma Join_cons x l : Join (x :: l) "" = x +:+ Join l "".
Proof. destruct l; cbn; [by rewrite str_app_nil|done]. Qed.
Lemma of_runes_cons r l : of_runes (r :: l) = encode_rune r +:+ of_runes l.
Proof. apply Join_cons. Qed.
Lemma decode_of_runes l : Forall scalar l → decode_runes (of_runes l) = map Some l.
Proof.
  induction 1 as [|r l Hr _ IH]; [done|]. rewrite of_runes_cons, decode_encode by done. cbn. by rewrite IH.
Qed.
Lemma runes_scalar s : Forall scalar (runes s).
Proof. unfold runes. apply List.Forall_map, decode_scalar. Qed.
Lemma runes_valid s : runes (valid_text s) = runes s.
Proof.
  unfold valid_text. unfold runes at 1. rewrite decode_of_runes by apply runes_scalar.
  rewrite List.map_map. apply List.map_id.
Qed.
(** Replacing twice is replacing once. *)
Lemma valid_text_valid s : valid_text (valid_text s) = valid_text s.
Proof. unfold valid_text at 1. by rewrite runes_valid. Qed.
Lemma valid_text_ascii s : str_forallb is_ascii_byte s = true → valid_text s = s.
Proof.
  unfold valid_text, runes. induction s as [|a s IH]; [done|]. cbn [str_forallb decode_runes].
  intros [Ha Hs]%andb_true_iff. unfold is_ascii_byte in Ha. rewrite Ha. cbn [map]. rewrite of_runes_cons, IH by done.
  unfold encode_rune. cbn [default from_option]. unfold id. rewrite Ha. by rewrite ascii_N_embedding.
Qed.

(** ** JSON texts *)

(** The pieces a quoted rune is scanned into, and that they make the rune. *)
Definition bytes_pieces (s : string) : list piece := map PByte (String.list_ascii_of_string s).
Definition rune_pieces (o : option N) : list piece :=
  let r := default RuneError o in
  let escaped := match o with
    | None => true
    | Some n => ((n <? 32) && negb ((n =? 8) || (n =? 12) || (n =? 10) || (n =? 13) || (n =? 9)))
                || ((n =? 60) || (n =? 62) || (n =? 38) || (n =? 8232) || (n =? 8233))
    end%N in
  if escaped then [PUnit r] else bytes_pieces (encode_rune r).
Lemma quote_rune_plain n : (128 <= n)%N → n ≠ 8232%N → n ≠ 8233%N → quote_rune (Some n) = encode_rune n.
Proof.
  intros Hn H1 H2. unfold quote_rune.
  assert (Hlt : (n <? 32)%N = false) by (apply N.ltb_ge; lia). revert Hlt.
  repeat match goal with
  | |- context [match ?p with xI _ => _ | xO _ => _ | xH => _ end] => is_var p; destruct p
  | |- context [match ?p with N0 => _ | Npos _ => _ end] => is_var p; destruct p
  end; intros Hlt; rewrite ?Hlt; first [reflexivity | exfalso; lia].
Qed.
(** Bytes that a string token holds as they are. *)
Definition plain_byte (c : ascii) : bool :=
  negb (Ascii.eqb c (byte 34)) && negb (Ascii.eqb c (byte 92)) && negb (N_of_ascii c <? 32)%N.
Lemma scan_plain b t l rest :
  str_forallb plain_byte b = true → scan_string t = Some (l, rest) →
  scan_string (b +:+ t) = Some (bytes_pieces b ++ l, rest).
Proof.
  intros Hb Ht. induction b as [|c b IH]; [done|]. cbn [str_forallb] in Hb. apply andb_true_iff in Hb as [Hc Hb].
  unfold plain_byte in Hc. apply andb_true_iff in Hc as [[H1 H2]%andb_true_iff H3].
  apply negb_true_iff in H1, H2, H3. cbn [String.append scan_string]. rewrite H1, H2, H3, IH by done. done.
Qed.
Lemma high_byte_plain n : (128 <= n < 256)%N → plain_byte (ascii_of_N n) = true.
Proof.
  intros Hn. unfold plain_byte. rewrite N_ascii by lia. rewrite ltb_false by lia.
  assert (H : ∀ k, (k < 128)%nat → Ascii.eqb (ascii_of_N n) (byte k) = false).
  { intros k Hk. apply Ascii.eqb_neq. intros E. apply (f_equal N_of_ascii) in E. rewrite N_ascii in E by lia.
    unfold byte, ascii_of_nat in E. rewrite N_ascii in E by lia. lia. }
  by rewrite !H by lia.
Qed.
Lemma high_rune_plain n : (128 <= n)%N → scalar n → str_forallb plain_byte (encode_rune n) = true.
Proof.
  unfold scalar. intros Hn Hs. unfold encode_rune.
  change 4096%N with (64 * 64)%N. change 262144%N with (64 * 64 * 64)%N. rewrite <-!N.Div0.div_div.
  destruct (digits64 n) as (a & c & E & Hc & -> & ->). destruct (digits64 a) as (b & d & E' & Hd & -> & ->).
  destruct (digits64 b) as (e & f & E'' & Hf & -> & ->).
  rewrite ltb_false by lia.
  destruct (n <? 2048)%N eqn:E2; nb; cbn [str_forallb]; [by rewrite !high_byte_plain by lia|].
  destruct (n <? 65536)%N eqn:E3; nb.
  - rewrite range_false by lia. cbn [andb negb str_forallb]. by rewrite !high_byte_plain by lia.
  - cbn [andb]. rewrite range_true by lia. cbn [str_forallb]. by rewrite !high_byte_plain by lia.
Qed.
Lemma scan_rune o t l rest :
  scalar (default RuneError o) → scan_string t = Some (l, rest) →
  scan_string (quote_rune o +:+ t) = Some (rune_pieces o ++ l, rest).
Proof.
  intros Ho Ht. destruct o as [n|]; [|by cbn; rewrite Ht].
  cbn [default from_option] in Ho. unfold id in Ho.
  destruct (decide (n < 128)%N) as [Hn|Hn].
  - assert (Hall : Forall (λ n, scan_string (quote_rune (Some n) +:+ t) = Some (rune_pieces (Some n) ++ l, rest))
      (map N.of_nat (seq 0 128))).
    { set (L := map N.of_nat (seq 0 128)). vm_compute in L. subst L.
      repeat (apply Forall_cons; split; [cbn; by rewrite Ht|]). apply Forall_nil_2. }
    rewrite Forall_forall in Hall. apply Hall, list_elem_of_fmap. exists (N.to_nat n).
    split; [by rewrite N2Nat.id|]. apply elem_of_seq. lia.
  - destruct (decide (n = 8232)%N) as [->|H1]; [by cbn; rewrite Ht|].
    destruct (decide (n = 8233)%N) as [->|H2]; [by cbn; rewrite Ht|].
    rewrite quote_rune_plain by lia.
    rewrite (scan_plain _ _ l rest (high_rune_plain n ltac:(lia) Ho) Ht).
    unfold rune_pieces. rewrite ltb_false by lia. cbn [andb orb default from_option]. unfold id.
    assert (((n =? 60) || (n =? 62) || (n =? 38) || (n =? 8232) || (n =? 8233))%N = false) as ->; [|done].
    apply N.eqb_neq in H1, H2. rewrite H1, H2.
    by rewrite !(proj2 (N.eqb_neq n _)) by lia.
Qed.

(** Pieces come together again: an escape made by [json_quote] is no half of
    a surrogate pair. *)
Lemma unquote_bytes s l : unquote_pieces (bytes_pieces s ++ l) = s +:+ unquote_pieces l.
Proof. unfold bytes_pieces. induction s as [|c s IH]; [done|]. cbn. by rewrite IH. Qed.
Lemma unquote_unit u l :
  high_surrogate u = false → unquote_pieces (PUnit u :: l) = encode_rune u +:+ unquote_pieces l.
Proof. intros Hu. cbn [unquote_pieces]. destruct l as [|[c|v] l]; [done..|]. by rewrite Hu. Qed.
Lemma unquote_rune o l :
  scalar (default RuneError o) →
  unquote_pieces (rune_pieces o ++ l) = encode_rune (default RuneError o) +:+ unquote_pieces l.
Proof.
  intros Ho. unfold rune_pieces. set (e := match o with None => true | Some _ => _ end).
  destruct e; [|by apply unquote_bytes]. apply unquote_unit. unfold high_surrogate, scalar in *.
  apply andb_false_iff. rewrite N.leb_gt, N.ltb_ge. lia.
Qed.
Lemma scan_quoted os rest :
  Forall (λ o, scalar (default RuneError o)) os →
  ∃ l, scan_string (Join (map quote_rune os) "" +:+ dquote +:+ rest) = Some (l, rest)
    ∧ unquote_pieces l = of_runes (map (default RuneError) os).
Proof.
  induction 1 as [|o os Ho _ (l & Hl & Hu)]; [by exists []|].
  exists (rune_pieces o ++ l). cbn [map]. rewrite Join_cons, str_app_assoc. split; [by apply scan_rune|].
  by rewrite unquote_rune, of_runes_cons, Hu.
Qed.

(** A quoted text is read back up to its closing quote, whatever follows. *)
Lemma scan_json_quote s rest :
  ∃ l, json_quote s +:+ rest = String (byte 34) (Join (map quote_rune (decode_runes s)) "" +:+ dquote +:+ rest)
    ∧ scan_string (Join (map quote_rune (decode_runes s)) "" +:+ dquote +:+ rest) = Some (l, rest)
    ∧ unquote l = valid_text s.
Proof.
  destruct (scan_quoted (decode_runes s) rest (decode_scalar s)) as (l & Hl & Hu). exists l. split_and!; [|done|].
  - unfold json_quote. by rewrite !str_app_assoc.
  - unfold unquote. change (unquote_pieces l = valid_text s) in Hu. rewrite Hu.
    destruct (str_forallb is_ascii_byte (valid_text s)); [done|]. apply valid_text_valid.
Qed.
Lemma parse_json_quote fuel s rest :
  parse_value fuel (json_quote s +:+ rest) = Some (VStr (valid_text s), rest).
Proof.
  destruct (scan_json_quote s rest) as (l & -> & Hl & <-). destruct fuel; cbn [parse_value]; cbn [Ascii.eqb];
    rewrite Hl; reflexivity.
Qed.
Lemma member_json_quote (value : string → option (jvalue * string)) k rest :
  member value (json_quote k +:+ ":" +:+ rest)
  = ('(v, r) ← value (skip_space rest); Some (valid_text k, v, skip_space r)).
Proof.
  destruct (scan_json_quote k (":" +:+ rest)) as (l & -> & Hl & <-). unfold member. cbn [Ascii.eqb].
  rewrite Hl. reflexivity.
Qed.

(** [json.Unmarshal] of what [json.Marshal] makes of a text. *)
Theorem json_text_roundtrip s : json_parse (json_quote s) = Some (VStr (valid_text s)).
Proof.
  unfold json_parse. rewrite <-(str_app_nil (json_quote s)).
  assert (Hs : skip_space (json_quote s +:+ "") = json_quote s +:+ "") by reflexivity.
  rewrite Hs, parse_json_quote. reflexivity.
Qed.

(** ** Objects, member by member *)
Section objects.
Context (depth : nat).
Abbreviation value := (parse_value depth).
(** The members up to the closing brace, with as much fuel as there is text. *)
Definition object_body (s : string) : option (list (string * jvalue) * string) := members value (String.length s) s.
Lemma object_body_cons s k v r l rest :
  member value s = Some (k, v, String ","%char r) → object_body (skip_space r) = Some (l, rest) →
  object_body s = Some ((k, v) :: l, rest).
Proof.
  intros Hm Hl. pose proof (parse_value_consumes depth) as Hc. pose proof (member_consumes _ Hc _ _ _ Hm) as Hlen.
  unfold object_body in *. destruct (String.length s) as [|n] eqn:E; [lia|]. cbn [members]. rewrite Hm. cbn in *.
  pose proof (skip_space_length r). rewrite (members_fuel _ Hc n (String.length (skip_space r))) by lia. by rewrite Hl.
Qed.
Lemma object_body_last s k v r : member value s = Some (k, v, String "}"%char r) → object_body s = Some ([(k, v)], r).
Proof.
  intros Hm. pose proof (parse_value_consumes depth) as Hc. pose proof (member_consumes _ Hc _ _ _ Hm) as Hlen.
  unfold object_body. destruct (String.length s) as [|n] eqn:E; [lia|]. cbn [members]. by rewrite Hm.
Qed.
Lemma parse_object r l rest :
  HasPrefix (skip_space r) "}" = false → object_body (skip_space r) = Some (l, rest) →
  parse_value (S depth) (String "{" r) = Some (VObj l, rest).
Proof. intros Hp Hl. cbn [parse_value]. cbn [Ascii.eqb]. rewrite Hp. unfold object_body in Hl. by rewrite Hl. Qed.

(** A text that is read as one value, whatever follows. *)
Definition prints (text : string) (v : jvalue) : Prop :=
  ∀ rest, skip_space (text +:+ rest) = text +:+ rest ∧ value (text +:+ rest) = Some (v, rest).
Lemma prints_quote s : prints (json_quote s) (VStr (valid_text s)).
Proof. intros rest. split; [reflexivity|apply parse_json_quote]. Qed.

Lemma marshal_body l vs rest :
  Forall2 (λ kv v, prints (snd kv) v) l vs → l ≠ [] →
  object_body (Join (map (λ kv, json_quote (fst kv) +:+ ":" +:+ snd kv) l) "," +:+ "}" +:+ rest)
  = Some (zip (map (valid_text ∘ fst) l) vs, rest).
Proof.
  assert (Hm : ∀ k t v r, prints t v →
    member value ((json_quote k +:+ ":" +:+ t) +:+ r) = Some (valid_text k, v, skip_space r)).
  { intros k t v r Ht. rewrite !str_app_assoc, member_json_quote. destruct (Ht r) as [-> ->]. done. }
  induction 1 as [|[k t] v l vs Ht Hl IH]; intros Hne; [done|]. destruct Hl as [|[k' t'] v' l vs Ht' Hl].
  - cbn [map Join]. apply object_body_last. by rewrite (Hm _ _ v).
  - change (Join (map (λ kv, json_quote (fst kv) +:+ ":" +:+ snd kv) ((k, t) :: (k', t') :: l)) ",")
      with ((json_quote k +:+ ":" +:+ t) +:+ "," +:+ Join (map (λ kv, json_quote (fst kv) +:+ ":" +:+ snd kv) ((k', t') :: l)) ",").
    set (tail := Join _ _) in *. rewrite str_app_assoc.
    change (zip (map (valid_text ∘ fst) ((k, t) :: (k', t') :: l)) (v :: v' :: vs))
      with ((valid_text k, v) :: zip (map (valid_text ∘ fst) ((k', t') :: l)) (v' :: vs)).
    eapply object_body_cons; [rewrite (Hm _ _ v) by done; reflexivity|].
    assert (Hs : skip_space (tail +:+ "}" +:+ rest) = tail +:+ "}" +:+ rest).
    { unfold tail. cbn [map Join]. by destruct (map _ l). }
    change (object_body (skip_space (tail +:+ "}" +:+ rest)) = Some (zip (map (valid_text ∘ fst) ((k', t') :: l)) (v' :: vs), rest)). rewrite Hs. by apply IH.
Qed.
End objects.

(** [json.Marshal] of a map with texts and one-element lists of texts. *)
Lemma prints_map depth l vs :
  Forall2 (λ kv v, prints depth (snd kv) v) l vs → l ≠ [] →
  prints (S depth) (json_marshal_map l) (VObj (zip (map (valid_text ∘ fst) l) vs)).
Proof.
  intros Hl Hne rest. split; [reflexivity|]. unfold json_marshal_map. rewrite !str_app_assoc.
  set (body := Join _ _ +:+ _).
  assert (Hq : ∃ t, body = String (byte 34) t).
  { destruct l as [|[k t] l]; [done|]. subst body. cbn [map Join]. destruct (map _ l); by eexists. }
  apply parse_object; [destruct Hq as [t ->]; reflexivity|].
  assert (Hs : skip_space body = body) by (destruct Hq as [t ->]; reflexivity). rewrite Hs.
  by apply marshal_body.
Qed.
Lemma prints_single depth s : prints (S depth) ("[" +:+ json_quote s +:+ "]") (VArr [VStr (valid_text s)]).
Proof.
  intros rest. split; [reflexivity|]. rewrite !str_app_assoc. cbn [String.append parse_value]. cbn [Ascii.eqb].
  assert (Hs : ∀ t, skip_space (json_quote s +:+ t) = json_quote s +:+ t) by done. rewrite Hs.
  assert (Hp : ∀ t, HasPrefix (json_quote s +:+ t) "]" = false) by done. rewrite Hp.
  change (String.length (json_quote s +:+ String "]" rest))
    with (S (String.length (str_drop 1 (json_quote s +:+ String "]" rest)))).
  cbn [elements]. rewrite parse_json_quote. reflexivity.
Qed.
