(* ===== verification/GoTime.v ===== *)
(** * GoTime: [time.Parse] with the layout [time.RFC3339]

    An instant is its distance from 1970-01-01T00:00:00Z in nanoseconds.
    The parser is as lenient as Go's: an hour of one digit, a fraction of any
    length after "." or ",", offsets up to 24:60. *)

From S2P Require Import Prelude GoLib GoHash GoNet GoJson.

Definition digit_value (c : ascii) : option Z :=
  if digit c then Some (Z.of_N (N_of_ascii c) - 48) else None.
(** [getnum]: two digits, or one when not [fixed]. *)
Definition getnum (fixed : bool) (s : string) : option (Z * string) :=
  match s with
  | String a r =>
      x ← digit_value a;
      match r with
      | String b r' =>
          match digit_value b with
          | Some y => Some (10 * x + y, r')
          | None => if fixed then None else Some (x, r)
          end
      | EmptyString => if fixed then None else Some (x, r)
      end
  | EmptyString => None
  end.
Definition getyear (s : string) : option (Z * string) :=
  '(a, r) ← getnum true s; '(b, r) ← getnum true r; Some (100 * a + b, r).
Definition skip_byte (c : ascii) (s : string) : option string :=
  match s with
  | String a r => if Ascii.eqb a c then Some r else None
  | EmptyString => None
  end.
Definition in_bounds (lo hi z : Z) : option unit := if (lo <=? z) && (z <=? hi) then Some tt else None.

Definition leap_year (y : Z) : bool := (y mod 4 =? 0) && (negb (y mod 100 =? 0) || (y mod 400 =? 0)).
Definition daysIn (m y : Z) : Z :=
  if m =? 2 then (if leap_year y then 29 else 28)
  else if existsb (Z.eqb m) [4; 6; 9; 11] then 30 else 31.

(** [parseNanoseconds]: nine digits count. *)
Fixpoint nanoseconds (n : nat) (s : string) : Z :=
  match n with
  | O => 0
  | S n =>
      match s with
      | String c r => default 0 (digit_value c) * 10 ^ Z.of_nat n + nanoseconds n r
      | EmptyString => 0
      end
  end.
Definition get_fraction (s : string) : Z * string :=
  match s with
  | String c r =>
      if Ascii.eqb c "."%char || Ascii.eqb c ","%char then
        let '(d, rest) := take_digits r in
        if str_eqb d "" then (0, s) else (nanoseconds 9 d, rest)
      else (0, s)
  | EmptyString => (0, s)
  end.

(** The offset in seconds of "Z" or "+hh:mm" at the end of the text. *)
Definition get_zone (s : string) : option Z :=
  match s with
  | String sign r =>
      if Ascii.eqb sign "Z"%char then (if str_eqb r "" then Some 0 else None) else
      '(hr, r) ← getnum true r; r ← skip_byte ":"%char r; '(mm, r) ← getnum true r;
      _ ← in_bounds 0 24 hr; _ ← in_bounds 0 60 mm;
      if negb (str_eqb r "") then None
      else if Ascii.eqb sign "+"%char then Some ((hr * 60 + mm) * 60)
      else if Ascii.eqb sign "-"%char then Some (- ((hr * 60 + mm) * 60))
      else None
  | EmptyString => None
  end.

(** Days from 1970-01-01 to a date of the Gregorian calendar. *)
Definition days_from_civil (y m d : Z) : Z :=
  let y' := if m <=? 2 then y - 1 else y in
  let era := y' / 400 in
  let yoe := y' mod 400 in
  let doy := (153 * ((m + 9) mod 12) + 2) / 5 + d - 1 in
  era * 146097 + (yoe * 365 + yoe / 4 - yoe / 100 + doy) - 719468.

Definition parse_RFC3339 (s : string) : option Z :=
  '(y, s) ← getyear s; s ← skip_byte "-"%char s;
  '(mo, s) ← getnum true s; _ ← in_bounds 1 12 mo; s ← skip_byte "-"%char s;
  '(d, s) ← getnum true s; s ← skip_byte "T"%char s;
  '(h, s) ← getnum false s; _ ← in_bounds 0 23 h; s ← skip_byte ":"%char s;
  '(mi, s) ← getnum true s; _ ← in_bounds 0 59 mi; s ← skip_byte ":"%char s;
  '(sec, s) ← getnum true s; _ ← in_bounds 0 59 sec;
  let '(ns, s) := get_fraction s in
  zone ← get_zone s; _ ← in_bounds 1 (daysIn mo y) d;
  Some ((days_from_civil y mo d * 86400 + h * 3600 + mi * 60 + sec - zone) * Second + ns).

Example epoch : parse_RFC3339 "1970-01-01T00:00:00Z" = Some 0.
Proof. reflexivity. Qed.
Example leap_day : parse_RFC3339 "2024-02-29T23:59:59.25-03:30" = Some (1709263799 * Second + 250000000).
Proof. reflexivity. Qed.
Example no_leap_day : parse_RFC3339 "2023-02-29T00:00:00Z" = None.
Proof. reflexivity. Qed.
Example short_hour : parse_RFC3339 "2024-01-01T1:02:03Z" = Some (1704070923 * Second).
Proof. reflexivity. Qed.

(** ** [http.ParseTime]: the three date formats of HTTP

    [time.TimeFormat], [time.RFC850] and [time.ANSIC], each as lenient as
    [time.Parse]: names without case, runs of spaces, a fraction after the
    seconds, any abbreviation of a zone (an unknown zone has no offset). *)
Definition shortDayNames : list string := ["Sun"; "Mon"; "Tue"; "Wed"; "Thu"; "Fri"; "Sat"].
Definition longDayNames : list string :=
  ["Sunday"; "Monday"; "Tuesday"; "Wednesday"; "Thursday"; "Friday"; "Saturday"].
Definition shortMonthNames : list string :=
  ["Jan"; "Feb"; "Mar"; "Apr"; "May"; "Jun"; "Jul"; "Aug"; "Sep"; "Oct"; "Nov"; "Dec"].
(** The index, from 1, of the first name the text starts with. *)
Fixpoint lookup_name (tab : list string) (s : string) : option (Z * string) :=
  match tab with
  | [] => None
  | v :: tab =>
      let n := String.length v in
      if (n <=? String.length s)%nat && EqualFold (str_take n s) v then Some (1, str_drop n s)
      else '(i, r) ← lookup_name tab s; Some (i + 1, r)
  end.
Fixpoint cut_spaces (s : string) : string :=
  match s with
  | String c r => if Ascii.eqb c " "%char then cut_spaces r else s
  | EmptyString => EmptyString
  end.
(** A space of the layout. *)
Definition skip_spaces (s : string) : option string :=
  match s with
  | String c _ => if Ascii.eqb c " "%char then Some (cut_spaces s) else None
  | EmptyString => Some EmptyString
  end.
(** "15:04:05", in nanoseconds of the day. *)
Definition get_clock (s : string) : option (Z * string) :=
  '(h, s) ← getnum false s; _ ← in_bounds 0 23 h; s ← skip_byte ":"%char s;
  '(mi, s) ← getnum true s; _ ← in_bounds 0 59 mi; s ← skip_byte ":"%char s;
  '(sec, s) ← getnum true s; _ ← in_bounds 0 59 sec;
  let '(ns, s) := get_fraction s in
  Some ((h * 3600 + mi * 60 + sec) * Second + ns, s).
(** "06": a two-digit year, or a sign and a digit. *)
Definition get_short_year (s : string) : option (Z * string) :=
  y ← Atoi (str_take 2 s);
  if (String.length s <? 2)%nat then None
  else Some (if 69 <=? y then y + 1900 else y + 2000, str_drop 2 s).
(** The length of the digits with their sign of an offset up to 23. *)
Definition signed_offset (s : string) : nat :=
  match s with
  | String sign r =>
      if Ascii.eqb sign "+"%char || Ascii.eqb sign "-"%char then
        let '(d, _) := take_digits r in
        match Atoi d with
        | Some x => if 23 <? x then O else S (String.length d)
        | None => O
        end
      else O
  | EmptyString => O
  end.
Fixpoint count_upper (limit : nat) (s : string) : nat :=
  match limit, s with
  | S limit, String c r =>
      let n := N_of_ascii c in
      if ((65 <=? n) && (n <=? 90))%N then S (count_upper limit r) else O
  | _, _ => O
  end.
(** [parseTimeZone]: the length of the abbreviation, 0 when there is none. *)
Definition zone_length (s : string) : nat :=
  if (String.length s <? 3)%nat then O
  else if HasPrefix s "ChST" || HasPrefix s "MeST" then 4
  else if HasPrefix s "GMT" then (3 + signed_offset (str_drop 3 s))%nat
  else if HasPrefix s "+" || HasPrefix s "-" then signed_offset s
  else
    match count_upper 6 s with
    | 5%nat => if HasSuffix (str_take 5 s) "T" then 5 else 0
    | 4%nat => if HasSuffix (str_take 4 s) "T" || HasPrefix s "WITA" then 4 else 0
    | 3%nat => 3
    | _ => 0
    end%nat.
Definition instant (y mo d clock : Z) : option Z :=
  _ ← in_bounds 1 (daysIn mo y) d; Some (days_from_civil y mo d * 86400 * Second + clock).

Definition parse_TimeFormat (s : string) : option Z :=
  '(_, s) ← lookup_name shortDayNames s; s ← skip_byte ","%char s; s ← skip_spaces s;
  '(d, s) ← getnum true s; s ← skip_spaces s; '(mo, s) ← lookup_name shortMonthNames s;
  s ← skip_spaces s; '(y, s) ← getyear s; s ← skip_spaces s; '(clock, s) ← get_clock s;
  s ← skip_spaces s; if str_eqb s "GMT" then instant y mo d clock else None.
Definition parse_RFC850 (s : string) : option Z :=
  '(_, s) ← lookup_name longDayNames s; s ← skip_byte ","%char s; s ← skip_spaces s;
  '(d, s) ← getnum true s; s ← skip_byte "-"%char s; '(mo, s) ← lookup_name shortMonthNames s;
  s ← skip_byte "-"%char s; '(y, s) ← get_short_year s; s ← skip_spaces s; '(clock, s) ← get_clock s;
  s ← skip_spaces s;
  let n := if HasPrefix s "UTC" then 3%nat else zone_length s in
  if (n =? 0)%nat || negb (str_eqb (str_drop n s) "") then None else instant y mo d clock.
Definition parse_ANSIC (s : string) : option Z :=
  '(_, s) ← lookup_name shortDayNames s; s ← skip_spaces s; '(mo, s) ← lookup_name shortMonthNames s;
  s ← skip_spaces s; '(d, s) ← getnum false s; s ← skip_spaces s; '(clock, s) ← get_clock s;
  s ← skip_spaces s; '(y, s) ← getyear s;
  if str_eqb s "" then instant y mo d clock else None.
Definition http_ParseTime (s : string) : option Z :=
  match parse_TimeFormat s with
  | Some t => Some t
  | None => match parse_RFC850 s with Some t => Some t | None => parse_ANSIC s end
  end.

Example http_date : http_ParseTime "Sun, 06 Nov 1994 08:49:37 GMT" = Some (784111777 * Second).
Proof. reflexivity. Qed.
Example http_date_rfc850 : http_ParseTime "Sunday, 06-Nov-94 08:49:37 GMT" = Some (784111777 * Second).
Proof. reflexivity. Qed.
Example http_date_asctime : http_ParseTime "Sun Nov  6 08:49:37 1994" = Some (784111777 * Second).
Proof. reflexivity. Qed.
