(* ===== verification/Schema.v ===== *)
(** * Schema: the Postgres database the program keeps its state in

    One record per table of [src/migrations/*.sql], keyed by the table's
    primary key (or by the UNIQUE key its statements address).  Instants are
    [Z]: nanoseconds since the Unix epoch, the unit of Go's [time.Time];
    Postgres rounds what it stores to microseconds, which is not modelled.
    Nullable columns are [option]s. *)

From S2P Require Import Prelude GoLib.
From Stdlib Require Import QArith.
Close Scope Q_scope.
Open Scope Z_scope.

(** JSON values: what [encoding/json] is given to print. *)
#[warnings="-register-all"]
Inductive json : Type :=
| JNull
| JBool (b : bool)
| JInt (z : Z)
| JTime (t : Z)            (* a time.Time: an instant in nanoseconds, printed as RFC 3339 *)
| JStr (s : string)
| JArr (l : list json)
| JObj (fields : list (string * json)).

(** ** email/token.go: [Purpose] *)
Inductive Purpose := PurposeReset | PurposeVerify | PurposeMagicLink.
#[export] Instance Purpose_eq_dec : EqDecision Purpose.
Proof. solve_decision. Defined.
Definition purpose_str (p : Purpose) : string :=
  match p with
  | PurposeReset => "reset"
  | PurposeVerify => "verify"
  | PurposeMagicLink => "magiclink"
  end.

(** ** audit/audit.go: [Event] *)
Inductive Event :=
| LoginSuccess | LoginFailed | Signup | SignupRejected | Logout | EmailVerified
| ResetRequested | ResetCompleted | MagicLinkRequest | SessionRevoked
| SessionsRevokedAll | UserDisabled | UserEnabled.
#[export] Instance Event_eq_dec : EqDecision Event.
Proof. solve_decision. Defined.
Definition event_str (e : Event) : string :=
  match e with
  | LoginSuccess => "login.success"
  | LoginFailed => "login.failed"
  | Signup => "signup"
  | SignupRejected => "signup.rejected"
  | Logout => "logout"
  | EmailVerified => "email.verified"
  | ResetRequested => "reset.requested"
  | ResetCompleted => "reset.completed"
  | MagicLinkRequest => "magiclink.requested"
  | SessionRevoked => "session.revoked"
  | SessionsRevokedAll => "sessions.revoked_all"
  | UserDisabled => "user.disabled"
  | UserEnabled => "user.enabled"
  end.

(** ** users *)
Record user_row := MkUser {
  u_email : string;                  (* CITEXT UNIQUE *)
  u_email_verified : bool;
  u_password_hash : option string;   (* PHC text; NULL when OAuth-only *)
  u_name : option string;
  u_picture_url : option string;
  u_created_at : Z;
  u_updated_at : Z;
  u_metadata : list (string * json);
  u_disabled : bool
}.
#[export] Instance user_row_eta : Eta user_row := λ r,
  MkUser (u_email r) (u_email_verified r) (u_password_hash r) (u_name r)
    (u_picture_url r) (u_created_at r) (u_updated_at r) (u_metadata r) (u_disabled r).

(** ** sessions (key: [id_hash]) *)
Record session_row := MkSession {
  s_user_id : string;
  s_created_at : Z;
  s_last_used_at : Z;
  s_expires_at : Z;
  s_user_agent : option string;
  s_ip_first : option string
}.
#[export] Instance session_row_eta : Eta session_row := λ r,
  MkSession (s_user_id r) (s_created_at r) (s_last_used_at r) (s_expires_at r)
    (s_user_agent r) (s_ip_first r).

(** ** one_time_tokens (key: [id]) *)
Record token_row := MkToken {
  t_user_id : string;
  t_hash : string;
  t_purpose : Purpose;
  t_expires_at : Z;
  t_consumed_at : option Z;
  t_created_at : Z
}.
#[export] Instance token_row_eta : Eta token_row := λ r,
  MkToken (t_user_id r) (t_hash r) (t_purpose r) (t_expires_at r) (t_consumed_at r)
    (t_created_at r).

(** ** audit_log (append-only; the identity column is the position) *)
Record audit_row := MkAudit {
  a_occurred_at : Z;
  a_actor_user : option string;
  a_event : Event;
  a_ip : option string;
  a_detail : list (string * json)
}.

(** ** email_outbox (key: [id]) *)
Inductive job_status :=
| pending | accepted | delivered | failed | canceled | expired.
#[export] Instance job_status_eq_dec : EqDecision job_status.
Proof. solve_decision. Defined.

Record outbox_row := MkOutbox {
  ob_user_id : string;
  ob_token_id : option string;       (* REFERENCES one_time_tokens ON DELETE SET NULL *)
  ob_provider : string;
  ob_purpose : Purpose;
  ob_recipient : string;
  ob_sender : string;
  ob_subject : string;
  ob_key_id : option string;
  ob_nonce : option string;
  ob_ciphertext : option string;
  ob_status : job_status;
  ob_attempt_count : Z;
  ob_available_at : Z;
  ob_lease_token : option string;
  ob_lease_until : option Z;
  ob_provider_message_id : option string;
  ob_last_error : option string;
  ob_send_before : Z;
  ob_created_at : Z;
  ob_updated_at : Z;
  ob_accepted_at : option Z;
  ob_delivered_at : option Z;
  ob_failed_at : option Z;
  ob_canceled_at : option Z;
  ob_expired_at : option Z
}.
#[export] Instance outbox_row_eta : Eta outbox_row := λ r,
  MkOutbox (ob_user_id r) (ob_token_id r) (ob_provider r) (ob_purpose r)
    (ob_recipient r) (ob_sender r) (ob_subject r) (ob_key_id r) (ob_nonce r)
    (ob_ciphertext r) (ob_status r) (ob_attempt_count r) (ob_available_at r)
    (ob_lease_token r) (ob_lease_until r) (ob_provider_message_id r)
    (ob_last_error r) (ob_send_before r) (ob_created_at r) (ob_updated_at r)
    (ob_accepted_at r) (ob_delivered_at r) (ob_failed_at r) (ob_canceled_at r)
    (ob_expired_at r).

(** ** email_events (UNIQUE [svix_id]; the identity column is the position) *)
Record event_row := MkEvent {
  ev_svix_id : string;
  ev_provider_message_id : string;
  ev_type : string;
  ev_occurred_at : Z;
  ev_received_at : Z
}.

(** ** rate_limit_buckets (key: [key]); [tokens] is DOUBLE PRECISION, modelled
    by the rational it denotes: rounding is not modelled. *)
Record bucket_row := MkBucket { b_tokens : Q; b_updated_at : Z }.

(** ** identities (key: UNIQUE (provider, provider_sub)) *)
Record identity_row := MkIdentity { i_id : string; i_user_id : string; i_created_at : Z }.

(** ** The database *)
Record db := MkDb {
  users : gmap string user_row;
  identities : gmap (string * string) identity_row;
  sessions : gmap string session_row;
  tokens : gmap string token_row;
  audit_log : list audit_row;
  buckets : gmap string bucket_row;
  outbox : gmap string outbox_row;
  events : list event_row
}.
#[export] Instance db_eta : Eta db := λ d,
  MkDb (users d) (identities d) (sessions d) (tokens d) (audit_log d) (buckets d)
    (outbox d) (events d).

Definition empty_db : db :=
  MkDb ∅ ∅ ∅ ∅ [] ∅ ∅ [].

(** ** UPDATE and DELETE over a whole table *)

(** [UPDATE t SET .. WHERE p]: [f] on the rows [p] selects, the others kept. *)
Definition update_where {K R} `{Countable K} (p : K → R → bool) (f : R → R)
    (m : gmap K R) : gmap K R :=
  map_imap (λ k r, Some (if p k r then f r else r)) m.

(** [DELETE FROM t WHERE p]. *)
Definition delete_where {K R} `{Countable K} (p : K → R → bool)
    (m : gmap K R) : gmap K R :=
  map_imap (λ k r, if p k r then None else Some r) m.

(** The rows [p] selects, in some order. *)
Definition select_where {K R} `{Countable K} (p : K → R → bool)
    (m : gmap K R) : list (K * R) :=
  base.filter (λ kr, Is_true (p (fst kr) (snd kr))) (map_to_list m).

Section table.
Context {K R : Type} `{HK : Countable K}.
Implicit Types (m : gmap K R) (p : K → R → bool).

Lemma lookup_update_where p f m k :
  update_where p f m !! k = (λ r, if p k r then f r else r) <$> (m !! k).
Proof. unfold update_where. rewrite map_lookup_imap. by destruct (m !! k). Qed.

Lemma lookup_delete_where p m k :
  delete_where p m !! k = m !! k ≫= λ r, if p k r then None else Some r.
Proof. unfold delete_where. rewrite map_lookup_imap. done. Qed.

Lemma lookup_delete_where_Some p m k r :
  delete_where p m !! k = Some r ↔ m !! k = Some r ∧ p k r = false.
Proof.
  rewrite lookup_delete_where. destruct (m !! k) as [r'|]; simpl; [|by split; [|intros []]].
  destruct (p k r') eqn:Ep; (split; [intros [=]|intros [[=] ?]]); by subst; try congruence.
Qed.

Lemma delete_where_subseteq p m : delete_where p m ⊆ m.
Proof. apply map_subseteq_spec. by intros k r [? _]%lookup_delete_where_Some. Qed.

Lemma elem_of_select_where p m k r :
  (k, r) ∈ select_where p m ↔ m !! k = Some r ∧ p k r = true.
Proof.
  unfold select_where. rewrite list_elem_of_filter, elem_of_map_to_list. simpl.
  rewrite Is_true_true. tauto.
Qed.

Lemma select_where_nil p m :
  select_where p m = [] ↔ ∀ k r, m !! k = Some r → p k r = false.
Proof.
  split.
  - intros E k r Hk. destruct (p k r) eqn:Hp; [|done].
    assert ((k, r) ∈ select_where p m) as Hin by by apply elem_of_select_where.
    rewrite E in Hin. by apply elem_of_nil in Hin.
  - intros Hall. destruct (select_where p m) as [|[k r] l] eqn:E; [done|].
    assert ((k, r) ∈ select_where p m) as Hin by (rewrite E; left).
    apply elem_of_select_where in Hin as [Hk Hp]. by rewrite (Hall k r) in Hp.
Qed.

Lemma update_where_none p f m :
  (∀ k r, m !! k = Some r → p k r = false) → update_where p f m = m.
Proof.
  intros Hn. apply map_eq. intros k. rewrite lookup_update_where.
  destruct (m !! k) eqn:E; simpl; [|done]. by rewrite (Hn _ _ E).
Qed.

Lemma delete_where_none p m :
  (∀ k r, m !! k = Some r → p k r = false) → delete_where p m = m.
Proof.
  intros Hn. apply map_eq. intros k. rewrite lookup_delete_where.
  destruct (m !! k) eqn:E; simpl; [|done]. by rewrite (Hn _ _ E).
Qed.

Lemma map_Forall_update_where (P : K → R → Prop) p f m :
  map_Forall P m → (∀ k r, P k r → p k r = true → P k (f r)) →
  map_Forall P (update_where p f m).
Proof.
  intros Hm Hf k r. rewrite lookup_update_where, fmap_Some.
  intros (r0 & Hr0 & ->). destruct (p k r0) eqn:E; eauto.
Qed.

Lemma map_Forall_delete_where (P : K → R → Prop) p m :
  map_Forall P m → map_Forall P (delete_where p m).
Proof. intros Hm k r [? _]%lookup_delete_where_Some. by apply Hm. Qed.
End table.

Create HintDb sesamo.
#[export] Hint Resolve map_Forall_update_where map_Forall_delete_where : sesamo.
