(* ===== verification/World.v ===== *)
(** * World: the effects of the program

    Every function of [src/] that touches Postgres, a clock, the random
    generator, the metrics or the HTTP response is a computation [M A]: it
    reads an [oracle] (the answers of the environment, one per effect) and
    passes a [world] along.

    - A database statement is a pure function of the transaction's [now()]
      and the tables; [None] is a constraint violation.
    - The oracle decides for each statement whether Postgres applies it,
      refuses it (no effect), or applies it and loses the answer: the caller
      sees an error although the effect happened.
    - [Begin], [Commit], [Rollback] have Postgres' semantics: a failed
      statement aborts its transaction, an aborted transaction cannot commit.

    A request is handled without another one in between: interleavings are
    the subject of the component files, whose single statements are the
    atomic steps. *)

From S2P Require Import Prelude GoLib GoHash Schema.

(** ** Errors *)
Inductive err : Type :=
| EDb                              (* any failure reported by the driver *)
| ENoRows                          (* pgx.ErrNoRows *)
| EInvalidToken                    (* email.ErrInvalidToken *)
| EUserDisabled                    (* user.ErrUserDisabled *)
| ESignupDisabled                  (* user.ErrSignupDisabled *)
| ELeaseLost                       (* email.ErrLeaseLost *)
| EAuditWrite (e : err)            (* http.auditWriteError *)
| EUnknownKeyID                    (* email.ErrUnknownKeyID *)
| EPayloadAuth                     (* email.ErrPayloadAuth *)
| EOther (s : string).
#[export] Instance err_eq_dec : EqDecision err.
Proof. solve_decision. Defined.

(** [errors.Is(err, target)]: the error chain of [EAuditWrite] is unwrapped. *)
Fixpoint errors_Is (e target : err) : bool :=
  bool_decide (e = target) ||
  match e with EAuditWrite e' => errors_Is e' target | _ => false end.

(** [errors.As(err, &auditWriteError{})]. *)
Definition is_audit_error (e : err) : bool :=
  match e with EAuditWrite _ => true | _ => false end.

(** ** The HTTP request, as net/http hands it to a handler *)
Record request := MkRequest {
  r_method : string;
  r_path : string;                          (* r.URL.Path *)
  r_query : list (string * string);         (* r.URL.Query() *)
  r_form : list (string * string);          (* r.Form: what FormValue searches *)
  r_form_error : bool;                      (* r.ParseForm() failed *)
  r_headers : list (string * string);
  r_cookies : list (string * string);
  r_remote_addr : string;
  r_path_values : list (string * string);   (* r.PathValue *)
  r_body : option string                    (* io.ReadAll(r.Body) *)
}.

#[export] Instance request_eta : Eta request := λ r,
  MkRequest (r_method r) (r_path r) (r_query r) (r_form r) (r_form_error r) (r_headers r)
    (r_cookies r) (r_remote_addr r) (r_path_values r) (r_body r).

(** The first value under a key, [""] when there is none. *)
Fixpoint first_value (l : list (string * string)) (k : string) : string :=
  match l with
  | [] => ""
  | (k', v) :: r => if str_eqb k k' then v else first_value r k
  end.
Definition FormValue (r : request) (k : string) : string := first_value (r_form r) k.
Definition QueryGet (r : request) (k : string) : string := first_value (r_query r) k.
(** Header names are matched in canonical form: case does not matter. *)
Fixpoint header_value (l : list (string * string)) (k : string) : string :=
  match l with
  | [] => ""
  | (k', v) :: r => if EqualFold k k' then v else header_value r k
  end.
Definition HeaderGet (r : request) (k : string) : string := header_value (r_headers r) k.
Definition PathValue (r : request) (k : string) : string := first_value (r_path_values r) k.
Fixpoint find_cookie (l : list (string * string)) (k : string) : option string :=
  match l with
  | [] => None
  | (k', v) :: r => if str_eqb k k' then Some v else find_cookie r k
  end.

(** ** The HTTP response *)
Record cookie := MkCookie {
  ck_name : string;
  ck_value : string;
  ck_path : string;
  ck_domain : string;
  ck_expires : option Z;
  ck_max_age : Z;        (* 0: not sent; negative: delete now *)
  ck_http_only : bool;
  ck_secure : bool;
  ck_same_site_lax : bool
}.

Inductive body :=
| BJson (j : json)
| BText (s : string)
| BHtml (template : string) (fields : list (string * json)).

Record response := MkResponse {
  rs_status : option Z;
  rs_headers : list (string * string);
  rs_cookies : list cookie;
  rs_body : list body
}.
#[export] Instance response_eta : Eta response := λ r,
  MkResponse (rs_status r) (rs_headers r) (rs_cookies r) (rs_body r).
Definition no_response : response := MkResponse None [] [] [].

(** ** The environment and the world *)
Inductive outcome := Applied | Refused | Lost.

Record oracle := MkOracle {
  o_outcome : nat → outcome;        (* of the statement at this step *)
  o_clock : nat → Z;                (* time.Now() at this step *)
  o_dbclock : nat → Z;              (* Postgres' clock at this step *)
  o_rand : nat → nat → ascii;       (* crypto/rand at this step, byte by byte *)
  o_dbuuid : nat → string → string; (* gen_random_uuid() for a row at this step *)
  o_rand_n : nat → Z → Z            (* math/rand/v2 Int64N at this step *)
}.

(** An environment in which everything works and every clock shows [t]. *)
Definition oracle_at (t : Z) : oracle :=
  MkOracle (λ _, Applied) (λ _, t) (λ _, t) (λ i j, byte ((i * 31 + j * 7) mod 256))
    (λ _ k, k) (λ _ n, n - 1).

Record txn := MkTxn { tx_db : db; tx_aborted : bool; tx_now : Z }.
#[export] Instance txn_eta : Eta txn := λ t,
  MkTxn (tx_db t) (tx_aborted t) (tx_now t).

Record world := MkWorld {
  w_db : db;                        (* what is committed *)
  w_tx : option txn;                (* the open transaction *)
  w_step : nat;                     (* effects performed so far *)
  w_resp : response;
  w_metrics : gmap string Z
}.
#[export] Instance world_eta : Eta world := λ w,
  MkWorld (w_db w) (w_tx w) (w_step w) (w_resp w) (w_metrics w).

Definition world_of (d : db) : world := MkWorld d None 0 no_response ∅.

(** ** The monad *)
Definition M (A : Type) : Type := oracle → world → A * world.
#[export] Instance M_ret : MRet M := λ A a o w, (a, w).
#[export] Instance M_bind : MBind M := λ A B k m o w,
  let r := m o w in k (fst r) o (snd r).

(** Short circuit on [if err != nil { return err }]. *)
Definition bindE {A B} (k : A → M (res err B)) (m : M (res err A)) : M (res err B) :=
  r ← m; match r with Ok a => k a | Err e => mret (Err e) end.
Notation "x ←? m ; k" := (bindE (λ x, k) m)
  (at level 20, m at level 100, k at level 200, right associativity) : sesamo_scope.
Notation "' p ←? m ; k" := (bindE (λ x, match x with p => k end) m)
  (at level 20, p pattern, m at level 100, k at level 200, right associativity)
  : sesamo_scope.

Definition tick {A} (f : oracle → nat → A) : M A := λ o w,
  (f o (w_step w), w <| w_step := S (w_step w) |>).

(** [time.Now()]. *)
Definition time_Now : M Z := tick o_clock.
(** [rand.Read] of [n] bytes. *)
Definition rand_bytes (n : nat) : M string :=
  tick (λ o i, String.string_of_list_ascii (map (o_rand o i) (seq 0 n))).

(** [metrics.IncCounter]. *)
Definition IncCounter (name : string) : M unit := λ o w,
  (tt, w <| w_metrics ::= λ m, <[name := default 0 (m !! name) + 1]> m |>).

(** ** Statements and transactions *)
Definition stmt (A : Type) : Type := Z → db → option (A * db).
Inductive executor := Pool | Tx.

Definition exec_pool {A} (s : stmt A) : M (res err A) := λ o w,
  let i := w_step w in
  let w1 := w <| w_step := S i |> in
  match o_outcome o i with
  | Refused => (Err EDb, w1)
  | oc =>
      match s (o_dbclock o i) (w_db w) with
      | None => (Err EDb, w1)
      | Some (a, d) =>
          (match oc with Applied => Ok a | _ => Err EDb end, w1 <| w_db := d |>)
      end
  end.

Definition exec_tx {A} (s : stmt A) : M (res err A) := λ o w,
  let i := w_step w in
  let w1 := w <| w_step := S i |> in
  match w_tx w with
  | None => (Err EDb, w1)
  | Some t =>
      let aborted := (Err EDb, w1 <| w_tx := Some (t <| tx_aborted := true |>) |>) in
      if tx_aborted t then (Err EDb, w1) else
      match o_outcome o i, s (tx_now t) (tx_db t) with
      | Applied, Some (a, d) => (Ok a, w1 <| w_tx := Some (t <| tx_db := d |>) |>)
      | _, _ => aborted
      end
  end.

Definition exec {A} (ex : executor) (s : stmt A) : M (res err A) :=
  match ex with Pool => exec_pool s | Tx => exec_tx s end.

(** [QueryRow(..).Scan(..)]: no row is [pgx.ErrNoRows]. *)
Definition queryRow {A} (ex : executor) (s : stmt (option A)) : M (res err A) :=
  r ←? exec ex s;
  mret (match r with Some a => Ok a | None => Err ENoRows end).

Definition Begin : M (res err unit) := λ o w,
  let i := w_step w in
  let w1 := w <| w_step := S i |> in
  match o_outcome o i with
  | Applied => (Ok tt, w1 <| w_tx := Some (MkTxn (w_db w) false (o_dbclock o i)) |>)
  | _ => (Err EDb, w1)
  end.

Definition Commit : M (res err unit) := λ o w,
  let i := w_step w in
  let w1 := w <| w_step := S i |> <| w_tx := None |> in
  match w_tx w with
  | None => (Err EDb, w1)
  | Some t =>
      if tx_aborted t then (Err EDb, w1) else
      match o_outcome o i with
      | Applied => (Ok tt, w1 <| w_db := tx_db t |>)
      | Refused => (Err EDb, w1)
      | Lost => (Err EDb, w1 <| w_db := tx_db t |>)
      end
  end.

Definition Rollback : M unit := λ o w, (tt, w <| w_tx := None |>).

(** [tx, err := pool.Begin(ctx); defer tx.Rollback(ctx); body]. *)
Definition with_tx {A} (body : M (res err A)) : M (res err A) :=
  _ ←? Begin;
  r ← body;
  _ ← Rollback;
  mret r.
