(* ===== verification/Logic.v ===== *)
(** * Logic: reasoning about the computations of [World]

    - [triple o P m Q]: from a world in [P], [m] run against the oracle [o]
      ends in [Q] of its result and world.
    - [preserves R m]: every run of [m] relates the worlds before and after
      by [R]; with [R] a preorder this composes, so what an operation does
      not touch is found by search ([solve_preserves]).
    - [blind f m]: two runs from worlds that agree on what [f] shows of the
      tables give the same answer. *)

From S2P Require Import Prelude GoLib GoHash Schema World.

(** ** Unfolding the monad *)
Lemma bind_run {A B} (m : M A) (k : A → M B) o w :
  (m ≫= k) o w = k (fst (m o w)) o (snd (m o w)).
Proof. reflexivity. Qed.

Lemma bindE_run {A B} (m : M (res err A)) (k : A → M (res err B)) o w :
  bindE k m o w =
  match fst (m o w) with
  | Ok a => k a o (snd (m o w))
  | Err e => (Err e, snd (m o w))
  end.
Proof. unfold bindE. rewrite bind_run. by destruct (fst (m o w)). Qed.

Lemma ret_run {A} (a : A) o w : (mret a : M A) o w = (a, w).
Proof. reflexivity. Qed.

#[global] Arguments exec : simpl never.
#[global] Arguments exec_pool : simpl never.
#[global] Arguments exec_tx : simpl never.
#[global] Arguments queryRow : simpl never.
#[global] Arguments Begin : simpl never.
#[global] Arguments Commit : simpl never.
#[global] Arguments Rollback : simpl never.
#[global] Arguments with_tx : simpl never.

(** Name the result and the world of the next statement. *)
Tactic Notation "case_exec" ident(x) ident(w) ident(E) :=
  match goal with
  | |- context [exec ?ex ?s ?o ?w0] => destruct (exec ex s o w0) as [x w] eqn:E; cbn [fst snd]
  end.

(** ** Triples *)
Definition triple {A} (o : oracle) (P : world → Prop) (m : M A)
    (Q : A → world → Prop) : Prop :=
  ∀ w, P w → Q (fst (m o w)) (snd (m o w)).

Section triples.
Context (o : oracle).

Lemma triple_ret {A} (a : A) (P : world → Prop) (Q : A → world → Prop) :
  (∀ w, P w → Q a w) → triple o P (mret a) Q.
Proof. intros H w Hw. by apply H. Qed.

Lemma triple_bind {A B} (m : M A) (k : A → M B) P R Q :
  triple o P m R → (∀ a, triple o (R a) (k a) Q) → triple o P (m ≫= k) Q.
Proof. intros Hm Hk w Hw. rewrite bind_run. apply Hk, Hm, Hw. Qed.

Lemma triple_bindE {A B} (m : M (res err A)) (k : A → M (res err B)) P R Q :
  triple o P m (λ r w, match r with Ok a => R a w | Err e => Q (Err e) w end) →
  (∀ a, triple o (R a) (k a) Q) → triple o P (bindE k m) Q.
Proof.
  intros Hm Hk w Hw. rewrite bindE_run. specialize (Hm w Hw).
  destruct (fst (m o w)); simpl in *; [by apply Hk|done].
Qed.

Lemma triple_conseq {A} (m : M A) (P P' : world → Prop) (Q Q' : A → world → Prop) :
  triple o P' m Q' → (∀ w, P w → P' w) → (∀ a w, Q' a w → Q a w) → triple o P m Q.
Proof. intros H HP HQ w Hw. apply HQ, H, HP, Hw. Qed.

Lemma triple_and {A} (m : M A) P (Q1 Q2 : A → world → Prop) :
  triple o P m Q1 → triple o P m Q2 → triple o P m (λ a w, Q1 a w ∧ Q2 a w).
Proof. intros H1 H2 w Hw. split; auto. Qed.
End triples.

(** ** Frames *)
Definition preserves {A} (R : world → world → Prop) (m : M A) : Prop :=
  ∀ o w, R w (snd (m o w)).

Section preserves.
Context (R : world → world → Prop) `{!PreOrder R}.

Lemma preserves_ret {A} (a : A) : preserves R (mret a).
Proof. intros o w. reflexivity. Qed.

Lemma preserves_bind {A B} (m : M A) (k : A → M B) :
  preserves R m → (∀ a, preserves R (k a)) → preserves R (m ≫= k).
Proof. intros Hm Hk o w. rewrite bind_run. etrans; [apply Hm|apply Hk]. Qed.

Lemma preserves_bindE {A B} (m : M (res err A)) (k : A → M (res err B)) :
  preserves R m → (∀ a, preserves R (k a)) → preserves R (bindE k m).
Proof.
  intros Hm Hk. apply preserves_bind; [done|]. intros [a|e]; [apply Hk|].
  apply preserves_ret.
Qed.

Lemma preserves_triple {A} (m : M A) o w :
  preserves R m → triple o (λ w', w' = w) m (λ _ w', R w w').
Proof. intros Hm w' ->. apply Hm. Qed.
End preserves.

(** [sees f]: the world projection [f] is left unchanged. *)
Definition sees {X} (f : world → X) (w w' : world) : Prop := f w' = f w.
#[export] Instance sees_preorder {X} (f : world → X) : PreOrder (sees f).
Proof. split; [done|]. intros w1 w2 w3 H1 H2. unfold sees in *. by etrans. Qed.

Create HintDb preserves.

Ltac preserves_step :=
  lazymatch goal with
  | |- preserves _ (mret _) => apply preserves_ret; exact _
  | |- preserves _ (bindE _ _) => apply preserves_bindE; [exact _|..]
  | |- preserves _ (mbind _ _) => apply preserves_bind; [exact _|..]
  | |- preserves _ (match ?x with _ => _ end) => destruct x eqn:?
  | |- forall _, _ => intro
  end.
Ltac solve_preserves :=
  repeat first [ preserves_step | solve [eauto with preserves] ].

(** ** The primitives *)
Lemma tick_sees_db {A} (f : oracle → nat → A) : preserves (sees w_db) (tick f).
Proof. done. Qed.
Lemma tick_sees_tx {A} (f : oracle → nat → A) : preserves (sees w_tx) (tick f).
Proof. done. Qed.
Lemma tick_sees_resp {A} (f : oracle → nat → A) : preserves (sees w_resp) (tick f).
Proof. done. Qed.
Lemma IncCounter_sees_db n : preserves (sees w_db) (IncCounter n).
Proof. done. Qed.
Lemma IncCounter_sees_tx n : preserves (sees w_tx) (IncCounter n).
Proof. done. Qed.
Lemma IncCounter_sees_resp n : preserves (sees w_resp) (IncCounter n).
Proof. done. Qed.

Lemma exec_tx_sees_db {A} (s : stmt A) : preserves (sees w_db) (exec_tx s).
Proof.
  intros o w. unfold sees, exec_tx. destruct (w_tx w) as [t|]; [|done].
  destruct (tx_aborted t); [done|]. destruct (o_outcome o (w_step w)); [|done..].
  by destruct (s _ _) as [[]|].
Qed.

Lemma exec_pool_sees_tx {A} (s : stmt A) : preserves (sees w_tx) (exec_pool s).
Proof.
  intros o w. unfold sees, exec_pool.
  destruct (o_outcome o (w_step w)); [|done|]; by destruct (s _ _) as [[]|].
Qed.

Lemma exec_sees_resp {A} ex (s : stmt A) : preserves (sees w_resp) (exec ex s).
Proof.
  intros o w. unfold sees. destruct ex; unfold exec, exec_pool, exec_tx.
  - destruct (o_outcome o (w_step w)); [|done|]; by destruct (s _ _) as [[]|].
  - destruct (w_tx w) as [t|]; [|done]. destruct (tx_aborted t); [done|].
    destruct (o_outcome o (w_step w)); [|done..]. by destruct (s _ _) as [[]|].
Qed.

Lemma exec_Tx_sees_db {A} (s : stmt A) : preserves (sees w_db) (exec Tx s).
Proof. apply exec_tx_sees_db. Qed.
Lemma exec_Pool_sees_tx {A} (s : stmt A) : preserves (sees w_tx) (exec Pool s).
Proof. apply exec_pool_sees_tx. Qed.

#[export] Hint Resolve tick_sees_db tick_sees_tx tick_sees_resp IncCounter_sees_db
  IncCounter_sees_tx IncCounter_sees_resp exec_sees_resp exec_Tx_sees_db
  exec_Pool_sees_tx : preserves.

Lemma queryRow_preserves {A} R `{!PreOrder R} ex (s : stmt (option A)) :
  preserves R (exec ex s) → preserves R (queryRow ex s).
Proof. intros H. unfold queryRow. solve_preserves. Qed.
#[export] Hint Resolve queryRow_preserves : preserves.
#[export] Hint Extern 1 (PreOrder _) => exact _ : preserves.

Lemma Begin_sees_db : preserves (sees w_db) Begin.
Proof. intros o w. unfold Begin, sees. by destruct (o_outcome o (w_step w)). Qed.
Lemma Begin_sees_resp : preserves (sees w_resp) Begin.
Proof. intros o w. unfold Begin, sees. by destruct (o_outcome o (w_step w)). Qed.
Lemma Commit_sees_resp : preserves (sees w_resp) Commit.
Proof.
  intros o w. unfold Commit, sees. destruct (w_tx w) as [t|]; [|done].
  destruct (tx_aborted t); [done|]. by destruct (o_outcome o (w_step w)).
Qed.
Lemma Rollback_sees_db : preserves (sees w_db) Rollback.
Proof. done. Qed.
Lemma Rollback_sees_resp : preserves (sees w_resp) Rollback.
Proof. done. Qed.
#[export] Hint Resolve Begin_sees_db Begin_sees_resp Commit_sees_resp Rollback_sees_db
  Rollback_sees_resp : preserves.
Lemma with_tx_sees_resp {A} (m : M (res err A)) :
  preserves (sees w_resp) m → preserves (sees w_resp) (with_tx m).
Proof. intros H. unfold with_tx. solve_preserves. Qed.
#[export] Hint Resolve with_tx_sees_resp : preserves.

(** A statement issued through the pool leaves the tables as they were or
    as the statement makes them. *)
Lemma exec_pool_db {A} (P : db → Prop) (s : stmt A) o w :
  P (w_db w) →
  (∀ now a d, s now (w_db w) = Some (a, d) → P d) →
  P (w_db (snd (exec_pool s o w))).
Proof.
  intros Hw Hs. unfold exec_pool.
  destruct (o_outcome o (w_step w)); [|done|];
    destruct (s _ _) as [[a d]|] eqn:E; rsimp; eauto.
Qed.

(** An acknowledged statement was applied at the database's clock. *)
Lemma exec_pool_ok {A} (s : stmt A) o w a w' :
  exec_pool s o w = (Ok a, w') →
  ∃ d, s (o_dbclock o (w_step w)) (w_db w) = Some (a, d)
       ∧ w' = w <| w_step := S (w_step w) |> <| w_db := d |>.
Proof.
  unfold exec_pool. destruct (o_outcome o (w_step w)); [|done|];
    destruct (s _ _) as [[a' d]|] eqn:E; intros [=]; subst; eauto.
Qed.

(** An acknowledged statement inside a transaction, on its private copy. *)
Lemma exec_tx_ok {A} (s : stmt A) o w a w' :
  exec_tx s o w = (Ok a, w') →
  ∃ t d, w_tx w = Some t ∧ tx_aborted t = false
         ∧ s (tx_now t) (tx_db t) = Some (a, d)
         ∧ w' = w <| w_step := S (w_step w) |> <| w_tx := Some (t <| tx_db := d |>) |>.
Proof.
  unfold exec_tx. destruct (w_tx w) as [t|]; [|done].
  destruct (tx_aborted t) eqn:Ea; [done|].
  destruct (o_outcome o (w_step w)); [|done..].
  destruct (s _ _) as [[a' d]|] eqn:E; intros [=]; subst; eauto 8.
Qed.

(** ** Database invariants

    [winv I w]: [I] holds of the committed tables and of the open
    transaction's copy.  [keeps I] relates worlds across which it survives;
    it is a preorder, so [preserves (keeps I)] composes. *)
Definition winv (I : db → Prop) (w : world) : Prop :=
  I (w_db w) ∧ ∀ t, w_tx w = Some t → I (tx_db t).
Definition keeps (I : db → Prop) (w w' : world) : Prop := winv I w → winv I w'.
#[export] Instance keeps_preorder I : PreOrder (keeps I).
Proof. split; [intros w H; exact H|]. intros w1 w2 w3 H1 H2 H. by apply H2, H1. Qed.

(** [stmt_ok I s]: the statement [s] maintains [I] whenever it applies. *)
Definition stmt_ok {A} (I : db → Prop) (s : stmt A) : Prop :=
  ∀ now d a d', I d → s now d = Some (a, d') → I d'.

Lemma exec_keeps {A} I ex (s : stmt A) : stmt_ok I s → preserves (keeps I) (exec ex s).
Proof.
  intros Hs o w [Hd Ht]. destruct ex; unfold exec, exec_pool, exec_tx.
  - destruct (o_outcome o (w_step w)); [|done|];
      destruct (s _ _) as [[a d]|] eqn:E; split; rsimp; eauto.
  - destruct (w_tx w) as [t|] eqn:Et; [|split; rsimp; [done|congruence]].
    destruct (tx_aborted t); [split; rsimp; [done|]; intros t'; rewrite Et; eauto|].
    specialize (Ht t eq_refl).
    destruct (o_outcome o (w_step w)), (s (tx_now t) (tx_db t)) as [[a d]|] eqn:E;
      split; rsimp; try done; intros ? [=]; subst; rsimp; eauto.
Qed.

Lemma Begin_keeps I : preserves (keeps I) Begin.
Proof.
  intros o w [Hd Ht]. unfold Begin.
  destruct (o_outcome o (w_step w)); split; rsimp; try done; by intros ? [= <-].
Qed.

Lemma Commit_keeps I : preserves (keeps I) Commit.
Proof.
  intros o w [Hd Ht]. unfold Commit. destruct (w_tx w) as [t|] eqn:Et; [|split; rsimp; naive_solver].
  specialize (Ht t eq_refl). destruct (tx_aborted t); [split; rsimp; naive_solver|].
  destruct (o_outcome o (w_step w)); split; rsimp; naive_solver.
Qed.

Lemma Rollback_keeps I : preserves (keeps I) Rollback.
Proof. intros o w [Hd Ht]. split; rsimp; naive_solver. Qed.

Lemma tick_keeps {A} I (f : oracle → nat → A) : preserves (keeps I) (tick f).
Proof. intros o w H. exact H. Qed.
Lemma IncCounter_keeps I n : preserves (keeps I) (IncCounter n).
Proof. intros o w H. exact H. Qed.

#[export] Hint Resolve exec_keeps Begin_keeps Commit_keeps Rollback_keeps tick_keeps
  IncCounter_keeps : preserves.

Lemma with_tx_keeps {A} I (m : M (res err A)) :
  preserves (keeps I) m → preserves (keeps I) (with_tx m).
Proof. intros H. unfold with_tx. solve_preserves. Qed.
#[export] Hint Resolve with_tx_keeps : preserves.

(** ** Two runs

    [agree f w1 w2]: the worlds can differ only in what the projection [f] of
    the tables does not see.  [blind f m]: from such worlds, against the same
    oracle, [m] answers the same and leaves such worlds. *)
Definition agree_tx {X} (f : db → X) (t1 t2 : option txn) : Prop :=
  match t1, t2 with
  | None, None => True
  | Some t1, Some t2 => f (tx_db t1) = f (tx_db t2) ∧ tx_aborted t1 = tx_aborted t2 ∧ tx_now t1 = tx_now t2
  | _, _ => False
  end.
Record agree {X} (f : db → X) (w1 w2 : world) : Prop := {
  ag_db : f (w_db w1) = f (w_db w2);
  ag_tx : agree_tx f (w_tx w1) (w_tx w2);
  ag_step : w_step w1 = w_step w2;
  ag_resp : w_resp w1 = w_resp w2
}.
Definition blind {X A} (f : db → X) (m : M A) : Prop :=
  ∀ o w1 w2, agree f w1 w2 → fst (m o w1) = fst (m o w2) ∧ agree f (snd (m o w1)) (snd (m o w2)).
Definition stmt_blind {X A} (f : db → X) (s : stmt A) : Prop := ∀ now d1 d2, f d1 = f d2 →
  match s now d1, s now d2 with
  | Some (a1, d1'), Some (a2, d2') => a1 = a2 ∧ f d1' = f d2'
  | None, None => True
  | _, _ => False
  end.

Section blind.
Context {X : Type} (f : db → X).
Lemma blind_ret {A} (a : A) : blind f (mret a).
Proof. by intros o w1 w2. Qed.
Lemma blind_bind {A B} (m : M A) (k : A → M B) : blind f m → (∀ a, blind f (k a)) → blind f (m ≫= k).
Proof.
  intros Hm Hk o w1 w2 Hw. rewrite !bind_run. destruct (Hm o w1 w2 Hw) as [E Hw']. rewrite E. by apply Hk.
Qed.
Lemma blind_bindE {A B} (m : M (res err A)) (k : A → M (res err B)) :
  blind f m → (∀ a, blind f (k a)) → blind f (bindE k m).
Proof. intros Hm Hk. apply blind_bind; [done|]. intros [a|e]; [apply Hk|apply blind_ret]. Qed.
Lemma blind_exec_pool {A} (s : stmt A) : stmt_blind f s → blind f (exec Pool s).
Proof.
  intros Hs o w1 w2 [Hd Ht Hi Hr]. unfold exec, exec_pool. rewrite <-Hi.
  specialize (Hs (o_dbclock o (w_step w1)) _ _ Hd).
  destruct (o_outcome o (w_step w1)); [|split; [done|by split; cbn; rewrite ?Hi]|];
    destruct (s _ (w_db w1)) as [[a1 d1]|], (s _ (w_db w2)) as [[a2 d2]|]; try done;
    try (destruct Hs as [-> Hs]); (split; [done|by split; cbn; rewrite ?Hi]).
Qed.
Lemma blind_exec_tx {A} (s : stmt A) : stmt_blind f s → blind f (exec Tx s).
Proof.
  intros Hs o w1 w2 [Hd Ht Hi Hr]. unfold exec, exec_tx. rewrite <-Hi.
  destruct (w_tx w1) as [[d1 a1 n1]|] eqn:E1, (w_tx w2) as [[d2 a2 n2]|] eqn:E2; try done.
  2:{ split; [done|]. split; cbn; rewrite ?E1, ?E2; auto. }
  cbn in Ht. destruct Ht as (Htd & -> & ->). cbn [tx_aborted tx_db tx_now].
  destruct a2; [split; [done|]; split; cbn; rewrite ?E1, ?E2; auto; by split_and?|].
  specialize (Hs n2 _ _ Htd). destruct (o_outcome o (w_step w1));
    destruct (s n2 d1) as [[b1 c1]|], (s n2 d2) as [[b2 c2]|]; try done;
    try (destruct Hs as [-> Hs]); (split; [done|split; cbn; rewrite ?Hi; by split_and?]).
Qed.
Lemma blind_exec {A} ex (s : stmt A) : stmt_blind f s → blind f (exec ex s).
Proof. destruct ex; [apply blind_exec_pool|apply blind_exec_tx]. Qed.
Lemma blind_tick {A} (g : oracle → nat → A) : blind f (tick g).
Proof. intros o w1 w2 [Hd Ht Hi Hr]. unfold tick. rewrite Hi. split; [done|]. by split; cbn; rewrite ?Hi. Qed.
Lemma blind_Begin : blind f Begin.
Proof.
  intros o w1 w2 [Hd Ht Hi Hr]. unfold Begin. rewrite Hi.
  destruct (o_outcome o (w_step w2)); (split; [done|]); split; cbn; rewrite ?Hi; by split_and?.
Qed.
Lemma blind_Commit : blind f Commit.
Proof.
  intros o w1 w2 [Hd Ht Hi Hr]. unfold Commit. rewrite Hi.
  destruct (w_tx w1) as [[d1 a1 n1]|], (w_tx w2) as [[d2 a2 n2]|]; try contradiction; cbn in Ht.
  2:{ split; [done|]. by split; cbn; rewrite ?Hi. }
  destruct Ht as (Htd & -> & ->). cbn [tx_aborted tx_db]. destruct a2; [split; [done|]; by split; cbn; rewrite ?Hi|].
  destruct (o_outcome o (w_step w2)); (split; [done|]); by split; cbn; rewrite ?Hi.
Qed.
Lemma blind_Rollback : blind f Rollback.
Proof. intros o w1 w2 [Hd Ht Hi Hr]. split; [done|]. by split. Qed.
Lemma blind_with_tx {A} (m : M (res err A)) : blind f m → blind f (with_tx m).
Proof.
  intros Hm. unfold with_tx. apply blind_bindE; [apply blind_Begin|]. intros [].
  apply blind_bind; [done|]. intros r. apply blind_bind; [apply blind_Rollback|]. intros []. apply blind_ret.
Qed.
End blind.

(** ** A healthy environment: every statement is applied and acknowledged *)
Definition healthy (o : oracle) : Prop := ∀ i, o_outcome o i = Applied.

Lemma exec_pool_healthy {A} (s : stmt A) o w :
  healthy o →
  exec_pool s o w =
  match s (o_dbclock o (w_step w)) (w_db w) with
  | Some (a, d) => (Ok a, w <| w_step := S (w_step w) |> <| w_db := d |>)
  | None => (Err EDb, w <| w_step := S (w_step w) |>)
  end.
Proof. intros H. unfold exec_pool. rewrite H. by destruct (s _ _) as [[]|]. Qed.

Lemma oracle_at_healthy t : healthy (oracle_at t).
Proof. by intros i. Qed.

(** The same on a world given field by field: how a healthy run is followed. *)
Section literal.
Context (o : oracle) (Ho : healthy o).

Lemma exec_Tx_lit {A} (s : stmt A) a d d0 d1 nw i rs m :
  s nw d0 = Some (a, d1) →
  exec Tx s o (MkWorld d (Some (MkTxn d0 false nw)) i rs m)
  = (Ok a, MkWorld d (Some (MkTxn d1 false nw)) (S i) rs m).
Proof using Ho. intros Hs. unfold exec, exec_tx. simpl. by rewrite Ho, Hs. Qed.

Lemma exec_Pool_lit {A} (s : stmt A) a d d1 t i rs m :
  s (o_dbclock o i) d = Some (a, d1) →
  exec Pool s o (MkWorld d t i rs m) = (Ok a, MkWorld d1 t (S i) rs m).
Proof using Ho. intros Hs. unfold exec. rewrite exec_pool_healthy by done. simpl. by rewrite Hs. Qed.

(** Any statement: a refused one aborts the transaction. *)
Lemma exec_Tx_run {A} (s : stmt A) d d0 nw i rs m :
  exec Tx s o (MkWorld d (Some (MkTxn d0 false nw)) i rs m)
  = match s nw d0 with
    | Some (a, d1) => (Ok a, MkWorld d (Some (MkTxn d1 false nw)) (S i) rs m)
    | None => (Err EDb, MkWorld d (Some (MkTxn d0 true nw)) (S i) rs m)
    end.
Proof using Ho. unfold exec, exec_tx. simpl. rewrite Ho. by destruct (s nw d0) as [[]|]. Qed.

Lemma Begin_lit d t i rs m :
  Begin o (MkWorld d t i rs m)
  = (Ok tt, MkWorld d (Some (MkTxn d false (o_dbclock o i))) (S i) rs m).
Proof using Ho. unfold Begin. simpl. by rewrite Ho. Qed.

Lemma Commit_lit d d1 nw i rs m :
  Commit o (MkWorld d (Some (MkTxn d1 false nw)) i rs m) = (Ok tt, MkWorld d1 None (S i) rs m).
Proof using Ho. unfold Commit. simpl. by rewrite Ho. Qed.
End literal.

Lemma Rollback_lit o d t i rs m :
  Rollback o (MkWorld d t i rs m) = (tt, MkWorld d None i rs m).
Proof. reflexivity. Qed.

Lemma time_Now_lit o d t i rs m :
  time_Now o (MkWorld d t i rs m) = (o_clock o i, MkWorld d t (S i) rs m).
Proof. reflexivity. Qed.
Lemma IncCounter_lit o n d t i rs m :
  IncCounter n o (MkWorld d t i rs m)
  = (tt, MkWorld d t i rs (<[n := default 0 (m !! n) + 1]> m)).
Proof. reflexivity. Qed.
#[global] Arguments time_Now : simpl never.
#[global] Arguments IncCounter : simpl never.

(** The next statement, when its result is an explicit pair. *)
Ltac exec_step H :=
  match goal with
  | |- context [exec Tx ?s _ (MkWorld ?d (Some (MkTxn ?d0 false ?nw)) ?i ?rs ?m)] =>
      let r := eval hnf in (s nw d0) in
      lazymatch r with
      | Some (?a, ?d1) => rewrite (exec_Tx_lit _ H s a d d0 d1 nw i rs m eq_refl)
      end
  | |- context [exec Pool ?s ?o (MkWorld ?d ?t ?i ?rs ?m)] =>
      let r := eval hnf in (s (o_dbclock o i) d) in
      lazymatch r with
      | Some (?a, ?d1) => rewrite (exec_Pool_lit _ H s a d d1 t i rs m eq_refl)
      end
  end.

(** One step of a healthy run; [run_extra] is extended by the files whose
    operations have such lemmas of their own. *)
Ltac run_extra H := fail.
Ltac run_step H :=
  first
    [ rewrite ret_run | rewrite bindE_run | rewrite bind_run
    | rewrite (Begin_lit _ H) | rewrite (Commit_lit _ H) | rewrite Rollback_lit
    | rewrite time_Now_lit | rewrite IncCounter_lit
    | exec_step H
    | run_extra H ]; cbn [fst snd].
Ltac run H := repeat run_step H.

(** An answer inside a transaction. *)
Lemma queryRow_tx_ok {A} (s : stmt (option A)) o w a w' :
  queryRow Tx s o w = (Ok a, w') →
  ∃ t d, w_tx w = Some t ∧ s (tx_now t) (tx_db t) = Some (Some a, d) ∧ w_tx w' = Some (t <| tx_db := d |>).
Proof.
  unfold queryRow. rewrite bindE_run. case_exec x w1 E. destruct x as [[x|]|e]; rewrite ?ret_run; [|done..].
  intros [= -> <-]. apply exec_tx_ok in E as (t & d & Ht & _ & Hs & ->). exists t, d. by split_and!.
Qed.

(** ** What the open transaction gains *)

(** Of the open transaction's copy, unless it is aborted already. *)
Definition tx_has (A : db → Prop) (w : world) : Prop :=
  ∀ t, w_tx w = Some t → tx_aborted t = false → A (tx_db t).
Definition tx_keeps (A : db → Prop) (w w' : world) : Prop := tx_has A w → tx_has A w'.
#[export] Instance tx_keeps_preorder A : PreOrder (tx_keeps A).
Proof. split; [by intros w Hw|]. intros w1 w2 w3 H1 H2 Hw. by apply H2, H1. Qed.
Lemma exec_Tx_cases {A} (s : stmt A) o w :
  match exec Tx s o w with
  | (Ok a, w') => ∃ t d, w_tx w = Some t ∧ tx_aborted t = false ∧ s (tx_now t) (tx_db t) = Some (a, d)
      ∧ w_db w' = w_db w ∧ w_tx w' = Some (t <| tx_db := d |>)
  | (Err _, w') => w_db w' = w_db w
      ∧ (w_tx w' = w_tx w ∧ (∀ t, w_tx w = Some t → tx_aborted t = true)
         ∨ ∃ t, w_tx w = Some t ∧ w_tx w' = Some (t <| tx_aborted := true |>))
  end.
Proof.
  destruct (exec Tx s o w) as [[a|e] w'] eqn:E.
  - apply exec_tx_ok in E as (t & d & ? & ? & ? & ->). by exists t, d.
  - unfold exec, exec_tx in E. destruct (w_tx w) as [t|] eqn:Et; [|injection E as _ <-; split; [done|by left]].
    destruct (tx_aborted t) eqn:Ea.
    { injection E as _ <-. split; [done|]. left. split; [done|]. by intros t0 [= <-]. }
    destruct (o_outcome o (w_step w)); [destruct (s _ _) as [[]|]|..]; injection E as; subst; try done;
      (split; [done|]; right; by exists t).
Qed.
Lemma exec_Tx_winv {A} (I : db → Prop) (s : stmt A) o w :
  winv I w →
  (∀ t a d, w_tx w = Some t → tx_aborted t = false → s (tx_now t) (tx_db t) = Some (a, d) → I d) →
  winv I (snd (exec Tx s o w)).
Proof.
  intros [Hd Ht] Hs. pose proof (exec_Tx_cases s o w) as Hc. destruct (exec Tx s o w) as [[a|e] w']; cbn [snd].
  - destruct Hc as (t & d & E1 & E2 & E3 & E4 & E5). split; [by rewrite E4|]. rewrite E5. intros t0 [= <-]. by eapply Hs.
  - destruct Hc as [E4 Hc]. split; [by rewrite E4|]. destruct Hc as [[-> _]|(t & E1 & ->)]; [done|].
    intros t0 [= <-]. exact (Ht t E1).
Qed.
Lemma exec_tx_keeps {A} (J : db → Prop) (s : stmt A) : stmt_ok J s → preserves (tx_keeps J) (exec Tx s).
Proof.
  intros Hs o w Hw. pose proof (exec_Tx_cases s o w) as Hc. destruct (exec Tx s o w) as [[a|e] w']; cbn [snd].
  - destruct Hc as (t & d & E1 & E2 & E3 & _ & E5). intros t0. rewrite E5. intros [= <-] _. eapply Hs; [by apply Hw|exact E3].
  - destruct Hc as (_ & [[E Ha]|(t & E1 & E2)]); intros t0; [rewrite E; intros Ht0; by rewrite (Ha t0 Ht0)|].
    rewrite E2. intros [= <-]. rsimp. done.
Qed.
Lemma Commit_has (J : db → Prop) o w w' : Commit o w = (Ok tt, w') → tx_has J w → J (w_db w').
Proof.
  unfold Commit. destruct (w_tx w) as [t|] eqn:Et; [|done]. destruct (tx_aborted t) eqn:Ea; [done|].
  destruct (o_outcome o (w_step w)); intros [= <-]. intros Hj. by apply Hj.
Qed.
