(* ===== verification/Crypto.v ===== *)
(** * Crypto: src/internal/crypto

    Opaque tokens and their SHA-256 hashes (crypto.go), UUIDv7 (uuid.go),
    password hashes in PHC format (password.go).  Argon2id and bcrypt are
    third-party code: a parameter [PasswordLib]. *)

From S2P Require Import Prelude GoLib GoHash Schema World Logic.

(** ** crypto.go *)
Definition TokenBytes : nat := 32.

Definition GenerateToken : M string :=
  b ← rand_bytes TokenBytes;
  mret (b64_encode RawURLEncoding b).

Definition GenerateOAuthState : M string :=
  b ← rand_bytes 16;
  mret (b64_encode RawURLEncoding b).

Definition HashToken (token : string) : string := sha256 token.
#[global] Arguments HashToken : simpl never.

(** [subtle.ConstantTimeCompare(a, b) == 1]: equal length and bytes. *)
Definition SafeEqual (a b : string) : bool := str_eqb a b.

(** ** uuid.go *)
Definition set_byte (l : list N) (i : nat) (f : N → N) : list N := alter f i l.

(** The 16 bytes: ten random ones behind the 48-bit millisecond clock, then
    the version and variant bits. *)
Definition uuid_bytes (ms : Z) (rnd : list N) : list N :=
  let u := Z.to_N (ms mod 2 ^ 64) in
  let ts := be_bytes 8 u in
  let b := take 6 (drop 2 ts) ++ rnd in
  let b := set_byte b 6 (λ x, N.lor (N.land x 15) 112) in
  set_byte b 8 (λ x, N.lor (N.land x 63) 128).

Definition hex_of (l : list N) : string := hex_encode (string_of l).
Definition slice {A} (i j : nat) (l : list A) : list A := take (j - i) (drop i l).

Definition formatUUID (b : list N) : string :=
  hex_of (slice 0 4 b) +:+ "-" +:+ hex_of (slice 4 6 b) +:+ "-" +:+
  hex_of (slice 6 8 b) +:+ "-" +:+ hex_of (slice 8 10 b) +:+ "-" +:+
  hex_of (slice 10 16 b).

Definition UUIDv7 : M string :=
  r ← rand_bytes 10;
  now ← time_Now;
  mret (formatUUID (uuid_bytes (now / Millisecond) (bytes_of r))).

(** ** password.go *)
Definition argonMemory : Z := 64 * 1024.
Definition argonTime : Z := 1.
Definition argonThreads : Z := 4.
Definition argonKeyLen : Z := 32.
Definition argonSaltLen : nat := 16.
Definition argon2_Version : Z := 19.

(** golang.org/x/crypto: [argon2.IDKey(password, salt, time, memory, threads,
    keyLen)], [None] when it panics (a zero time or thread count), and
    [bcrypt.CompareHashAndPassword], whose errors are a mismatch or a
    malformed hash. *)
Inductive bcrypt_result := BcryptMatch | BcryptMismatch | BcryptError.
Class PasswordLib := {
  argon2_IDKey : string → string → Z → Z → Z → Z → option string;
  bcrypt_Compare : string → string → bcrypt_result
}.

(** [fmt.Sscanf]: skip blanks before a [%d]; a newline is an error. *)
Fixpoint scan_blanks (s : string) : option string :=
  match s with
  | String a r =>
      if Ascii.eqb a (byte 10) then None
      else if ascii_space a then scan_blanks r else
      match r with
      | String b r1 =>
          if space2 a b then scan_blanks r1 else
          match r1 with
          | String c r2 => if space3 a b c then scan_blanks r2 else Some s
          | EmptyString => Some s
          end
      | EmptyString => Some s
      end
  | EmptyString => Some EmptyString
  end.

Definition is_digit (c : ascii) : bool :=
  let n := N_of_ascii c in ((48 <=? n) && (n <=? 57))%N.
Fixpoint span_digits (s : string) : string * string :=
  match s with
  | String c r =>
      if is_digit c then let '(d, t) := span_digits r in (String c d, t)
      else (EmptyString, s)
  | EmptyString => (EmptyString, EmptyString)
  end.

(** The verb [%d] into an integer of the given range; a sign is accepted for
    a signed operand only. *)
Definition scan_d (signed : bool) (lo hi : Z) (s : string) : option (Z * string) :=
  s ← scan_blanks s;
  let '(sign, s) :=
    match s with
    | String c r =>
        if signed && Ascii.eqb c (byte 45) then (-1, r)
        else if signed && Ascii.eqb c (byte 43) then (1, r) else (1, s)
    | EmptyString => (1, s)
    end in
  let '(digits, rest) := span_digits s in
  n ← parse_uint_digits digits;
  let v := sign * n in
  if (lo <=? v) && (v <=? hi) then Some (v, rest) else None.

(** A literal of the format. *)
Definition scan_lit (p s : string) : option string :=
  if HasPrefix s p then Some (str_drop (String.length p) s) else None.

(** Parsing of the PHC string in [verifyArgon2id]: the cost parameters, the
    salt and the expected key; [None] is any of its errors. *)
Record argon_phc := MkPhc {
  phc_mem : Z; phc_time : Z; phc_threads : Z; phc_salt : string; phc_want : string
}.

Definition parse_version (s : string) : option Z :=
  s ← scan_lit "v=" s;
  fst <$> scan_d true min_int64 max_int64 s.

Definition parse_params (s : string) : option (Z * Z * Z) :=
  s ← scan_lit "m=" s;
  '(m, s) ← scan_d false 0 4294967295 s;
  s ← scan_lit ",t=" s;
  '(t, s) ← scan_d false 0 4294967295 s;
  s ← scan_lit ",p=" s;
  '(p, _) ← scan_d false 0 255 s;
  Some (m, t, p).

Definition parse_argon2id (phc : string) : option argon_phc :=
  match Split phc (byte 36) with
  | [_; _; v; params; salt; hash] =>
      version ← parse_version v;
      if negb (version =? argon2_Version) then None else
      '(m, t, p) ← parse_params params;
      salt ← b64_decode RawStdEncoding salt;
      want ← b64_decode RawStdEncoding hash;
      Some (MkPhc m t p salt want)
  | _ => None
  end.

(** The Go results [(ok, needsRehash, err)], or a panic of the library. *)
Inductive verdict :=
| Verdict (ok needsRehash : bool)
| VerdictError
| VerdictPanic.

Section password.
Context `{PasswordLib}.

Definition verifyArgon2id (password phc : string) : verdict :=
  match parse_argon2id phc with
  | None => VerdictError
  | Some h =>
      match argon2_IDKey password (phc_salt h) (phc_time h) (phc_mem h)
              (phc_threads h) (Z.of_nat (String.length (phc_want h))) with
      | None => VerdictPanic
      | Some got => Verdict (SafeEqual got (phc_want h)) false
      end
  end.

Definition VerifyPassword (password phc : string) : verdict :=
  if HasPrefix phc "$argon2id$" then verifyArgon2id password phc
  else if HasPrefix phc "$2a$" || HasPrefix phc "$2b$" || HasPrefix phc "$2y$" then
    match bcrypt_Compare phc password with
    | BcryptMatch => Verdict true true
    | BcryptMismatch => Verdict false false
    | BcryptError => VerdictError
    end
  else VerdictError.

(** The format string of [HashPassword]. *)
Definition format_phc (salt key : string) : string :=
  "$argon2id$v=" +:+ Itoa argon2_Version +:+ "$m=" +:+ Itoa argonMemory +:+
  ",t=" +:+ Itoa argonTime +:+ ",p=" +:+ Itoa argonThreads +:+ "$" +:+
  b64_encode RawStdEncoding salt +:+ "$" +:+ b64_encode RawStdEncoding key.

(** [HashPassword]; [None] is the library's panic. *)
Definition HashPassword (password : string) : M (option string) :=
  salt ← rand_bytes argonSaltLen;
  mret (format_phc salt <$>
        argon2_IDKey password salt argonTime argonMemory argonThreads argonKeyLen).

Definition dummyArgonHash : string :=
  "$argon2id$v=19$m=65536,t=1,p=4$AAAAAAAAAAAAAAAAAAAAAA$" +:+
  "R6dQ4F1mQ8m0d3o0r0kE2v0c0Xq7yQ1mYrJ8t8a0aA".

(** The verdict is discarded by the caller; a panic would not be. *)
Definition DummyVerify (password : string) : verdict :=
  VerifyPassword password dummyArgonHash.
End password.

(** ** Passwords *)

(** What the program relies on in the Argon2id library: with a positive time
    and thread count it returns a key of the length asked for. *)
Class PasswordLibLaws `{PasswordLib} := {
  argon2_key_length : ∀ pw salt t m p n k,
    argon2_IDKey pw salt t m p n = Some k → Z.of_nat (String.length k) = n
}.

Section phc.
Context `{PasswordLib}.

(** The printed hash parses back to the cost parameters, salt and key. *)
Lemma parse_format_phc salt key :
  parse_argon2id (format_phc salt key)
  = Some (MkPhc argonMemory argonTime argonThreads salt key).
Proof.
  unfold parse_argon2id.
  assert (Split (format_phc salt key) (byte 36)
          = [""; "argon2id"; "v=19"; "m=65536,t=1,p=4";
             b64_encode RawStdEncoding salt; b64_encode RawStdEncoding key]) as ->.
  { unfold format_phc.
    change ("" :: "argon2id" :: "v=19" :: "m=65536,t=1,p=4"
            :: Split (b64_encode RawStdEncoding salt
                      +:+ String (byte 36) (b64_encode RawStdEncoding key)) (byte 36)
            = ["" ; "argon2id"; "v=19"; "m=65536,t=1,p=4";
               b64_encode RawStdEncoding salt; b64_encode RawStdEncoding key]).
    rewrite Split_app, Split_last; [done|by apply b64_encode_no_byte..]. }
  change (parse_version "v=19") with (Some 19).
  change (parse_params "m=65536,t=1,p=4") with (Some (65536, 1, 4)).
  simpl. by rewrite !b64_decode_encode.
Qed.

Lemma format_phc_prefix salt key : HasPrefix (format_phc salt key) "$argon2id$" = true.
Proof. reflexivity. Qed.

(** What [VerifyPassword] answers on a hash this program printed. *)
Lemma VerifyPassword_format pw salt key :
  Z.of_nat (String.length key) = argonKeyLen →
  VerifyPassword pw (format_phc salt key)
  = match argon2_IDKey pw salt argonTime argonMemory argonThreads argonKeyLen with
    | Some got => Verdict (SafeEqual got key) false
    | None => VerdictPanic
    end.
Proof.
  intros Hlen. unfold VerifyPassword, verifyArgon2id.
  rewrite format_phc_prefix, parse_format_phc. simpl. by rewrite Hlen.
Qed.
End phc.

(** C40. A hash made by [HashPassword] is accepted by [VerifyPassword] for
    the same password, without asking for a rehash, and for another password
    exactly when Argon2id derives the same key from it. *)
Theorem password_roundtrip `{PasswordLibLaws} o w pw phc w' :
  HashPassword pw o w = (Some phc, w') →
  VerifyPassword pw phc = Verdict true false
  ∧ ∃ salt key, phc = format_phc salt key
    ∧ ∀ pw', VerifyPassword pw' phc
             = match argon2_IDKey pw' salt argonTime argonMemory argonThreads argonKeyLen with
               | Some got => Verdict (SafeEqual got key) false
               | None => VerdictPanic
               end.
Proof.
  unfold HashPassword. rewrite bind_run, ret_run. intros [=Hphc <-].
  apply fmap_Some in Hphc as (key & Hkey & ->).
  pose proof (argon2_key_length _ _ _ _ _ _ _ Hkey) as Hlen. split.
  - rewrite VerifyPassword_format by done. rewrite Hkey. unfold SafeEqual.
    by rewrite str_eqb_refl.
  - eexists _, key. split; [done|]. intros pw'. by apply VerifyPassword_format.
Qed.

(** A library for witnesses: the key is the password padded to length. *)
Definition toy_key (n : Z) (pw : string) : string :=
  string_of (take (Z.to_nat n) (bytes_of pw ++ replicate (Z.to_nat n) 46%N)).
#[export] Instance toy_password_lib : PasswordLib := {|
  argon2_IDKey pw salt t m p n :=
    if (0 <? t) && (0 <? p) && (0 <=? n) then Some (toy_key n pw) else None;
  bcrypt_Compare phc pw :=
    if str_eqb (str_drop 4 phc) pw then BcryptMatch else BcryptMismatch
|}.

Lemma string_of_length l : String.length (string_of l) = length l.
Proof. unfold string_of. induction l; simpl; auto. Qed.

#[export] Instance toy_password_laws : PasswordLibLaws.
Proof.
  split. intros pw salt t m p n k. simpl.
  destruct ((0 <? t) && (0 <? p) && (0 <=? n)) eqn:E; [|done]. intros [= <-]. zb.
  unfold toy_key. rewrite string_of_length, length_take, length_app, length_replicate. lia.
Qed.

Definition toy_oracle : oracle :=
  MkOracle (λ _, Applied) (λ i, 1700000000 * Second + Z.of_nat i) (λ i, 1700000000 * Second)
    (λ i j, byte ((i * 31 + j * 7) mod 256)) (λ _ k, k) (λ _ n, n - 1).

Lemma password_roundtrip_witness :
  ∃ phc w', HashPassword "correct horse" toy_oracle (world_of empty_db) = (Some phc, w')
            ∧ VerifyPassword "correct horse" phc = Verdict true false.
Proof.
  eexists _, _. split; [reflexivity|].
  eapply (password_roundtrip toy_oracle (world_of empty_db)). reflexivity.
Defined.

(** [DummyVerify] costs what a real verification costs: the fixed hash
    parses, and Argon2id is invoked on the given password with the time,
    memory and thread parameters [HashPassword] uses. *)
Theorem DummyVerify_runs_argon2 `{PasswordLib} pw :
  ∃ salt want,
    String.length salt = argonSaltLen ∧ (0 < String.length want)%nat
    ∧ DummyVerify pw
      = match argon2_IDKey pw salt argonTime argonMemory argonThreads
                (Z.of_nat (String.length want)) with
        | Some got => Verdict (SafeEqual got want) false
        | None => VerdictPanic
        end.
Proof.
  destruct (parse_argon2id dummyArgonHash) as [[m t p salt want]|] eqn:E;
    [|vm_compute in E; discriminate].
  exists salt, want. unfold DummyVerify, VerifyPassword, verifyArgon2id. rewrite E.
  vm_compute in E. injection E as <- <- <- <- <-. repeat split. cbn. lia.
Qed.

(** ** Tokens *)
Lemma rand_bytes_run n o w :
  rand_bytes n o w
  = (String.string_of_list_ascii (map (o_rand o (w_step w)) (seq 0 n)),
     w <| w_step := S (w_step w) |>).
Proof. reflexivity. Qed.

Lemma string_of_list_ascii_length l : String.length (String.string_of_list_ascii l) = length l.
Proof. induction l; simpl; auto. Qed.

Lemma GenerateToken_run o w :
  GenerateToken o w
  = (b64_encode RawURLEncoding
       (String.string_of_list_ascii (map (o_rand o (w_step w)) (seq 0 TokenBytes))),
     w <| w_step := S (w_step w) |>).
Proof. reflexivity. Qed.

(** The characters a token is made of need no escaping in a URL or a cookie. *)
Definition url_safe_byte (c : ascii) : bool :=
  let n := N_of_ascii c in
  ((65 <=? n) && (n <=? 90) || (97 <=? n) && (n <=? 122)
   || (48 <=? n) && (n <=? 57) || (n =? 45) || (n =? 95))%N.

(** A generated token is 43 URL- and cookie-safe characters, and
    determines the 32 random bytes it encodes: distinct random bytes give
    distinct tokens. *)
Theorem GenerateToken_shape o w :
  let tok := fst (GenerateToken o w) in
  String.length tok = 43%nat
  ∧ str_forallb url_safe_byte tok = true
  ∧ b64_decode RawURLEncoding tok
    = Some (String.string_of_list_ascii (map (o_rand o (w_step w)) (seq 0 TokenBytes))).
Proof.
  rewrite GenerateToken_run. cbv zeta. cbn [fst]. split_and!.
  - apply Nat2Z.inj. unfold RawURLEncoding. rewrite b64_encode_raw_length.
    by rewrite string_of_list_ascii_length, length_map, length_seq.
  - eapply str_forallb_impl; [|apply b64_encode_alphabet].
    intros [[] [] [] [] [] [] [] []]; vm_compute; done.
  - apply b64_decode_encode.
Qed.

(** ** UUIDv7 *)
Definition hex_value (c : ascii) : option N :=
  let n := N_of_ascii c in
  (if (48 <=? n) && (n <=? 57) then Some (n - 48)
   else if (97 <=? n) && (n <=? 102) then Some (n - 87) else None)%N.

(** Big-endian value of a string of hex digits, after [acc]. *)
Fixpoint unhex (acc : N) (s : string) : option N :=
  match s with
  | EmptyString => Some acc
  | String c r => d ← hex_value c; unhex (acc * 16 + d)%N r
  end.

Definition be_value (acc : N) (l : list N) : N := fold_left (λ a b, (a * 256 + b)%N) l acc.

Lemma hex_digits_of_byte c :
  hex_value (hex_digit (N.shiftr (N_of_ascii c) 4)) = Some (N_of_ascii c / 16)%N
  ∧ hex_value (hex_digit (N.land (N_of_ascii c) 15)) = Some (N_of_ascii c mod 16)%N.
Proof. destruct c as [[] [] [] [] [] [] [] []]; vm_compute; done. Qed.

Lemma unhex_hex_encode s acc : unhex acc (hex_encode s) = Some (be_value acc (bytes_of s)).
Proof.
  revert acc. induction s as [|c s IH]; intros acc; [done|].
  destruct (hex_digits_of_byte c) as [H1 H2].
  cbn [hex_encode unhex]. rewrite H1. cbn [mbind option_bind].
  rewrite H2. cbn [mbind option_bind]. rewrite IH. f_equal. unfold be_value. cbn.
  f_equal. pose proof (N.div_mod (N_of_ascii c) 16). lia.
Qed.

Definition is_byte (b : N) : Prop := (b < 256)%N.

Lemma bytes_string_of l : Forall is_byte l → bytes_of (string_of l) = l.
Proof.
  unfold bytes_of, string_of. induction 1 as [|b l Hb Hl IH]; [done|].
  cbn. rewrite N_ascii_embedding by done. by f_equal.
Qed.

Lemma be_bytes_S n v :
  be_bytes (S n) v = N.land (N.shiftr v (8 * N.of_nat n)) 255 :: be_bytes n v.
Proof. unfold be_bytes. rewrite seq_S, rev_app_distr. done. Qed.

Lemma land_255 x : N.land x 255 = (x mod 256)%N.
Proof. apply (N.land_ones x 8). Qed.

Lemma be_bytes_are_bytes n v : Forall is_byte (be_bytes n v).
Proof.
  induction n as [|n IH]; [constructor|]. rewrite be_bytes_S. constructor; [|done].
  unfold is_byte. rewrite land_255. apply N.mod_lt. done.
Qed.

Lemma be_value_be_bytes n v acc :
  be_value acc (be_bytes n v) = (acc * 256 ^ N.of_nat n + v mod 256 ^ N.of_nat n)%N.
Proof.
  revert acc. induction n as [|n IH]; intros acc.
  - cbn. rewrite N.mod_1_r. lia.
  - rewrite be_bytes_S. unfold be_value in *. cbn [fold_left]. rewrite IH, land_255.
    rewrite Nat2N.inj_succ, N.pow_succ_r'.
    rewrite N.shiftr_div_pow2. replace (2 ^ (8 * N.of_nat n))%N with (256 ^ N.of_nat n)%N
      by (rewrite N.pow_mul_r; done).
    rewrite (N.mul_comm 256 (256 ^ _)), N.Div0.mod_mul_r. lia.
Qed.

Lemma hex_encode_length s : String.length (hex_encode s) = (2 * String.length s)%nat.
Proof. induction s; cbn [hex_encode String.length]; lia. Qed.

(** The 48-bit timestamp field of a printed UUID. *)
Definition uuid_timestamp (u : string) : option N :=
  unhex 0 (str_take 8 u +:+ str_take 4 (str_drop 9 u)).

Lemma hex_encode_app a b : hex_encode (a +:+ b) = hex_encode a +:+ hex_encode b.
Proof. induction a as [|c a IH]; cbn [hex_encode String.append]; [done|]. by rewrite IH. Qed.
Lemma string_of_app a b : string_of (a ++ b) = string_of a +:+ string_of b.
Proof. unfold string_of. induction a as [|c a IH]; cbn; [done|]. by rewrite IH. Qed.

Lemma uuid_timestamp_format t r :
  length t = 6%nat → Forall is_byte t →
  uuid_timestamp (formatUUID (t ++ r)) = Some (be_value 0 t).
Proof.
  intros Hl Ht.
  destruct t as [|t0 [|t1 [|t2 [|t3 [|t4 [|t5 [|]]]]]]]; try discriminate Hl.
  transitivity (unhex 0 (hex_encode (string_of [t0; t1; t2; t3; t4; t5]))); [reflexivity|].
  rewrite unhex_hex_encode, bytes_string_of by done. done.
Qed.

Definition variant_digit (c : ascii) : Prop := c ∈ [byte 56; byte 57; byte 97; byte 98].

(** The bytes of a UUIDv7, spelled out. *)
Lemma uuid_bytes_app ms rnd :
  uuid_bytes ms rnd
  = be_bytes 6 (Z.to_N (ms mod 2 ^ 64))
    ++ set_byte (set_byte rnd 0 (λ x, N.lor (N.land x 15) 112)) 2
         (λ x, N.lor (N.land x 63) 128).
Proof. unfold uuid_bytes, set_byte. destruct rnd as [|? [|? [|]]]; reflexivity. Qed.

(** A UUIDv7 has the RFC 9562 layout: 36 characters, version nibble 7,
    variant bits 10, and its first 48 bits are the millisecond clock, so
    identifiers are ordered by creation time. *)
Theorem UUIDv7_layout o w :
  let u := fst (UUIDv7 o w) in
  let ms := o_clock o (S (w_step w)) / Millisecond in
  String.length u = 36%nat
  ∧ String.get 14 u = Some (byte 55)
  ∧ (∃ c, String.get 19 u = Some c ∧ variant_digit c)
  ∧ uuid_timestamp u = Some (Z.to_N (ms mod 2 ^ 48)).
Proof.
  unfold UUIDv7. rewrite !bind_run, rand_bytes_run. cbv zeta. cbn [fst snd].
  set (r := String.string_of_list_ascii _).
  assert (Hr : String.length r = 10%nat) by reflexivity.
  set (ms := o_clock o (S (w_step w)) / Millisecond).
  rewrite ret_run. cbn [fst]. unfold time_Now, tick. cbn [fst].
  change (o_clock o (w_step _)) with (o_clock o (S (w_step w))). fold ms.
  rewrite uuid_bytes_app. set (v := Z.to_N (ms mod 2 ^ 64)).
  clearbody r. split_and!.
  - do 10 (destruct r as [|? r]; [discriminate Hr|]). destruct r; [|discriminate Hr].
    reflexivity.
  - do 10 (destruct r as [|? r]; [discriminate Hr|]). destruct r; [|discriminate Hr].
    destruct a as [[] [] [] [] [] [] [] []]; reflexivity.
  - do 10 (destruct r as [|? r]; [discriminate Hr|]). destruct r; [|discriminate Hr].
    eexists. split; [reflexivity|]. unfold variant_digit.
    destruct a1 as [[] [] [] [] [] [] [] []]; vm_compute; by repeat constructor.
  - rewrite uuid_timestamp_format by (done || apply be_bytes_are_bytes).
    rewrite be_value_be_bytes. f_equal. unfold v. rewrite N.mul_0_l, N.add_0_l.
    change (256 ^ N.of_nat 6)%N with (Z.to_N (2 ^ 48)).
    rewrite <- Z2N.inj_mod by (try apply Z.mod_pos_bound; lia).
    f_equal. apply Z.mod_mod_divide. by exists (2 ^ 16).
Qed.

(** ** The generators in larger programs: they leave the database alone, and run *)
Lemma GenerateToken_lit o d t i rs m :
  ∃ tok, GenerateToken o (MkWorld d t i rs m) = (tok, MkWorld d t (S i) rs m).
Proof. by eexists. Qed.
Lemma UUIDv7_lit o d t i rs m :
  ∃ u, UUIDv7 o (MkWorld d t i rs m) = (u, MkWorld d t (S (S i)) rs m).
Proof. by eexists. Qed.
Lemma rand_bytes_keeps I n : preserves (keeps I) (rand_bytes n).
Proof. apply tick_keeps. Qed.
Lemma time_Now_keeps I : preserves (keeps I) time_Now.
Proof. apply tick_keeps. Qed.
#[export] Hint Resolve rand_bytes_keeps time_Now_keeps : preserves.
Lemma UUIDv7_keeps I : preserves (keeps I) UUIDv7.
Proof. unfold UUIDv7. solve_preserves. Qed.
#[export] Hint Resolve UUIDv7_keeps : preserves.

#[global] Arguments GenerateToken : simpl never.
#[global] Arguments UUIDv7 : simpl never.

Ltac run_extra H ::=
  match goal with
  | |- context [GenerateToken ?o (MkWorld ?d ?t ?i ?rs ?m)] =>
      let tok := fresh "tok" in let E := fresh "Htok" in
      destruct (GenerateToken_lit o d t i rs m) as [tok E]; rewrite E
  | |- context [UUIDv7 ?o (MkWorld ?d ?t ?i ?rs ?m)] =>
      let u := fresh "id" in let E := fresh "Hid" in
      destruct (UUIDv7_lit o d t i rs m) as [u E]; rewrite E
  end.
