(* ===== verification/Users.v ===== *)
(** * Users: src/internal/user

    The account store: store.go ([UpsertByOAuth], [ByID], [ByEmail]),
    password.go (credentials, verification flag, kill switch) and import.go.
    Each SQL statement is a [stmt]; each Go function is the computation that
    issues it. *)

From S2P Require Import Prelude GoLib GoHash Schema World Logic Crypto.

(** What Postgres itself decides: the folding of the CITEXT type, the text
    the INET type accepts, the text the UUID type accepts and its canonical
    form.  Identifiers the program minted or read back are canonical already;
    [with_uuid] is used where a caller may pass any text. *)
Class Postgres := {
  citext : string → string;
  inet_ok : string → bool;
  uuid_in : string → option string
}.

(** A statement with a parameter of type UUID: malformed text is an error. *)
Definition with_uuid `{Postgres} {A} (id : string) (s : string → stmt A) : stmt A :=
  λ now d, match uuid_in id with Some k => s k now d | None => None end.

Lemma with_uuid_ok `{Postgres} {A} I id (s : string → stmt A) :
  (∀ k, stmt_ok I (s k)) → stmt_ok I (with_uuid id s).
Proof. intros Hs now d a d'. unfold with_uuid. destruct (uuid_in id); [apply Hs|done]. Qed.
#[export] Hint Resolve with_uuid_ok : preserves.

(** ** user.go *)
Record User := MkUserT {
  ID : string;
  Email : string;
  EmailVerified : bool;
  Disabled : bool;
  Name : option string;
  PictureURL : option string;
  CreatedAt : Z;
  Metadata : list (string * json)
}.

Definition user_of_row (id : string) (u : user_row) : User :=
  MkUserT id (u_email u) (u_email_verified u) (u_disabled u) (u_name u)
    (u_picture_url u) (u_created_at u) (u_metadata u).

(** ** store.go *)
Record OAuthProfile := MkProfile {
  op_provider : string;
  op_sub : string;
  op_email : string;
  op_email_verified : bool;
  op_name : option string;
  op_picture_url : option string
}.

Record UpsertResult := MkUpsert { ur_user_id : string; ur_is_new : bool }.

Record Credential := MkCredential {
  c_user_id : string; c_hash : string; c_has_password : bool; c_disabled : bool
}.
Definition no_credential : Credential := MkCredential "" "" false false.

Record ImportRecord := MkImport {
  ir_email : string; ir_email_verified : bool; ir_password_hash : string;
  ir_name : option string
}.
Inductive ImportOutcome := ImportCreated | ImportSkipped.

Section store.
Context `{Postgres}.

(** *** Statements *)
Definition email_is (e : string) (_ : string) (u : user_row) : bool :=
  str_eqb (citext (u_email u)) (citext e).

(** [SELECT .. FROM users WHERE email = $1]: the column is UNIQUE. *)
Definition user_by_email (d : db) (e : string) : option (string * user_row) :=
  head (select_where (email_is e) (users d)).

Definition sql_user_by_id (id : string) : stmt (option User) := λ _ d,
  Some (user_of_row id <$> users d !! id, d).

Definition sql_user_by_email (e : string) : stmt (option User) := λ _ d,
  Some ((λ ku, user_of_row (fst ku) (snd ku)) <$> user_by_email d e, d).

(** [SELECT i.user_id, u.disabled FROM identities i JOIN users u ..]. *)
Definition sql_identity_owner (provider sub : string) : stmt (option (string * bool)) := λ _ d,
  Some (i ← identities d !! (provider, sub);
        u ← users d !! i_user_id i;
        Some (i_user_id i, u_disabled u), d).

Definition sql_id_disabled_by_email (e : string) : stmt (option (string * bool)) := λ _ d,
  Some ((λ ku, (fst ku, u_disabled (snd ku))) <$> user_by_email d e, d).

(** [INSERT INTO users ..]: the primary key and the UNIQUE email. *)
Definition sql_insert_user (id : string) (u : Z → user_row) : stmt unit := λ now d,
  match users d !! id, user_by_email d (u_email (u now)) with
  | None, None => Some (tt, d <| users := <[id := u now]> (users d) |>)
  | _, _ => None
  end.

(** [INSERT INTO users .. ON CONFLICT (email) DO NOTHING]: rows affected. *)
Definition sql_insert_user_skip (id : string) (u : Z → user_row) : stmt Z := λ now d,
  match user_by_email d (u_email (u now)) with
  | Some _ => Some (0, d)
  | None =>
      match users d !! id with
      | Some _ => None
      | None => Some (1, d <| users := <[id := u now]> (users d) |>)
      end
  end.

(** [UPDATE users SET .., updated_at = now() WHERE id = $1]. *)
Definition sql_update_user (id : string) (f : user_row → user_row) : stmt unit := λ now d,
  Some (tt, d <| users := alter (λ u, (f u) <| u_updated_at := now |>) id (users d) |>).

Definition sql_insert_identity (iid userID provider sub : string) : stmt unit := λ now d,
  match identities d !! (provider, sub), users d !! userID with
  | None, Some _ =>
      Some (tt, d <| identities :=
        <[(provider, sub) := MkIdentity iid userID now]> (identities d) |>)
  | _, _ => None
  end.

(** *** Operations *)
Definition new_oauth_user (p : OAuthProfile) (now : Z) : user_row :=
  MkUser (op_email p) (op_email_verified p) None (op_name p) (op_picture_url p)
    now now [] false.

Definition new_password_user (e hash : string) (now : Z) : user_row :=
  MkUser e false (Some hash) None None now now [] false.

Definition imported_user (rec : ImportRecord) (now : Z) : user_row :=
  MkUser (ir_email rec) (ir_email_verified rec) (Some (ir_password_hash rec))
    (ir_name rec) None now now [] false.

(** The last part of [UpsertByOAuth]: link the identity, commit. *)
Definition link_identity (p : OAuthProfile) (userID : string) (isNew : bool)
  : M (res err UpsertResult) :=
  iid ← UUIDv7;
  _ ←? exec Tx (sql_insert_identity iid userID (op_provider p) (op_sub p));
  _ ←? Commit;
  mret (Ok (MkUpsert userID isNew)).

Definition UpsertByOAuth (p : OAuthProfile) (allowCreate : bool)
  : M (res err UpsertResult) :=
  with_tx (
    owner ← queryRow Tx (sql_identity_owner (op_provider p) (op_sub p));
    match owner with
    | Ok (userID, disabled) =>
        if (disabled : bool) then mret (Err EUserDisabled) else
        _ ←? exec Tx (sql_update_user userID
               (λ u, u <| u_name := op_name p |> <| u_picture_url := op_picture_url p |>));
        _ ←? Commit;
        mret (Ok (MkUpsert userID false))
    | Err ENoRows =>
        byEmail ← queryRow Tx (sql_id_disabled_by_email (op_email p));
        match byEmail with
        | Err ENoRows =>
            if allowCreate then
              userID ← UUIDv7;
              _ ←? exec Tx (sql_insert_user userID (new_oauth_user p));
              link_identity p userID true
            else mret (Err ESignupDisabled)
        | Err e => mret (Err e)
        | Ok (userID, disabled) =>
            if (disabled : bool) then mret (Err EUserDisabled)
            else link_identity p userID false
        end
    | Err e => mret (Err e)
    end).

Definition ByID (id : string) : M (res err User) :=
  queryRow Pool (with_uuid id sql_user_by_id).

(** [(nil, nil)] when there is no such user. *)
Definition ByEmail (e : string) : M (res err (option User)) :=
  exec Pool (sql_user_by_email e).

(** password.go *)
Definition createWithPassword (ex : executor) (id e passwordHash : string) : M (res err unit) :=
  exec ex (sql_insert_user id (new_password_user e passwordHash)).
Definition CreateWithPassword := createWithPassword Pool.
Definition CreateWithPasswordTx := createWithPassword Tx.

Definition sql_credential (e : string) : stmt (option Credential) := λ _ d,
  Some ((λ ku, let u := snd ku in
           MkCredential (fst ku) (default "" (u_password_hash u))
             (bool_decide (is_Some (u_password_hash u))) (u_disabled u))
        <$> user_by_email d e, d).

Definition PasswordCredential (e : string) : M (res err Credential) :=
  r ← queryRow Pool (sql_credential e);
  mret (match r with
        | Err ENoRows => Ok no_credential
        | r => r
        end).

Definition setPassword (ex : executor) (userID passwordHash : string) : M (res err unit) :=
  exec ex (sql_update_user userID (λ u, u <| u_password_hash := Some passwordHash |>)).
Definition SetPassword := setPassword Pool.
Definition SetPasswordTx := setPassword Tx.

Definition markEmailVerified (ex : executor) (userID : string) : M (res err unit) :=
  exec ex (sql_update_user userID (λ u, u <| u_email_verified := true |>)).
Definition MarkEmailVerified := markEmailVerified Pool.
Definition MarkEmailVerifiedTx := markEmailVerified Tx.

Definition setDisabled (ex : executor) (userID : string) (disabled : bool) : M (res err unit) :=
  exec ex (with_uuid userID (λ k, sql_update_user k (λ u, u <| u_disabled := disabled |>))).
Definition SetDisabled := setDisabled Pool.
Definition SetDisabledTx := setDisabled Tx.

Definition sql_disabled (userID : string) : stmt (option bool) := λ _ d,
  Some (u_disabled <$> users d !! userID, d).
Definition DisabledTx (userID : string) : M (res err bool) :=
  queryRow Tx (sql_disabled userID).

(** import.go *)
Definition Import (rec : ImportRecord) : M (res err ImportOutcome) :=
  id ← UUIDv7;
  n ←? exec Pool (sql_insert_user_skip id (imported_user rec));
  mret (Ok (if n =? 0 then ImportSkipped else ImportCreated)).

(** The statements of one [pgx.Batch], in one implicit transaction: all of
    them or none; the rows affected add up to [created]. *)
Fixpoint sql_insert_batch (recs : list (string * ImportRecord)) : stmt Z := λ now d,
  match recs with
  | [] => Some (0, d)
  | (id, rec) :: rest =>
      '(n, d1) ← sql_insert_user_skip id (imported_user rec) now d;
      '(m, d2) ← sql_insert_batch rest now d1;
      Some (n + m, d2)
  end.

Fixpoint with_ids (recs : list ImportRecord) : M (list (string * ImportRecord)) :=
  match recs with
  | [] => mret []
  | rec :: rest =>
      id ← UUIDv7;
      l ← with_ids rest;
      mret ((id, rec) :: l)
  end.

Definition ImportBatch (recs : list ImportRecord) : M (res err Z) :=
  l ← with_ids recs;
  exec Pool (sql_insert_batch l).
End store.

(** ** Integrity of the database

    The constraints the schema declares: unique e-mail addresses, and
    references to existing rows.  Every statement of the program maintains
    them; the lemmas are collected in the hint database [integrity]. *)
Create HintDb integrity.

Section integrity.
Context `{Postgres}.

Definition emails_unique (d : db) : Prop :=
  ∀ id1 id2 u1 u2, users d !! id1 = Some u1 → users d !! id2 = Some u2 →
    citext (u_email u1) = citext (u_email u2) → id1 = id2.

Record integrity (d : db) : Prop := {
  int_email : emails_unique d;
  int_identity : map_Forall (λ _ i, is_Some (users d !! i_user_id i)) (identities d);
  int_session : map_Forall (λ _ s, is_Some (users d !! s_user_id s)) (sessions d);
  int_token : map_Forall (λ _ t, is_Some (users d !! t_user_id t)) (tokens d);
  int_outbox : map_Forall (λ _ b, is_Some (users d !! ob_user_id b)) (outbox d);
  int_outbox_token :
    map_Forall (λ _ b, ∀ t, ob_token_id b = Some t → is_Some (tokens d !! t)) (outbox d)
}.

Lemma integrity_empty : integrity empty_db.
Proof. split; try (intros ? ? ? ? Hx; by rewrite lookup_empty in Hx); done. Qed.

(** *** E-mail lookup *)
Lemma user_by_email_None d e :
  user_by_email d e = None ↔
  ∀ id u, users d !! id = Some u → citext (u_email u) ≠ citext e.
Proof.
  unfold user_by_email. rewrite head_None, select_where_nil. unfold email_is.
  split; intros Hn id u Hu; specialize (Hn id u Hu); by apply str_eqb_false.
Qed.

Lemma user_by_email_Some d e id u :
  user_by_email d e = Some (id, u) →
  users d !! id = Some u ∧ citext (u_email u) = citext e.
Proof.
  unfold user_by_email. intros Hh%head_Some_elem_of.
  apply elem_of_select_where in Hh as [Hu He]. by apply str_eqb_true in He.
Qed.

(** With unique addresses the lookup finds the user that has the address. *)
Lemma user_by_email_unique d e id u :
  emails_unique d → users d !! id = Some u → citext (u_email u) = citext e →
  user_by_email d e = Some (id, u).
Proof.
  intros Hu Hid He. destruct (user_by_email d e) as [[id' u']|] eqn:E.
  - apply user_by_email_Some in E as [Hid' He'].
    assert (id' = id) as -> by (eapply Hu; [done..|]; congruence).
    by rewrite Hid in Hid'; injection Hid' as ->.
  - by destruct (proj1 (user_by_email_None d e) E id u Hid).
Qed.

(** *** Growing the set of users keeps every reference valid *)
Lemma integrity_grow_users d m :
  emails_unique (d <| users := m |>) →
  (∀ id, is_Some (users d !! id) → is_Some (m !! id)) →
  integrity d → integrity (d <| users := m |>).
Proof.
  intros Hu Hm [? Hi Hs Ht Ho Hot].
  split; rsimp; try done; intros k r Hk; apply Hm; eauto.
Qed.

Lemma sql_insert_user_ok id f : stmt_ok integrity (sql_insert_user id f).
Proof.
  intros now d a d' Hd. unfold sql_insert_user.
  destruct (users d !! id) as [|] eqn:Hid; [done|].
  destruct (user_by_email _ _) as [|] eqn:He; [done|]. intros [= <- <-].
  rewrite user_by_email_None in He.
  apply integrity_grow_users; [|intros i [r Hr]; destruct (decide (id = i)) as [->|];
    [by rewrite lookup_insert_eq|by rewrite lookup_insert_ne, Hr]|done].
  intros id1 id2 u1 u2. rsimp. rewrite !lookup_insert.
  destruct (decide (id = id1)) as [<-|], (decide (id = id2)) as [<-|]; try done.
  - intros [= <-] Hu2 Hc. by destruct (He _ _ Hu2).
  - intros Hu1 [= <-] Hc. by destruct (He _ _ Hu1).
  - by apply int_email.
Qed.

Lemma sql_insert_user_skip_ok id f : stmt_ok integrity (sql_insert_user_skip id f).
Proof.
  intros now d a d' Hd. unfold sql_insert_user_skip.
  destruct (user_by_email d (u_email (f now))) as [|] eqn:He; [by intros [= <- <-]|].
  destruct (users d !! id) as [|] eqn:Hid; [done|]. intros [= <- <-].
  refine (sql_insert_user_ok id f now d tt _ Hd _). unfold sql_insert_user.
  by rewrite Hid, He.
Qed.

Lemma sql_update_user_ok id f :
  (∀ u, u_email (f u) = u_email u) → stmt_ok integrity (sql_update_user id f).
Proof.
  intros Hf now d a d' Hd. unfold sql_update_user. intros [= <- <-].
  apply integrity_grow_users; [|intros i Hi; rewrite lookup_alter; case_decide; subst;
    [by apply fmap_is_Some|done]|done].
  assert (Hk : ∀ i u, alter (λ u, (f u) <| u_updated_at := now |>) id (users d) !! i = Some u →
            ∃ u0, users d !! i = Some u0 ∧ u_email u = u_email u0).
  { intros i u. rewrite lookup_alter. case_decide; [subst|eauto].
    intros (u0 & Hu0 & ->)%fmap_Some. exists u0. split; [done|]. rsimp. apply Hf. }
  intros id1 id2 u1 u2. rsimp. intros (v1 & H1 & E1)%Hk (v2 & H2 & E2)%Hk Hc.
  rewrite E1, E2 in Hc. eapply int_email; eauto.
Qed.

Lemma sql_insert_identity_ok iid uid p s : stmt_ok integrity (sql_insert_identity iid uid p s).
Proof.
  intros now d a d' Hd. unfold sql_insert_identity.
  destruct (identities d !! _); [done|]. destruct (users d !! uid) as [u|] eqn:Hu; [|done].
  intros [= <- <-]. destruct Hd. split; rsimp; try done.
  apply map_Forall_insert_2; [by exists u|done].
Qed.

Lemma sql_insert_batch_ok l : stmt_ok integrity (sql_insert_batch l).
Proof.
  induction l as [|[id rec] l IH]; intros now d a d' Hd; simpl; [by intros [= <- <-]|].
  intros ([n d1] & H1 & ([m d2] & H2 & [= <- <-])%bind_Some)%bind_Some.
  eapply IH; [|exact H2]. eapply sql_insert_user_skip_ok; [exact Hd|exact H1].
Qed.

(** A statement that only reads. *)
Lemma read_only_ok {A} I (f : db → A) : stmt_ok I (λ _ d, Some (f d, d)).
Proof. by intros now d a d' Hd [= <- <-]. Qed.
End integrity.

#[export] Hint Resolve sql_insert_user_ok sql_insert_user_skip_ok sql_insert_identity_ok
  sql_insert_batch_ok read_only_ok : preserves.
#[export] Hint Extern 3 (stmt_ok integrity (sql_update_user _ _)) =>
  apply sql_update_user_ok; done : preserves.
#[export] Hint Extern 4 (stmt_ok _ _) => apply read_only_ok : preserves.

(** ** Every operation of the store keeps the database's integrity *)
Section operations.
Context `{Postgres}.

Lemma link_identity_keeps p uid b : preserves (keeps integrity) (link_identity p uid b).
Proof. unfold link_identity. solve_preserves. Qed.
Hint Resolve link_identity_keeps : preserves.

Lemma UpsertByOAuth_keeps p b : preserves (keeps integrity) (UpsertByOAuth p b).
Proof. unfold UpsertByOAuth. apply with_tx_keeps. solve_preserves. Qed.

Lemma createWithPassword_keeps ex id e h :
  preserves (keeps integrity) (createWithPassword ex id e h).
Proof. unfold createWithPassword. solve_preserves. Qed.
Lemma setPassword_keeps ex id h : preserves (keeps integrity) (setPassword ex id h).
Proof. unfold setPassword. solve_preserves. Qed.
Lemma markEmailVerified_keeps ex id : preserves (keeps integrity) (markEmailVerified ex id).
Proof. unfold markEmailVerified. solve_preserves. Qed.
Lemma setDisabled_keeps ex id b : preserves (keeps integrity) (setDisabled ex id b).
Proof. unfold setDisabled. solve_preserves. Qed.
Lemma Import_keeps rec : preserves (keeps integrity) (Import rec).
Proof. unfold Import. solve_preserves. Qed.
Lemma with_ids_keeps I l : preserves (keeps I) (with_ids l).
Proof. induction l; simpl; solve_preserves. Qed.
Lemma ImportBatch_keeps l : preserves (keeps integrity) (ImportBatch l).
Proof. unfold ImportBatch. pose proof with_ids_keeps. solve_preserves. Qed.

(** Reading operations. *)
Lemma queryRow_keeps_read {A} I ex (f : db → option A) :
  preserves (keeps I) (queryRow ex (λ _ d, Some (f d, d))).
Proof. apply queryRow_preserves; [exact _|]. apply exec_keeps, read_only_ok. Qed.
End operations.

#[export] Hint Resolve UpsertByOAuth_keeps
  createWithPassword_keeps setPassword_keeps markEmailVerified_keeps setDisabled_keeps
  Import_keeps ImportBatch_keeps queryRow_keeps_read : preserves.

(** ** Resolving an OAuth identity *)
Section upsert.
Context `{Postgres}.

(** How a profile resolves against the tables. *)
Inductive resolution :=
| Linked (id : string) (u : user_row)       (* the identity is known *)
| Matched (id : string) (u : user_row)      (* the e-mail address is known *)
| Unknown.
Definition resolve (d : db) (p : OAuthProfile) : resolution :=
  match i ← identities d !! (op_provider p, op_sub p);
        u ← users d !! i_user_id i; Some (i_user_id i, u) with
  | Some (id, u) => Linked id u
  | None => match user_by_email d (op_email p) with
            | Some (id, u) => Matched id u
            | None => Unknown
            end
  end.

Definition refreshed (p : OAuthProfile) (now : Z) (u : user_row) : user_row :=
  u <| u_name := op_name p |> <| u_picture_url := op_picture_url p |> <| u_updated_at := now |>.

(** What the transaction must answer and leave behind. *)
Definition upsert_post (p : OAuthProfile) (allowCreate : bool) (now : Z) (d : db)
    (r : res err UpsertResult) (d' : db) : Prop :=
  match resolve d p with
  | Linked id u =>
      if u_disabled u then r = Err EUserDisabled ∧ d' = d
      else r = Ok (MkUpsert id false)
           ∧ d' = d <| users := alter (refreshed p now) id (users d) |>
  | Matched id u =>
      if u_disabled u then r = Err EUserDisabled ∧ d' = d
      else ∃ iid, r = Ok (MkUpsert id false)
           ∧ d' = d <| identities := <[(op_provider p, op_sub p) := MkIdentity iid id now]>
                                       (identities d) |>
  | Unknown =>
      if allowCreate then
        ∃ id iid,
          (users d !! id = None ∧ r = Ok (MkUpsert id true)
           ∧ d' = d <| users := <[id := new_oauth_user p now]> (users d) |>
                    <| identities := <[(op_provider p, op_sub p) := MkIdentity iid id now]>
                                       (identities d) |>)
          ∨ (is_Some (users d !! id) ∧ r = Err EDb ∧ d' = d)
      else r = Err ESignupDisabled ∧ d' = d
  end.

Lemma resolve_unlinked d p id u :
  integrity d → (resolve d p = Matched id u ∨ resolve d p = Unknown) →
  identities d !! (op_provider p, op_sub p) = None.
Proof.
  intros Hd. unfold resolve. destruct (identities d !! _) as [i|] eqn:Ei; [|done].
  destruct (int_identity d Hd _ _ Ei) as [v Hv]. simpl. rewrite Hv. simpl. by intros [?|?].
Qed.

Lemma link_identity_run p userID isNew o d d0 nw i rs m u :
  healthy o → identities d0 !! (op_provider p, op_sub p) = None →
  users d0 !! userID = Some u →
  ∃ iid i', link_identity p userID isNew o (MkWorld d (Some (MkTxn d0 false nw)) i rs m)
    = (Ok (MkUpsert userID isNew),
       MkWorld (d0 <| identities := <[(op_provider p, op_sub p) := MkIdentity iid userID nw]>
                                      (identities d0) |>) None i' rs m).
Proof.
  intros Ho Hi Hu. unfold link_identity. run Ho. exists id, (S (S (S (S i)))).
  rewrite (exec_Tx_run _ Ho). unfold sql_insert_identity. rewrite Hi, Hu. cbn [fst snd]. by run Ho.
Qed.
End upsert.

Ltac link_step Ho Hi Hu :=
  match goal with
  | |- context [link_identity ?p ?uid ?new ?o (MkWorld ?d (Some (MkTxn ?d0 false ?nw)) ?i ?rs ?m)] =>
      let E := fresh in
      destruct (link_identity_run p uid new o d d0 nw i rs m _ Ho Hi Hu) as (? & ? & E);
      rewrite E; clear E; cbn [fst snd]
  end.

(** An OAuth login resolves to one account: a known identity to its user
    (whose profile is refreshed), an unknown one with a known address to that
    user (and is linked to it), anything else to a new user when the policy
    allows creation and to [ErrSignupDisabled] when it does not; a disabled
    account is refused; a refusal changes nothing; new user and identity
    appear together. *)
Theorem UpsertByOAuth_resolves `{Postgres} p allowCreate o w r w' :
  healthy o → integrity (w_db w) → UpsertByOAuth p allowCreate o w = (r, w') →
  upsert_post p allowCreate (o_dbclock o (w_step w)) (w_db w) r (w_db w').
Proof.
  intros Ho Hd. destruct w as [d t i rs m]. cbn [w_db w_step] in *. unfold UpsertByOAuth, with_tx, queryRow.
  run Ho. unfold upsert_post. set (nw := o_dbclock o i).
  assert (Hun : ∀ id u, resolve d p = Matched id u ∨ resolve d p = Unknown →
    identities d !! (op_provider p, op_sub p) = None) by (intros id u; by apply resolve_unlinked).
  unfold resolve in *.
  destruct (identities d !! (op_provider p, op_sub p)) as [i0|] eqn:Ei.
  { destruct (int_identity d Hd _ _ Ei) as [u Hu]. cbn [mbind option_bind] in *. rewrite Hu.
    cbn [mbind option_bind]. destruct (u_disabled u); run Ho; [by intros [= <- <-]|].
    intros [= <- <-]. split; [done|]. cbn [w_db]. destruct d; unfold set; cbn. f_equal. }
  cbn [mbind option_bind]. clear Hun. run Ho.
  destruct (user_by_email d (op_email p)) as [[uid u]|] eqn:Ee; cbn [fmap option_fmap option_map fst snd].
  { destruct (u_disabled u); run Ho; [by intros [= <- <-]|].
    apply user_by_email_Some in Ee as [Hu _].
    link_step Ho Ei Hu. run Ho. intros [= <- <-]. by eexists. }
  destruct allowCreate; run Ho; [|by intros [= <- <-]].
  rewrite (exec_Tx_run _ Ho). unfold sql_insert_user. cbn [new_oauth_user u_email]. rewrite Ee.
  destruct (users d !! id) as [v|] eqn:Eu; cbn [fst snd]; run Ho.
  { intros [= <- <-]. exists id, "". right. by split; [eexists|]. }
  assert (Hu : users (d <| users := <[id := new_oauth_user p nw]> (users d) |>) !! id
               = Some (new_oauth_user p nw)) by (unfold set; cbn; apply lookup_insert_eq).
  assert (Ei' : identities (d <| users := <[id := new_oauth_user p nw]> (users d) |>)
                  !! (op_provider p, op_sub p) = None) by exact Ei.
  link_step Ho Ei' Hu. run Ho. intros [= <- <-]. exists id. eexists. left. done.
Qed.

Definition toy_profile : OAuthProfile :=
  MkProfile "google" "sub-1" "Ana@X.com" true (Some "Ana") None.
#[export] Instance toy_postgres : Postgres :=
  {| citext := lower_ascii; inet_ok := λ _, true; uuid_in := Some |}.

Lemma UpsertByOAuth_resolves_witness :
  let d := empty_db <| users := {["u1" := MkUser "ana@x.com" true None None None 0 0 [] false]} |> in
  ∃ w', UpsertByOAuth toy_profile false (oracle_at 5) (world_of d) = (Ok (MkUpsert "u1" false), w')
        ∧ is_Some (identities (w_db w') !! ("google", "sub-1")).
Proof.
  intros d.
  assert (∃ w', UpsertByOAuth toy_profile false (oracle_at 5) (world_of d)
                = (Ok (MkUpsert "u1" false), w')) as [w' E] by (eexists; vm_compute; reflexivity).
  exists w'. split; [exact E|].
  pose proof (UpsertByOAuth_resolves toy_profile false (oracle_at 5) (world_of d)
    (Ok (MkUpsert "u1" false)) w'
    (oracle_at_healthy 5)) as HP. unfold upsert_post in HP.
  assert (resolve d toy_profile = Matched "u1" (MkUser "ana@x.com" true None None None 0 0 [] false))
    as Hr by (vm_compute; reflexivity).
  cbn [w_db world_of] in HP. rewrite Hr in HP. destruct HP as (iid & _ & ->); [|exact E|].
  - split; [|apply map_Forall_empty..].
    unfold d, emails_unique, set. cbn. intros i1 i2 u1 u2 [<- _]%lookup_singleton_Some [<- _]%lookup_singleton_Some. done.
  - unfold set. cbn. rewrite lookup_insert_eq. by eexists.
Defined.

(** ** Who may log in *)

(** The account [uid] exists and may log in. *)
Definition enabled (uid : string) (d : db) : Prop := ∃ u, users d !! uid = Some u ∧ u_disabled u = false.
Lemma update_enabled uid id f : (∀ u, u_disabled (f u) = u_disabled u) → stmt_ok (enabled uid) (sql_update_user id f).
Proof.
  intros Hf now d a d' (u & Hu & Hd) [= <- <-]. unfold enabled. rsimp. rewrite lookup_alter. case_decide; [subst|eauto].
  rewrite Hu. eexists. split; [reflexivity|]. rsimp. by rewrite Hf.
Qed.

Section enabled.
Context `{Postgres}.

(** An identity resolves to an account that may log in. *)
Lemma link_identity_enabled p uid b o w ur w1 :
  link_identity p uid b o w = (Ok ur, w1) → tx_has (enabled uid) w → enabled (ur_user_id ur) (w_db w1).
Proof.
  unfold link_identity. rewrite bind_run.
  assert (Ht : w_tx (snd (UUIDv7 o w)) = w_tx w) by reflexivity.
  destruct (UUIDv7 o w) as [iid w2]. cbn [fst snd] in *. rewrite bindE_run. intros HE Hen.
  assert (Hen2 : tx_has (enabled uid) w2) by (intros t; rewrite Ht; apply Hen).
  assert (Hs : stmt_ok (enabled uid) (sql_insert_identity iid uid (op_provider p) (op_sub p))).
  { intros now d a d' Hd. unfold sql_insert_identity. repeat case_match; intros [=]; by subst. }
  pose proof (exec_tx_keeps _ _ Hs o w2 Hen2) as Hen3. revert HE. case_exec x w3 E3. cbn [snd] in Hen3.
  destruct x as [[]|]; [|done]. rewrite bindE_run. destruct (Commit o w3) as [[[]|] w4] eqn:EC; cbn [fst snd]; [|done].
  rewrite ret_run. intros [= <- <-]. cbn [ur_user_id]. by eapply Commit_has.
Qed.
Lemma read_has {A} (J : db → Prop) (f : db → option A) o w a w' :
  queryRow Tx (λ _ d, Some (f d, d)) o w = (Ok a, w') → (∀ d, f d = Some a → J d) → tx_has J w'.
Proof.
  intros (t & d & Ht & [= Hf <-] & Ht')%queryRow_tx_ok HJ t0. rewrite Ht'. intros [= <-] _. rsimp. by apply HJ.
Qed.
Lemma UpsertByOAuth_enabled p b o w ur w1 :
  UpsertByOAuth p b o w = (Ok ur, w1) → enabled (ur_user_id ur) (w_db w1).
Proof.
  unfold UpsertByOAuth, with_tx. rewrite bindE_run. destruct (Begin o w) as [[[]|e] w0]; cbn [fst snd]; [|done].
  rewrite bind_run, bind_run, ret_run. cbn [Rollback fst snd]. intros [= HB <-].
  cbn [w_db set Setter]. revert HB. rewrite bind_run.
  destruct (queryRow Tx (sql_identity_owner _ _) o w0) as [[[uid [|]]|e] w2] eqn:EQ; cbn [fst snd]; [done| |].
  - apply (read_has (enabled uid)) in EQ.
    2:{ intros d (i & _ & (u & Hu & [= Hi Hd])%bind_Some)%bind_Some. exists u. by rewrite <-Hi. }
    rewrite bindE_run.
    match goal with |- context [exec Tx (sql_update_user uid ?f) o w2] =>
      pose proof (exec_tx_keeps _ _ (update_enabled uid uid f (λ _, eq_refl)) o w2 EQ) as Hen3 end.
    destruct (exec Tx _ o w2) as [[[]|] w3]; cbn [fst snd] in *; [|done]. rewrite bindE_run.
    destruct (Commit o w3) as [[[]|] w4] eqn:EC; cbn [fst snd]; [|done]. rewrite ret_run. intros [= <-].
    by eapply Commit_has.
  - destruct e; try done. rewrite bind_run.
    destruct (queryRow Tx (sql_id_disabled_by_email _) o w2) as [[[uid [|]]|e] w3] eqn:EM; cbn [fst snd]; [done| |].
    + apply (read_has (enabled uid)) in EM.
      2:{ intros d ([k u] & Hu & [= Hk Hd])%fmap_Some. apply user_by_email_Some in Hu as [Hu _]. exists u. by rewrite Hk. }
      intros HB. destruct (link_identity p uid false o w3) as [r w4] eqn:EL. cbn [fst snd] in *. subst r.
      by eapply link_identity_enabled.
    + destruct e; try done. destruct b; [|done]. rewrite bind_run.
      destruct (UUIDv7 o w3) as [uid w4]. cbn [fst snd]. rewrite bindE_run.
      destruct (exec Tx _ o w4) as [[[]|] w5] eqn:E5; cbn [fst snd]; [|done].
      intros HB. destruct (link_identity p uid true o w5) as [r w6] eqn:EL. cbn [fst snd] in *. subst r.
      eapply link_identity_enabled; [exact EL|]. apply exec_tx_ok in E5 as (t & d & _ & _ & Hs & ->).
      unfold sql_insert_user in Hs. repeat case_match; simplify_eq. intros t0 [= <-] _.
      exists (new_oauth_user p (tx_now t)). rsimp. by rewrite lookup_insert_eq.
Qed.
End enabled.
