(* ===== verification/ImportCmd.v ===== *)
(** * ImportCmd: [sesamo admin import], src/cmd/sesamo/import.go

    The Auth0 export is read line by line, decoded, and inserted in chunks; a
    chunk that fails is replayed row by row.  The configuration and the
    connection are assumed, and the file is readable to its end. *)

From S2P Require Import Prelude GoLib GoUnicode GoHash GoJson Schema World Logic Crypto Users.

(** ** Records *)
Record auth0Record := MkAuth0 {
  a0_Email : string; a0_EmailVerified : bool; a0_PasswordHash : string; a0_PasswordHash2 : string;
  a0_Name : option string
}.
#[export] Instance auth0Record_eta : Eta auth0Record := λ r,
  MkAuth0 (a0_Email r) (a0_EmailVerified r) (a0_PasswordHash r) (a0_PasswordHash2 r) (a0_Name r).
(** A [*string]: null is nil. *)
Definition store_pointer (v : jvalue) : option (option string) :=
  match v with VStr s => Some (Some s) | VNull => Some None | _ => None end.
Definition auth0_fields : list (string * (jvalue → auth0Record → option auth0Record)) :=
  [("email", λ v r, s ← store_string v (a0_Email r); Some (r <| a0_Email := s |>));
   ("email_verified", λ v r, b ← store_bool v (a0_EmailVerified r); Some (r <| a0_EmailVerified := b |>));
   ("passwordHash", λ v r, s ← store_string v (a0_PasswordHash r); Some (r <| a0_PasswordHash := s |>));
   ("password_hash", λ v r, s ← store_string v (a0_PasswordHash2 r); Some (r <| a0_PasswordHash2 := s |>));
   ("name", λ v r, n ← store_pointer v; Some (r <| a0_Name := n |>))].
Definition decode_record (raw : string) : option auth0Record :=
  v ← json_parse raw; store_struct auth0_fields v (MkAuth0 "" false "" "" None).
Definition a0_hash (r : auth0Record) : string :=
  if negb (str_eqb (a0_PasswordHash r) "") then a0_PasswordHash r else a0_PasswordHash2 r.
Definition import_record (r : auth0Record) : ImportRecord :=
  MkImport (a0_Email r) (a0_EmailVerified r) (a0_hash r) (a0_Name r).

(** ** Lines: [bufio.Scanner] with a buffer of at most 8 MiB *)
Definition maxTokenSize : N := 8 * 1024 * 1024.
Definition drop_cr (s : string) : string := if HasSuffix s (String (byte 13) "") then str_take (String.length s - 1) s else s.
(** A last line without text is no line. *)
Fixpoint drop_last_empty (l : list string) : list string :=
  match l with
  | [] => []
  | [x] => if str_eqb x "" then [] else [x]
  | x :: l => x :: drop_last_empty l
  end.
Definition too_long (line : string) : bool := (maxTokenSize <=? N.of_nat (String.length line))%N.
(** The lines up to the first that does not fit, and whether there is one. *)
Fixpoint scan (lines : list string) : list string * bool :=
  match lines with
  | [] => ([], false)
  | l :: lines => if too_long l then ([], true) else let '(ls, e) := scan lines in (drop_cr l :: ls, e)
  end.
Definition scan_lines (data : string) : list string * bool :=
  scan (drop_last_empty (Split data (byte 10))).

(** ** The command *)
Definition importChunkSize : nat := 500.
Record progress := MkProgress {
  pg_pending : list ImportRecord; pg_created : Z; pg_skipped : Z; pg_failed : Z; pg_line : Z
}.
#[export] Instance progress_eta : Eta progress := λ p,
  MkProgress (pg_pending p) (pg_created p) (pg_skipped p) (pg_failed p) (pg_line p).
Definition no_progress : progress := MkProgress [] 0 0 0 0.

Section command.
Context `{Postgres}.
(** Row by row, so that one bad record fails alone. *)
Fixpoint replay_rows (recs : list ImportRecord) (p : progress) : M progress :=
  match recs with
  | [] => mret p
  | rec :: recs =>
      r ← Import rec;
      replay_rows recs (match r with
        | Err _ => p <| pg_failed ::= Z.add 1 |>
        | Ok ImportCreated => p <| pg_created ::= Z.add 1 |>
        | Ok ImportSkipped => p <| pg_skipped ::= Z.add 1 |>
        end)
  end.
Definition flush (p : progress) : M progress :=
  match pg_pending p with
  | [] => mret p
  | recs =>
      r ← ImportBatch recs;
      match r with
      | Ok n => mret (p <| pg_created ::= Z.add n |>
                        <| pg_skipped ::= Z.add (Z.of_nat (length recs) - n) |> <| pg_pending := [] |>)
      | Err _ => p ← replay_rows recs p; mret (p <| pg_pending := [] |>)
      end
  end.
Definition import_line (line : string) (p : progress) : M progress :=
  let p := p <| pg_line ::= Z.add 1 |> in
  let raw := TrimSpace line in
  if str_eqb raw "" then mret p else
  match decode_record raw with
  | None => mret (p <| pg_failed ::= Z.add 1 |>)
  | Some r =>
      if str_eqb (a0_Email r) "" then mret (p <| pg_failed ::= Z.add 1 |>) else
      let p := p <| pg_pending ::= λ l, l ++ [import_record r] |> in
      if (importChunkSize <=? length (pg_pending p))%nat then flush p else mret p
  end.
Fixpoint import_lines (lines : list string) (p : progress) : M progress :=
  match lines with
  | [] => mret p
  | l :: lines => p ← import_line l p; import_lines lines p
  end.
(** The exit code, and the counts that are logged. *)
Definition runImport (data : string) : M (Z * progress) :=
  let '(lines, cut) := scan_lines data in
  p ← import_lines lines no_progress;
  if cut then mret (1, p) else
  p ← flush p;
  mret (if 0 <? pg_failed p then 1 else 0, p).
End command.

(** ** Every line is accounted for *)
Definition not_blank (line : string) : bool := negb (str_eqb (TrimSpace line) "").
Definition accounted (p : progress) : Z :=
  pg_created p + pg_skipped p + pg_failed p + Z.of_nat (length (pg_pending p)).
Definition counts_ok (p : progress) : Prop := 0 ≤ pg_created p ∧ 0 ≤ pg_skipped p ∧ 0 ≤ pg_failed p.
(** A line that is no record, or one without an address. *)
Definition bad_line (line : string) : bool :=
  not_blank line && match decode_record (TrimSpace line) with Some r => str_eqb (a0_Email r) "" | None => true end.

(** [n] accounts are claimed between two worlds: never more than were added,
    and exactly as many when the database answers. *)
Definition added (w w' : world) : Z := Z.of_nat (size (users (w_db w'))) - Z.of_nat (size (users (w_db w))).
Definition tally (o : oracle) (w w' : world) (n : Z) : Prop := n ≤ added w w' ∧ (healthy o → n = added w w').

(** ** What the import may do to the tables *)

(** The records a file can contribute. *)
Definition file_record (lines : list string) (rec : ImportRecord) : Prop :=
  ∃ line r, line ∈ lines ∧ decode_record (TrimSpace line) = Some r ∧ a0_Email r ≠ "" ∧ rec = import_record r.
(** Accounts are added from the file, never changed or removed; no other
    table changes. *)
Definition only_adds (from : ImportRecord → Prop) (d d' : db) : Prop :=
  d' = d <| users := users d' |>
  ∧ (∀ k u, users d !! k = Some u → users d' !! k = Some u)
  ∧ (∀ k u, users d' !! k = Some u → users d !! k = None → ∃ rec now, from rec ∧ u = imported_user rec now).
#[export] Instance only_adds_preorder from : PreOrder (only_adds from).
Proof.
  split; [intros d; split_and!; [by destruct d|done|by intros k u -> [=]]|].
  intros d1 d2 d3 (E1 & K1 & N1) (E2 & K2 & N2). split_and!.
  - rewrite E2, E1. by destruct d1.
  - intros k u Hk. by apply K2, K1.
  - intros k u Hk Hn. destruct (users d2 !! k) as [u2|] eqn:E; [|by eapply N2].
    rewrite (K2 _ _ E) in Hk. injection Hk as <-. by eapply N1.
Qed.

Section proofs.
Context `{Postgres} (from : ImportRecord → Prop).

Lemma sql_insert_user_skip_adds id rec now d n d' :
  from rec → sql_insert_user_skip id (imported_user rec) now d = Some (n, d') →
  only_adds from d d' ∧ 0 ≤ n ≤ 1.
Proof.
  intros Hrec. unfold sql_insert_user_skip. destruct (user_by_email d _); [by intros [= <- <-]|].
  destruct (users d !! id) eqn:E; [done|]. intros [= <- <-]. split; [|lia]. split_and!; [done| |].
  - intros k u Hk. rsimp. rewrite lookup_insert_ne; [done|]. intros ->. by rewrite E in Hk.
  - intros k u. rsimp. intros [[<- <-]|[_ Hk]]%lookup_insert_Some Hn; [by exists rec, now|by rewrite Hk in Hn].
Qed.
Lemma sql_insert_batch_adds recs now d n d' :
  Forall (λ p, from (snd p)) recs → sql_insert_batch recs now d = Some (n, d') →
  only_adds from d d' ∧ 0 ≤ n ≤ Z.of_nat (length recs).
Proof.
  revert d n. induction recs as [|[id rec] recs IH]; intros d n Hf; cbn [sql_insert_batch].
  - intros [= <- <-]. split; [reflexivity|done].
  - apply Forall_cons in Hf as [Hr Hf]. intros ([n1 d1] & H1 & ([n2 d2] & H2 & [= <- <-])%bind_Some)%bind_Some.
    apply (sql_insert_user_skip_adds _ _ _ _ _ _ Hr) in H1 as [A1 B1]. apply (IH _ _ Hf) in H2 as [A2 B2].
    split; [by etrans|]. cbn. lia.
Qed.

(** A computation that only adds accounts, whatever the database answers. *)
Definition adds {A} (m : M A) : Prop := preserves (λ w w', only_adds from (w_db w) (w_db w')) m.
#[local] Instance adds_preorder : PreOrder (λ w w', only_adds from (w_db w) (w_db w')).
Proof. split; [intros w|intros w1 w2 w3 H1 H2]; [reflexivity|by etrans]. Qed.
Lemma exec_adds {A} (s : stmt A) :
  (∀ now d a d', s now d = Some (a, d') → only_adds from d d') → adds (exec Pool s).
Proof.
  intros Hs o w. apply (exec_pool_db (λ d, only_adds from (w_db w) d)); [reflexivity|]. intros now a d. apply Hs.
Qed.
Lemma sees_adds {A} (m : M A) : preserves (sees w_db) m → adds m.
Proof. intros Hm o w. by rewrite (Hm o w). Qed.

Lemma with_ids_records recs o w : map snd (fst (with_ids recs o w)) = recs ∧ w_db (snd (with_ids recs o w)) = w_db w.
Proof.
  revert w. induction recs as [|rec recs IH]; intros w; [done|]. cbn [with_ids]. rewrite bind_run, bind_run, ret_run.
  cbn [fst snd map]. destruct (IH (snd (UUIDv7 o w))) as [H1 H2]. by rewrite H1, H2.
Qed.
Lemma Import_adds rec : from rec → adds (Import rec).
Proof.
  intros Hr. unfold Import. apply preserves_bind; [exact _|by apply sees_adds; intros o w|]. intros id.
  apply preserves_bindE; [exact _| |intros n; apply preserves_ret, _]. apply exec_adds.
  intros now d a d' Hs. by eapply sql_insert_user_skip_adds.
Qed.
Lemma ImportBatch_adds recs : Forall from recs → adds (ImportBatch recs).
Proof.
  intros Hf o w. unfold ImportBatch. rewrite bind_run. destruct (with_ids_records recs o w) as [Hl <-].
  destruct (with_ids recs o w) as [l w1]. cbn [fst snd] in *. apply exec_adds.
  intros now d a d' Hs. eapply sql_insert_batch_adds; [|done].
  rewrite <-Hl in Hf. by apply (Forall_fmap snd) in Hf.
Qed.
Lemma ImportBatch_count recs o w n w1 :
  Forall from recs → ImportBatch recs o w = (Ok n, w1) → 0 ≤ n ≤ Z.of_nat (length recs).
Proof.
  intros Hf. unfold ImportBatch. rewrite bind_run. destruct (with_ids_records recs o w) as [Hl _].
  destruct (with_ids recs o w) as [l w0]. cbn [fst snd] in *. intros (d & Hs & _)%exec_pool_ok.
  assert (Hlen : length l = length recs) by (rewrite <-Hl; by rewrite length_map).
  rewrite <-Hlen. eapply sql_insert_batch_adds; [|done].
  rewrite <-Hl in Hf. by apply (Forall_fmap snd) in Hf.
Qed.

(** What is counted as created was added. *)
Lemma tally_refl o w w' : users (w_db w') = users (w_db w) → tally o w w' 0.
Proof. intros E. unfold tally, added. rewrite E. lia. Qed.
Lemma tally_trans o w1 w2 w3 n m : tally o w1 w2 n → tally o w2 w3 m → tally o w1 w3 (n + m).
Proof. unfold tally, added. intros [H1 E1] [H2 E2]. split; [lia|]. intros Ho. specialize (E1 Ho). specialize (E2 Ho). lia. Qed.
Definition stmt_tallies (s : stmt Z) : Prop := ∀ now d n d', s now d = Some (n, d') →
  0 ≤ n ∧ Z.of_nat (size (users d')) = Z.of_nat (size (users d)) + n.
Lemma sql_insert_user_skip_tallies id u : stmt_tallies (sql_insert_user_skip id u).
Proof.
  intros now d n d'. unfold sql_insert_user_skip. destruct (user_by_email d _); [by intros [= <- <-]; lia|].
  destruct (users d !! id) eqn:E; [done|]. intros [= <- <-]. rsimp. rewrite map_size_insert_None by done. lia.
Qed.
Lemma sql_insert_batch_tallies recs : stmt_tallies (sql_insert_batch recs).
Proof.
  induction recs as [|[id rec] recs IH]; intros now d n d'; cbn [sql_insert_batch]; [intros [= <- <-]; lia|].
  intros ([n1 d1] & H1 & ([n2 d2] & H2 & [= <- <-])%bind_Some)%bind_Some.
  apply sql_insert_user_skip_tallies in H1. apply IH in H2. lia.
Qed.
Lemma exec_tallies (s : stmt Z) o w :
  stmt_tallies s → let out := exec Pool s o w in
  tally o w (snd out) (match fst out with Ok n => n | Err _ => 0 end).
Proof.
  intros Hs out. subst out. unfold exec, exec_pool, tally, added, healthy.
  specialize (Hs (o_dbclock o (w_step w)) (w_db w)).
  destruct (o_outcome o (w_step w)) eqn:Eo, (s _ _) as [[n d]|]; cbn [fst snd]; rsimp;
    try specialize (Hs _ _ eq_refl); (split; [lia|]); intros Ho; specialize (Ho (w_step w)); try lia; congruence.
Qed.
Lemma Import_tallies rec o w :
  let out := Import rec o w in
  tally o w (snd out) (match fst out with Ok ImportCreated => 1 | _ => 0 end).
Proof.
  intros out. subst out. unfold Import. rewrite bind_run.
  assert (Hd : w_db (snd (UUIDv7 o w)) = w_db w) by done. destruct (UUIDv7 o w) as [id w1]. cbn [fst snd] in *.
  rewrite bindE_run. pose proof (exec_tallies _ o w1 (sql_insert_user_skip_tallies id (imported_user rec))) as HT.
  assert (Hr : ∀ n w2, exec Pool (sql_insert_user_skip id (imported_user rec)) o w1 = (Ok n, w2) → n = 0 ∨ n = 1).
  { intros n w2 (d & Hs & _)%exec_pool_ok. unfold sql_insert_user_skip in Hs.
    repeat case_match; simplify_eq; auto. }
  unfold tally, added in *. rewrite Hd in HT. destruct (exec _ _ o w1) as [[n|e] w2]; cbn [fst snd] in *; [|done].
  destruct (Hr n w2 eq_refl) as [-> | ->]; done.
Qed.
Lemma ImportBatch_tallies recs o w :
  let out := ImportBatch recs o w in tally o w (snd out) (match fst out with Ok n => n | Err _ => 0 end).
Proof.
  intros out. subst out. unfold ImportBatch. rewrite bind_run. destruct (with_ids_records recs o w) as [_ Hd].
  destruct (with_ids recs o w) as [l w1]. cbn [fst snd] in *.
  pose proof (exec_tallies _ o w1 (sql_insert_batch_tallies l)) as HT. unfold tally, added in *. by rewrite Hd in HT.
Qed.
Lemma replay_rows_tallies recs p o w :
  let out := replay_rows recs p o w in tally o w (snd out) (pg_created (fst out) - pg_created p).
Proof.
  revert p w. induction recs as [|rec recs IH]; intros p w out; subst out; cbn [replay_rows].
  { rewrite ret_run. cbn [fst snd]. rewrite Z.sub_diag. by apply tally_refl. }
  rewrite bind_run. pose proof (Import_tallies rec o w) as HI.
  destruct (Import rec o w) as [r w1]. cbn [fst snd] in *.
  match goal with |- context [replay_rows recs ?q o w1] => pose proof (IH q w1) as HR;
    assert (Hq : pg_created q - pg_created p = match r with Ok ImportCreated => 1 | _ => 0 end)
      by (destruct r as [[]|]; rsimp; lia) end.
  cbv zeta in HR. rewrite <-Hq in HI. pose proof (tally_trans _ _ _ _ _ _ HI HR) as HT.
  revert HT. match goal with |- tally _ _ _ ?a → tally _ _ _ ?b => replace a with b by lia end. done.
Qed.
Lemma flush_tallies p o w :
  let out := flush p o w in tally o w (snd out) (pg_created (fst out) - pg_created p).
Proof.
  intros out. subst out. unfold flush. destruct (pg_pending p) as [|rec recs].
  { rewrite ret_run. cbn [fst snd]. rewrite Z.sub_diag. by apply tally_refl. }
  rewrite bind_run. pose proof (ImportBatch_tallies (rec :: recs) o w) as HB.
  destruct (ImportBatch (rec :: recs) o w) as [[n|e] w1]; cbn [fst snd] in *.
  - rewrite ret_run. rsimp. by replace (n + pg_created p - pg_created p) with n by lia.
  - rewrite bind_run, ret_run. cbn [fst snd]. rsimp.
    exact (tally_trans _ _ _ _ _ _ HB (replay_rows_tallies (rec :: recs) p o w1)).
Qed.

Lemma replay_rows_adds recs p : Forall from recs → adds (replay_rows recs p).
Proof.
  revert p. induction recs as [|rec recs IH]; intros p Hf; [apply preserves_ret, _|].
  apply Forall_cons in Hf as [Hr Hf]. cbn [replay_rows]. apply preserves_bind; [exact _|by apply Import_adds|].
  intros r. by apply IH.
Qed.
Lemma replay_rows_counts recs p o w :
  let p' := fst (replay_rows recs p o w) in
  counts_ok p → counts_ok p' ∧ pg_pending p' = pg_pending p ∧ pg_failed p ≤ pg_failed p'
  ∧ pg_created p' + pg_skipped p' + pg_failed p' = pg_created p + pg_skipped p + pg_failed p + Z.of_nat (length recs).
Proof.
  revert p w. induction recs as [|rec recs IH]; intros p w p' Hp; subst p'; [by split_and!; [..|cbn; lia]|].
  cbn [replay_rows]. rewrite bind_run. destruct (Import rec o w) as [r w1]. cbn [fst snd].
  match goal with |- context [replay_rows recs ?q o w1] => destruct (IH q w1) as (H1 & H2 & H3 & H4) end.
  { unfold counts_ok in *. destruct r as [[]|]; rsimp; lia. }
  split; [done|]. rewrite H2, H4. cbn [length]. rewrite Nat2Z.inj_succ. destruct r as [[]|]; rsimp; split_and!; lia || done.
Qed.

Lemma flush_adds p : Forall from (pg_pending p) → adds (flush p).
Proof.
  intros Hf. unfold flush. destruct (pg_pending p) as [|rec recs] eqn:E; [apply preserves_ret, _|].
  apply preserves_bind; [exact _|by apply ImportBatch_adds|]. intros [n|e]; [apply preserves_ret, _|].
  apply preserves_bind; [exact _|by apply replay_rows_adds|intros p'; apply preserves_ret, _].
Qed.
Lemma flush_counts p o w :
  let p' := fst (flush p o w) in
  Forall from (pg_pending p) → counts_ok p →
  counts_ok p' ∧ pg_pending p' = [] ∧ accounted p' = accounted p ∧ pg_failed p ≤ pg_failed p'.
Proof.
  intros p' Hf Hp. subst p'. unfold flush, accounted. destruct (pg_pending p) as [|rec recs] eqn:E.
  { rewrite ret_run. cbn [fst]. rewrite E. by split_and!. }
  rewrite bind_run. destruct (ImportBatch (rec :: recs) o w) as [[n|e] w1] eqn:EB; cbn [fst snd].
  - apply ImportBatch_count in EB; [|done]. rewrite ret_run. unfold counts_ok in *. rsimp. split_and!; lia || done.
  - rewrite bind_run, ret_run. cbn [fst].
    pose proof (replay_rows_counts (rec :: recs) p o w1 Hp) as HR. revert HR. cbv zeta.
    generalize (fst (replay_rows (rec :: recs) p o w1)). intros [pn c sk f l] (H1 & _ & H3 & H4).
    unfold counts_ok in *. rsimp. split_and!; lia || done.
Qed.
End proofs.

Section import.
Context `{Postgres} (lines : list string).
Abbreviation from := (file_record lines).

(** The state of the loop: what is pending comes from the file and is less
    than a chunk, every line that is not blank is counted or pending, and the
    ones that are no records are among the failures. *)
Definition loop_ok (seen : list string) (p : progress) : Prop :=
  Forall from (pg_pending p) ∧ (length (pg_pending p) < importChunkSize)%nat ∧ counts_ok p
  ∧ accounted p = Z.of_nat (length (List.filter not_blank seen))
  ∧ Z.of_nat (length (List.filter bad_line seen)) ≤ pg_failed p.
(** What a step of it does to the tables. *)
Definition loop_adds (o : oracle) (w w' : world) (p p' : progress) : Prop :=
  only_adds from (w_db w) (w_db w') ∧ tally o w w' (pg_created p' - pg_created p).
Lemma loop_adds_refl o w p p' : pg_created p' = pg_created p → loop_adds o w w p p'.
Proof. intros E. split; [reflexivity|]. rewrite E, Z.sub_diag. by apply tally_refl. Qed.

(** A line that adds no record. *)
Lemma loop_ok_skip seen line p :
  loop_ok seen p → not_blank line = false → loop_ok (seen ++ [line]) (p <| pg_line ::= Z.add 1 |>).
Proof.
  intros (Hf & Hl & Hc & Ha & Hb) Hn. assert (Hbl : bad_line line = false) by (unfold bad_line; by rewrite Hn).
  unfold loop_ok, counts_ok, accounted in *. rewrite !List.filter_app. cbn [List.filter].
  rewrite Hn, Hbl, !app_nil_r. rsimp. split_and!; lia || done.
Qed.
Lemma loop_ok_fail seen line p :
  loop_ok seen p → not_blank line = true →
  loop_ok (seen ++ [line]) (p <| pg_line ::= Z.add 1 |> <| pg_failed ::= Z.add 1 |>).
Proof.
  intros (Hf & Hl & Hc & Ha & Hb) Hn. unfold loop_ok, counts_ok, accounted in *. rewrite !List.filter_app, !length_app.
  cbn [List.filter]. rewrite Hn. destruct (bad_line line); cbn [length]; rsimp; split_and!; lia || done.
Qed.
Lemma import_line_ok seen line p o w :
  line ∈ lines → loop_ok seen p →
  let out := import_line line p o w in
  loop_ok (seen ++ [line]) (fst out) ∧ loop_adds o w (snd out) p (fst out).
Proof.
  intros Hin Hp out. subst out. unfold import_line.
  destruct (str_eqb (TrimSpace line) "") eqn:Eb.
  { rewrite ret_run. split; [apply loop_ok_skip; [done|]; unfold not_blank; by rewrite Eb|by apply loop_adds_refl]. }
  assert (Hn : not_blank line = true) by (unfold not_blank; by rewrite Eb).
  destruct (decode_record (TrimSpace line)) as [r|] eqn:Ed.
  2:{ rewrite ret_run. clear Ed. split; [by apply loop_ok_fail|by apply loop_adds_refl]. }
  destruct (str_eqb (a0_Email r) "") eqn:Ee.
  { rewrite ret_run. clear Ed. split; [by apply loop_ok_fail|by apply loop_adds_refl]. }
  destruct Hp as (Hf & Hl & Hc & Ha & Hb).
  set (q := _ <| pg_pending ::= _ |>).
  assert (Hq : Forall from (pg_pending q) ∧ counts_ok q ∧ pg_created q = pg_created p
    ∧ accounted q = Z.of_nat (length (List.filter not_blank (seen ++ [line])))
    ∧ Z.of_nat (length (List.filter bad_line (seen ++ [line]))) ≤ pg_failed q).
  { assert (Hr : from (import_record r)) by (apply str_eqb_false in Ee; by exists line, r).
    assert (Hbl : bad_line line = false) by (unfold bad_line; by rewrite Ed, Ee, andb_false_r).
    rewrite !List.filter_app. cbn [List.filter]. rewrite Hn, Hbl, app_nil_r, length_app. clear Ed Hin Hbl.
    split; [unfold q; rsimp; apply Forall_app; split; [done|]; by apply Forall_singleton|].
    unfold q, counts_ok, accounted in *. rsimp. rewrite length_app. cbn [length]. split_and!; lia. }
  clearbody q. destruct Hq as (Hqf & Hqc & Hqn & Hqa & Hqb). destruct (importChunkSize <=? _)%nat eqn:El.
  - destruct (flush_counts from q o w Hqf Hqc) as (H1 & H2 & H3 & H4). unfold loop_adds. rewrite <-Hqn.
    split; [|split; [by apply flush_adds|apply flush_tallies]].
    unfold loop_ok. rewrite H2, H3. split_and!; [done|unfold importChunkSize; cbn; lia|done|done|lia].
  - rewrite ret_run. cbn [fst snd]. apply Nat.leb_gt in El. split; [by split_and!|by apply loop_adds_refl].
Qed.
Lemma loop_adds_trans o w1 w2 w3 p1 p2 p3 :
  loop_adds o w1 w2 p1 p2 → loop_adds o w2 w3 p2 p3 → loop_adds o w1 w3 p1 p3.
Proof.
  intros [A1 T1] [A2 T2]. split; [by etrans|].
  replace (pg_created p3 - pg_created p1) with ((pg_created p2 - pg_created p1) + (pg_created p3 - pg_created p2)) by lia.
  by eapply tally_trans.
Qed.
Lemma import_lines_ok seen todo p o w :
  (∀ l, l ∈ todo → l ∈ lines) → loop_ok seen p →
  let out := import_lines todo p o w in
  loop_ok (seen ++ todo) (fst out) ∧ loop_adds o w (snd out) p (fst out).
Proof.
  revert seen p w. induction todo as [|l todo IH]; intros seen p w Hin Hp.
  { cbn. rewrite app_nil_r. split; [done|]. by apply loop_adds_refl. }
  cbn [import_lines]. rewrite bind_run.
  destruct (import_line_ok seen l p o w (Hin l ltac:(by left)) Hp) as [H1 H2].
  destruct (import_line l p o w) as [p1 w1]. cbn [fst snd] in *.
  destruct (IH (seen ++ [l]) p1 w1) as [H3 H4]; [intros l' Hl'; apply Hin; by right|done|].
  rewrite <-app_assoc in H3. split; [done|by eapply loop_adds_trans].
Qed.
End import.

(** C31. The import never touches an account, and its counts are honest:
    whatever the database answers, batches that fail included, the accounts
    of the tables stay as they are and the new ones are records of the file
    with their hash as it stands; no more are counted as created than were
    added, and exactly as many when the database answers; every line that is
    no record is counted as failed.  Every line that is not blank is counted
    exactly once as created, skipped or failed, and the exit code is 0
    exactly when none failed, unless a line of 8 MiB ends the reading: then
    the exit code is 1 and less than a chunk of the lines before it, the
    records that were still pending, is not counted. *)
Theorem import_accounts `{Postgres} data o w :
  let '(lines, cut) := scan_lines data in
  let '((code, p), w') := runImport data o w in
  only_adds (file_record lines) (w_db w) (w_db w')
  ∧ tally o w w' (pg_created p)
  ∧ counts_ok p
  ∧ Z.of_nat (length (List.filter bad_line lines)) ≤ pg_failed p
  ∧ pg_created p + pg_skipped p + pg_failed p + Z.of_nat (length (pg_pending p))
    = Z.of_nat (length (List.filter not_blank lines))
  ∧ (if (cut : bool) then code = 1 ∧ (length (pg_pending p) < importChunkSize)%nat
     else pg_pending p = [] ∧ (code = 0 ↔ pg_failed p = 0)).
Proof.
  unfold runImport. destruct (scan_lines data) as [lines cut].
  rewrite bind_run.
  destruct (import_lines_ok lines [] lines no_progress o w) as [(Hf & Hl & Hc & Ha & Hb) [Hd Ht]]; [done|split_and!; try done; unfold importChunkSize; cbn; lia|].
  destruct (import_lines lines no_progress o w) as [p w1]. cbn [fst snd app] in *. rewrite Z.sub_0_r in Ht.
  destruct cut; [rewrite ret_run; by split_and!|]. rewrite bind_run.
  destruct (flush_counts (file_record lines) p o w1 Hf Hc) as (H1 & H2 & H3 & H4).
  pose proof (flush_adds (file_record lines) p Hf o w1) as Hd1. pose proof (flush_tallies p o w1) as Ht1.
  destruct (flush p o w1) as [p2 w2]. cbn [fst snd] in *. rewrite ret_run.
  pose proof (tally_trans _ _ _ _ _ _ Ht Ht1) as Ht2. replace (pg_created p + _) with (pg_created p2) in Ht2 by lia.
  unfold accounted in *. rewrite H2 in *. cbn [length] in *.
  split_and!; [by etrans|done|done|lia|lia|done|]. destruct H1 as (_ & _ & H1). destruct (0 <? pg_failed p2) eqn:E; zb; lia.
Qed.

Definition toy_line (e : string) : string :=
  "{" +:+ dquote +:+ "email" +:+ dquote +:+ ":" +:+ dquote +:+ e +:+ dquote +:+ ","
  +:+ dquote +:+ "passwordHash" +:+ dquote +:+ ":" +:+ dquote +:+ "$2b$10$x" +:+ dquote +:+ "}".
Example import_toy :
  let data := toy_line "ana@x.com" +:+ newline +:+ newline +:+ toy_line "ANA@x.com" +:+ newline +:+ "{bad" in
  let '((code, p), w') := runImport data (oracle_at 7) (world_of empty_db) in
  code = 1 ∧ (pg_created p, pg_skipped p, pg_failed p, pg_line p) = (1, 1, 1, 4)
  ∧ map (λ ku, u_password_hash (snd ku)) (map_to_list (users (w_db w'))) = [Some "$2b$10$x"].
Proof. vm_compute. split_and!; reflexivity. Qed.
