(* ===== verification/Session.v ===== *)
(** * Session: src/internal/session/session.go

    The opaque-session lifecycle: create, validate with rolling renewal,
    rotate, revoke, purge.  The first part is the store as the code has it;
    the second what a single call guarantees; the third the sessions of a
    deployment whose requests interleave statement by statement. *)

From S2P Require Import Prelude GoLib GoHash Schema World Logic Crypto Users.

(** ** The store *)
Record SessionConfig := MkSessionConfig {
  Lifetime : Z;
  RollingRenewalThreshold : Z;
  MaxLifetime : Z          (* 0: no absolute cap *)
}.

Inductive Kind := KindNotFound | KindExpired | KindValid.
#[export] Instance Kind_eq_dec : EqDecision Kind.
Proof. solve_decision. Defined.

Record Result := MkResult {
  vr_kind : Kind; vr_user : option User; vr_expires_at : Z; vr_renewed : bool
}.

Record CreateInput := MkCreateInput {
  ci_user_id : string; ci_user_agent : option string; ci_ip_first : option string
}.

Record Created := MkCreated { cr_token : string; cr_expires_at : Z }.

Section store.
Context `{Postgres} (cfg : SessionConfig).

(** [INSERT INTO sessions ..]: a fresh key, an existing user, a valid INET. *)
Definition sql_insert_session (h : string) (s : session_row) : stmt unit := λ _ d,
  match sessions d !! h, users d !! s_user_id s with
  | None, Some _ =>
      if match s_ip_first s with Some ip => inet_ok ip | None => true end
      then Some (tt, d <| sessions := <[h := s]> (sessions d) |>) else None
  | _, _ => None
  end.

Definition create (ex : executor) (inp : CreateInput) : M (res err Created) :=
  token ← GenerateToken;
  now ← time_Now;
  let expiresAt := now + Lifetime cfg in
  _ ←? exec ex (sql_insert_session (HashToken token)
         (MkSession (ci_user_id inp) now now expiresAt (ci_user_agent inp) (ci_ip_first inp)));
  mret (Ok (MkCreated token expiresAt)).
Definition Create := create Pool.
Definition CreateTx := create Tx.

(** [SELECT .. FROM sessions s JOIN users u ON u.id = s.user_id ..]. *)
Definition session_user (d : db) (h : string) : option (session_row * User) :=
  s ← sessions d !! h;
  u ← users d !! s_user_id s;
  Some (s, user_of_row (s_user_id s) u).
Definition sql_session_user (h : string) : stmt (option (session_row * User)) := λ _ d,
  Some (session_user d h, d).

Definition sql_delete_session (h : string) : stmt unit := λ _ d,
  Some (tt, d <| sessions := delete h (sessions d) |>).

Definition sql_renew_session (h : string) (now newExpiry : Z) : stmt unit := λ _ d,
  Some (tt, d <| sessions := alter (λ s, s <| s_last_used_at := now |>
                                           <| s_expires_at := newExpiry |>) h (sessions d) |>).

Definition sql_touch_session (h : string) (now : Z) : stmt unit := λ _ d,
  Some (tt, d <| sessions := alter (λ s, s <| s_last_used_at := now |>) h (sessions d) |>).

(** The write a live session is due: none inside the renewal window, else
    [Some (Some e)] to extend to [e] and [Some None] when pinned at the cap. *)
Definition newExpiry (now createdAt : Z) : Z :=
  let e := now + Lifetime cfg in
  if (0 <? MaxLifetime cfg) && (createdAt + MaxLifetime cfg <? e)
  then createdAt + MaxLifetime cfg else e.

Definition renewal (now : Z) (s : session_row) : option (option Z) :=
  if RollingRenewalThreshold cfg <=? now - s_last_used_at s then
    let e := newExpiry now (s_created_at s) in
    Some (if s_expires_at s <? e then Some e else None)
  else None.

(** [u.Disabled || !expiresAt.After(now)]. *)
Definition session_dead (now : Z) (s : session_row) (u : User) : bool :=
  Disabled u || (s_expires_at s <=? now).

Definition Validate (token : string) : M (res err Result) :=
  let h := HashToken token in
  row ← queryRow Pool (sql_session_user h);
  match row with
  | Err ENoRows => mret (Ok (MkResult KindNotFound None 0 false))
  | Err e => mret (Err e)
  | Ok (s, u) =>
      now ← time_Now;
      if session_dead now s u then
        _ ← exec Pool (sql_delete_session h);
        mret (Ok (MkResult KindExpired None 0 false))
      else
        match renewal now s with
        | None => mret (Ok (MkResult KindValid (Some u) (s_expires_at s) false))
        | Some (Some e) =>
            _ ←? exec Pool (sql_renew_session h now e);
            mret (Ok (MkResult KindValid (Some u) e true))
        | Some None =>
            _ ←? exec Pool (sql_touch_session h now);
            mret (Ok (MkResult KindValid (Some u) (s_expires_at s) false))
        end
  end.

(** [DELETE FROM sessions WHERE id_hash = $1 RETURNING user_id]. *)
Definition sql_revoke (h : string) : stmt (option string) := λ _ d,
  Some (s_user_id <$> sessions d !! h, d <| sessions := delete h (sessions d) |>).

Definition revoke (ex : executor) (token : string) : M (res err string) :=
  r ← queryRow ex (sql_revoke (HashToken token));
  mret (match r with Err ENoRows => Ok "" | r => r end).
Definition Revoke := revoke Pool.
Definition RevokeTx := revoke Tx.

Definition Rotate (oldToken : string) (inp : CreateInput) : M (res err Created) :=
  _ ←? Revoke oldToken;
  Create inp.

Definition owned_by (uid : string) (_ : string) (s : session_row) : bool :=
  str_eqb (s_user_id s) uid.
Definition sql_revoke_all (uid : string) : stmt unit := λ _ d,
  Some (tt, d <| sessions := delete_where (owned_by uid) (sessions d) |>).
Definition revokeAllForUser (ex : executor) (userID : string) : M (res err unit) :=
  exec ex (with_uuid userID sql_revoke_all).
Definition RevokeAllForUser := revokeAllForUser Pool.
Definition RevokeAllForUserTx := revokeAllForUser Tx.

Definition session_expired (now : Z) (_ : string) (s : session_row) : bool :=
  s_expires_at s <=? now.
Definition sql_purge_sessions : stmt Z := λ now d,
  Some (Z.of_nat (size (sessions d) - size (delete_where (session_expired now) (sessions d))),
        d <| sessions := delete_where (session_expired now) (sessions d) |>).
Definition PurgeExpired : M (res err Z) := exec Pool sql_purge_sessions.
End store.

Lemma sql_insert_session_inv `{Postgres} h s now d d' x :
  sql_insert_session h s now d = Some (x, d') →
  sessions d !! h = None ∧ is_Some (users d !! s_user_id s)
  ∧ d' = d <| sessions := <[h := s]> (sessions d) |>.
Proof.
  unfold sql_insert_session. destruct (sessions d !! h) eqn:E1; [done|].
  destruct (users d !! _) eqn:E2; [|done]. destruct (s_ip_first s) as [ip|];
    [destruct (inet_ok ip); [|done]|]; intros [= <- <-]; by eauto.
Qed.

(** ** Arithmetic of renewal *)
Section renewal_facts.
Context (cfg : SessionConfig).

Lemma newExpiry_capped now c :
  0 < MaxLifetime cfg → newExpiry cfg now c ≤ c + MaxLifetime cfg.
Proof. intros Hm. unfold newExpiry. destr_match; zb; [lia|].
  destruct (0 <? MaxLifetime cfg) eqn:E1; zb; [simpl in *; zb; lia|lia]. Qed.

Lemma renewal_extends now s e :
  renewal cfg now s = Some (Some e) →
  s_expires_at s < e ∧ e = newExpiry cfg now (s_created_at s).
Proof. unfold renewal. repeat destr_match; intros [= <-]; zb; done. Qed.
End renewal_facts.

(** A session row as a caller may rely on it: present, its owner present and
    enabled, not yet expired. *)
Definition live_session (d : db) (now : Z) (h : string) (s : session_row) (u : user_row) : Prop :=
  sessions d !! h = Some s ∧ users d !! s_user_id s = Some u
  ∧ u_disabled u = false ∧ now < s_expires_at s.

Lemma session_user_Some d h s u :
  session_user d h = Some (s, u) ↔
  sessions d !! h = Some s ∧ ∃ r, users d !! s_user_id s = Some r ∧ u = user_of_row (s_user_id s) r.
Proof.
  unfold session_user. split.
  - intros (s0 & Hs & (u0 & Hu & [= <- <-])%bind_Some)%bind_Some. eauto.
  - intros [Hs (r & Hr & ->)]. by rewrite Hs; simpl; rewrite Hr.
Qed.

Lemma session_dead_false now s i r :
  session_dead now s (user_of_row i r) = false ↔ u_disabled r = false ∧ now < s_expires_at s.
Proof. unfold session_dead. simpl. rewrite orb_false_iff, Z.leb_gt. done. Qed.

(** ** One call of [Validate] *)
Section validate.
Context `{Postgres} (cfg : SessionConfig).

(** The outcome of [Validate] on a row that was read, by cases. *)
Definition valid_result (now : Z) (s : session_row) (u : User) : Result :=
  match renewal cfg now s with
  | Some (Some e) => MkResult KindValid (Some u) e true
  | _ => MkResult KindValid (Some u) (s_expires_at s) false
  end.
Definition valid_write (now : Z) (h : string) (s : session_row) (d : db) : db :=
  match renewal cfg now s with
  | Some (Some e) => d <| sessions := alter (λ s, s <| s_last_used_at := now |>
                                           <| s_expires_at := e |>) h (sessions d) |>
  | Some None => d <| sessions := alter (λ s, s <| s_last_used_at := now |>) h (sessions d) |>
  | None => d
  end.

Lemma queryRow_read_ok {A} (f : db → option A) o w r w' :
  queryRow Pool (λ _ d, Some (f d, d)) o w = (r, w') →
  w_step w' = S (w_step w) ∧ w_db w' = w_db w ∧
  match r with
  | Ok a => f (w_db w) = Some a
  | Err ENoRows => f (w_db w) = None ∧ o_outcome o (w_step w) = Applied
  | Err e => e = EDb ∧ o_outcome o (w_step w) ≠ Applied
  end.
Proof.
  unfold queryRow. rewrite bindE_run. unfold exec, exec_pool.
  destruct (o_outcome o (w_step w)) eqn:Eo; simpl;
    [destruct (f (w_db w)) eqn:Ef|..]; intros [= <- <-]; done.
Qed.

Lemma Validate_valid o w r w' tok :
  Validate cfg tok o w = (Ok r, w') → vr_kind r = KindValid →
  let now := o_clock o (S (w_step w)) in
  ∃ s u, live_session (w_db w) now (HashToken tok) s u
         ∧ r = valid_result now s (user_of_row (s_user_id s) u)
         ∧ w_db w' = valid_write now (HashToken tok) s (w_db w).
Proof.
  unfold Validate. rewrite bind_run.
  destruct (queryRow _ _ o w) as [q w1] eqn:Eq. apply queryRow_read_ok in Eq as (Hs1 & Hd1 & Hq).
  simpl. destruct q as [[s u]|e]; [|destruct e; intros [= <- <-]; done].
  apply session_user_Some in Hq as (Hs & ur & Hur & ->).
  rewrite bind_run. unfold time_Now; cbn [fst snd tick]. rewrite Hs1.
  set (now := o_clock o (S (w_step w))).
  destruct (session_dead _ _ _) eqn:Edead; [rewrite bind_run; intros [= <- <-]; done|].
  apply session_dead_false in Edead as [Hdis Hexp].
  unfold valid_result, valid_write.
  destruct (renewal cfg now s) as [[e|]|] eqn:Er; rewrite ?bindE_run.
  - case_exec x w2 Ex.
    destruct x as [a|]; [|done]. intros [= <- <-] _.
    apply exec_pool_ok in Ex as (d & [= <- <-] & ->). exists s, ur. rewrite Er.
    split; [done|]. split; [done|]. rsimp. by rewrite Hd1.
  - case_exec x w2 Ex.
    destruct x as [a|]; [|done]. intros [= <- <-] _.
    apply exec_pool_ok in Ex as (d & [= <- <-] & ->). exists s, ur. rewrite Er.
    split; [done|]. split; [done|]. rsimp. by rewrite Hd1.
  - intros [= <- <-] _. exists s, ur. rewrite Er. done.
Qed.
End validate.

(** C1. Whatever the database answers, [Validate] says "valid" only for a
    live session of an enabled user, returns exactly that user, and the
    expiry it reports is in the future and stored in the row afterwards: the
    one that was stored when it did not extend the session, and a later one
    that is not past the absolute cap, where there is one, when it did. *)
Theorem Validate_sound `{Postgres} cfg tok o w r w' :
  Validate cfg tok o w = (Ok r, w') → vr_kind r = KindValid →
  ∃ s u,
    let now := o_clock o (S (w_step w)) in
    live_session (w_db w) now (HashToken tok) s u
    ∧ vr_user r = Some (user_of_row (s_user_id s) u)
    ∧ now < vr_expires_at r ∧ s_expires_at s ≤ vr_expires_at r
    ∧ (∃ s', sessions (w_db w') !! HashToken tok = Some s'
             ∧ s_expires_at s' = vr_expires_at r ∧ s_created_at s' = s_created_at s)
    ∧ (vr_renewed r = false → vr_expires_at r = s_expires_at s)
    ∧ (vr_renewed r = true → s_expires_at s < vr_expires_at r
       ∧ (0 < MaxLifetime cfg → vr_expires_at r ≤ s_created_at s + MaxLifetime cfg)).
Proof.
  intros HV HK. destruct (Validate_valid cfg o w r w' tok HV HK) as (s & u & Hl & -> & ->).
  exists s, u. simpl. split; [exact Hl|]. destruct Hl as (Hs & Hu & Hd & He).
  unfold valid_result, valid_write.
  destruct (renewal _ _ s) as [[e|]|] eqn:Er; rsimp.
  - apply renewal_extends in Er as [Hlt ->].
    split_and!; [done|lia|lia|by rewrite lookup_alter_eq, Hs; eexists|done|].
    intros _. split; [lia|]. intros Hm. by apply newExpiry_capped.
  - split_and!; [done|lia|lia|by rewrite lookup_alter_eq, Hs; eexists|done..].
  - split_and!; [done|lia|lia|by exists s|done..].
Qed.

(** *** Concrete inputs *)
Definition toy_user : user_row := MkUser "ana@x.com" true None None None 0 0 [] false.
Definition toy_cfg : SessionConfig := MkSessionConfig (30 * 24 * Hour) Hour (90 * 24 * Hour).
Definition toy_session : session_row := MkSession "u1" 0 0 (30 * 24 * Hour) None None.
Definition toy_db : db :=
  empty_db <| users := {["u1" := toy_user]} |>
           <| sessions := {[HashToken "tok" := toy_session]} |>.

Lemma Validate_sound_witness :
  ∃ r w', Validate toy_cfg "tok" (oracle_at (2 * Hour)) (world_of toy_db) = (Ok r, w')
          ∧ vr_kind r = KindValid ∧ 2 * Hour < vr_expires_at r.
Proof.
  destruct (Validate toy_cfg "tok" (oracle_at (2 * Hour)) (world_of toy_db))
    as [[r|e] w'] eqn:E; [|vm_compute in E; discriminate].
  exists r, w'. split; [done|].
  assert (vr_kind r = KindValid) as HK.
  { revert E. vm_compute. by intros [= <- _]. }
  split; [done|]. by destruct (Validate_sound _ _ _ _ _ _ E HK) as (s & u & _ & _ & Hx & _).
Defined.

(** The kind [Validate] must answer for a row (or its absence). *)
Definition session_kind (d : db) (now : Z) (h : string) : Kind :=
  match session_user d h with
  | None => KindNotFound
  | Some (s, u) => if session_dead now s u then KindExpired else KindValid
  end.

Lemma queryRow_pool_healthy {A} (f : db → option A) o w :
  healthy o →
  queryRow Pool (λ _ d, Some (f d, d)) o w =
  (match f (w_db w) with Some a => Ok a | None => Err ENoRows end,
   w <| w_step := S (w_step w) |>).
Proof.
  intros H. unfold queryRow. rewrite bindE_run. unfold exec. rewrite exec_pool_healthy by done.
  cbn [fst snd]. destruct w, (f _); reflexivity.
Qed.

(** A live session validates. *)
Lemma Validate_live `{Postgres} cfg tok o w s u :
  healthy o → let now := o_clock o (S (w_step w)) in
  live_session (w_db w) now (HashToken tok) s u →
  ∃ w', Validate cfg tok o w = (Ok (valid_result cfg now s (user_of_row (s_user_id s) u)), w').
Proof.
  intros Ho now (Hs & Hu & Hd & He). unfold Validate, valid_result. rewrite bind_run.
  change (sql_session_user (HashToken tok))
    with (λ (_ : Z) d, Some (session_user d (HashToken tok), d)).
  rewrite (queryRow_pool_healthy (λ d, session_user d (HashToken tok))) by done. cbn [fst snd].
  assert (Hsu : session_user (w_db w) (HashToken tok) = Some (s, user_of_row (s_user_id s) u))
    by (apply session_user_Some; eauto).
  rewrite Hsu, bind_run. unfold time_Now; cbn [fst snd tick]. rsimp. fold now.
  rewrite (proj2 (session_dead_false now s (s_user_id s) u)) by done.
  destruct (renewal cfg now s) as [[e|]|]; rewrite ?bindE_run; unfold exec;
    rewrite ?exec_pool_healthy by done; by eexists.
Qed.

(** While the database answers, [Validate] decides: it returns the kind
    the stored row has at this instant, removes the row of an expired session
    or of a disabled user, keeps the row of a valid one, and never touches
    another session or another table. *)
Theorem Validate_decides `{Postgres} cfg tok o w :
  healthy o →
  let now := o_clock o (S (w_step w)) in
  let h := HashToken tok in
  ∃ r w', Validate cfg tok o w = (Ok r, w')
    ∧ vr_kind r = session_kind (w_db w) now h
    ∧ (vr_kind r = KindExpired → sessions (w_db w') !! h = None)
    ∧ (vr_kind r = KindValid → is_Some (sessions (w_db w') !! h))
    ∧ (∀ h', h' ≠ h → sessions (w_db w') !! h' = sessions (w_db w) !! h')
    ∧ (w_db w') <| sessions := ∅ |> = (w_db w) <| sessions := ∅ |>.
Proof.
  intros Ho. unfold Validate, session_kind. rewrite bind_run.
  change (sql_session_user (HashToken tok))
    with (λ (_ : Z) d, Some (session_user d (HashToken tok), d)).
  rewrite (queryRow_pool_healthy (λ d, session_user d (HashToken tok))) by done. cbn [fst snd].
  destruct (session_user _ _) as [[s u]|] eqn:Esu; [|by eexists _, _].
  assert (Hs : sessions (w_db w) !! HashToken tok = Some s) by by apply session_user_Some in Esu as [? _].
  rewrite bind_run. unfold time_Now; cbn [fst snd tick]. rsimp.
  destruct (session_dead _ _ _).
  - rewrite bind_run. unfold exec. rewrite exec_pool_healthy by done. rsimp.
    eexists _, _. split; [reflexivity|]. rsimp.
    split_and!; [done|intros _; apply lookup_delete_eq|done|by intros; rewrite lookup_delete_ne|done].
  - destruct (renewal cfg _ s) as [[e|]|]; rewrite ?bindE_run; unfold exec;
      rewrite ?exec_pool_healthy by done; eexists _, _; (split; [reflexivity|]); rsimp;
      split_and!; try done; intros; try (rewrite lookup_alter_ne by done; done);
      try (rewrite lookup_alter_eq, Hs; done); by rewrite Hs.
Qed.

Lemma Validate_decides_witness :
  ∃ r w', Validate toy_cfg "tok" (oracle_at (31 * 24 * Hour)) (world_of toy_db) = (Ok r, w')
    ∧ sessions (w_db w') !! HashToken "tok" = None.
Proof.
  destruct (Validate_decides toy_cfg "tok" (oracle_at (31 * 24 * Hour)) (world_of toy_db))
    as (r & w' & E & HK & HX & _); [intros i; reflexivity|].
  exists r, w'. split; [exact E|]. apply HX. rewrite HK.
  by vm_compute.
Defined.

(** Create, then validate: the token handed out by [Create] validates to
    its user for as long as the clock has not reached the expiry that came
    with it and the account stays enabled. *)
Theorem Create_Validate `{Postgres} cfg inp o w c w1 u o' w2 :
  Create cfg inp o w = (Ok c, w1) →
  w_db w2 = w_db w1 → users (w_db w2) !! ci_user_id inp = Some u → u_disabled u = false →
  healthy o' → o_clock o' (S (w_step w2)) < cr_expires_at c →
  ∃ r w3, Validate cfg (cr_token c) o' w2 = (Ok r, w3) ∧ vr_kind r = KindValid
          ∧ vr_user r = Some (user_of_row (ci_user_id inp) u).
Proof.
  intros HC Hd Hu Hdis Ho Hlt.
  assert (∃ s, sessions (w_db w1) !! HashToken (cr_token c) = Some s
               ∧ s_user_id s = ci_user_id inp ∧ s_expires_at s = cr_expires_at c) as (s & Hs & Hsu & Hse).
  { revert HC. unfold Create, create. rewrite !bind_run. unfold time_Now; cbn [fst snd tick].
    rewrite bindE_run. case_exec x w3 Ex. destruct x; [|done]. intros [= <- <-].
    apply exec_pool_ok in Ex as (d & (_ & _ & ->)%sql_insert_session_inv & ->). rsimp.
    rewrite lookup_insert_eq. by eexists. }
  destruct (Validate_decides cfg (cr_token c) o' w2 Ho) as (r & w3 & HV & HK & _).
  rewrite <-Hd in Hs. rewrite <-Hsu in Hu.
  assert (session_user (w_db w2) (HashToken (cr_token c)) = Some (s, user_of_row (s_user_id s) u)) as Hsu'.
  { apply session_user_Some. eauto. }
  unfold session_kind in HK. rewrite Hsu' in HK.
  rewrite (proj2 (session_dead_false _ s (s_user_id s) u)) in HK by (split; [done|lia]).
  exists r, w3. split; [done|]. split; [done|].
  destruct (Validate_valid cfg _ _ _ _ _ HV HK) as (s' & u' & (Hs' & Hu' & _) & -> & _).
  rewrite Hs in Hs'. injection Hs' as <-. rewrite Hu in Hu'. injection Hu' as <-.
  unfold valid_result. by destruct (renewal _ _ _) as [[|]|]; simpl; rewrite <-Hsu.
Qed.

Lemma Create_Validate_witness :
  ∃ c w1 r w2,
    Create toy_cfg (MkCreateInput "u1" (Some "ua") None) (oracle_at 0)
      (world_of (empty_db <| users := {["u1" := toy_user]} |>)) = (Ok c, w1)
    ∧ Validate toy_cfg (cr_token c) (oracle_at Hour) w1 = (Ok r, w2) ∧ vr_kind r = KindValid.
Proof.
  destruct (Create toy_cfg (MkCreateInput "u1" (Some "ua") None) (oracle_at 0)
      (world_of (empty_db <| users := {["u1" := toy_user]} |>))) as [[c|] w1] eqn:E;
    [|vm_compute in E; discriminate].
  assert (cr_expires_at c = 30 * 24 * Hour ∧ users (w_db w1) !! "u1" = Some toy_user) as [Hc Hu].
  { revert E. vm_compute. by intros [= <- <-]. }
  destruct (Create_Validate toy_cfg _ _ _ _ _ toy_user (oracle_at Hour) w1 E) as (r & w2 & Hr & HK & _);
    [done|exact Hu|done|intros i; reflexivity|rewrite Hc; vm_compute; reflexivity|].
  exists c, w1, r, w2. done.
Defined.

(** ** Interleaved requests

    Requests of one or many instances run against the same database; what is
    atomic is the statement.  A state is the database with the session keys
    handed out so far and the renewals that have read their row but not
    written yet.  A key is the hash of 256 fresh random bits, so [create]
    never draws one that was used before. *)
Record pending_write := MkPending {
  pw_key : string; pw_created : Z; pw_now : Z; pw_expiry : option Z
}.
Record sys := MkSys { sy_db : db; sy_used : gset string; sy_pending : list pending_write }.

Section interleaving.
Context `{Postgres} (cfg : SessionConfig).

Inductive step : sys → sys → Prop :=
| step_create d U P d' h now uid ua ip :
    h ∉ U →
    sql_insert_session h (MkSession uid now now (now + Lifetime cfg) ua ip) now d = Some (tt, d') →
    step (MkSys d U P) (MkSys d' ({[h]} ∪ U) P)
| step_read d U P h s u now w :
    session_user d h = Some (s, u) → session_dead now s u = false →
    renewal cfg now s = Some w →
    step (MkSys d U P) (MkSys d U (MkPending h (s_created_at s) now w :: P))
| step_write d U P1 P2 p d' t :
    match pw_expiry p with
    | Some e => sql_renew_session (pw_key p) (pw_now p) e
    | None => sql_touch_session (pw_key p) (pw_now p)
    end t d = Some (tt, d') →
    step (MkSys d U (P1 ++ p :: P2)) (MkSys d' U (P1 ++ P2))
| step_give_up d U P1 P2 p :
    step (MkSys d U (P1 ++ p :: P2)) (MkSys d U (P1 ++ P2))
| step_reap d U P h t d' :
    sql_delete_session h t d = Some (tt, d') → step (MkSys d U P) (MkSys d' U P)
| step_revoke d U P h t d' r :
    sql_revoke h t d = Some (r, d') → step (MkSys d U P) (MkSys d' U P)
| step_revoke_all d U P uid t d' :
    sql_revoke_all uid t d = Some (tt, d') → step (MkSys d U P) (MkSys d' U P)
| step_purge d U P t d' n :
    sql_purge_sessions t d = Some (n, d') → step (MkSys d U P) (MkSys d' U P)
| step_other d U P d' :
    sessions d' = sessions d → step (MkSys d U P) (MkSys d' U P).

Definition initial (d : db) : sys := MkSys d (dom (sessions d)) [].

(** Sessions only ever shrink, except by [create] on a new key; a row's
    creation time never changes. *)
Definition shrinks (d d' : db) : Prop :=
  ∀ h s', sessions d' !! h = Some s' →
    ∃ s, sessions d !! h = Some s ∧ s_created_at s' = s_created_at s
         ∧ s_user_id s' = s_user_id s.

Lemma shrinks_refl d d' : sessions d' = sessions d → shrinks d d'.
Proof. intros E h s' Hs. rewrite E in Hs. eauto. Qed.

Lemma shrinks_alter d h f :
  (∀ s, s_created_at (f s) = s_created_at s ∧ s_user_id (f s) = s_user_id s) →
  shrinks d (d <| sessions := alter f h (sessions d) |>).
Proof.
  intros Hf k s'. rsimp. rewrite lookup_alter. case_decide; [subst|eauto].
  intros (s & Hs & ->)%fmap_Some. destruct (Hf s). eauto.
Qed.

Lemma shrinks_delete d h : shrinks d (d <| sessions := delete h (sessions d) |>).
Proof. intros k s'. rsimp. intros [_ Hk]%lookup_delete_Some. eauto. Qed.

Lemma shrinks_delete_where d p : shrinks d (d <| sessions := delete_where p (sessions d) |>).
Proof. intros k s'. rsimp. intros [Hk _]%lookup_delete_where_Some. eauto. Qed.

(** Every step that is not [create] shrinks. *)
Lemma step_shape x y :
  step x y →
  (shrinks (sy_db x) (sy_db y) ∧ sy_used y = sy_used x) ∨
  (∃ h s, (h ∉ sy_used x) ∧ s_expires_at s = s_created_at s + Lifetime cfg
     ∧ sessions (sy_db y) = <[h := s]> (sessions (sy_db x))
           ∧ sy_used y = {[h]} ∪ sy_used x ∧ sy_pending y = sy_pending x).
Proof.
  destruct 1 as [d U P d' h now uid ua ip Hh Hi| | d U P1 P2 p d' t Hw| | | | | |]; simpl.
  - apply sql_insert_session_inv in Hi as (_ & _ & ->). right.
    eexists h, _. by split_and!; [| |reflexivity..].
  - left. by split; [apply shrinks_refl|].
  - left. split; [|done]. destruct (pw_expiry p); injection Hw as <-; by apply shrinks_alter.
  - left. by split; [apply shrinks_refl|].
  - left. split; [|done]. match goal with E : _ = Some _ |- _ => injection E as <- end.
    apply shrinks_delete.
  - left. split; [|done]. match goal with E : _ = Some _ |- _ => injection E as <- <- end.
    apply shrinks_delete.
  - left. split; [|done]. match goal with E : _ = Some _ |- _ => injection E as <- end.
    apply shrinks_delete_where.
  - left. split; [|done]. match goal with E : _ = Some _ |- _ => injection E as <- <- end.
    apply shrinks_delete_where.
  - left. by split; [apply shrinks_refl|].
Qed.

Definition cap : Z := Z.max (Lifetime cfg) (MaxLifetime cfg).
Definition capped (d : db) : Prop :=
  map_Forall (λ _ s, s_expires_at s ≤ s_created_at s + cap) (sessions d).

Record sys_inv (x : sys) : Prop := {
  inv_capped : capped (sy_db x);
  inv_used : dom (sessions (sy_db x)) ⊆ sy_used x;
  inv_pending : Forall (λ p, pw_key p ∈ sy_used x
    ∧ (∀ e, pw_expiry p = Some e → e ≤ pw_created p + cap)
    ∧ (∀ s, sessions (sy_db x) !! pw_key p = Some s → s_created_at s = pw_created p))
    (sy_pending x)
}.

Lemma pending_shrinks d d' (U : gset string) P :
  shrinks d d' →
  Forall (λ p, pw_key p ∈ U
    ∧ (∀ e, pw_expiry p = Some e → e ≤ pw_created p + cap)
    ∧ (∀ s, sessions d !! pw_key p = Some s → s_created_at s = pw_created p)) P →
  Forall (λ p, pw_key p ∈ U
    ∧ (∀ e, pw_expiry p = Some e → e ≤ pw_created p + cap)
    ∧ (∀ s, sessions d' !! pw_key p = Some s → s_created_at s = pw_created p)) P.
Proof.
  intros Hs HF. eapply Forall_impl; [exact HF|]. intros p (Hk & He & Hc).
  split_and!; [done..|].
  intros s' (s & Hs' & -> & _)%Hs. eauto.
Qed.

Lemma newExpiry_cap now c s e :
  renewal cfg now s = Some (Some e) → s_created_at s = c → 0 < MaxLifetime cfg → e ≤ c + cap.
Proof.
  intros [_ ->]%renewal_extends <- Hm. unfold cap.
  pose proof (newExpiry_capped cfg now (s_created_at s) Hm). lia.
Qed.

(** Rows only removed, in-flight writes only dropped. *)
Lemma sys_inv_sub d d' U P P' :
  sys_inv (MkSys d U P) → sessions d' ⊆ sessions d → P' ⊆ P → sys_inv (MkSys d' U P').
Proof.
  intros [Hc Hu Hp] Hd HP. simpl in *. split; simpl.
  - intros h s Hs. apply (Hc h). by eapply lookup_weaken.
  - etrans; [|exact Hu]. by apply subseteq_dom.
  - apply Forall_forall. intros p Hin%HP. rewrite Forall_forall in Hp.
    destruct (Hp p Hin) as (? & ? & Hcr). split_and!; [done..|].
    intros s Hs. apply Hcr. by eapply lookup_weaken.
Qed.

(** An in-flight write lands: only its key's row changes, within the cap. *)
Lemma sys_inv_write d U P1 P2 p t d' :
  sys_inv (MkSys d U (P1 ++ p :: P2)) →
  match pw_expiry p with
  | Some e => sql_renew_session (pw_key p) (pw_now p) e
  | None => sql_touch_session (pw_key p) (pw_now p)
  end t d = Some (tt, d') →
  sys_inv (MkSys d' U (P1 ++ P2)).
Proof.
  intros Hi Hw. destruct (step_shape _ _ (step_write d U P1 P2 p d' t Hw)) as
    [[Hsh _]|(h' & s' & Hn & _ & _ & Hus & _)]; [|simpl in *; set_solver].
  destruct Hi as [Hc Hu Hp]. simpl in *. split; simpl.
  - apply Forall_app in Hp as [_ [(_ & He & Hpc) _]%Forall_cons].
    intros k s' Hk. revert Hk.
    destruct (pw_expiry p) as [e|]; injection Hw as <-; rsimp; rewrite lookup_alter;
      (case_decide as Ek; [subst k|apply Hc]); intros (s & Hs & ->)%fmap_Some; rsimp.
    + rewrite (Hpc s Hs). by apply He.
    + by apply (Hc (pw_key p)).
  - intros k [s' Hk]%elem_of_dom. destruct (Hsh _ _ Hk) as (s & Hs & _).
    apply Hu, elem_of_dom. by exists s.
  - eapply pending_shrinks; [exact Hsh|]. apply Forall_app in Hp as [? [_ ?]%Forall_cons].
    by apply Forall_app.
Qed.

Lemma sys_inv_step x y : 0 < MaxLifetime cfg → sys_inv x → step x y → sys_inv y.
Proof.
  intros Hm Hi Hst.
  destruct Hst as [d U P d' h now uid ua ip Hh Hn|d U P h s u now w Hsu Hdead Hr|
    d U P1 P2 p d' t Hw|d U P1 P2 p|d U P h t d' Hx|d U P h t d' r Hx|d U P uid t d' Hx|
    d U P t d' n Hx|d U P d' Hx].
  - apply sql_insert_session_inv in Hn as (Hn & _ & ->).
    destruct Hi as [Hc Hu Hp]. simpl in *. split; rsimp.
    + apply map_Forall_insert_2; [simpl; unfold cap; lia|done].
    + rewrite dom_insert_L. set_solver.
    + eapply Forall_impl; [exact Hp|]. intros p (Hk & He & Hcr). split_and!; [set_solver|done|].
      intros s. rewrite lookup_insert. case_decide as E; [|apply Hcr].
      rewrite E in Hh. done.
  - destruct Hi as [Hc Hu Hp]. simpl in *. split; simpl; [done..|]. constructor; [|done]. simpl.
    apply session_user_Some in Hsu as [Hs _]. split_and!.
    + apply Hu, elem_of_dom. by exists s.
    + intros e ->. by eapply newExpiry_cap.
    + by rewrite Hs; intros ? [= ->].
  - by eapply sys_inv_write.
  - eapply sys_inv_sub; [exact Hi|done|set_solver].
  - eapply sys_inv_sub; [exact Hi| |done]. injection Hx as <-. apply delete_subseteq.
  - eapply sys_inv_sub; [exact Hi| |done]. injection Hx as <- <-. apply delete_subseteq.
  - eapply sys_inv_sub; [exact Hi| |done]. injection Hx as <-. apply delete_where_subseteq.
  - eapply sys_inv_sub; [exact Hi| |done]. injection Hx as <- <-. apply delete_where_subseteq.
  - eapply sys_inv_sub; [exact Hi|by rewrite Hx|done].
Qed.

Lemma sys_inv_initial d : capped d → sys_inv (initial d).
Proof. intros Hd. by split. Qed.

Lemma reachable_inv d x :
  0 < MaxLifetime cfg → capped d → rtc step (initial d) x → sys_inv x.
Proof.
  intros Hm Hd. apply rtc_invariant; [by apply sys_inv_initial|].
  intros a b Ha Hab. by eapply sys_inv_step.
Qed.

Lemma step_used x y : step x y → sy_used x ⊆ sy_used y.
Proof. intros [[_ ->]|(h & s & _ & _ & _ & -> & _)]%step_shape; set_solver. Qed.

Lemma gone_step h x y :
  h ∈ sy_used x → sessions (sy_db x) !! h = None → step x y →
  h ∈ sy_used y ∧ sessions (sy_db y) !! h = None.
Proof.
  intros Hu Hn Hst. split; [by apply (step_used x y)|].
  apply step_shape in Hst as [[Hsh _]|(k & s & Hk & _ & Hs & _ & _)].
  - destruct (sessions (sy_db y) !! h) eqn:E; [|done]. apply Hsh in E as (? & ? & _). congruence.
  - rewrite Hs, lookup_insert_ne; [done|]. by intros ->.
Qed.
End interleaving.

(** C38. The absolute cap survives every interleaving: with a positive
    [MaxLifetime], no session of any reachable database expires later than
    its creation plus the larger of [Lifetime] and [MaxLifetime], however
    validations, renewals in flight, logouts, revocations and purges of
    concurrent requests interleave. *)
Theorem reachable_sessions_capped `{Postgres} cfg d x :
  0 < MaxLifetime cfg → capped cfg d → rtc (step cfg) (initial d) x → capped cfg (sy_db x).
Proof. intros Hm Hd Hx. by apply inv_capped, (reachable_inv cfg d). Qed.

(** Revocation is final: once a session key that has been handed out is
    gone (logout, revocation, reset, expiry, purge), no later step of any
    request brings it back, not even the renewal of a validation that read
    the row before it was deleted. *)
Theorem revoked_never_returns `{Postgres} cfg h x y :
  h ∈ sy_used x → sessions (sy_db x) !! h = None → rtc (step cfg) x y →
  sessions (sy_db y) !! h = None.
Proof.
  intros Hu Hn. apply (rtc_invariant _ (λ z, h ∈ sy_used z ∧ sessions (sy_db z) !! h = None)); [done|].
  intros a b [Ha Hb] Hst. by eapply gone_step.
Qed.

(** A renewal that lost the race: the row is read, then revoked, then the
    write of the renewal lands. *)
Definition race_db : db :=
  empty_db <| users := {["u1" := toy_user]} |> <| sessions := {["h1" := toy_session]} |>.
Definition race_pending : pending_write := MkPending "h1" 0 (2 * Hour) (Some (2 * Hour + 30 * 24 * Hour)).
Definition race_revoked : db := race_db <| sessions := delete "h1" (sessions race_db) |>.

Lemma race_read : step toy_cfg (initial race_db) (MkSys race_db {["h1"]} [race_pending]).
Proof.
  assert (initial race_db = MkSys race_db {["h1"]} []) as -> by (vm_compute; reflexivity).
  by apply (step_read toy_cfg race_db {["h1"]} [] "h1" toy_session (user_of_row "u1" toy_user) (2 * Hour)).
Qed.
Lemma race_revoke :
  step toy_cfg (MkSys race_db {["h1"]} [race_pending]) (MkSys race_revoked {["h1"]} [race_pending]).
Proof. by eapply (step_revoke toy_cfg _ _ _ "h1" 0). Qed.
Lemma race_write :
  step toy_cfg (MkSys race_revoked {["h1"]} [race_pending]) (MkSys race_revoked {["h1"]} []).
Proof. by apply (step_write toy_cfg race_revoked {["h1"]} [] [] race_pending race_revoked 0). Qed.

Lemma reachable_sessions_capped_witness :
  capped toy_cfg (sy_db (MkSys race_db {["h1"]} [race_pending])).
Proof.
  apply (reachable_sessions_capped toy_cfg race_db); [done| |eapply rtc_once, race_read].
  intros k s. unfold race_db. simpl. intros [<- <-]%lookup_singleton_Some. by vm_compute.
Defined.

Lemma revoked_never_returns_witness :
  sessions (sy_db (MkSys race_revoked {["h1"]} [])) !! "h1" = None.
Proof.
  apply (revoked_never_returns toy_cfg "h1" (MkSys race_revoked {["h1"]} [race_pending]));
    [by vm_compute|by vm_compute|apply rtc_once, race_write].
Defined.

(** ** Revocation and the kill switch *)

(** Revoking: [Revoke] of a live token removes exactly that session and
    names its owner, of an unknown token changes nothing and returns the
    empty string; afterwards the token validates as not found. *)
Theorem Revoke_decides `{Postgres} cfg tok o w :
  healthy o →
  ∃ uid w', Revoke tok o w = (Ok uid, w')
    ∧ uid = default "" (s_user_id <$> sessions (w_db w) !! HashToken tok)
    ∧ w_db w' = (w_db w) <| sessions := delete (HashToken tok) (sessions (w_db w)) |>
    ∧ ∃ w'', Validate cfg tok o w' = (Ok (MkResult KindNotFound None 0 false), w'')
             ∧ w_db w'' = w_db w'.
Proof.
  intros Ho. unfold Revoke, revoke, queryRow. rewrite bind_run, bindE_run. unfold exec.
  rewrite exec_pool_healthy by done. unfold sql_revoke. cbn [fst snd].
  destruct (sessions (w_db w) !! HashToken tok) as [s|] eqn:E;
    (eexists _, _; split; [reflexivity|]; split_and!; [done|done|]);
    unfold Validate; rewrite bind_run;
    change (sql_session_user (HashToken tok))
      with (λ (_ : Z) d, Some (session_user d (HashToken tok), d));
    rewrite (queryRow_pool_healthy (λ d, session_user d (HashToken tok))) by done;
    unfold session_user; rsimp; rewrite lookup_delete_eq; by eexists.
Qed.

Lemma Revoke_decides_witness :
  ∃ w', Revoke "tok" (oracle_at 0) (world_of toy_db) = (Ok "u1", w')
        ∧ sessions (w_db w') !! HashToken "tok" = None.
Proof.
  destruct (Revoke_decides toy_cfg "tok" (oracle_at 0) (world_of toy_db)) as (uid & w' & E & Hu & Hd & _);
    [intros i; reflexivity|].
  exists w'. rewrite Hd. split; [|by vm_compute]. rewrite E, Hu. by vm_compute.
Defined.
