(* ===== verification/RateLimit.v ===== *)
(** * RateLimit: src/internal/ratelimit/ratelimit.go

    The token-bucket limiter: [Allow] refills and spends in one transaction,
    [PurgeStale] bounds the table.  A DOUBLE PRECISION is the rational it
    denotes (rounding is not modelled); a clock may step backwards between
    two transactions, since [now()] is the instant a transaction began. *)

From Stdlib Require Import QArith Qround Qminmax Lqa.
From S2P Require Import Prelude GoLib GoHash Schema World Logic.
Open Scope Z_scope.

Record Rule := MkRule { Capacity : Q; RefillPerSec : Q }.

(** [EXTRACT(EPOCH FROM (b - a))]: seconds. *)
Definition seconds_between (a b : Z) : Q := (inject_Z (b - a) / inject_Z Second)%Q.

(** [LEAST($2, tokens + elapsed * $3)]; a new bucket starts full. *)
Definition refill (rule : Rule) (now : Z) (b : option bucket_row) : Q :=
  match b with
  | None => Capacity rule
  | Some b =>
      Qmin (Capacity rule)
        (b_tokens b + seconds_between (b_updated_at b) now * RefillPerSec rule)%Q
  end.

Definition sql_refill (key : string) (rule : Rule) : stmt Q := λ now d,
  let t := refill rule now (buckets d !! key) in
  Some (t, d <| buckets := <[key := MkBucket t now]> (buckets d) |>).

Definition sql_spend (key : string) : stmt unit := λ _ d,
  Some (tt, d <| buckets := alter (λ b, MkBucket (b_tokens b - 1)%Q (b_updated_at b))
                              key (buckets d) |>).

(** [time.Duration(needed / rule.RefillPerSec * float64(time.Second))]. *)
Definition wait_for (rule : Rule) (tokens : Q) : Z :=
  Qfloor ((1 - tokens) / RefillPerSec rule * inject_Z Second)%Q.

Definition Allow (key : string) (rule : Rule) : M (res err (bool * Z)) :=
  with_tx (
    tokens ←? exec Tx (sql_refill key rule);
    if Qle_bool 1 tokens then
      _ ←? exec Tx (sql_spend key);
      _ ←? Commit;
      mret (Ok (true, 0))
    else
      _ ←? Commit;
      mret (Ok (false, wait_for rule tokens))).

#[global] Arguments Allow : simpl never.

Definition stale (cutoff : Z) (_ : string) (b : bucket_row) : bool := b_updated_at b <? cutoff.
Definition sql_purge_stale (olderThan : Z) : stmt Z := λ now d,
  let m := delete_where (stale (now - olderThan)) (buckets d) in
  Some (Z.of_nat (size (buckets d) - size m), d <| buckets := m |>).
Definition PurgeStale (olderThan : Z) : M (res err Z) := exec Pool (sql_purge_stale olderThan).

(** ** The bucket as a function

    One [Allow] on one bucket at one instant: the answer and the bucket. *)
Definition bucket_allow (rule : Rule) (now : Z) (b : option bucket_row) : bool * bucket_row :=
  let t := refill rule now b in
  if Qle_bool 1 t then (true, MkBucket (t - 1)%Q now) else (false, MkBucket t now).

Lemma Allow_run key rule o w :
  healthy o →
  let ba := bucket_allow rule (o_dbclock o (w_step w)) (buckets (w_db w) !! key) in
  ∃ n, Allow key rule o w =
    (Ok (fst ba, if fst ba then 0 else wait_for rule (b_tokens (snd ba))),
     MkWorld ((w_db w) <| buckets := <[key := snd ba]> (buckets (w_db w)) |>) None n
       (w_resp w) (w_metrics w)).
Proof.
  intros Ho. destruct w as [d t i rs m]. cbn [w_db w_step]. unfold Allow, with_tx, bucket_allow.
  run Ho. destruct (Qle_bool 1 _) eqn:E; run Ho; eexists; [|reflexivity]. f_equal. f_equal.
  destruct d; unfold set; simpl; f_equal.
  apply map_eq. intros k. rewrite lookup_alter.
  case_decide; subst; [by rewrite !lookup_insert_eq|by rewrite !lookup_insert_ne].
Qed.

(** With the database answering, [Allow] is the token bucket: the
    decision of [bucket_allow] at the transaction's instant, the bucket it
    computes stored, every other key and table left alone; a refusal comes
    with the time until one token is available. *)
Theorem Allow_is_bucket key rule o w :
  healthy o →
  let ba := bucket_allow rule (o_dbclock o (w_step w)) (buckets (w_db w) !! key) in
  ∃ wait w', Allow key rule o w = (Ok (fst ba, wait), w')
    ∧ w_db w' = (w_db w) <| buckets := <[key := snd ba]> (buckets (w_db w)) |>
    ∧ w_tx w' = None
    ∧ wait = if fst ba then 0 else wait_for rule (b_tokens (snd ba)).
Proof. intros Ho. destruct (Allow_run key rule o w Ho) as [n ->]. by eexists _, _. Qed.

Lemma Allow_is_bucket_witness :
  ∃ wait w', Allow "k" (MkRule 1 (1 # 2)) (oracle_at 5) (world_of empty_db) = (Ok (true, wait), w')
             ∧ is_Some (buckets (w_db w') !! "k").
Proof.
  destruct (Allow_is_bucket "k" (MkRule 1 (1 # 2)) (oracle_at 5) (world_of empty_db))
    as (wait & w' & E & Hd & _); [apply oracle_at_healthy|].
  exists wait, w'. split; [exact E|]. rewrite Hd. rsimp. rewrite lookup_insert_eq. by eexists.
Defined.

(** ** Arithmetic of the bucket *)
Lemma seconds_between_trans a b c :
  (seconds_between a b + seconds_between b c == seconds_between a c)%Q.
Proof.
  unfold seconds_between, Z.sub. rewrite !inject_Z_plus, !inject_Z_opp. field. discriminate.
Qed.

Lemma seconds_between_refl a : (seconds_between a a == 0)%Q.
Proof. unfold seconds_between. rewrite Z.sub_diag. reflexivity. Qed.

Lemma refill_le_capacity rule now b : (refill rule now b <= Capacity rule)%Q.
Proof. destruct b; simpl; [apply Q.le_min_l|apply Qle_refl]. Qed.

Lemma refill_le rule now b :
  (refill rule now (Some b) <=
   b_tokens b + seconds_between (b_updated_at b) now * RefillPerSec rule)%Q.
Proof. apply Q.le_min_r. Qed.

Definition spent (ok : bool) : Q := if ok then 1%Q else 0%Q.

Lemma bucket_allow_fst rule now b :
  (b_tokens (snd (bucket_allow rule now b)) + spent (fst (bucket_allow rule now b))
   == refill rule now b)%Q ∧ b_updated_at (snd (bucket_allow rule now b)) = now.
Proof. unfold bucket_allow. destruct (Qle_bool 1 _); simpl; split; by try ring. Qed.

(** A run of requests against one bucket: the answers and the last bucket. *)
Fixpoint bucket_run (rule : Rule) (b : option bucket_row) (ts : list Z)
  : list bool * option bucket_row :=
  match ts with
  | [] => ([], b)
  | t :: ts =>
      let '(ok, b1) := bucket_allow rule t b in
      let '(l, b2) := bucket_run rule (Some b1) ts in
      (ok :: l, b2)
  end.
Definition allowed_count (l : list bool) : Q := fold_right (λ ok n, (spent ok + n)%Q) 0%Q l.

(** The tokens left and spent never exceed the tokens held and refilled. *)
Lemma bucket_run_potential rule ts b l b' :
  bucket_run rule (Some b) ts = (l, b') →
  ∃ b1, b' = Some b1 ∧
  (b_tokens b1 + allowed_count l <=
   b_tokens b + seconds_between (b_updated_at b) (b_updated_at b1) * RefillPerSec rule)%Q
  ∧ b_updated_at b1 = List.last ts (b_updated_at b).
Proof.
  revert b l. induction ts as [|t ts IH]; intros b l; simpl.
  - intros [= <- <-]. exists b. split; [done|]. split; [|done]. simpl.
    rewrite seconds_between_refl. lra.
  - destruct (bucket_allow rule t (Some b)) as [ok b1] eqn:E1.
    destruct (bucket_run rule (Some b1) ts) as [l' b2] eqn:E2. intros [= <- <-].
    destruct (IH b1 l' E2) as (b3 & -> & Hp & Hu). exists b3. split; [done|].
    destruct (bucket_allow_fst rule t (Some b)) as [Ht Hn]. rewrite E1 in Ht, Hn. simpl in *.
    split; [|rewrite Hu, Hn; destruct ts; [done|apply last_default]].
    pose proof (refill_le rule t b) as Hr. simpl in Hr.
    pose proof (seconds_between_trans (b_updated_at b) t (b_updated_at b3)) as Htr.
    rewrite Hn in Hp. rewrite <-Htr, Qmult_plus_distr_l. lra.
Qed.

Lemma bucket_run_app rule b ts1 ts2 :
  bucket_run rule b (ts1 ++ ts2) =
  let '(l1, b1) := bucket_run rule b ts1 in
  let '(l2, b2) := bucket_run rule b1 ts2 in (l1 ++ l2, b2).
Proof.
  revert b. induction ts1 as [|t ts1 IH]; intros b; simpl.
  - by destruct (bucket_run rule b ts2).
  - destruct (bucket_allow rule t b) as [ok b1]. rewrite IH.
    destruct (bucket_run rule (Some b1) ts1) as [l1 b2].
    by destruct (bucket_run rule b2 ts2) as [l2 b3].
Qed.

(** In any window that ends with an allowed request: the capacity plus what
    is refilled between its first and its last request. *)
Lemma bucket_window rule b t0 ts l b' :
  bucket_run rule b (t0 :: ts) = (l, b') → List.last l false = true →
  (allowed_count l <= Capacity rule + seconds_between t0 (List.last ts t0) * RefillPerSec rule)%Q.
Proof.
  simpl. destruct (bucket_allow rule t0 b) as [ok b0] eqn:E0.
  destruct (bucket_run rule (Some b0) ts) as [l0 b1] eqn:E1. intros [= <- <-] Hlast.
  destruct (bucket_run_potential rule ts b0 l0 b1 E1) as (b2 & -> & Hp & Hu).
  destruct (bucket_allow_fst rule t0 b) as [Ht Hn]. rewrite E0 in Ht, Hn. simpl in *.
  pose proof (refill_le_capacity rule t0 b). rewrite Hn in Hu. rewrite Hu, Hn in Hp.
  cut (0 <= b_tokens b2)%Q; [lra|].
  clear Hp. destruct (exists_last (l := t0 :: ts)) as (ts' & tn & Ets); [done|].
  assert (Hr : bucket_run rule b (ts' ++ [tn]) = (ok :: l0, Some b2)).
  { rewrite <-Ets. simpl. by rewrite E0, E1. }
  rewrite bucket_run_app in Hr. destruct (bucket_run rule b ts') as [l1 b3]. simpl in Hr.
  unfold bucket_allow in Hr. destruct (Qle_bool 1 _) eqn:Eq; injection Hr as Hl <-.
  - apply Qle_bool_iff in Eq. simpl. lra.
  - exfalso. change (match l0 with [] => ok | _ :: _ => List.last l0 false end)
      with (List.last (ok :: l0) false) in Hlast.
    rewrite <-Hl, List.last_last in Hlast. done.
Qed.

(** ** Requests on many keys *)

(** A sequence of [Allow] calls, each against a database that answers, at
    the instants given; the answers, in order, with their keys. *)
Fixpoint serve (rule_of : string → Rule) (calls : list (string * Z)) (w : world)
  : list (string * bool) * world :=
  match calls with
  | [] => ([], w)
  | (k, t) :: rest =>
      let '(r, w1) := Allow k (rule_of k) (oracle_at t) w in
      let '(l, w2) := serve rule_of rest w1 in
      ((k, match r with Ok (ok, _) => ok | Err _ => false end) :: l, w2)
  end.
Definition on_key {A} (k : string) (l : list (string * A)) : list A :=
  map snd (List.filter (λ c, str_eqb (fst c) k) l).

Lemma on_key_cons {A} k (x : A) l : on_key k ((k, x) :: l) = x :: on_key k l.
Proof. unfold on_key. simpl. by rewrite str_eqb_refl. Qed.

Lemma serve_on_key rule_of calls w k :
  on_key k (fst (serve rule_of calls w))
  = fst (bucket_run (rule_of k) (buckets (w_db w) !! k) (on_key k calls)).
Proof.
  revert w. induction calls as [|[k' t] calls IH]; intros w; [done|]. cbn [serve].
  destruct (Allow_run k' (rule_of k') (oracle_at t) w (oracle_at_healthy t)) as [n ->].
  destruct (bucket_allow (rule_of k') _ _) as [ok b] eqn:Eb. cbn [fst snd].
  set (w' := MkWorld _ _ n _ _). assert (Hd : w_db w' =
    (w_db w) <| buckets := <[k' := b]> (buckets (w_db w)) |>) by done. clearbody w'.
  specialize (IH w'). destruct (serve rule_of calls w') as [l w2]. simpl in *.
  unfold on_key in *. simpl. destruct (str_eqb k' k) eqn:Ek; simpl.
  - apply str_eqb_true in Ek as ->. simpl in Eb. rewrite Eb.
    rewrite IH, Hd. rsimp. rewrite lookup_insert_eq.
    by destruct (bucket_run (rule_of k) (Some b) _).
  - apply str_eqb_false in Ek. rewrite IH, Hd. rsimp. by rewrite lookup_insert_ne.
Qed.

(** C37. The rate bound: of the requests on one key that arrive in any window
    ending with an allowed one, at most the capacity plus the refill over the
    window are allowed, whatever other keys are asked for in between, whatever
    the bucket held before, and even if clocks step backwards. *)
Theorem window_bound rule_of k t0 calls w :
  let answers := on_key k (fst (serve rule_of ((k, t0) :: calls) w)) in
  List.last answers false = true →
  (allowed_count answers <= Capacity (rule_of k)
     + seconds_between t0 (List.last (on_key k calls) t0) * RefillPerSec (rule_of k))%Q.
Proof.
  intros answers. unfold answers. rewrite serve_on_key, on_key_cons.
  destruct (bucket_run (rule_of k) (buckets (w_db w) !! k) (t0 :: on_key k calls)) as [l b'] eqn:E.
  cbn [fst]. by apply bucket_window with (1 := E).
Qed.

Definition toy_calls : list (string * Z) := [("b", 0); ("a", Second); ("a", 2 * Second)].
Lemma window_bound_witness :
  (allowed_count (on_key "a" (fst (serve (λ _, MkRule 1 (1 # 2)) (("a", 0%Z) :: toy_calls)
     (world_of empty_db))))
   <= 1 + seconds_between 0 (List.last (on_key "a" toy_calls) 0%Z) * (1 # 2))%Q.
Proof.
  apply (window_bound (λ _, MkRule 1 (1 # 2)) "a" 0 toy_calls (world_of empty_db)).
  vm_compute. reflexivity.
Defined.

(** ** Waiting and purging *)

Definition allowed_at (rule : Rule) (t : Z) (b : option bucket_row) : bool :=
  fst (bucket_allow rule t b).

Lemma allowed_at_true rule t b : allowed_at rule t b = true ↔ (1 <= refill rule t b)%Q.
Proof.
  unfold allowed_at, bucket_allow. rewrite <-Qle_bool_iff. by destruct (Qle_bool _ _).
Qed.

(** The advertised wait suffices: a request refused with wait [d] is
    allowed when it is repeated strictly later than [d] (nanoseconds) and no
    other request spent from the bucket in between. *)
Theorem wait_suffices rule t b t' :
  (1 <= Capacity rule)%Q → (0 < RefillPerSec rule)%Q →
  let ba := bucket_allow rule t b in
  fst ba = false → t + wait_for rule (b_tokens (snd ba)) < t' →
  allowed_at rule t' (Some (snd ba)) = true.
Proof.
  intros HC HR ba Hf Ht. apply allowed_at_true.
  assert (Hb : snd ba = MkBucket (refill rule t b) t).
  { unfold ba, bucket_allow in *. by destruct (Qle_bool _ _). }
  rewrite Hb in *. simpl in *. set (x := refill rule t b) in *.
  apply Q.min_glb; [done|].
  assert (Hw : ((1 - x) / RefillPerSec rule <= seconds_between t t')%Q).
  { unfold seconds_between. apply Qle_shift_div_l; [reflexivity|].
    pose proof (Qlt_floor ((1 - x) / RefillPerSec rule * inject_Z Second)) as Hfl.
    assert (inject_Z (Qfloor ((1 - x) / RefillPerSec rule * inject_Z Second) + 1)
            <= inject_Z (t' - t))%Q as Hle by (rewrite <-Zle_Qle; unfold wait_for in Ht; lia).
    lra. }
  assert (Hm : ((1 - x) / RefillPerSec rule * RefillPerSec rule
               <= seconds_between t t' * RefillPerSec rule)%Q)
    by (apply Qmult_le_compat_r; [done|lra]).
  assert (He : ((1 - x) / RefillPerSec rule * RefillPerSec rule == 1 - x)%Q) by (field; lra).
  lra.
Qed.

Lemma wait_suffices_witness :
  allowed_at (MkRule 1 (1 # 2)) (2 * Second + 1)
    (Some (snd (bucket_allow (MkRule 1 (1 # 2)) 0 (Some (MkBucket 0%Q 0))))) = true.
Proof.
  apply (wait_suffices (MkRule 1 (1 # 2)) 0 (Some (MkBucket 0%Q 0)) (2 * Second + 1));
    try discriminate; try reflexivity.
Defined.

Lemma refill_full rule t b :
  (Capacity rule <= b_tokens b + seconds_between (b_updated_at b) t * RefillPerSec rule)%Q →
  refill rule t (Some b) = refill rule t None.
Proof.
  intros Hle. simpl. unfold Qmin, GenericMinMax.gmin.
  destruct (_ ?= _)%Q eqn:E; [done..|]. by apply Qgt_alt, Qlt_not_le in E.
Qed.

Lemma seconds_between_mono a a' b : a' ≤ a → (seconds_between a b <= seconds_between a' b)%Q.
Proof.
  intros Ha. apply Qmult_le_compat_r; [rewrite <-Zle_Qle; lia|discriminate].
Qed.

(** Purging is invisible: deleting the buckets untouched for [olderThan]
    changes no answer the limiter gives from that instant on, as long as
    [olderThan] is long enough for every stored bucket to refill. *)
Theorem PurgeStale_invisible rule_of olderThan o w n w' calls k :
  PurgeStale olderThan o w = (Ok n, w') →
  (∀ k b, buckets (w_db w) !! k = Some b →
    0 <= RefillPerSec (rule_of k) ∧
    Capacity (rule_of k) <= b_tokens b + seconds_between 0 olderThan * RefillPerSec (rule_of k))%Q →
  Forall (λ c, o_dbclock o (w_step w) ≤ snd c) calls →
  on_key k (fst (serve rule_of calls w')) = on_key k (fst (serve rule_of calls w)).
Proof.
  intros HP Hfull Hts. apply exec_pool_ok in HP as (d & [= <- <-] & ->).
  rewrite !serve_on_key. rsimp.
  set (now := o_dbclock o (w_step w)) in *.
  rewrite lookup_delete_where. destruct (buckets (w_db w) !! k) as [b|] eqn:Eb; [|done].
  simpl. unfold stale. destruct (_ <? _) eqn:Est; [|done]. zb.
  destruct (Hfull k b Eb) as [HR HC].
  destruct (on_key k calls) as [|t ts] eqn:Ek; [done|].
  assert (Ht : now ≤ t).
  { assert (Hin : t ∈ on_key k calls) by (rewrite Ek; left). revert Hin. unfold on_key.
    rewrite list_elem_of_fmap. intros (c & -> & Hc). rewrite Forall_forall in Hts.
    apply Hts. by apply list_elem_of_In, List.filter_In in Hc as [Hc%list_elem_of_In _]. }
  cbn [bucket_run]. unfold bucket_allow. rewrite (refill_full (rule_of k) t b); [done|].
  pose proof (seconds_between_mono (t - olderThan) (b_updated_at b) t ltac:(lia)) as Hm.
  assert (He : seconds_between (t - olderThan) t = seconds_between 0 olderThan)
    by (unfold seconds_between; do 2 f_equal; lia).
  rewrite He in Hm. pose proof (Qmult_le_compat_r _ _ _ Hm HR). lra.
Qed.

Lemma PurgeStale_invisible_witness :
  let w := world_of (empty_db <| buckets := {["a" := MkBucket 0 0]} |>) in
  ∃ n w', PurgeStale Hour (oracle_at (2 * Hour)) w = (Ok n, w')
    ∧ n = 1 ∧ on_key "a" (fst (serve (λ _, MkRule 1 (1 # 2)) [("a", 2 * Hour)] w'))
            = on_key "a" (fst (serve (λ _, MkRule 1 (1 # 2)) [("a", 2 * Hour)] w)).
Proof.
  intros w. destruct (PurgeStale Hour (oracle_at (2 * Hour)) w) as [[n|] w'] eqn:E;
    [|vm_compute in E; discriminate].
  exists n, w'. split; [done|]. split; [revert E; vm_compute; by intros [= <- _]|].
  apply (PurgeStale_invisible (λ _, MkRule 1 (1 # 2)) Hour (oracle_at (2 * Hour)) w n w'
    [("a", 2 * Hour)] "a" E).
  - intros k b. unfold w. simpl. intros [<- <-]%lookup_singleton_Some.
    split; vm_compute; discriminate.
  - constructor; [|constructor]. vm_compute. discriminate.
Defined.
