(* ===== verification/Tokens.v ===== *)
(** * Tokens: src/internal/email/token.go

    Single-use tokens for the e-mail flows.  First the store as the code has
    it, then what one issue and one consumption do, then the tokens of a
    deployment whose requests interleave statement by statement. *)

From S2P Require Import Prelude GoLib GoHash Schema World Logic Crypto Users.

Section store.

(** [UPDATE one_time_tokens SET consumed_at = $3
     WHERE user_id = $1 AND purpose = $2 AND consumed_at IS NULL]. *)
Definition unconsumed (t : token_row) : bool := bool_decide (t_consumed_at t = None).
Definition of_user (uid : string) (p : Purpose) (_ : string) (t : token_row) : bool :=
  str_eqb (t_user_id t) uid && bool_decide (t_purpose t = p) && unconsumed t.
Definition mark_consumed (now : Z) (t : token_row) : token_row := t <| t_consumed_at := Some now |>.

Definition sql_supersede (uid : string) (p : Purpose) (at_ : Z) : stmt unit := λ _ d,
  Some (tt, d <| tokens := update_where (of_user uid p) (mark_consumed at_) (tokens d) |>).

(** [INSERT INTO one_time_tokens ..]: a fresh id, an existing user. *)
Definition sql_insert_token (id uid h : string) (p : Purpose) (expires : Z) : stmt unit :=
  λ now d,
    match tokens d !! id, users d !! uid with
    | None, Some _ =>
        Some (tt, d <| tokens := <[id := MkToken uid h p expires None now]> (tokens d) |>)
    | _, _ => None
    end.

Definition IssueTx (userID : string) (purpose : Purpose) (ttl : Z)
  : M (res err (string * string)) :=
  token ← GenerateToken;
  now ← time_Now;
  _ ←? exec Tx (sql_supersede userID purpose now);
  tokenID ← UUIDv7;
  _ ←? exec Tx (sql_insert_token tokenID userID (HashToken token) purpose (now + ttl));
  mret (Ok (token, tokenID)).

Definition Issue (userID : string) (purpose : Purpose) (ttl : Z) : M (res err string) :=
  with_tx (
    '(token, _) ←? IssueTx userID purpose ttl;
    _ ←? Commit;
    mret (Ok token)).

(** [UPDATE .. SET consumed_at = now() WHERE token_hash = $1 AND purpose = $2
     AND consumed_at IS NULL AND expires_at > now() RETURNING user_id]. *)
Definition consumable (h : string) (p : Purpose) (now : Z) (_ : string) (t : token_row) : bool :=
  str_eqb (t_hash t) h && bool_decide (t_purpose t = p) && unconsumed t
  && (now <? t_expires_at t).
Definition sql_consume (h : string) (p : Purpose) : stmt (option string) := λ now d,
  Some ((λ kt, t_user_id (snd kt)) <$> head (select_where (consumable h p now) (tokens d)),
        d <| tokens := update_where (consumable h p now) (mark_consumed now) (tokens d) |>).

Definition consume (ex : executor) (token : string) (purpose : Purpose) : M (res err string) :=
  r ← queryRow ex (sql_consume (HashToken token) purpose);
  mret (match r with Err ENoRows => Err EInvalidToken | r => r end).
Definition Consume := consume Pool.
Definition ConsumeTx := consume Tx.

(** [DELETE .. WHERE expires_at <= now() OR consumed_at IS NOT NULL];
    [email_outbox.token_id] is ON DELETE SET NULL. *)
Definition token_dead (now : Z) (_ : string) (t : token_row) : bool :=
  (t_expires_at t <=? now) || negb (unconsumed t).
Definition forget_tokens (m : gmap string token_row) (b : outbox_row) : outbox_row :=
  b <| ob_token_id ::= λ o, t ← o; if decide (is_Some (m !! t)) then Some t else None |>.
Definition sql_purge_tokens : stmt Z := λ now d,
  let m := delete_where (token_dead now) (tokens d) in
  Some (Z.of_nat (size (tokens d) - size m),
        d <| tokens := m |> <| outbox := forget_tokens m <$> outbox d |>).
Definition PurgeExpiredTokens : M (res err Z) := exec Pool sql_purge_tokens.
End store.

(** ** Integrity *)
Section integrity.
Context `{Postgres}.

Lemma sql_supersede_ok uid p t : stmt_ok integrity (sql_supersede uid p t).
Proof.
  intros now d a d' Hd [= <- <-]. destruct Hd as [He Hi Hs Ht Ho Hot]. split; rsimp; try done.
  - apply map_Forall_update_where; [exact Ht|]. intros k r Hr _. exact Hr.
  - intros k b Hb x Hx. rewrite lookup_update_where. apply fmap_is_Some. by eapply Hot.
Qed.

Lemma sql_consume_ok h p : stmt_ok integrity (sql_consume h p).
Proof.
  intros now d a d' Hd [= <- <-]. destruct Hd as [He Hi Hs Ht Ho Hot]. split; rsimp; try done.
  - apply map_Forall_update_where; [exact Ht|]. intros k r Hr _. exact Hr.
  - intros k b Hb x Hx. rewrite lookup_update_where. apply fmap_is_Some. by eapply Hot.
Qed.

Lemma sql_insert_token_ok id uid h p e : stmt_ok integrity (sql_insert_token id uid h p e).
Proof.
  intros now d a d' Hd. unfold sql_insert_token. destruct (tokens d !! id); [done|].
  destruct (users d !! uid) as [u|] eqn:Hu; [|done]. intros [= <- <-].
  destruct Hd as [He Hi Hs Ht Ho Hot]. split; rsimp; try done.
  - apply map_Forall_insert_2; [by exists u|exact Ht].
  - intros k b Hb x Hx. rewrite lookup_insert_is_Some'. right. by eapply Hot.
Qed.

Lemma sql_purge_tokens_ok : stmt_ok integrity sql_purge_tokens.
Proof.
  intros now d a d' Hd [= <- <-]. destruct Hd as [He Hi Hs Ht Ho Hot]. split; rsimp; try done.
  - by apply map_Forall_delete_where.
  - intros k b. rewrite lookup_fmap, fmap_Some. intros (b0 & Hb & ->). exact (Ho k b0 Hb).
  - intros k b. rewrite lookup_fmap, fmap_Some. intros (b0 & Hb & ->) x. rsimp.
    destruct (ob_token_id b0) as [y|]; simpl; [|done]. case_decide; [|done]. by intros [= <-].
Qed.
End integrity.
#[export] Hint Resolve sql_supersede_ok sql_consume_ok sql_insert_token_ok sql_purge_tokens_ok
  : preserves.

(** ** What a statement guarantees *)
Lemma consumable_spec h p now id t :
  consumable h p now id t = true ↔
  t_hash t = h ∧ t_purpose t = p ∧ t_consumed_at t = None ∧ now < t_expires_at t.
Proof.
  unfold consumable, unconsumed. rewrite !andb_true_iff, !bool_decide_eq_true, str_eqb_true,
    Z.ltb_lt. tauto.
Qed.

Lemma of_user_spec uid p id t :
  of_user uid p id t = true ↔ t_user_id t = uid ∧ t_purpose t = p ∧ t_consumed_at t = None.
Proof.
  unfold of_user, unconsumed. rewrite !andb_true_iff, !bool_decide_eq_true, str_eqb_true. tauto.
Qed.

Lemma sql_consume_Some h p now d uid d' :
  sql_consume h p now d = Some (Some uid, d') →
  ∃ id t, tokens d !! id = Some t ∧ consumable h p now id t = true ∧ t_user_id t = uid
          ∧ tokens d' !! id = Some (mark_consumed now t).
Proof.
  intros [= Hq <-]. apply fmap_Some in Hq as ([id t] & Hh%head_Some_elem_of & ->).
  apply elem_of_select_where in Hh as [Ht Hc]. exists id, t. rsimp.
  split_and!; [done..|]. by rewrite lookup_update_where, Ht; simpl; rewrite Hc.
Qed.

Lemma sql_consume_None h p now d d' :
  sql_consume h p now d = Some (None, d') → d' = d.
Proof.
  intros [= Hq%fmap_None <-]. rewrite head_None, select_where_nil in Hq.
  rewrite update_where_none by done. by destruct d.
Qed.

(** The row of a hash nobody else has. *)
Lemma select_where_unique {K R} `{Countable K} (q : K → R → bool) (m : gmap K R) k r :
  m !! k = Some r → q k r = true →
  (∀ k' r', m !! k' = Some r' → q k' r' = true → k' = k) →
  head (select_where q m) = Some (k, r).
Proof.
  intros Hk Hq Hu. destruct (select_where q m) as [|[k' r'] l] eqn:E.
  - rewrite select_where_nil in E. rewrite (E k r Hk) in Hq. done.
  - assert ((k', r') ∈ select_where q m) as Hin by (rewrite E; left).
    apply elem_of_select_where in Hin as [Hk' Hq']. simpl.
    pose proof (Hu k' r' Hk' Hq') as ->. by rewrite Hk in Hk'; injection Hk' as ->.
Qed.

(** The same inside a transaction, on its private copy. *)
Definition spend (h : string) (p : Purpose) (now : Z) (d : db) : db :=
  d <| tokens := update_where (consumable h p now) (mark_consumed now) (tokens d) |>.
Lemma ConsumeTx_ok tok p o w uid w1 :
  ConsumeTx tok p o w = (Ok uid, w1) →
  ∃ t id row, w_tx w = Some t ∧ tokens (tx_db t) !! id = Some row
    ∧ consumable (HashToken tok) p (tx_now t) id row = true ∧ t_user_id row = uid
    ∧ w_tx w1 = Some (t <| tx_db := spend (HashToken tok) p (tx_now t) (tx_db t) |>).
Proof.
  unfold ConsumeTx, consume, queryRow. rewrite bind_run, bindE_run. case_exec x w2 Ex.
  destruct x as [[u|]|e]; [|done|destruct e; done]. intros [= <- <-].
  apply exec_tx_ok in Ex as (t & d & Ht & _ & Hs & ->). pose proof Hs as [= _ <-].
  apply sql_consume_Some in Hs as (id & row & Hrow & Hc & <- & _). by exists t, id, row.
Qed.

(** Whatever the database answers, a successful [Consume] spent a token
    that was stored under the hash of the text presented, for that purpose,
    unused and unexpired at the database's clock; it returns its owner and
    leaves it used. *)
Theorem Consume_sound tok p o w uid w' :
  Consume tok p o w = (Ok uid, w') →
  let now := o_dbclock o (w_step w) in
  ∃ id t, tokens (w_db w) !! id = Some t ∧ t_hash t = HashToken tok ∧ t_purpose t = p
    ∧ t_consumed_at t = None ∧ now < t_expires_at t ∧ t_user_id t = uid
    ∧ tokens (w_db w') !! id = Some (t <| t_consumed_at := Some now |>).
Proof.
  unfold Consume, consume, queryRow. rewrite bind_run, bindE_run. case_exec x w1 Ex.
  destruct x as [[u|]|e]; [|done|destruct e; done]. intros [= <- <-].
  apply exec_pool_ok in Ex as (d & (id & t & Ht & Hc & <- & Ht')%sql_consume_Some & ->).
  apply consumable_spec in Hc as (? & ? & ? & ?). exists id, t. split_and!; done.
Qed.

Definition toy_token : token_row := MkToken "u1" (HashToken "tok") PurposeReset Hour None 0.
Definition toy_token_db : db :=
  empty_db <| users := {["u1" := MkUser "ana@x.com" true None None None 0 0 [] false]} |>
           <| tokens := {["t1" := toy_token]} |>.

Lemma Consume_sound_witness :
  ∃ w', Consume "tok" PurposeReset (oracle_at 5) (world_of toy_token_db) = (Ok "u1", w')
        ∧ ∃ id t, tokens (w_db w') !! id = Some t ∧ t_consumed_at t = Some 5.
Proof.
  destruct (Consume "tok" PurposeReset (oracle_at 5) (world_of toy_token_db)) as [[uid|] w'] eqn:E;
    [|vm_compute in E; discriminate].
  assert (uid = "u1") as -> by (revert E; vm_compute; by intros [= <- _]).
  exists w'. split; [done|].
  destruct (Consume_sound _ _ _ _ _ _ E) as (id & t & _ & _ & _ & _ & _ & _ & H).
  eexists id, _. split; [exact H|reflexivity].
Defined.

(** ** Issue, then consume *)

(** The tables after a healthy [Issue]. *)
Definition issued (d : db) (uid h : string) (p : Purpose) (now ttl dbnow : Z) (id : string) : db :=
  d <| tokens := <[id := MkToken uid h p (now + ttl) None dbnow]>
                   (update_where (of_user uid p) (mark_consumed now) (tokens d)) |>.

Lemma Issue_run uid p ttl o w tok w' :
  healthy o → Issue uid p ttl o w = (Ok tok, w') →
  ∃ id, tokens (w_db w) !! id = None ∧ is_Some (users (w_db w) !! uid)
    ∧ w_tx w' = None
    ∧ w_db w' = issued (w_db w) uid (HashToken tok) p (o_clock o (S (S (w_step w)))) ttl
                  (o_dbclock o (w_step w)) id.
Proof.
  intros Ho. destruct w as [d t i rs m]. unfold Issue, with_tx, IssueTx. run Ho. clear Htok Hid.
  rewrite (exec_Tx_run _ Ho). unfold sql_insert_token. rsimp. rewrite lookup_update_where.
  destruct (tokens d !! id) eqn:Et; [done|]. destruct (users d !! uid) eqn:Eu; [|done].
  cbn. run Ho. intros [= <- <-]. exists id. by split_and!.
Qed.

Section issued.
Context (d : db) (uid h : string) (p : Purpose) (now ttl dbnow : Z) (id : string).
Let d' := issued d uid h p now ttl dbnow id.

(** Of the tokens of this user and purpose only the new one is unused. *)
Lemma issued_unconsumed k t :
  tokens d' !! k = Some t → t_user_id t = uid → t_purpose t = p → t_consumed_at t = None →
  k = id.
Proof.
  unfold d', issued. rsimp. rewrite lookup_insert. case_decide as E; [done|].
  rewrite lookup_update_where. intros (t0 & Ht0 & ->)%fmap_Some.
  destruct (of_user uid p k t0) eqn:Eo; rsimp; [done|].
  intros Hu Hp Hc. rewrite (proj2 (of_user_spec uid p k t0)) in Eo; done.
Qed.

Lemma issued_consume now' :
  map_Forall (λ _ t, t_hash t ≠ h) (tokens d) → now' < now + ttl →
  head (select_where (consumable h p now') (tokens d'))
  = Some (id, MkToken uid h p (now + ttl) None dbnow).
Proof.
  intros Hfresh Hlt. apply select_where_unique.
  - unfold d', issued. rsimp. apply lookup_insert_eq.
  - apply consumable_spec. done.
  - intros k t Hk (Hh & _)%consumable_spec. revert Hk. unfold d', issued. rsimp.
    rewrite lookup_insert. case_decide; [done|]. rewrite lookup_update_where.
    intros (t0 & Ht0 & ->)%fmap_Some. destruct (Hfresh k t0 Ht0).
    by destruct (of_user uid p k t0).
Qed.
End issued.

(** A token hash with no unused row left. *)
Definition spent (h : string) (d : db) : Prop :=
  map_Forall (λ _ t, t_hash t = h → is_Some (t_consumed_at t)) (tokens d).

Lemma spent_consume h p now d :
  spent h d → sql_consume h p now d = Some (None, d).
Proof.
  intros Hs. assert (∀ k t, tokens d !! k = Some t → consumable h p now k t = false) as Hn.
  { intros k t Ht. destruct (consumable h p now k t) eqn:E; [|done].
    apply consumable_spec in E as (Hh & _ & Hc & _). destruct (Hs k t Ht Hh). congruence. }
  unfold sql_consume. rewrite update_where_none, (proj2 (select_where_nil _ _)) by done.
  by destruct d.
Qed.

(** Consuming the only row of a hash spends the hash. *)
Lemma consume_spends h p now d uid d' :
  (∀ k1 k2 t1 t2, tokens d !! k1 = Some t1 → tokens d !! k2 = Some t2 →
     t_hash t1 = h → t_hash t2 = h → k1 = k2) →
  sql_consume h p now d = Some (Some uid, d') → spent h d'.
Proof.
  intros Hu Hc. destruct (sql_consume_Some _ _ _ _ _ _ Hc) as (id & t & Ht & Hq & _).
  injection Hc as _ <-. intros k t' Hk Hh. revert Hk. rsimp. rewrite lookup_update_where.
  intros (t0 & Ht0 & ->)%fmap_Some.
  assert (t_hash t0 = h) as Hh0 by by destruct (consumable h p now k t0).
  pose proof (proj1 (consumable_spec _ _ _ _ _) Hq) as (Hth & _).
  assert (k = id) as -> by by eapply Hu.
  rewrite Ht in Ht0. injection Ht0 as <-. rewrite Hq. by eexists.
Qed.

(** C36. Issue, then consume: an issued token is worth exactly one [Consume]
    for its purpose while the database's clock is before its expiry.  The
    first returns the user, the second fails with [ErrInvalidToken], and at
    no moment is an older token of that user and purpose unused. *)
Theorem Issue_Consume_once uid p ttl o w tok w1 o1 o2 :
  healthy o → healthy o1 → healthy o2 →
  Issue uid p ttl o w = (Ok tok, w1) →
  map_Forall (λ _ t, t_hash t ≠ HashToken tok) (tokens (w_db w)) →
  o_dbclock o1 (w_step w1) < o_clock o (S (S (w_step w))) + ttl →
  (∀ k t, tokens (w_db w1) !! k = Some t → t_user_id t = uid → t_purpose t = p →
    t_consumed_at t = None → t_hash t = HashToken tok) ∧
  ∃ w2 w3, Consume tok p o1 w1 = (Ok uid, w2) ∧ Consume tok p o2 w2 = (Err EInvalidToken, w3).
Proof.
  intros Ho Ho1 Ho2 HI Hfresh Hlt. destruct (Issue_run _ _ _ _ _ _ _ Ho HI) as (id & Hid & _ & Htx & Hd).
  split.
  { intros k t Ht Hu Hp Hc. rewrite Hd in Ht. pose proof Ht as Hk.
    apply issued_unconsumed in Hk as ->; [|done..]. revert Ht. unfold issued. rsimp.
    rewrite lookup_insert_eq. by intros [= <-]. }
  destruct w1 as [d1 t1 i1 rs1 m1]. simpl in Hd, Htx, Hlt. subst d1 t1.
  set (d1 := issued _ _ _ _ _ _ _ id) in *.
  destruct (sql_consume (HashToken tok) p (o_dbclock o1 i1) d1) as [[r d2]|] eqn:Ec; [|done].
  assert (r = Some uid) as ->.
  { unfold sql_consume, d1 in Ec. rewrite issued_consume in Ec by done.
    by injection Ec as <- _. }
  assert (spent (HashToken tok) d2) as Hsp.
  { eapply consume_spends; [|exact Ec]. assert (∀ k t, tokens d1 !! k = Some t →
      t_hash t = HashToken tok → k = id) as Hk; [|intros k1 k2 t1 t2 H1 H2 E1 E2;
      by rewrite (Hk k1 t1), (Hk k2 t2)].
    intros k t. unfold d1, issued. rsimp. rewrite lookup_insert. case_decide; [done|].
    rewrite lookup_update_where. intros (t0 & Ht0 & ->)%fmap_Some Hh. destruct (Hfresh k t0 Ht0).
    by destruct (of_user uid p k t0). }
  unfold Consume, consume, queryRow. rewrite bind_run, bindE_run.
  rewrite (exec_Pool_lit _ Ho1 _ _ _ _ _ _ _ _ Ec). cbn [fst snd]. rewrite ret_run.
  eexists (MkWorld d2 None (S i1) rs1 m1), _. split; [reflexivity|].
  rewrite bind_run, bindE_run. cbn [fst snd].
  rewrite (exec_Pool_lit _ Ho2 _ _ _ _ _ _ _ _ (spent_consume _ p _ _ Hsp)). reflexivity.
Qed.

Lemma Issue_Consume_once_witness :
  ∃ tok w1 w2 w3,
    Issue "u1" PurposeReset Hour (oracle_at 7) (world_of toy_token_db) = (Ok tok, w1)
    ∧ Consume tok PurposeReset (oracle_at 8) w1 = (Ok "u1", w2)
    ∧ Consume tok PurposeReset (oracle_at 9) w2 = (Err EInvalidToken, w3).
Proof.
  destruct (Issue "u1" PurposeReset Hour (oracle_at 7) (world_of toy_token_db)) as [[tok|] w1] eqn:E;
    [|vm_compute in E; discriminate].
  exists tok, w1.
  destruct (Issue_Consume_once "u1" PurposeReset Hour (oracle_at 7) (world_of toy_token_db) tok w1
    (oracle_at 8) (oracle_at 9)) as (_ & w2 & w3 & H2 & H3);
    [apply oracle_at_healthy..|exact E| |vm_compute; reflexivity
    |exists w2, w3; split; [reflexivity|split; [exact H2|exact H3]]].
  intros k t. unfold toy_token_db. simpl. intros [<- <-]%lookup_singleton_Some.
  assert (tok = fst (GenerateToken (oracle_at 7) ((world_of toy_token_db) <| w_step := 1%nat |>))) as ->.
  { revert E. vm_compute. by intros [= <- _]. }
  by vm_compute.
Defined.

(** ** Interleaved requests

    The single statements of concurrent issues, consumptions and purges, in
    any order.  A token is 256 fresh random bits, so no issue draws a hash
    that was used before. *)
Record tsys := MkTsys { ts_db : db; ts_used : gset string }.

Inductive tstep : tsys → tsys → Prop :=
| tstep_issue d U d' id uid h p e now :
    h ∉ U → sql_insert_token id uid h p e now d = Some (tt, d') →
    tstep (MkTsys d U) (MkTsys d' ({[h]} ∪ U))
| tstep_supersede d U d' uid p at_ now :
    sql_supersede uid p at_ now d = Some (tt, d') → tstep (MkTsys d U) (MkTsys d' U)
| tstep_consume d U d' h p r now :
    sql_consume h p now d = Some (r, d') → tstep (MkTsys d U) (MkTsys d' U)
| tstep_purge d U d' n now :
    sql_purge_tokens now d = Some (n, d') → tstep (MkTsys d U) (MkTsys d' U)
| tstep_other d U d' :
    tokens d' = tokens d → tstep (MkTsys d U) (MkTsys d' U).

(** Every hash has at most one row, and was drawn by an issue. *)
Record tsys_inv (x : tsys) : Prop := {
  ti_unique : ∀ k1 k2 t1 t2, tokens (ts_db x) !! k1 = Some t1 → tokens (ts_db x) !! k2 = Some t2 →
    t_hash t1 = t_hash t2 → k1 = k2;
  ti_used : map_Forall (λ _ t, t_hash t ∈ ts_used x) (tokens (ts_db x))
}.

(** Steps other than issues: rows disappear or become used. *)
Definition ages (d d' : db) : Prop :=
  ∀ k t', tokens d' !! k = Some t' →
    ∃ t, tokens d !! k = Some t ∧ t_hash t' = t_hash t
         ∧ (is_Some (t_consumed_at t) → is_Some (t_consumed_at t')).

Lemma ages_update d q now :
  ages d (d <| tokens := update_where q (mark_consumed now) (tokens d) |>).
Proof.
  intros k t'. rsimp. rewrite lookup_update_where. intros (t & Ht & ->)%fmap_Some.
  exists t. split; [done|]. destruct (q k t); rsimp; eauto.
Qed.

Lemma tstep_shape x y :
  tstep x y →
  (ages (ts_db x) (ts_db y) ∧ ts_used y = ts_used x) ∨
  (∃ id t, (t_hash t ∉ ts_used x) ∧ tokens (ts_db y) = <[id := t]> (tokens (ts_db x))
     ∧ ts_used y = {[t_hash t]} ∪ ts_used x).
Proof.
  destruct 1 as [d U d' id uid h p e now Hh Hi|d U d' uid p a now Hx|d U d' h p r now Hx|
    d U d' n now Hx|d U d' Hx]; simpl.
  - right. revert Hi. unfold sql_insert_token. destruct (tokens d !! id); [done|].
    destruct (users d !! uid); [|done]. intros [= <-].
    exists id, (MkToken uid h p e None now). by split_and!.
  - left. injection Hx as <-. split; [apply ages_update|done].
  - left. injection Hx as _ <-. split; [apply ages_update|done].
  - left. injection Hx as _ <-. split; [|done]. intros k t'. rsimp.
    intros [Ht _]%lookup_delete_where_Some. eauto.
  - left. split; [|done]. intros k t'. rewrite Hx. eauto.
Qed.

Lemma tsys_inv_step x y : tsys_inv x → tstep x y → tsys_inv y.
Proof.
  intros [Hu Hi] [[Ha EU]|(id & t & Hn & Et & EU)]%tstep_shape; split.
  - intros k1 k2 t1 t2 (s1 & ? & E1 & _)%Ha (s2 & ? & E2 & _)%Ha Hh.
    eapply Hu; [done..|]. congruence.
  - intros k t' (t & Ht & E & _)%Ha. rewrite EU, E. by apply (Hi k).
  - intros k1 k2 t1 t2. rewrite Et, !lookup_insert.
    assert (∀ k t', tokens (ts_db x) !! k = Some t' → t_hash t' ≠ t_hash t) as Hne.
    { intros k t' Ht' E. apply Hn. rewrite <-E. by apply (Hi k). }
    repeat case_decide; subst; intros; simplify_eq; try done;
      [by edestruct Hne|by edestruct Hne|by eapply Hu].
  - intros k t'. rewrite Et, EU, lookup_insert. case_decide.
    + intros [= <-]. set_solver.
    + intros Ht%Hi. set_solver.
Qed.

(** A link works at most once: once a consumption of a token has
    succeeded, in every state that the statements of concurrent requests can
    reach from there every further consumption of it, for any purpose and at
    any clock, finds nothing. *)
Theorem consumed_at_most_once x h p now uid d' y p' now' :
  tsys_inv x → h ∈ ts_used x →
  sql_consume h p now (ts_db x) = Some (Some uid, d') →
  rtc tstep (MkTsys d' (ts_used x)) y →
  sql_consume h p' now' (ts_db y) = Some (None, ts_db y).
Proof.
  intros Hx Hh Hc Hy. apply spent_consume.
  cut (h ∈ ts_used y ∧ spent h (ts_db y)); [by intros [_ ?]|]. revert Hy.
  apply (rtc_invariant _ (λ z, h ∈ ts_used z ∧ spent h (ts_db z))).
  - split; [done|]. eapply consume_spends; [|exact Hc].
    intros k1 k2 t1 t2 H1 H2 E1 E2. eapply (ti_unique x Hx); [done..|]. congruence.
  - intros a b [Ha Hs] [[Hag EU]|(id & t & Hn & Et & EU)]%tstep_shape; rewrite EU.
    + split; [done|]. intros k t' (t & Ht & E & Hm)%Hag Hth. apply Hm, (Hs k t Ht). congruence.
    + split; [set_solver|]. intros k t'. rewrite Et, lookup_insert. case_decide; [|apply Hs].
      intros [= <-] E. by rewrite E in Hn.
Qed.

Lemma consumed_at_most_once_witness :
  ∃ d', sql_consume "h" PurposeReset 5 (empty_db <| tokens := {["t1" := MkToken "u1" "h" PurposeReset 9 None 0]} |>)
        = Some (Some "u1", d')
  ∧ sql_consume "h" PurposeReset 6 d' = Some (None, d').
Proof.
  set (d := empty_db <| tokens := _ |>).
  destruct (sql_consume "h" PurposeReset 5 d) as [[r d']|] eqn:E; [|vm_compute in E; discriminate].
  assert (r = Some "u1") as -> by (revert E; vm_compute; by intros [= <- _]).
  exists d'. split; [done|].
  apply (consumed_at_most_once (MkTsys d {["h"]}) "h" PurposeReset 5 "u1" d' (MkTsys d' {["h"]}));
    [|by vm_compute|exact E|apply rtc_refl].
  split; simpl.
  - intros k1 k2 t1 t2 [<- _]%lookup_singleton_Some [<- _]%lookup_singleton_Some. done.
  - intros k t [<- <-]%lookup_singleton_Some. by vm_compute.
Defined.

(** ** The purge *)

(** Purging tokens is invisible: a purge changes the answer of no later
    consumption, for any hash and purpose, as long as hashes are unique. *)
Theorem purge_invisible_to_consume U d t n d' h p now :
  tsys_inv (MkTsys d U) → sql_purge_tokens t d = Some (n, d') → t ≤ now →
  fst <$> sql_consume h p now d' = fst <$> sql_consume h p now d.
Proof.
  intros [Hu _] [= _ <-] Hle. unfold sql_consume. simpl. f_equal. f_equal. rsimp.
  set (m' := delete_where _ _).
  destruct (head (select_where (consumable h p now) (tokens d))) as [[k r]|] eqn:E.
  - apply head_Some_elem_of, elem_of_select_where in E as [Hk Hc].
    apply select_where_unique; [|done|].
    + apply lookup_delete_where_Some. split; [done|].
      apply consumable_spec in Hc as (_ & _ & Hn & Hlt). unfold token_dead, unconsumed.
      apply orb_false_iff. rewrite Z.leb_gt, negb_false_iff, bool_decide_eq_true. split; [lia|done].
    + intros k' r' [Hk' _]%lookup_delete_where_Some Hc'.
      apply consumable_spec in Hc as (Hh & _), Hc' as (Hh' & _). eapply Hu; [done..|]. simpl. congruence.
  - rewrite head_None, select_where_nil in E. rewrite head_None, select_where_nil.
    intros k r [Hk _]%lookup_delete_where_Some. by apply E.
Qed.

Lemma purge_invisible_to_consume_witness :
  let d := empty_db <| tokens := {["t1" := MkToken "u1" "h" PurposeReset 9 None 0]} |> in
  ∃ n d', sql_purge_tokens 5 d = Some (n, d')
    ∧ fst <$> sql_consume "h" PurposeReset 6 d' = Some (Some "u1").
Proof.
  intros d. eexists _, _. split; [reflexivity|].
  etrans; [eapply (purge_invisible_to_consume {["h"]} d 5); [|reflexivity|lia]|by vm_compute].
  split; simpl.
  - intros k1 k2 t1 t2 [<- _]%lookup_singleton_Some [<- _]%lookup_singleton_Some. done.
  - intros k t [<- <-]%lookup_singleton_Some. by vm_compute.
Defined.
