(* ===== verification/AuditLog.v ===== *)
(** * Audit: src/internal/audit/audit.go

    The append-only evidence: [Record] through the pool, [RecordTx] inside a
    transaction.  [strict] decides whether a failed write is surfaced.  The
    details the handlers pass are strings and booleans, which [json.Marshal]
    always encodes. *)

From S2P Require Import Prelude GoLib GoHash GoNet Schema World Logic Crypto Users.

Section logger.
Context `{Postgres} (strict : bool).

Definition audit_entry (event : Event) (actor : option string) (ip : option string)
    (detail : list (string * json)) : stmt unit := λ now d,
  Some (tt, d <| audit_log ::= λ l, l ++ [MkAudit now actor event ip detail] |>).

(** [INSERT INTO audit_log ..]: the actor is a UUID or NULL. *)
Definition sql_insert_audit (event : Event) (actorUser : string) (ip : option string)
    (detail : list (string * json)) : stmt unit :=
  if str_eqb actorUser "" then audit_entry event None ip detail
  else with_uuid actorUser (λ a, audit_entry event (Some a) ip detail).

Definition record (ex : executor) (event : Event) (actorUser ip : string)
    (detail : list (string * json)) : M (res err unit) :=
  r ← exec ex (sql_insert_audit event actorUser (canonical_ip ip) detail);
  mret (match r with
        | Err e => if strict then Err e else Ok tt
        | Ok _ => Ok tt
        end).
Definition Record := record Pool.
Definition RecordTx := record Tx.

(** The newest rows only. *)
Definition sql_purge_audit (retention : Z) : stmt Z := λ now d,
  let keep := base.filter (λ r, now - retention ≤ a_occurred_at r) (audit_log d) in
  Some (Z.of_nat (length (audit_log d) - length keep), d <| audit_log := keep |>).
Definition PurgeOlderThan (retention : Z) : M (res err Z) := exec Pool (sql_purge_audit retention).
End logger.

(** ** Best effort never fails, strict reports *)
Lemma Record_best_effort `{Postgres} ev a ip dt o w :
  fst (Record false ev a ip dt o w) = Ok tt.
Proof.
  unfold Record, record. rewrite bind_run. by destruct (fst (exec _ _ _ _)).
Qed.

Lemma sql_insert_audit_ok `{Postgres} I ev a ip dt :
  (∀ d l, I d → I (d <| audit_log := l |>)) → stmt_ok I (sql_insert_audit ev a ip dt).
Proof.
  intros HI now d x d' Hd. unfold sql_insert_audit, with_uuid, audit_entry.
  destruct (str_eqb a ""); [|destruct (uuid_in a); [|done]]; intros [= <- <-]; by apply HI.
Qed.

Lemma integrity_audit `{Postgres} d l : integrity d → integrity (d <| audit_log := l |>).
Proof. intros [????]. by split. Qed.

Lemma record_keeps `{Postgres} strict ex ev a ip dt :
  preserves (keeps integrity) (record strict ex ev a ip dt).
Proof.
  unfold record. pose proof (sql_insert_audit_ok integrity ev a (canonical_ip ip) dt
    (λ d l, integrity_audit d l)). solve_preserves.
Qed.
#[export] Hint Resolve record_keeps : preserves.
