(* ===== verification/Keyring.v ===== *)
(** * Keyring: src/internal/email/keyring.go

    Encryption at rest of the queued e-mail bodies: parsing of the operator's
    key specification, sealing under the first key, opening under any. *)

From S2P Require Import Prelude GoLib GoHash GoAes Schema World Logic.

(** [aeads] maps a key id to the AES-256 key of its AEAD. *)
Record Keyring := MkKeyring { activeID : string; aeads : gmap string string }.

Inductive keyring_error :=
| ErrEmptyKeyring
| ErrKeyringEntry
| ErrKeySize
| ErrKeyOf (id : string) (e : keyring_error)
| ErrDuplicateKeyID (id : string).

Definition nonceSize : nat := 12.
Definition keySize : nat := 32.

Definition encodings : list encoding := [StdEncoding; RawStdEncoding; URLEncoding; RawURLEncoding].

(** The first encoding that decodes decides. *)
Fixpoint decodeKey_with (encs : list encoding) (encoded : string) : res keyring_error string :=
  match encs with
  | [] => Err ErrKeyringEntry
  | enc :: encs =>
      match b64_decode enc encoded with
      | Some key => if (String.length key =? keySize)%nat then Ok key else Err ErrKeySize
      | None => decodeKey_with encs encoded
      end
  end.
Definition decodeKey (encoded : string) : res keyring_error string :=
  decodeKey_with encodings encoded.

Definition comma : ascii := byte 44.

(** One entry of the specification: its id and its key. *)
Definition parse_entry (entry : string) : res keyring_error (string * string) :=
  let entry := TrimSpace entry in
  if str_eqb entry "" then Err ErrKeyringEntry else
  let '(id, encoded, ok) := Cut entry (byte 58) in
  let id := TrimSpace id in
  let encoded := TrimSpace encoded in
  if negb ok || str_eqb id "" || str_eqb encoded "" then Err ErrKeyringEntry else
  match decodeKey encoded with
  | Err e => Err (ErrKeyOf id e)
  | Ok key => Ok (id, key)
  end.

(** The loop of [ParseKeyring]. *)
Fixpoint parse_entries (kr : Keyring) (entries : list string) : res keyring_error Keyring :=
  match entries with
  | [] => Ok kr
  | entry :: entries =>
      match parse_entry entry with
      | Err e => Err e
      | Ok (id, key) =>
          match aeads kr !! id with
          | Some _ => Err (ErrDuplicateKeyID id)
          | None =>
              parse_entries (MkKeyring (if str_eqb (activeID kr) "" then id else activeID kr)
                               (<[id := key]> (aeads kr))) entries
          end
      end
  end.
Definition no_keys : Keyring := MkKeyring "" ∅.

Definition ParseKeyring (spec : string) : res keyring_error Keyring :=
  let spec := TrimSpace spec in
  if str_eqb spec "" then Err ErrEmptyKeyring
  else parse_entries no_keys (Split spec comma).

Definition NewEphemeralKeyring : M Keyring :=
  key ← rand_bytes keySize;
  mret (MkKeyring "ephemeral" {["ephemeral" := key]}).

(** The key id, the nonce and the ciphertext. *)
Definition Encrypt (k : Keyring) (plaintext aad : string) : M (res err (string * string * string)) :=
  match aeads k !! activeID k with
  | None => mret (Err EUnknownKeyID)
  | Some key =>
      nonce ← rand_bytes nonceSize;
      mret (Ok (activeID k, nonce, gcm_Seal key nonce plaintext aad))
  end.

Definition Decrypt (k : Keyring) (keyID nonce ciphertext aad : string) : res err string :=
  match aeads k !! keyID with
  | None => Err EUnknownKeyID
  | Some key =>
      if negb (String.length nonce =? nonceSize)%nat then Err EPayloadAuth else
      match gcm_Open key nonce ciphertext aad with
      | Some plaintext => Ok plaintext
      | None => Err EPayloadAuth
      end
  end.

(** ** Parsing *)
Lemma decodeKey_with_size encs s key : decodeKey_with encs s = Ok key → String.length key = keySize.
Proof.
  induction encs as [|enc encs IH]; simpl; [done|].
  destruct (b64_decode enc s); [|done]. destruct (_ =? _)%nat eqn:E; [|done].
  intros [= <-]. by apply Nat.eqb_eq.
Qed.

Lemma parse_entry_ok e id key :
  parse_entry e = Ok (id, key) → id ≠ "" ∧ String.length key = keySize.
Proof.
  unfold parse_entry. destruct (str_eqb (TrimSpace e) ""); [done|].
  destruct (Cut _ _) as [[i s] ok]. destruct (negb ok || _ || _) eqn:E; [done|].
  destruct (decodeKey _) as [k|] eqn:Ek; [|done]. intros [= <- <-].
  apply orb_false_iff in E as [[_ E]%orb_false_iff _].
  split; [by apply str_eqb_false|by eapply decodeKey_with_size].
Qed.

(** A keyring is sound when its active id has a key and every id is non-empty
    and has an AES-256 key. *)
Definition keyring_ok (kr : Keyring) : Prop :=
  is_Some (aeads kr !! activeID kr)
  ∧ map_Forall (λ id key, id ≠ "" ∧ String.length key = keySize) (aeads kr).

Lemma parse_entries_ok kr es kr' :
  parse_entries kr es = Ok kr' →
  map_Forall (λ id key, id ≠ "" ∧ String.length key = keySize) (aeads kr) →
  (activeID kr = "" ∧ es ≠ []) ∨ is_Some (aeads kr !! activeID kr) →
  keyring_ok kr'.
Proof.
  revert kr. induction es as [|e es IH]; intros kr; simpl.
  - intros [= <-] HF [[_ ?]|?]; [done|by split].
  - destruct (parse_entry e) as [[id key]|] eqn:Ee; [|done].
    destruct (aeads kr !! id) eqn:Ed; [done|]. apply parse_entry_ok in Ee as [Hid Hk].
    intros HP HF Hact. apply (IH _ HP); simpl; [by apply map_Forall_insert_2|].
    right. destruct (str_eqb (activeID kr) "") eqn:Ea; [by rewrite lookup_insert_eq; eexists|].
    apply str_eqb_false in Ea. destruct Hact as [[? _]|[k Hk']]; [done|].
    destruct (decide (id = activeID kr)) as [<-|]; [by rewrite lookup_insert_eq; eexists|].
    rewrite lookup_insert_ne by done. by exists k.
Qed.

Lemma parse_entries_grow kr es kr' :
  parse_entries kr es = Ok kr' → aeads kr ⊆ aeads kr'.
Proof.
  revert kr. induction es as [|e es IH]; intros kr; simpl; [by intros [= <-]|].
  destruct (parse_entry e) as [[id key]|]; [|done].
  destruct (aeads kr !! id) eqn:Ed; [done|]. intros HP. etrans; [|by apply (IH _ HP)].
  simpl. by apply insert_subseteq.
Qed.

(** The keys parsed from a list of entries do not depend on the ones that
    were there. *)
Lemma parse_entries_keys kr es kr' id key :
  parse_entries kr es = Ok kr' → aeads kr' !! id = Some key →
  aeads kr !! id = Some key ∨ ∃ e, e ∈ es ∧ parse_entry e = Ok (id, key).
Proof.
  revert kr. induction es as [|e es IH]; intros kr; simpl; [intros [= <-]; by left|].
  destruct (parse_entry e) as [[i k]|] eqn:Ee; [|done].
  destruct (aeads kr !! i) eqn:Ed; [done|]. intros HP Hl.
  destruct (IH _ HP Hl) as [Hn|(e' & He' & Hp)]; simpl in *.
  - apply lookup_insert_Some in Hn as [[-> ->]|[_ ?]]; [|by left].
    right. exists e. split; [left|done].
  - right. exists e'. split; [by right|done].
Qed.

Lemma parse_entries_complete kr es kr' e id key :
  parse_entries kr es = Ok kr' → e ∈ es → parse_entry e = Ok (id, key) →
  aeads kr' !! id = Some key.
Proof.
  revert kr. induction es as [|e' es IH]; intros kr; simpl; [by intros _ ?%elem_of_nil|].
  destruct (parse_entry e') as [[i k]|] eqn:Ee; [|done].
  destruct (aeads kr !! i) eqn:Ed; [done|]. intros HP [->|Hin]%elem_of_cons Hpe.
  - rewrite Ee in Hpe. injection Hpe as -> ->.
    eapply lookup_weaken; [|by eapply parse_entries_grow]. simpl. apply lookup_insert_eq.
  - by eapply IH.
Qed.

(** A keyring that parses is usable: its active id is the id of its first
    entry and has a key, all ids are non-empty, all keys are 32 bytes long,
    so [Encrypt] cannot fail and every accepted specification encrypts. *)
Theorem ParseKeyring_sound spec kr :
  ParseKeyring spec = Ok kr →
  keyring_ok kr ∧
  ∀ p aad o w, ∃ nonce ct w', Encrypt kr p aad o w = (Ok (activeID kr, nonce, ct), w')
                              ∧ w_db w' = w_db w.
Proof.
  unfold ParseKeyring. destruct (str_eqb _ ""); [done|]. intros HP.
  assert (keyring_ok kr) as Hk.
  { eapply parse_entries_ok; [exact HP|apply map_Forall_empty|]. left. split; [done|].
    intros E. unfold no_keys in HP. rewrite E in HP. by destruct (TrimSpace spec); simpl in E;
      [|destruct (Ascii.eqb _ _); [|destruct (Split _ _)]]. }
  split; [done|]. intros p aad o w. destruct Hk as [[key Hkey] _]. unfold Encrypt. rewrite Hkey.
  by eexists _, _, _.
Qed.

Definition key32 : string := "AAAAAAAAAAAAAAAAAAAAAAAAAAAAAAAAAAAAAAAAAAA=".
Definition key32' : string := "AQEBAQEBAQEBAQEBAQEBAQEBAQEBAQEBAQEBAQEBAQE".

Lemma ParseKeyring_sound_witness :
  ∃ kr, ParseKeyring (" k2: " +:+ key32' +:+ " ,k1:" +:+ key32) = Ok kr ∧ keyring_ok kr
        ∧ activeID kr = "k2".
Proof.
  destruct (ParseKeyring (" k2: " +:+ key32' +:+ " ,k1:" +:+ key32)) as [kr|] eqn:E;
    [|vm_compute in E; discriminate].
  exists kr. split; [done|]. destruct (ParseKeyring_sound _ kr E) as [Hk _].
  split; [done|]. revert E. vm_compute. by intros [= <-].
Defined.

(** ** Sealing and opening *)
Lemma Encrypt_inv kr p aad o w id nonce ct w' :
  Encrypt kr p aad o w = (Ok (id, nonce, ct), w') →
  ∃ key, aeads kr !! id = Some key ∧ id = activeID kr ∧ String.length nonce = nonceSize
         ∧ ct = gcm_Seal key nonce p aad.
Proof.
  unfold Encrypt. destruct (aeads kr !! activeID kr) as [key|] eqn:E; [|done].
  rewrite bind_run. intros [= <- <- <- _]. exists key. split_and!; done.
Qed.

(** Rotation: what was sealed under a specification opens, with the same
    associated data, under every later specification that puts new entries in
    front of it. *)
Theorem rotation_opens entry spec kr kr' p aad o w id nonce ct w' :
  ParseKeyring spec = Ok kr → ParseKeyring (entry +:+ "," +:+ spec) = Ok kr' →
  TrimSpace spec = spec → TrimSpace (entry +:+ "," +:+ spec) = entry +:+ "," +:+ spec →
  str_forallb (not_byte comma) entry = true →
  Encrypt kr p aad o w = (Ok (id, nonce, ct), w') →
  Decrypt kr' id nonce ct aad = Ok p.
Proof.
  unfold ParseKeyring. intros HP HP' HT HT' Hc HE. rewrite HT in HP. rewrite HT' in HP'.
  destruct (str_eqb spec ""); [done|]. destruct (str_eqb (entry +:+ _) ""); [done|].
  change ("," +:+ spec) with (String comma spec) in HP'. rewrite Split_app in HP' by done.
  apply Encrypt_inv in HE as (key & Hkey & -> & Hn & ->).
  destruct (parse_entries_keys _ _ _ _ _ HP Hkey) as [Hx|(e & He & Hpe)];
    [simpl in Hx; by rewrite lookup_empty in Hx|].
  unfold Decrypt. rewrite (parse_entries_complete _ _ _ e _ key HP'); [|by right|done].
  by rewrite Hn, gcm_Open_Seal.
Qed.

Definition old_spec : string := "k1:" +:+ key32.
Definition new_entry : string := "k2:" +:+ key32'.

Lemma rotation_opens_witness :
  ∃ kr kr' id nonce ct w',
    ParseKeyring old_spec = Ok kr ∧ ParseKeyring (new_entry +:+ "," +:+ old_spec) = Ok kr'
    ∧ Encrypt kr "body" "aad" (oracle_at 0) (world_of empty_db) = (Ok (id, nonce, ct), w')
    ∧ Decrypt kr' id nonce ct "aad" = Ok "body".
Proof.
  assert (∃ kr, ParseKeyring old_spec = Ok kr ∧ aeads kr !! activeID kr = Some (zeros 32))
    as (kr & E & Hk) by (eexists; split; [vm_compute; reflexivity|vm_compute; reflexivity]).
  assert (∃ kr', ParseKeyring (new_entry +:+ "," +:+ old_spec) = Ok kr') as [kr' E']
    by (eexists; vm_compute; reflexivity).
  assert (∃ nonce ct w', Encrypt kr "body" "aad" (oracle_at 0) (world_of empty_db)
    = (Ok (activeID kr, nonce, ct), w')) as (nonce & ct & w' & EE)
    by (unfold Encrypt; rewrite Hk; rewrite bind_run; eexists _, _, _; reflexivity).
  exists kr, kr', (activeID kr), nonce, ct, w'.
  split; [exact E|]. split; [exact E'|]. split; [exact EE|].
  apply (rotation_opens new_entry old_spec kr kr' "body" "aad" (oracle_at 0) (world_of empty_db)
    (activeID kr) nonce ct w' E E'); [vm_compute; reflexivity..|exact EE].
Defined.

(** Authenticity of the outbox payload: a payload opens only if it is
    exactly the sealing of the returned text under a key of the ring, with
    this nonce and this associated data. *)
Theorem Decrypt_authentic kr id nonce ct aad p :
  Decrypt kr id nonce ct aad = Ok p →
  ∃ key, aeads kr !! id = Some key ∧ String.length nonce = nonceSize
         ∧ ct = gcm_Seal key nonce p aad.
Proof.
  unfold Decrypt. destruct (aeads kr !! id) as [key|] eqn:E; [|done].
  destruct (String.length nonce =? nonceSize)%nat eqn:En; [|done]. simpl.
  destruct (gcm_Open _ _ _ _) eqn:Eo; [|done]. intros [= <-].
  exists key. apply Nat.eqb_eq in En. by apply gcm_Open_Some in Eo.
Qed.

Definition toy_keyring : Keyring := MkKeyring "k" {["k" := zeros 32]}.
Definition toy_sealed : string := gcm_Seal (zeros 32) (zeros 12) "body" "row".

Lemma Decrypt_authentic_witness :
  Decrypt toy_keyring "k" (zeros 12) toy_sealed "row" = Ok "body"
  ∧ ∃ key, aeads toy_keyring !! "k" = Some key ∧ toy_sealed = gcm_Seal key (zeros 12) "body" "row".
Proof.
  assert (Decrypt toy_keyring "k" (zeros 12) toy_sealed "row" = Ok "body") as E
    by (vm_compute; reflexivity).
  split; [exact E|]. destruct (Decrypt_authentic _ _ _ _ _ _ E) as (key & Hk & _ & Hs).
  exists key. split; [exact Hk|exact Hs].
Defined.
