(* ===== verification/Outbox.v ===== *)
(** * Outbox: src/internal/email/outbox.go

    The durable mail queue: [QueueTx] inside the caller's transaction,
    [Claim] and [Finalize] for the worker, [RecordProviderEvent] for the
    webhook, [QueueStats] and [PurgeFinished] for operations. *)

From stdpp Require Import sorting.
From S2P Require Import Prelude GoLib GoHash GoAes Schema World Logic Crypto Keyring.

Definition MetricAccepted : string := "sesamo_email_outbox_accepted_total".
Definition MetricDelivered : string := "sesamo_email_outbox_delivered_total".
Definition MetricFailed : string := "sesamo_email_outbox_failed_total".
Definition MetricExpired : string := "sesamo_email_outbox_expired_total".
Definition MetricCanceled : string := "sesamo_email_outbox_canceled_total".
Definition MetricRetries : string := "sesamo_email_outbox_retries_total".
Definition MetricDecryptErrors : string := "sesamo_email_outbox_decrypt_errors_total".
Definition MetricLeaseLost : string := "sesamo_email_outbox_lease_lost_total".
Definition MetricWebhookEvents : string := "sesamo_email_outbox_webhook_events_total".
Definition MetricWebhookSignatureErrors : string :=
  "sesamo_email_outbox_webhook_signature_errors_total".

Definition MaxAttempts : Z := 12.
Definition LeaseDuration : Z := 2 * Minute.

Definition reasonSendWindowElapsed : string := "send_window_elapsed".
Definition reasonMaxAttempts : string := "max_attempts".
Definition reasonSuperseded : string := "superseded".
Definition reasonTokenInactive : string := "token_inactive".
Definition reasonDecryptFailed : string := "decrypt_failed".

Definition payloadAAD (id provider purpose : string) : string :=
  id +:+ "|" +:+ provider +:+ "|" +:+ purpose.

Record QueueInput := MkQueueInput {
  q_UserID : string; q_TokenID : string; q_To : string; q_From : string; q_Subject : string;
  q_Body : string; q_Purpose : Purpose; q_Provider : string; q_SendBefore : Z
}.

(** Sort orders; rows that tie come in the order they are stored. *)
Definition ev_before (a b : event_row) : Prop := ev_occurred_at a ≤ ev_occurred_at b.
#[export] Instance ev_before_dec : RelDecision ev_before.
Proof. intros a b. unfold ev_before. apply _. Defined.
Definition available_before (a b : string * outbox_row) : Prop :=
  ob_available_at (snd a) ≤ ob_available_at (snd b).
#[export] Instance available_before_dec : RelDecision available_before.
Proof. intros a b. unfold available_before. apply _. Defined.

Section outbox.
Context (kr : Keyring).

(** ** Queueing *)

(** Leaving 'pending' erases the payload and the lease. *)
Definition erase (b : outbox_row) : outbox_row :=
  b <| ob_nonce := None |> <| ob_ciphertext := None |>.
Definition unlease (b : outbox_row) : outbox_row :=
  b <| ob_lease_token := None |> <| ob_lease_until := None |>.

Definition is_pending (b : outbox_row) : bool := bool_decide (ob_status b = pending).
Definition superseded_by (uid : string) (p : Purpose) (_ : string) (b : outbox_row) : bool :=
  str_eqb (ob_user_id b) uid && bool_decide (ob_purpose b = p) && is_pending b.
Definition sql_cancel_superseded (uid : string) (p : Purpose) : stmt unit := λ now d,
  Some (tt, d <| outbox := update_where (superseded_by uid p)
    (λ b, (unlease (erase b)) <| ob_status := canceled |> <| ob_canceled_at := Some now |>
            <| ob_updated_at := now |> <| ob_last_error := Some reasonSuperseded |>)
    (outbox d) |>).

Definition new_job (q : QueueInput) (keyID nonce ciphertext : string) (now : Z) : outbox_row :=
  MkOutbox (q_UserID q) (if str_eqb (q_TokenID q) "" then None else Some (q_TokenID q))
    (q_Provider q) (q_Purpose q) (q_To q) (q_From q) (q_Subject q)
    (Some keyID) (Some nonce) (Some ciphertext) pending 0 now None None None None
    (q_SendBefore q) now now None None None None None.

(** [INSERT INTO email_outbox ..]: a fresh id; the user and the token exist. *)
Definition sql_insert_job (id : string) (row : Z → outbox_row) : stmt unit := λ now d,
  let b := row now in
  match outbox d !! id, users d !! ob_user_id b with
  | None, Some _ =>
      if match ob_token_id b with
         | Some t => bool_decide (is_Some (tokens d !! t)) | None => true end
      then Some (tt, d <| outbox := <[id := b]> (outbox d) |>) else None
  | _, _ => None
  end.

Definition QueueTx (q : QueueInput) : M (res err unit) :=
  id ← UUIDv7;
  '(keyID, nonce, ciphertext) ←?
    Encrypt kr (q_Body q) (payloadAAD id (q_Provider q) (purpose_str (q_Purpose q)));
  _ ←? exec Tx (sql_cancel_superseded (q_UserID q) (q_Purpose q));
  exec Tx (sql_insert_job id (new_job q keyID nonce ciphertext)).

(** ** Delivery events: [reduceEvent] *)
Definition of_message (pmid : string) (_ : string) (b : outbox_row) : bool :=
  bool_decide (ob_provider_message_id b = Some pmid).

Definition coalesce (o : option Z) (t : Z) : option Z := Some (default t o).

Definition on_delivered (now at_ : Z) (b : outbox_row) : outbox_row :=
  (erase b) <| ob_delivered_at ::= λ o, coalesce o at_ |>
    <| ob_status ::= λ s, match s with pending | accepted => delivered | _ => s end |>
    <| ob_updated_at := now |>.
Definition on_bad (now at_ : Z) (typ : string) (b : outbox_row) : outbox_row :=
  (erase b) <| ob_status := failed |> <| ob_failed_at ::= λ o, coalesce o at_ |>
    <| ob_last_error := Some typ |> <| ob_updated_at := now |>.
Definition on_sent (now at_ : Z) (b : outbox_row) : outbox_row :=
  b <| ob_status := accepted |> <| ob_accepted_at ::= λ o, coalesce o at_ |>
    <| ob_updated_at := now |>.
Definition on_delayed (now : Z) (typ : string) (b : outbox_row) : outbox_row :=
  b <| ob_last_error := Some typ |> <| ob_updated_at := now |>.

(** The catalogue of event types; anything else is [EventOther]. *)
Inductive event_kind :=
| EventSent | EventDelivered | EventDeliveryDelayed
| EventBounced | EventComplained | EventFailed | EventSuppressed | EventOther.
Definition event_kind_of (typ : string) : event_kind :=
  if str_eqb typ "email.sent" then EventSent
  else if str_eqb typ "email.delivered" then EventDelivered
  else if str_eqb typ "email.delivery_delayed" then EventDeliveryDelayed
  else if str_eqb typ "email.bounced" then EventBounced
  else if str_eqb typ "email.complained" then EventComplained
  else if str_eqb typ "email.failed" then EventFailed
  else if str_eqb typ "email.suppressed" then EventSuppressed
  else EventOther.

(** What one event does to a row of its message. *)
Definition reduce_row (now at_ : Z) (typ : string) (b : outbox_row) : outbox_row :=
  match event_kind_of typ with
  | EventDelivered => on_delivered now at_ b
  | EventBounced | EventComplained | EventFailed | EventSuppressed => on_bad now at_ typ b
  | EventSent => if is_pending b then on_sent now at_ b else b
  | EventDeliveryDelayed =>
      match ob_status b with pending | accepted => on_delayed now typ b | _ => b end
  | EventOther => b
  end.
Definition sql_reduce (pmid typ : string) (at_ : Z) : stmt unit := λ now d,
  Some (tt, d <| outbox := update_where (of_message pmid) (reduce_row now at_ typ) (outbox d) |>).

Definition reduceEvent (pmid typ : string) (at_ : Z) : M (res err unit) :=
  match event_kind_of typ with
  | EventOther => mret (Ok tt)
  | EventDelivered =>
      _ ←? exec Pool (sql_reduce pmid typ at_);
      _ ← IncCounter MetricDelivered; mret (Ok tt)
  | EventBounced | EventComplained | EventFailed | EventSuppressed =>
      _ ←? exec Pool (sql_reduce pmid typ at_);
      _ ← IncCounter MetricFailed; mret (Ok tt)
  | EventSent | EventDeliveryDelayed => exec Pool (sql_reduce pmid typ at_)
  end.

Definition eventTypeLabel (typ : string) : string :=
  match event_kind_of typ with
  | EventOther => "other"
  | _ => ReplaceByte typ (byte 46) (byte 95)
  end.

(** [INSERT INTO email_events .. ON CONFLICT (svix_id) DO NOTHING]. *)
Definition seen_event (svixID : string) (e : event_row) : bool := str_eqb (ev_svix_id e) svixID.
Definition sql_insert_event (svixID pmid typ : string) (at_ : Z) : stmt Z := λ now d,
  if existsb (seen_event svixID) (events d) then Some (0, d)
  else Some (1, d <| events ::= λ l, l ++ [MkEvent svixID pmid typ at_ now] |>).

Definition RecordProviderEvent (svixID pmid typ : string) (at_ : Z) : M (res err bool) :=
  n ←? exec Pool (sql_insert_event svixID pmid typ at_);
  if n =? 0 then mret (Ok false) else
  _ ← IncCounter MetricWebhookEvents;
  _ ← IncCounter (MetricWebhookEvents +:+ "_" +:+ eventTypeLabel typ);
  _ ←? reduceEvent pmid typ at_;
  mret (Ok true).

(** [ORDER BY occurred_at, id]: a stable sort of the insertion order. *)
Definition events_of (pmid : string) (d : db) : list event_row :=
  merge_sort ev_before
    (base.filter (λ e, ev_provider_message_id e = pmid) (events d)).

Fixpoint reduce_all (pmid : string) (es : list event_row) : M (res err unit) :=
  match es with
  | [] => mret (Ok tt)
  | e :: es =>
      _ ←? reduceEvent pmid (ev_type e) (ev_occurred_at e);
      reduce_all pmid es
  end.
Definition reconcileEvents (pmid : string) : M (res err unit) :=
  es ←? exec Pool (λ _ d, Some (events_of pmid d, d));
  reduce_all pmid es.

(** ** Finalizing a delivery attempt *)
Inductive Outcome :=
| OutcomeAccepted (providerMessageID : string)
| OutcomeRetry (code : string) (retryIn : Z)
| OutcomeFailed (code : string).

(** [WHERE id = $1 AND lease_token = $2]. *)
Definition holds_lease (lease : string) (b : outbox_row) : bool :=
  bool_decide (ob_lease_token b = Some lease).
Definition finalized (out : Outcome) (now : Z) (b : outbox_row) : outbox_row :=
  match out with
  | OutcomeAccepted pmid =>
      (unlease (erase b)) <| ob_status := accepted |> <| ob_accepted_at := Some now |>
        <| ob_provider_message_id := Some pmid |> <| ob_last_error := None |>
        <| ob_updated_at := now |>
  | OutcomeRetry code retryIn =>
      (unlease b) <| ob_available_at := now + retryIn |> <| ob_last_error := Some code |>
        <| ob_updated_at := now |>
  | OutcomeFailed code =>
      (unlease (erase b)) <| ob_status := failed |> <| ob_failed_at := Some now |>
        <| ob_last_error := Some code |> <| ob_updated_at := now |>
  end.
Definition finalizes (out : Outcome) (lease : string) (b : outbox_row) : bool :=
  holds_lease lease b && match out with OutcomeRetry _ _ => is_pending b | _ => true end.
Definition sql_finalize (id lease : string) (out : Outcome) : stmt Z := λ now d,
  match outbox d !! id with
  | Some b =>
      if finalizes out lease b
      then Some (1, d <| outbox := <[id := finalized out now b]> (outbox d) |>)
      else Some (0, d)
  | None => Some (0, d)
  end.

Definition Finalize (id lease : string) (out : Outcome) : M (res err unit) :=
  n ←? exec Pool (sql_finalize id lease out);
  if n =? 0 then mret (Err ELeaseLost) else
  match out with
  | OutcomeAccepted pmid => if str_eqb pmid "" then mret (Ok tt) else reconcileEvents pmid
  | _ => mret (Ok tt)
  end.

(** ** Claiming *)
Record claimed := MkClaimed {
  cl_id : string; cl_row : outbox_row; cl_hasToken : bool; cl_tokenLive : bool
}.
Record Job := MkJob {
  j_ID : string; j_UserID : string; j_Provider : string; j_Purpose : Purpose;
  j_Attempt : Z; j_LeaseToken : string; j_LeaseUntil : Z; j_SendBefore : Z;
  j_To : string; j_From : string; j_Subject : string; j_Body : string
}.
Definition IdempotencyKey (j : Job) : string := "auth-email/" +:+ j_ID j.

(** The rows that may be claimed now; [locked] are those another
    transaction holds ([SKIP LOCKED]). *)
Definition claimable (provider : string) (locked : string → bool) (now : Z)
    (id : string) (b : outbox_row) : bool :=
  is_pending b && str_eqb (ob_provider b) provider && (ob_available_at b <=? now)
  && match ob_lease_until b with Some t => t <=? now | None => true end
  && negb (locked id).

Definition token_live (d : db) (now : Z) (b : outbox_row) : bool :=
  match t ← ob_token_id b; tokens d !! t with
  | Some t => bool_decide (t_consumed_at t = None) && (now <? t_expires_at t)
  | None => false
  end.

Definition candidates (provider : string) (locked : string → bool) (limit : nat)
    (now : Z) (d : db) : list claimed :=
  map (λ kb, MkClaimed (fst kb) (snd kb)
               (bool_decide (is_Some (ob_token_id (snd kb)))) (token_live d now (snd kb)))
    (take limit (merge_sort available_before
      (select_where (claimable provider locked now) (outbox d)))).
Definition sql_candidates (provider : string) (locked : string → bool) (limit : nat)
  : stmt (list claimed) := λ now d, Some (candidates provider locked limit now d, d).

Inductive verdict := Expired | Exhausted | Dead | Leasable.
Definition classify (now : Z) (c : claimed) : verdict :=
  if ob_send_before (cl_row c) <=? now then Expired
  else if MaxAttempts <=? ob_attempt_count (cl_row c) then Exhausted
  else if cl_hasToken c && negb (cl_tokenLive c) then Dead
  else Leasable.
Definition is_verdict (v : verdict) (now : Z) (c : claimed) : bool :=
  match v, classify now c with
  | Expired, Expired | Exhausted, Exhausted | Dead, Dead | Leasable, Leasable => true
  | _, _ => false
  end.
Definition ids_of (v : verdict) (now : Z) (cs : list claimed) : list string :=
  map cl_id (List.filter (is_verdict v now) cs).

Definition any_of (ids : list string) (id : string) (_ : outbox_row) : bool :=
  existsb (str_eqb id) ids.
Definition retired (st : job_status) (reason : string) (now : Z) (b : outbox_row) : outbox_row :=
  let b := (unlease (erase b)) <| ob_status := st |> <| ob_last_error := Some reason |>
             <| ob_updated_at := now |> in
  match st with
  | failed => b <| ob_failed_at := Some now |>
  | expired => b <| ob_expired_at := Some now |>
  | canceled => b <| ob_canceled_at := Some now |>
  | _ => b
  end.
Definition sql_retire (ids : list string) (st : job_status) (reason : string) : stmt unit :=
  λ now d, Some (tt, d <| outbox := update_where (any_of ids) (retired st reason now) (outbox d) |>).
Definition retire (ids : list string) (st : job_status) (reason : string) : M (res err unit) :=
  match ids with
  | [] => mret (Ok tt)
  | _ => exec Tx (sql_retire ids st reason)
  end.

(** The rows leased: id, attempt, lease token, lease end. *)
Definition leased (now : Z) (tok : string) (b : outbox_row) : outbox_row :=
  b <| ob_attempt_count ::= λ n, n + 1 |> <| ob_lease_token := Some tok |>
    <| ob_lease_until := Some (now + LeaseDuration) |> <| ob_updated_at := now |>.
Definition sql_lease (uuid : string → string) (ids : list string)
  : stmt (gmap string (Z * string * Z)) := λ now d,
  let m := map_imap (λ id b, Some (if any_of ids id b then leased now (uuid id) b else b))
             (outbox d) in
  Some (map_imap (λ id b, if any_of ids id b
                          then Some (ob_attempt_count b, uuid id, now + LeaseDuration) else None) m,
        d <| outbox := m |>).

(** [leasableBy[id].job], the zero lease when the row was not returned. *)
Definition job_of (m : gmap string (Z * string * Z)) (c : claimed) : Job :=
  let '(attempt, tok, until) := default (0, "", 0) (m !! cl_id c) in
  let b := cl_row c in
  MkJob (cl_id c) (ob_user_id b) (ob_provider b) (ob_purpose b) attempt tok until
    (ob_send_before b) (ob_recipient b) "" (ob_subject b) "".

Fixpoint count_metric {A} (l : list A) (name : string) : M unit :=
  match l with
  | [] => mret tt
  | _ :: l => _ ← IncCounter name; count_metric l name
  end.

Definition with_body (j : Job) (body : string) : Job :=
  MkJob (j_ID j) (j_UserID j) (j_Provider j) (j_Purpose j) (j_Attempt j)
    (j_LeaseToken j) (j_LeaseUntil j) (j_SendBefore j) (j_To j) (j_From j) (j_Subject j) body.

(** Decrypt each job after the commit; what cannot be opened is retired. *)
Fixpoint open_jobs (l : list (claimed * Job)) : M (list Job) :=
  match l with
  | [] => mret []
  | (c, job) :: l =>
      let b := cl_row c in
      match Decrypt kr (default "" (ob_key_id b)) (default "" (ob_nonce b))
              (default "" (ob_ciphertext b))
              (payloadAAD (j_ID job) (j_Provider job) (purpose_str (j_Purpose job))) with
      | Err _ =>
          _ ← IncCounter MetricDecryptErrors;
          _ ← Finalize (j_ID job) (j_LeaseToken job) (OutcomeFailed reasonDecryptFailed);
          open_jobs l
      | Ok body =>
          rest ← open_jobs l;
          mret (with_body job body :: rest)
      end
  end.

(** The leasable candidates with their jobs. *)
Definition lease_jobs (le : list claimed) : M (res err (list (claimed * Job))) :=
  match le with
  | [] => mret (Ok [])
  | _ =>
      uuid ← tick o_dbuuid;
      m ←? exec Tx (sql_lease uuid (map cl_id le));
      mret (Ok (map (λ c, (c, job_of m c)) le))
  end.

(** The transaction of [Claim]: what was leased, and the retired ids. *)
Definition claim_tx (provider : string) (locked : string → bool) (limit : nat)
  : M (res err (list (claimed * Job) * (list string * list string * list string))) :=
  with_tx (
    cs ←? exec Tx (sql_candidates provider locked limit);
    if existsb (λ c, bool_decide (ob_key_id (cl_row c) = None)) cs
    then mret (Err (EOther "cannot scan NULL into *string")) else
    match cs with
    | [] => mret (Ok ([], ([], [], [])))
    | _ =>
        now ← time_Now;
        let ex := ids_of Expired now cs in
        let xh := ids_of Exhausted now cs in
        let de := ids_of Dead now cs in
        let le := List.filter (is_verdict Leasable now) cs in
        _ ←? retire ex expired reasonSendWindowElapsed;
        _ ←? retire xh failed reasonMaxAttempts;
        _ ←? retire de canceled reasonTokenInactive;
        jobs ←? lease_jobs le;
        _ ←? Commit;
        mret (Ok (jobs, (ex, xh, de)))
    end).

Definition Claim (provider : string) (locked : string → bool) (limit : nat)
  : M (res err (list Job)) :=
  '(jobs, (ex, xh, de)) ←? claim_tx provider locked limit;
  _ ← count_metric ex MetricExpired;
  _ ← count_metric xh MetricFailed;
  _ ← count_metric de MetricCanceled;
  out ← open_jobs jobs;
  mret (Ok out).

(** ** Operations *)
Record Stats := MkStats { st_pending : Z; st_oldest_age : Z }.
Definition sql_queue_stats (provider : string) : stmt (Z * option Z) := λ _ d,
  let l := select_where (λ _ b, is_pending b && str_eqb (ob_provider b) provider) (outbox d) in
  Some ((Z.of_nat (length l),
         fold_right (λ kb o, Some (match o with
                                   | Some t => Z.min (ob_available_at (snd kb)) t
                                   | None => ob_available_at (snd kb) end)) None l), d).
Definition QueueStats (provider : string) : M (res err Stats) :=
  '(n, oldest) ←? exec Pool (sql_queue_stats provider);
  match oldest with
  | None => mret (Ok (MkStats n 0))
  | Some t =>
      now ← time_Now;
      mret (Ok (MkStats n (if 0 <? now - t then now - t else 0)))
  end.

Definition finished (cutoff : Z) (_ : string) (b : outbox_row) : bool :=
  (negb (is_pending b) && (ob_updated_at b <? cutoff))
  || (is_pending b && (ob_send_before b <? cutoff)).
Definition sql_purge_jobs (olderThan : Z) : stmt Z := λ now d,
  let m := delete_where (finished (now - olderThan)) (outbox d) in
  Some (Z.of_nat (size (outbox d) - size m), d <| outbox := m |>).
Definition sql_purge_events (olderThan : Z) : stmt Z := λ now d,
  let l := base.filter (λ e, now - olderThan ≤ ev_received_at e) (events d) in
  Some (Z.of_nat (length (events d) - length l), d <| events := l |>).
Definition PurgeFinished (olderThan : Z) : M (res err Z) :=
  removed ←? exec Pool (sql_purge_jobs olderThan);
  n ←? exec Pool (sql_purge_events olderThan);
  mret (Ok (removed + n)).
End outbox.

(** ** The payload dies with the job *)

(** Outside 'pending' a row holds neither nonce nor ciphertext; inside it no
    provider message id is known yet. *)
Definition row_ok (b : outbox_row) : Prop :=
  (ob_status b ≠ pending → ob_nonce b = None ∧ ob_ciphertext b = None) ∧
  (ob_status b = pending → ob_provider_message_id b = None).
Definition outbox_ok (d : db) : Prop := map_Forall (λ _ b, row_ok b) (outbox d).

Lemma is_pending_true b : is_pending b = true ↔ ob_status b = pending.
Proof. unfold is_pending. by rewrite bool_decide_eq_true. Qed.

Lemma outbox_ok_update d q f :
  outbox_ok d → (∀ k b, row_ok b → q k b = true → row_ok (f b)) →
  outbox_ok (d <| outbox := update_where q f (outbox d) |>).
Proof. intros Hd Hf. by apply map_Forall_update_where. Qed.

Lemma row_ok_erased b : ob_nonce b = None → ob_ciphertext b = None →
  ob_status b ≠ pending → row_ok b.
Proof. by split. Qed.

Lemma reduce_row_ok now at_ typ b pmid k :
  row_ok b → of_message pmid k b = true → row_ok (reduce_row now at_ typ b).
Proof.
  intros [Hn Hp] Hm. apply bool_decide_eq_true in Hm.
  assert (ob_status b ≠ pending) as Hs by (intros E; rewrite Hp in Hm by done; done).
  destruct (Hn Hs) as [H1 H2]. unfold reduce_row. destruct (event_kind_of typ).
  - destruct (is_pending b) eqn:E; [by apply is_pending_true in E|by split].
  - apply row_ok_erased; [done..|]. unfold on_delivered, set. simpl. by destruct (ob_status b).
  - destruct (ob_status b) eqn:E; [by destruct Hs| |by split; rewrite E..].
    split; unfold on_delayed, set; simpl; by rewrite E.
  - by apply row_ok_erased.
  - by apply row_ok_erased.
  - by apply row_ok_erased.
  - by apply row_ok_erased.
  - by split.
Qed.

Lemma sql_cancel_superseded_ok uid p : stmt_ok outbox_ok (sql_cancel_superseded uid p).
Proof.
  intros now d a d' Hd [= <- <-]. apply outbox_ok_update; [done|]. intros k b Hb _.
  apply row_ok_erased; done.
Qed.

Lemma sql_insert_job_ok id q k n c :
  stmt_ok outbox_ok (sql_insert_job id (new_job q k n c)).
Proof.
  intros now d a d' Hd. unfold sql_insert_job.
  destruct (outbox d !! id); [done|]. destruct (users d !! _); [|done].
  destruct (match _ with Some _ => _ | None => _ end); [|done]. intros [= <- <-].
  apply map_Forall_insert_2; [by split|done].
Qed.

Lemma sql_reduce_ok pmid typ at_ : stmt_ok outbox_ok (sql_reduce pmid typ at_).
Proof.
  intros now d a d' Hd [= <- <-]. apply outbox_ok_update; [done|]. intros k b Hb Hm.
  by eapply reduce_row_ok.
Qed.

Lemma sql_insert_event_ok s p t at_ : stmt_ok outbox_ok (sql_insert_event s p t at_).
Proof.
  intros now d a d' Hd. unfold sql_insert_event. destruct (existsb _ _); by intros [= <- <-].
Qed.

Lemma finalized_ok out now lease b :
  row_ok b → finalizes out lease b = true → row_ok (finalized out now b).
Proof.
  intros Hb. unfold finalizes. intros [_ Hf]%andb_true_iff. destruct out; simpl.
  - by apply row_ok_erased.
  - apply is_pending_true in Hf. destruct Hb as [_ Hp]. split; rsimp; [done|auto].
  - by apply row_ok_erased.
Qed.

Lemma sql_finalize_ok id lease out : stmt_ok outbox_ok (sql_finalize id lease out).
Proof.
  intros now d a d' Hd. unfold sql_finalize. destruct (outbox d !! id) as [b|] eqn:E; [|by intros [= <- <-]].
  destruct (finalizes out lease b) eqn:Ef; intros [= <- <-]; [|done].
  apply map_Forall_insert_2; [|done]. eapply finalized_ok; [by apply (Hd id)|done].
Qed.

Lemma sql_retire_ok ids st r : st ≠ pending → stmt_ok outbox_ok (sql_retire ids st r).
Proof.
  intros Hst now d a d' Hd [= <- <-]. apply outbox_ok_update; [done|]. intros k b Hb _.
  by destruct st; apply row_ok_erased.
Qed.

Lemma sql_lease_ok uuid ids : stmt_ok outbox_ok (sql_lease uuid ids).
Proof.
  intros now d a d' Hd [= <- <-]. intros k b. rsimp. rewrite map_lookup_imap.
  intros (b0 & Hb & [= <-])%bind_Some. pose proof (Hd k b0 Hb) as H0.
  by destruct (any_of ids k b0).
Qed.

Lemma sql_purge_jobs_ok t : stmt_ok outbox_ok (sql_purge_jobs t).
Proof. intros now d a d' Hd [= <- <-]. by apply map_Forall_delete_where. Qed.
Lemma sql_purge_events_ok t : stmt_ok outbox_ok (sql_purge_events t).
Proof. by intros now d a d' Hd [= <- <-]. Qed.
Lemma sql_candidates_ok I p l n : stmt_ok I (sql_candidates p l n).
Proof. by intros now d a d' Hd [= <- <-]. Qed.
Lemma read_stmt_ok {A} I (f : db → A) : stmt_ok I (λ _ d, Some (f d, d)).
Proof. by intros now d a d' Hd [= <- <-]. Qed.

#[export] Hint Resolve sql_cancel_superseded_ok sql_insert_job_ok sql_reduce_ok
  sql_insert_event_ok sql_finalize_ok sql_lease_ok sql_purge_jobs_ok sql_purge_events_ok
  sql_candidates_ok read_stmt_ok : preserves.
#[export] Hint Extern 2 (stmt_ok outbox_ok (sql_retire _ _ _)) =>
  apply sql_retire_ok; discriminate : preserves.

Lemma Encrypt_keeps I kr p aad : preserves (keeps I) (Encrypt kr p aad).
Proof. unfold Encrypt. solve_preserves. Qed.
#[export] Hint Resolve Encrypt_keeps : preserves.

Lemma reduceEvent_keeps pmid typ at_ : preserves (keeps outbox_ok) (reduceEvent pmid typ at_).
Proof. unfold reduceEvent. solve_preserves. Qed.
#[export] Hint Resolve reduceEvent_keeps : preserves.
Lemma reduce_all_keeps pmid es : preserves (keeps outbox_ok) (reduce_all pmid es).
Proof. induction es; simpl; solve_preserves. Qed.
#[export] Hint Resolve reduce_all_keeps : preserves.
Lemma Finalize_keeps id l out : preserves (keeps outbox_ok) (Finalize id l out).
Proof. unfold Finalize, reconcileEvents. solve_preserves. Qed.
#[export] Hint Resolve Finalize_keeps : preserves.
Lemma count_metric_keeps {A} I (l : list A) n : preserves (keeps I) (count_metric l n).
Proof. induction l; simpl; solve_preserves. Qed.
Lemma open_jobs_keeps kr l : preserves (keeps outbox_ok) (open_jobs kr l).
Proof. induction l; simpl; solve_preserves. Qed.
Lemma retire_keeps ids st r : st ≠ pending → preserves (keeps outbox_ok) (retire ids st r).
Proof. intros Hst. unfold retire. pose proof (sql_retire_ok ids st r Hst). solve_preserves. Qed.
#[export] Hint Resolve count_metric_keeps open_jobs_keeps : preserves.
#[export] Hint Extern 2 (preserves _ (retire _ _ _)) => apply retire_keeps; discriminate : preserves.

Lemma lease_jobs_keeps le : preserves (keeps outbox_ok) (lease_jobs le).
Proof. unfold lease_jobs. solve_preserves. Qed.
#[export] Hint Resolve lease_jobs_keeps : preserves.
Lemma claim_tx_keeps p l n : preserves (keeps outbox_ok) (claim_tx p l n).
Proof. unfold claim_tx. apply with_tx_keeps. solve_preserves. Qed.
#[export] Hint Resolve claim_tx_keeps : preserves.

(** No queued link outlives its job: whatever the database answers (also
    when it refuses a statement or loses an answer), every operation on the
    outbox keeps all rows such that only a 'pending' one holds its encrypted
    payload, and only one that left 'pending' knows a provider message id. *)
Theorem payload_dies_with_job kr o w :
  winv outbox_ok w →
  (∀ q, winv outbox_ok (snd (QueueTx kr q o w))) ∧
  (∀ p locked n, winv outbox_ok (snd (Claim kr p locked n o w))) ∧
  (∀ id lease out, winv outbox_ok (snd (Finalize id lease out o w))) ∧
  (∀ s p t a, winv outbox_ok (snd (RecordProviderEvent s p t a o w))) ∧
  (∀ t, winv outbox_ok (snd (PurgeFinished t o w))).
Proof.
  intros Hw. split_and!; intros; revert Hw;
    match goal with |- winv ?I w → winv ?I (snd (?m o w)) => cut (preserves (keeps I) m) end;
    try (intros Hp; apply Hp).
  - unfold QueueTx. solve_preserves.
  - unfold Claim. solve_preserves.
  - apply Finalize_keeps.
  - unfold RecordProviderEvent. solve_preserves.
  - unfold PurgeFinished. solve_preserves.
Qed.

(** ** Delivery events *)

(** The status after an event, outside 'pending'. *)
Definition status_after (typ : string) (s : job_status) : job_status :=
  match event_kind_of typ with
  | EventDelivered => match s with accepted => delivered | _ => s end
  | EventBounced | EventComplained | EventFailed | EventSuppressed => failed
  | _ => s
  end.

Lemma reduce_row_status now at_ typ b :
  ob_status b ≠ pending →
  ob_status (reduce_row now at_ typ b) = status_after typ (ob_status b)
  ∧ ob_provider_message_id (reduce_row now at_ typ b) = ob_provider_message_id b.
Proof.
  intros Hs. unfold reduce_row, status_after. destruct (event_kind_of typ); try done.
  - destruct (is_pending b) eqn:E; [by apply is_pending_true in E|done].
  - unfold on_delivered, set. simpl. by destruct (ob_status b).
  - by destruct (ob_status b) eqn:E; unfold on_delayed, set; simpl; rewrite ?E.
Qed.

Lemma status_after_not_pending typ s : s ≠ pending → status_after typ s ≠ pending.
Proof. intros Hs. unfold status_after. by destruct (event_kind_of typ), s. Qed.

Lemma status_after_comm t1 t2 s :
  s ≠ pending → status_after t1 (status_after t2 s) = status_after t2 (status_after t1 s).
Proof. intros Hs. unfold status_after. by destruct (event_kind_of t1), (event_kind_of t2), s. Qed.

Lemma reduceEvent_run pmid typ at_ o w :
  healthy o → outbox_ok (w_db w) →
  ∃ f w', reduceEvent pmid typ at_ o w = (Ok tt, w')
    ∧ w_db w' = (w_db w) <| outbox := update_where (of_message pmid) f (outbox (w_db w)) |>
    ∧ outbox_ok (w_db w')
    ∧ ∀ b, ob_status b ≠ pending → ob_status (f b) = status_after typ (ob_status b)
           ∧ ob_provider_message_id (f b) = ob_provider_message_id b.
Proof.
  intros Ho Hok. destruct w as [d t i rs m]. unfold reduceEvent.
  destruct (event_kind_of typ) eqn:E;
    try (run Ho; eexists (reduce_row (o_dbclock o i) at_ typ), _; split; [reflexivity|];
         split; [done|]; split; [by eapply (sql_reduce_ok pmid typ at_)|];
         intros b Hb; by apply reduce_row_status).
  exists id, (MkWorld d t i rs m). split; [done|]. split; [|split; [done|]].
  - simpl. assert (update_where (of_message pmid) id (outbox d) = outbox d) as ->.
    { apply map_eq. intros k. rewrite lookup_update_where. destruct (outbox d !! k) as [b|]; [|done].
      simpl. by destruct (of_message pmid k b). }
    by destruct d.
  - intros b Hb. unfold status_after. by rewrite E.
Qed.

(** The status of a row after a sequence of events of its message. *)
Definition final_status (pmid : string) (es : list event_row) (b : outbox_row) : job_status :=
  if bool_decide (ob_provider_message_id b = Some pmid)
  then fold_left (λ s e, status_after (ev_type e) s) es (ob_status b) else ob_status b.

Lemma reduce_all_run pmid es o w :
  healthy o → outbox_ok (w_db w) →
  ∃ w', reduce_all pmid es o w = (Ok tt, w') ∧ outbox_ok (w_db w')
    ∧ ∀ k, ob_status <$> outbox (w_db w') !! k = final_status pmid es <$> outbox (w_db w) !! k.
Proof.
  intros Ho. revert w. induction es as [|e es IH]; intros w Hok.
  - exists w. do 2 (split; [done|]). intros k. destruct (outbox (w_db w) !! k) as [b|]; [|done]. simpl.
    unfold final_status. by destruct (bool_decide _).
  - destruct (reduceEvent_run pmid (ev_type e) (ev_occurred_at e) o w Ho Hok) as (f & w1 & E & Hd & Hok1 & Hf).
    cbn [reduce_all]. rewrite bindE_run, E. cbn [fst snd].
    destruct (IH w1 Hok1) as (w2 & -> & Hok2 & Hst). exists w2. do 2 (split; [done|]).
    intros k. rewrite Hst, Hd. rsimp. rewrite lookup_update_where.
    destruct (outbox (w_db w) !! k) as [b|] eqn:Ek; [|done]. simpl. f_equal.
    unfold of_message. destruct (bool_decide (ob_provider_message_id b = Some pmid)) eqn:Em.
    + assert (ob_status b ≠ pending) as Hb.
      { intros Hb. pose proof (Hok k b Ek) as [_ Hn]. rewrite Hn in Em; done. }
      destruct (Hf b Hb) as [H1 H2]. unfold final_status. rewrite H2, Em. simpl. by rewrite H1.
    + unfold final_status. by rewrite Em.
Qed.

Lemma fold_status_perm (es es' : list event_row) s :
  es ≡ₚ es' → s ≠ pending →
  fold_left (λ s e, status_after (ev_type e) s) es s
  = fold_left (λ s e, status_after (ev_type e) s) es' s.
Proof.
  intros Hp. revert s. induction Hp as [|e l l' _ IH|e1 e2 l|l1 l2 l3 _ IH1 _ IH2]; intros s Hs; simpl.
  - done.
  - apply IH. by apply status_after_not_pending.
  - by rewrite status_after_comm.
  - by rewrite IH1, IH2.
Qed.

Lemma fold_status_failed es : fold_left (λ s e, status_after (ev_type e) s) es failed = failed.
Proof. induction es as [|e es IH]; [done|]. simpl. unfold status_after at 2. by destruct (event_kind_of _). Qed.

(** C39. Provider events are unordered: applying the same delivery events in
    any two orders, at any clocks, leaves every row with the same status; and
    a failed message stays failed whatever arrives after. *)
Theorem events_order_irrelevant pmid es es' o o' w :
  healthy o → healthy o' → outbox_ok (w_db w) → es ≡ₚ es' →
  ∃ w1 w2, reduce_all pmid es o w = (Ok tt, w1) ∧ reduce_all pmid es' o' w = (Ok tt, w2)
    ∧ ∀ k, ob_status <$> outbox (w_db w1) !! k = ob_status <$> outbox (w_db w2) !! k
           ∧ (ob_status <$> outbox (w_db w) !! k = Some failed →
              ob_status <$> outbox (w_db w1) !! k = Some failed).
Proof.
  intros Ho Ho' Hok Hp.
  destruct (reduce_all_run pmid es o w Ho Hok) as (w1 & E1 & _ & H1).
  destruct (reduce_all_run pmid es' o' w Ho' Hok) as (w2 & E2 & _ & H2).
  exists w1, w2. split_and!; [done..|]. intros k. rewrite H1, H2.
  destruct (outbox (w_db w) !! k) as [b|] eqn:Ek; [|done]. simpl. unfold final_status.
  destruct (bool_decide _) eqn:Em; [|done]. split.
  - f_equal. apply fold_status_perm; [done|]. intros Hb. apply bool_decide_eq_true in Em.
    pose proof (Hok k b Ek) as [_ Hn]. by rewrite Hn in Em.
  - intros [= ->]. by rewrite fold_status_failed.
Qed.

Definition toy_job (st : job_status) (pmid : option string) : outbox_row :=
  MkOutbox "u1" None "resend" PurposeReset "ana@x.com" "no-reply@x.com" "subject"
    (Some "k") None None st 1 0 None None pmid None Hour 0 0 None None None None None.
Definition toy_outbox (st : job_status) : db :=
  empty_db <| outbox := {["j1" := toy_job st (Some "m1")]} |>.
Definition ev (typ : string) (t : Z) : event_row := MkEvent typ "m1" typ t t.

Lemma toy_outbox_ok st : st ≠ pending → outbox_ok (toy_outbox st).
Proof. intros Hst k b. unfold toy_outbox. simpl. intros [<- <-]%lookup_singleton_Some. by split. Qed.

Lemma events_order_irrelevant_witness :
  ∃ w1 w2,
    reduce_all "m1" [ev "email.delivered" 1; ev "email.complained" 2] (oracle_at 5)
      (world_of (toy_outbox accepted)) = (Ok tt, w1)
    ∧ reduce_all "m1" [ev "email.complained" 2; ev "email.delivered" 1] (oracle_at 6)
      (world_of (toy_outbox accepted)) = (Ok tt, w2)
    ∧ ob_status <$> outbox (w_db w1) !! "j1" = ob_status <$> outbox (w_db w2) !! "j1".
Proof.
  destruct (events_order_irrelevant "m1" [ev "email.delivered" 1; ev "email.complained" 2]
    [ev "email.complained" 2; ev "email.delivered" 1] (oracle_at 5) (oracle_at 6)
    (world_of (toy_outbox accepted))) as (w1 & w2 & H1 & H2 & H);
    [apply oracle_at_healthy..|by apply toy_outbox_ok|apply perm_swap|].
  exists w1, w2. split_and!; [done..|]. apply H.
Defined.

(** ** Replays *)

(** Replay protection: once an event is stored, every later delivery
    with the same svix id, whatever its content and whatever the database
    answers, changes nothing: it is acknowledged as not applied or fails. *)
Theorem replayed_event_is_inert svixID pmid typ at_ o w :
  existsb (seen_event svixID) (events (w_db w)) = true →
  let r := RecordProviderEvent svixID pmid typ at_ o w in
  w_db (snd r) = w_db w ∧ (fst r = Ok false ∨ fst r = Err EDb).
Proof.
  intros Hs r. unfold r, RecordProviderEvent. rewrite bindE_run. unfold exec, exec_pool.
  unfold sql_insert_event. rewrite Hs. by destruct (o_outcome o (w_step w)); simpl; auto.
Qed.

Lemma replayed_event_is_inert_witness :
  let d := empty_db <| events := [MkEvent "msg_1" "m1" "email.bounced" 1 2] |> in
  let r := RecordProviderEvent "msg_1" "m1" "email.delivered" 3 (oracle_at 9) (world_of d) in
  w_db (snd r) = d.
Proof. intros d r. apply (replayed_event_is_inert "msg_1" "m1" "email.delivered" 3 (oracle_at 9) (world_of d)). by vm_compute. Defined.

(** An event whose reduction fails is lost: when the insert of a bounce
    is applied and the update of the outbox row is refused, the endpoint
    reports an error, and the provider's retry of that delivery is taken for
    a replay, so the row never becomes 'failed'. *)
Theorem failed_reduction_is_not_retried :
  let o := MkOracle (λ i, if (i =? 1)%nat then Refused else Applied) (λ _, 9) (λ _, 9)
             (λ _ _, zero_byte) (λ _ k, k) (λ _ n, n) in
  let '(r1, w1) := RecordProviderEvent "msg_1" "m1" "email.bounced" 3 o
                     (world_of (toy_outbox accepted)) in
  let '(r2, w2) := RecordProviderEvent "msg_1" "m1" "email.bounced" 3 (oracle_at 10) w1 in
  r1 = Err EDb ∧ r2 = Ok false ∧ ob_status <$> outbox (w_db w2) !! "j1" = Some accepted.
Proof. by vm_compute. Qed.

(** ** Leases *)

(** A lost lease is inert: a worker whose lease token is no longer the
    one on the row cannot change anything, whatever outcome it reports and
    whatever the database answers; it gets [ErrLeaseLost] or an error. *)
Theorem stale_lease_is_inert id lease out o w :
  (∀ b, outbox (w_db w) !! id = Some b → ob_lease_token b ≠ Some lease) →
  let r := Finalize id lease out o w in
  w_db (snd r) = w_db w ∧ (fst r = Err ELeaseLost ∨ fst r = Err EDb).
Proof.
  intros Hb r. unfold r, Finalize. rewrite bindE_run. unfold exec, exec_pool, sql_finalize.
  destruct (outbox (w_db w) !! id) as [b|].
  - unfold finalizes, holds_lease. rewrite bool_decide_false by by apply Hb.
    by destruct (o_outcome o (w_step w)); simpl; auto.
  - by destruct (o_outcome o (w_step w)); simpl; auto.
Qed.

Lemma stale_lease_is_inert_witness :
  w_db (snd (Finalize "j1" "old-lease" (OutcomeFailed "x") (oracle_at 5)
    (world_of (toy_outbox accepted)))) = toy_outbox accepted.
Proof.
  apply (stale_lease_is_inert "j1" "old-lease" (OutcomeFailed "x") (oracle_at 5)
    (world_of (toy_outbox accepted))).
  intros b. unfold toy_outbox. simpl. intros [_ <-]%lookup_singleton_Some. discriminate.
Defined.

(** ** Queueing *)
Lemma rand_bytes_lit n o d t i rs m :
  ∃ b, rand_bytes n o (MkWorld d t i rs m) = (b, MkWorld d t (S i) rs m)
       ∧ String.length b = n.
Proof. eexists. split; [reflexivity|]. by rewrite string_of_list_ascii_length, length_map, length_seq. Qed.

Lemma sql_insert_job_inv id row now d x d' :
  sql_insert_job id row now d = Some (x, d') →
  outbox d !! id = None ∧ is_Some (users d !! ob_user_id (row now))
  ∧ d' = d <| outbox := <[id := row now]> (outbox d) |>.
Proof.
  unfold sql_insert_job. destruct (outbox d !! id); [done|].
  destruct (users d !! _) eqn:E; [|done]. destruct (ob_token_id _) as [t|];
    [destruct (bool_decide _); [|done]|]; intros [= <- <-]; by eauto.
Qed.

Lemma QueueTx_run kr q o d d0 nw i rs m w' :
  healthy o →
  QueueTx kr q o (MkWorld d (Some (MkTxn d0 false nw)) i rs m) = (Ok tt, w') →
  ∃ id keyID nonce ct i',
    outbox d0 !! id = None ∧ is_Some (users d0 !! q_UserID q)
    ∧ Decrypt kr keyID nonce ct (payloadAAD id (q_Provider q) (purpose_str (q_Purpose q)))
      = Ok (q_Body q)
    ∧ w' = MkWorld d (Some (MkTxn (d0 <| outbox :=
             <[id := new_job q keyID nonce ct nw]>
               (update_where (superseded_by (q_UserID q) (q_Purpose q))
                 (λ b, (unlease (erase b)) <| ob_status := canceled |> <| ob_canceled_at := Some nw |>
                         <| ob_updated_at := nw |> <| ob_last_error := Some reasonSuperseded |>)
                 (outbox d0)) |>) false nw)) i' rs m.
Proof.
  intros Ho. unfold QueueTx, Encrypt. run Ho. clear Hid.
  destruct (aeads kr !! activeID kr) as [key|] eqn:Ek; [|done].
  rewrite bind_run. destruct (rand_bytes_lit nonceSize o d (Some (MkTxn d0 false nw)) (S (S i)) rs m)
    as (nonce & -> & Hn). run Ho.
  rewrite (exec_Tx_run _ Ho). destruct (sql_insert_job _ _ _ _) as [[[] d2]|] eqn:Ej; [|done].
  apply sql_insert_job_inv in Ej as (Hn2 & Hu & ->). intros [= <-]. revert Hn2. rsimp.
  rewrite lookup_update_where, fmap_None. intros Hn2.
  eexists id, _, nonce, _, _. split_and!; [done|done| |reflexivity].
  unfold Decrypt. by rewrite Ek, Hn, gcm_Open_Seal.
Qed.

(** One live mail per user and purpose: after an acknowledged [QueueTx]
    the transaction sees exactly one pending job of that user and purpose,
    its payload opens under the keyring to the body, and every job it
    superseded is canceled without payload; other jobs are as before. *)
Theorem QueueTx_supersedes kr q o w t w' :
  healthy o → w_tx w = Some t → tx_aborted t = false →
  QueueTx kr q o w = (Ok tt, w') →
  ∃ id t', w_tx w' = Some t' ∧ tx_aborted t' = false ∧ w_db w' = w_db w ∧
    (∀ k b, outbox (tx_db t') !! k = Some b →
      superseded_by (q_UserID q) (q_Purpose q) k b = true → k = id) ∧
    (∃ b, outbox (tx_db t') !! id = Some b ∧ ob_status b = pending ∧
      Decrypt kr (default "" (ob_key_id b)) (default "" (ob_nonce b)) (default "" (ob_ciphertext b))
        (payloadAAD id (ob_provider b) (purpose_str (ob_purpose b))) = Ok (q_Body q)) ∧
    (∀ k b, outbox (tx_db t) !! k = Some b → k ≠ id →
      ∃ b', outbox (tx_db t') !! k = Some b' ∧
        if superseded_by (q_UserID q) (q_Purpose q) k b
        then ob_status b' = canceled ∧ ob_nonce b' = None ∧ ob_ciphertext b' = None
        else b' = b).
Proof.
  intros Ho Ht Ha. destruct w as [d tx i rs m], t as [d0 ab nw]. simpl in Ht, Ha. subst tx ab.
  intros (id & keyID & nonce & ct & i' & Hid & Hu & HD & ->)%QueueTx_run; [|done].
  exists id. eexists. split; [reflexivity|]. split_and!; [done|done| | |].
  - intros k b. rsimp. rewrite lookup_insert. case_decide; [done|]. rewrite lookup_update_where.
    intros (b0 & Hb0 & ->)%fmap_Some.
    destruct (superseded_by _ _ k b0) eqn:Es; [|congruence]. unfold superseded_by. rsimp.
    rewrite !andb_true_iff. intros [_ Hp]. by apply is_pending_true in Hp.
  - eexists. rsimp. rewrite lookup_insert_eq. split; [reflexivity|]. split; [done|]. exact HD.
  - intros k b Hk Hne. rsimp. rewrite lookup_insert_ne by done. rewrite lookup_update_where, Hk.
    eexists. split; [reflexivity|]. simpl. by destruct (superseded_by _ _ k b).
Qed.

Definition toy_input : QueueInput :=
  MkQueueInput "u1" "" "ana@x.com" "no-reply@x.com" "s" "the link" PurposeReset "resend" Hour.
Definition toy_queue_db : db :=
  empty_db <| users := {["u1" := MkUser "ana@x.com" true None None None 0 0 [] false]} |>
           <| outbox := {["j0" := toy_job pending None]} |>.

Lemma QueueTx_supersedes_witness :
  ∃ w' t', QueueTx toy_keyring toy_input (oracle_at 5)
      (MkWorld toy_queue_db (Some (MkTxn toy_queue_db false 5)) 0 no_response ∅) = (Ok tt, w')
    ∧ w_tx w' = Some t'
    ∧ ∃ b, outbox (tx_db t') !! "j0" = Some b ∧ ob_status b = canceled.
Proof.
  set (w := MkWorld toy_queue_db (Some (MkTxn toy_queue_db false 5)) 0 no_response ∅).
  assert (∃ w', QueueTx toy_keyring toy_input (oracle_at 5) w = (Ok tt, w')) as [w' E]
    by (eexists; vm_compute; reflexivity).
  destruct (QueueTx_supersedes toy_keyring toy_input (oracle_at 5) w (MkTxn toy_queue_db false 5) w'
    (oracle_at_healthy 5) eq_refl eq_refl E) as (id & t' & Ht' & _ & _ & _ & (b1 & Hb1 & Hp1 & _) & Hold).
  exists w', t'. split; [exact E|]. split; [exact Ht'|].
  destruct (decide ("j0" = id)) as [<-|Hne].
  - exfalso. revert E Ht' Hb1 Hp1. vm_compute. intros [= <-] [= <-] [= <-]. discriminate.
  - destruct (Hold "j0" (toy_job pending None)) as (b' & Hb' & Hc); [by vm_compute|done|].
    exists b'. split; [exact Hb'|]. apply Hc.
Defined.

(** ** Claiming *)
Definition retire_db (ids : list string) (st : job_status) (r : string) (nw : Z) (d : db) : db :=
  d <| outbox := update_where (any_of ids) (retired st r nw) (outbox d) |>.

Lemma any_of_spec ids k b : any_of ids k b = true ↔ k ∈ ids.
Proof.
  unfold any_of. rewrite existsb_exists. split.
  - intros (x & Hx & ->%str_eqb_true). by apply list_elem_of_In.
  - intros Hk. exists k. split; [by apply list_elem_of_In|apply str_eqb_refl].
Qed.

Lemma retire_lit ids st r o d d0 nw i rs m :
  healthy o →
  ∃ i', retire ids st r o (MkWorld d (Some (MkTxn d0 false nw)) i rs m)
        = (Ok tt, MkWorld d (Some (MkTxn (retire_db ids st r nw d0) false nw)) i' rs m).
Proof.
  intros Ho. destruct ids as [|k ids]; simpl.
  - exists i. unfold retire_db. rewrite update_where_none by done. by destruct d0.
  - exists (S i). by run Ho.
Qed.

Ltac retire_step Ho :=
  match goal with
  | |- context [retire ?ids ?st ?r ?o (MkWorld ?d (Some (MkTxn ?d0 false ?nw)) ?i ?rs ?m)] =>
      let j := fresh "i" in let E := fresh in
      destruct (retire_lit ids st r o d d0 nw i rs m Ho) as [j E]; rewrite E; clear E; cbn [fst snd]
  end.

Definition lease_db (uuid : string → string) (ids : list string) (nw : Z) (d : db) : db :=
  d <| outbox := map_imap (λ id b, Some (if any_of ids id b then leased nw (uuid id) b else b))
                   (outbox d) |>.

Lemma retire_db_nil st r nw d : retire_db [] st r nw d = d.
Proof. unfold retire_db. rewrite update_where_none by done. by destruct d. Qed.
Lemma lease_db_nil uuid nw d : lease_db uuid [] nw d = d.
Proof.
  unfold lease_db. simpl. assert (map_imap (λ _ b, Some b) (outbox d) = outbox d) as ->.
  { apply map_eq. intros k. rewrite map_lookup_imap. by destruct (outbox d !! k). }
  by destruct d.
Qed.

Lemma lease_db_lookup uuid ids nw d k :
  outbox (lease_db uuid ids nw d) !! k
  = (λ b, if any_of ids k b then leased nw (uuid k) b else b) <$> outbox d !! k.
Proof.
  unfold lease_db, set. cbn [outbox]. rewrite map_lookup_imap. by destruct (outbox d !! k).
Qed.

(** What a claim hands out for a leased row. *)
Definition job_for (nw : Z) (uuid : string → string) (c : claimed) (b : outbox_row) : Job :=
  MkJob (cl_id c) (ob_user_id (cl_row c)) (ob_provider (cl_row c)) (ob_purpose (cl_row c))
    (ob_attempt_count b + 1) (uuid (cl_id c)) (nw + LeaseDuration) (ob_send_before (cl_row c))
    (ob_recipient (cl_row c)) "" (ob_subject (cl_row c)) "".

Lemma lease_jobs_lit le o d d0 nw i rs m :
  healthy o →
  ∃ uuid i' jobs, lease_jobs le o (MkWorld d (Some (MkTxn d0 false nw)) i rs m)
      = (Ok jobs, MkWorld d (Some (MkTxn (lease_db uuid (map cl_id le) nw d0) false nw)) i' rs m)
    ∧ map fst jobs = le
    ∧ Forall (λ cj, ∀ b, outbox d0 !! cl_id (fst cj) = Some b →
        snd cj = job_for nw uuid (fst cj) b) jobs.
Proof.
  intros Ho. destruct le as [|c0 le0].
  - exists id, i, []. simpl. by rewrite lease_db_nil.
  - unfold lease_jobs. set (le := c0 :: le0). run Ho. unfold tick. cbn [fst snd].
    change ((MkWorld d (Some (MkTxn d0 false nw)) i rs m) <| w_step := S (w_step
      (MkWorld d (Some (MkTxn d0 false nw)) i rs m)) |>)
      with (MkWorld d (Some (MkTxn d0 false nw)) (S i) rs m). cbn [w_step]. run Ho.
    exists (o_dbuuid o i), (S (S i)). eexists. split; [reflexivity|]. split.
    + rewrite map_map. by rewrite <-(map_id le) at 2.
    + clearbody le. apply Forall_forall. intros cj (c & <- & Hc)%list_elem_of_In%in_map_iff b Hb.
      cbn [fst snd] in *. unfold job_of. rewrite !map_lookup_imap, Hb. simpl.
      assert (any_of (map cl_id le) (cl_id c) b = true) as Ha.
      { apply any_of_spec, list_elem_of_In, in_map_iff. by exists c. }
      rewrite Ha. simpl.
      assert (any_of (map cl_id le) (cl_id c) (leased nw (o_dbuuid o i (cl_id c)) b) = true) as Ha2
        by exact Ha.
      by rewrite Ha2.
Qed.

(** What [Claim]'s transaction leaves before leasing. *)
Definition retired_db (now nw : Z) (cs : list claimed) (d : db) : db :=
  retire_db (ids_of Dead now cs) canceled reasonTokenInactive nw
    (retire_db (ids_of Exhausted now cs) failed reasonMaxAttempts nw
      (retire_db (ids_of Expired now cs) expired reasonSendWindowElapsed nw d)).

Lemma claim_tx_run provider locked limit o d t i rs m jobs rt w' :
  healthy o →
  claim_tx provider locked limit o (MkWorld d t i rs m) = (Ok (jobs, rt), w') →
  let nw := o_dbclock o i in
  let now := o_clock o (S (S i)) in
  let cs := candidates provider locked limit nw d in
  let le := List.filter (is_verdict Leasable now) cs in
  let d1 := retired_db now nw cs d in
  ∃ uuid i', map fst jobs = le
    ∧ w' = MkWorld (lease_db uuid (map cl_id le) nw d1) None i' rs m
    ∧ Forall (λ cj, ∀ b, outbox d1 !! cl_id (fst cj) = Some b →
        snd cj = job_for nw uuid (fst cj) b) jobs.
Proof.
  intros Ho. unfold claim_tx, with_tx. run Ho. cbv zeta.
  set (nw := o_dbclock o i). set (now := o_clock o (S (S i))).
  set (cs := candidates provider locked limit nw d). clearbody cs.
  destruct (existsb _ cs); [done|]. destruct cs as [|c0 cs0].
  { intros [= <- _ <-]. exists id, (S (S i)). split_and!; [done| |constructor]. run Ho.
    unfold retired_db. simpl. by rewrite lease_db_nil, !retire_db_nil. }
  set (cs := c0 :: cs0). clearbody cs. run Ho. fold now.
  do 3 retire_step Ho.
  fold (retired_db now nw cs d). set (d1 := retired_db now nw cs d).
  set (le := List.filter (is_verdict Leasable now) cs). clearbody le.
  destruct (lease_jobs_lit le o d d1 nw i2 rs m Ho) as (uuid & i' & js & -> & Hjs & Hf). cbn [fst snd]. run Ho.
  intros [= <- _ <-]. by exists uuid, (S i').
Qed.

(** *** Frames *)
Lemma count_metric_db {A} (l : list A) n : preserves (sees w_db) (count_metric l n).
Proof. induction l; simpl; solve_preserves. Qed.

Lemma Finalize_failed_frame id lease c o w k :
  k ≠ id →
  outbox (w_db (snd (Finalize id lease (OutcomeFailed c) o w))) !! k = outbox (w_db w) !! k.
Proof.
  intros Hk. unfold Finalize. rewrite bindE_run.
  assert (outbox (w_db (snd (exec Pool (sql_finalize id lease (OutcomeFailed c)) o w))) !! k
          = outbox (w_db w) !! k) as HE.
  { apply (exec_pool_db (λ d, outbox d !! k = outbox (w_db w) !! k)); [done|].
    intros now a d. unfold sql_finalize. destruct (outbox (w_db w) !! id); [|by intros [= _ <-]].
    destruct (finalizes _ _ _); intros [= _ <-]; [|done]. by unfold set; simpl; rewrite lookup_insert_ne. }
  revert HE. case_exec x w1 Ex. intros HE. destruct x as [n|]; [|done]. by destruct (n =? 0).
Qed.

Definition decrypt_row kr (id provider : string) (p : Purpose) (b : outbox_row) : res err string :=
  Decrypt kr (default "" (ob_key_id b)) (default "" (ob_nonce b)) (default "" (ob_ciphertext b))
    (payloadAAD id provider (purpose_str p)).

Lemma open_jobs_spec kr l o w :
  NoDup (map (λ cj, j_ID (snd cj)) l) →
  (∀ k, k ∉ map (λ cj, j_ID (snd cj)) l →
     outbox (w_db (snd (open_jobs kr l o w))) !! k = outbox (w_db w) !! k) ∧
  sublist (map j_ID (fst (open_jobs kr l o w))) (map (λ cj, j_ID (snd cj)) l) ∧
  ∀ j, j ∈ fst (open_jobs kr l o w) → ∃ c job, (c, job) ∈ l ∧ j = with_body job (j_Body j)
     ∧ decrypt_row kr (j_ID job) (j_Provider job) (j_Purpose job) (cl_row c) = Ok (j_Body j)
     ∧ outbox (w_db (snd (open_jobs kr l o w))) !! j_ID j = outbox (w_db w) !! j_ID j.
Proof.
  revert w. induction l as [|[c job] l IH]; intros w; simpl.
  { intros _. split_and!; [done|constructor|by intros j ?%elem_of_nil]. }
  intros [Hn Hnd]%NoDup_cons. fold (decrypt_row kr (j_ID job) (j_Provider job) (j_Purpose job) (cl_row c)).
  destruct (decrypt_row _ _ _ _ _) as [body|e] eqn:Ed.
  - rewrite bind_run. cbn [fst snd mret M_ret]. destruct (IH w Hnd) as (Hf & Hsub & Hj).
    split_and!.
    + intros k [? ?]%not_elem_of_cons. by apply Hf.
    + by constructor.
    + intros j [->|Hin]%elem_of_cons.
      * exists c, job. split_and!; [left|done|done|]. by apply Hf.
      * destruct (Hj j Hin) as (c' & job' & ? & ? & ? & ?). exists c', job'.
        split_and!; [by right|done..].
  - rewrite !bind_run. cbn [fst snd]. set (w1 := snd (Finalize _ _ _ _ _)).
    destruct (IH w1 Hnd) as (Hf & Hsub & Hj).
    assert (∀ k, k ≠ j_ID job → outbox (w_db w1) !! k = outbox (w_db w) !! k) as Hw1
      by (intros k Hk; unfold w1; by rewrite Finalize_failed_frame).
    split_and!.
    + intros k [? ?]%not_elem_of_cons. by rewrite Hf, Hw1.
    + by apply sublist_cons.
    + intros j Hin. destruct (Hj j Hin) as (c' & job' & Hl & Hb & Hd & Ho).
      exists c', job'. split_and!; [by right|done..|]. rewrite Ho. apply Hw1.
      rewrite Hb. intros E. apply Hn, list_elem_of_In, in_map_iff. exists (c', job').
      split; [exact E|by apply list_elem_of_In].
Qed.

(** *** Candidates *)
Lemma select_where_NoDup {K R} `{Countable K} (q : K → R → bool) (m : gmap K R) :
  NoDup (map fst (select_where q m)).
Proof.
  unfold select_where. pose proof (NoDup_fst_map_to_list m) as Hn.
  induction (map_to_list m) as [|[k r] l IH]; [constructor|].
  apply NoDup_cons in Hn as [Hk Hn]. rewrite filter_cons. case_decide; [|by apply IH].
  simpl. constructor; [|by apply IH]. intros ([k' r'] & E & Hin)%list_elem_of_fmap. simpl in E. subst k'.
  apply Hk. apply list_elem_of_filter in Hin as [_ Hin]. apply list_elem_of_fmap. by exists (k, r').
Qed.

Lemma candidates_ids p locked n now d :
  NoDup (map cl_id (candidates p locked n now d)).
Proof.
  unfold candidates. rewrite map_map. simpl.
  apply (sublist_NoDup _ (map fst (merge_sort available_before
    (select_where (claimable p locked now) (outbox d))))).
  - eapply NoDup_Permutation_proper; [|apply (select_where_NoDup (claimable p locked now) (outbox d))].
    apply fmap_Permutation, merge_sort_Permutation.
  - apply fmap_sublist, sublist_take.
Qed.

Lemma candidates_spec p locked n now d c :
  c ∈ candidates p locked n now d →
  outbox d !! cl_id c = Some (cl_row c) ∧ claimable p locked now (cl_id c) (cl_row c) = true
  ∧ cl_hasToken c = bool_decide (is_Some (ob_token_id (cl_row c)))
  ∧ cl_tokenLive c = token_live d now (cl_row c).
Proof.
  unfold candidates. intros ([k b] & -> & Hin)%list_elem_of_fmap. simpl.
  assert ((k, b) ∈ select_where (claimable p locked now) (outbox d)) as H2.
  { rewrite <-(merge_sort_Permutation available_before).
    eapply elem_of_sublist; [exact Hin|apply sublist_take]. }
  apply elem_of_select_where in H2 as [? ?]. done.
Qed.

Lemma classify_leasable now c :
  is_verdict Leasable now c = true →
  now < ob_send_before (cl_row c) ∧ ob_attempt_count (cl_row c) < MaxAttempts
  ∧ (cl_hasToken c = true → cl_tokenLive c = true).
Proof.
  unfold is_verdict, classify. destruct (_ <=? now) eqn:E1; [done|].
  destruct (MaxAttempts <=? _) eqn:E2; [done|]. destruct (cl_hasToken c && _) eqn:E3; [done|].
  zb. intros _. split_and!; [done..|]. intros Ht. rewrite Ht in E3. simpl in E3.
  by apply negb_false_iff.
Qed.

Lemma classify_unique v v' now c :
  is_verdict v now c = true → is_verdict v' now c = true → v = v'.
Proof. unfold is_verdict. by destruct v, v', (classify now c). Qed.

Lemma filter_sublist' {A} (q : A → bool) l : List.filter q l `sublist_of` l.
Proof. induction l as [|x l IH]; simpl; [constructor|]. destruct (q x); by constructor. Qed.

(** A leasable row is not among those retired in the same claim. *)
Lemma retired_db_leasable now nw cs d c :
  NoDup (map cl_id cs) → c ∈ cs → is_verdict Leasable now c = true →
  outbox (retired_db now nw cs d) !! cl_id c = outbox d !! cl_id c.
Proof.
  intros Hnd Hc Hv.
  assert (∀ v b, v ≠ Leasable → any_of (ids_of v now cs) (cl_id c) b = false) as Hne.
  { intros v b Hvl. destruct (any_of _ _ _) eqn:E; [|done]. exfalso. apply Hvl.
    apply any_of_spec in E as (c' & Hid & [Hc'%list_elem_of_In Hv']%list_elem_of_In%filter_In)%list_elem_of_fmap.
    assert (c = c') as <- by (eapply NoDup_map_inj; eauto).
    by eapply classify_unique. }
  unfold retired_db, retire_db. cbn. unfold set. cbn.
  rewrite !lookup_update_where. destruct (outbox d !! cl_id c) as [b|]; [|done]. cbn.
  by rewrite (Hne Expired), (Hne Exhausted), (Hne Dead).
Qed.

(** What makes a job deliverable at the moment it is claimed. *)
Record deliverable (d : db) (provider : string) (locked : string → bool) (nw now : Z)
    (id : string) (b : outbox_row) : Prop := {
  del_row : outbox d !! id = Some b;
  del_pending : ob_status b = pending;
  del_provider : ob_provider b = provider;
  del_available : ob_available_at b ≤ nw;
  del_unleased : match ob_lease_until b with Some t => t ≤ nw | None => True end;
  del_unlocked : locked id = false;
  del_window : now < ob_send_before b;
  del_attempts : ob_attempt_count b < MaxAttempts;
  del_token : ∀ t, ob_token_id b = Some t → token_live d nw b = true
}.

Lemma candidate_deliverable d p locked n nw now c :
  c ∈ candidates p locked n nw d → is_verdict Leasable now c = true →
  deliverable d p locked nw now (cl_id c) (cl_row c).
Proof.
  intros (Hrow & Hcl & Ht & Hl)%candidates_spec (Hw & Ha & Htok)%classify_leasable.
  unfold claimable in Hcl. rewrite !andb_true_iff in Hcl.
  destruct Hcl as [[[[Hp Hpr] Hav] Hle] Hlo]. zb.
  split; [done|by apply is_pending_true|by apply str_eqb_true|done| |done|done|done|].
  - destruct (ob_lease_until (cl_row c)); [by apply Z.leb_le|done].
  - intros t Et. rewrite <-Hl. apply Htok. rewrite Ht, Et. by apply bool_decide_eq_true.
Qed.

Lemma leased_lookup uuid now nw cs d c :
  NoDup (map cl_id cs) → c ∈ cs → is_verdict Leasable now c = true → outbox d !! cl_id c = Some (cl_row c) →
  outbox (lease_db uuid (map cl_id (List.filter (is_verdict Leasable now) cs)) nw (retired_db now nw cs d)) !! cl_id c
  = Some (leased nw (uuid (cl_id c)) (cl_row c)).
Proof.
  intros Hnd Hc Hv Hrow. rewrite lease_db_lookup, retired_db_leasable, Hrow by done.
  cbn [fmap option_fmap option_map]. rewrite (proj2 (any_of_spec _ _ _)); [done|].
  apply list_elem_of_fmap. exists c. split; [done|]. apply list_elem_of_In, filter_In.
  by rewrite <-list_elem_of_In.
Qed.

(** The job a row gives: its account, address and subject, its lease, one
    more attempt; the sender's own address is not read back. *)
Definition job_from (nw : Z) (id tok : string) (b : outbox_row) (body : string) : Job :=
  MkJob id (ob_user_id b) (ob_provider b) (ob_purpose b) (ob_attempt_count b + 1) tok (nw + LeaseDuration)
    (ob_send_before b) (ob_recipient b) "" (ob_subject b) body.

Lemma Claim_jobs kr provider locked limit o w jobs w' :
  healthy o → Claim kr provider locked limit o w = (Ok jobs, w') →
  let nw := o_dbclock o (w_step w) in
  let now := o_clock o (S (S (w_step w))) in
  NoDup (map j_ID jobs) ∧ (length jobs ≤ limit)%nat ∧
  ∀ j, j ∈ jobs → ∃ b tok,
    deliverable (w_db w) provider locked nw now (j_ID j) b
    ∧ decrypt_row kr (j_ID j) (ob_provider b) (ob_purpose b) b = Ok (j_Body j)
    ∧ j = job_from nw (j_ID j) tok b (j_Body j)
    ∧ outbox (w_db w') !! j_ID j = Some (leased nw tok b).
Proof.
  intros Ho. destruct w as [d t i rs m]. cbn [w_db w_step]. unfold Claim. rewrite bindE_run.
  destruct (claim_tx provider locked limit o _) as [[[js [[ex xh] de]]|] w1] eqn:EC; [|done].
  cbn [fst snd]. destruct (claim_tx_run _ _ _ _ _ _ _ _ _ _ _ _ Ho EC) as (uuid & i' & Hfst & Hw1 & Hjobs).
  set (nw := o_dbclock o i) in *. set (now := o_clock o (S (S i))) in *.
  set (cs := candidates provider locked limit nw d) in *.
  set (d1 := retired_db now nw cs d) in *.
  rewrite !bind_run. set (w2 := snd (count_metric de _ o _)).
  assert (w_db w2 = lease_db uuid (map cl_id (List.filter (is_verdict Leasable now) cs)) nw d1) as Hd2.
  { unfold w2. rewrite !count_metric_db. by rewrite Hw1. }
  clearbody w2. clear EC Hw1. intros [= <- <-].
  pose proof (candidates_ids provider locked limit nw d) as Hnd. fold cs in Hnd.
  assert (Hle : ∀ c, c ∈ map fst js → c ∈ cs ∧ is_verdict Leasable now c = true).
  { intros c. rewrite Hfst. intros [? ?]%list_elem_of_In%filter_In. by rewrite list_elem_of_In. }
  assert (Hjob : ∀ c job, (c, job) ∈ js →
     outbox d !! cl_id c = Some (cl_row c) ∧ c ∈ cs ∧ is_verdict Leasable now c = true
     ∧ job = job_for nw uuid c (cl_row c)).
  { intros c job Hin. destruct (Hle c) as [Hc Hv]; [apply list_elem_of_fmap; by exists (c, job)|].
    pose proof (candidates_spec _ _ _ _ _ _ Hc) as (Hrow & _). split_and!; [done..|].
    rewrite Forall_forall in Hjobs. apply (Hjobs _ Hin). cbn [fst snd]. unfold d1.
    by rewrite retired_db_leasable. }
  assert (Hids : map (λ cj, j_ID (snd cj)) js = map cl_id (List.filter (is_verdict Leasable now) cs)).
  { rewrite <-Hfst, map_map. apply map_ext_in. intros [c job] Hin. simpl.
    destruct (Hjob c job) as (_ & _ & _ & ->); [by apply list_elem_of_In|done]. }
  assert (Hnd2 : NoDup (map (λ cj, j_ID (snd cj)) js)).
  { rewrite Hids. eapply sublist_NoDup; [exact Hnd|]. apply fmap_sublist, filter_sublist'. }
  destruct (open_jobs_spec kr js o w2 Hnd2) as (_ & Hsub & Hj). split_and!.
  - by eapply sublist_NoDup.
  - rewrite <-(length_map j_ID). etrans; [by apply sublist_length|]. rewrite Hids, length_map.
    etrans; [apply sublist_length, filter_sublist'|]. unfold cs, candidates. rewrite length_map, length_take. lia.
  - intros j Hin. destruct (Hj j Hin) as (c & job & Hcj & Hb & Hdec & Hout).
    destruct (Hjob c job Hcj) as (Hrow & Hc & Hv & ->). exists (cl_row c), (uuid (cl_id c)).
    rewrite Hb in *. cbn [j_ID j_Provider j_Purpose j_Body with_body job_for] in *.
    split_and!; [by eapply candidate_deliverable|exact Hdec|done|]. rewrite Hout, Hd2. by apply leased_lookup.
Qed.

(** C5. What a worker is handed: every job [Claim] returns was deliverable
    (pending, of this provider, due, not leased by a live worker nor locked,
    inside its send window, below the attempt ceiling, its link still live),
    it is the row's job with the decrypted body and a lease the row now
    carries, with one more attempt, at most [MaxAttempts]; jobs are distinct
    and at most [limit]. *)
Theorem Claim_sound kr provider locked limit o w jobs w' :
  healthy o → Claim kr provider locked limit o w = (Ok jobs, w') →
  let nw := o_dbclock o (w_step w) in
  let now := o_clock o (S (S (w_step w))) in
  NoDup (map j_ID jobs) ∧ (length jobs ≤ limit)%nat ∧
  ∀ j, j ∈ jobs → ∃ b tok,
    deliverable (w_db w) provider locked nw now (j_ID j) b
    ∧ decrypt_row kr (j_ID j) (ob_provider b) (ob_purpose b) b = Ok (j_Body j)
    ∧ j = job_from nw (j_ID j) tok b (j_Body j)
    ∧ outbox (w_db w') !! j_ID j = Some (leased nw tok b) ∧ j_Attempt j ≤ MaxAttempts.
Proof.
  intros Ho HC nw now. destruct (Claim_jobs kr provider locked limit o w jobs w' Ho HC) as (Hn & Hl & Hj).
  split_and!; [done..|]. intros j Hin. destruct (Hj j Hin) as (b & tok & Hdel & Hdec & Hjob & Hout).
  exists b, tok. split_and!; [done..|]. rewrite Hjob. pose proof (del_attempts _ _ _ _ _ _ _ Hdel). cbn. lia.
Qed.

Definition toy_pending : outbox_row :=
  (toy_job pending None) <| ob_nonce := Some (zeros 12) |>
    <| ob_ciphertext := Some (gcm_Seal (zeros 32) (zeros 12) "the link" "j1|resend|reset") |>.
Definition toy_claim_db : db := empty_db <| outbox := {["j1" := toy_pending]} |>.

Lemma Claim_sound_witness :
  ∃ j w', Claim toy_keyring "resend" (λ _, false) 25 (oracle_at 5) (world_of toy_claim_db) = (Ok [j], w')
    ∧ j_Body j = "the link" ∧ j_Attempt j ≤ MaxAttempts.
Proof.
  assert (∃ j w', Claim toy_keyring "resend" (λ _, false) 25 (oracle_at 5) (world_of toy_claim_db)
                  = (Ok [j], w') ∧ j_Body j = "the link") as (j & w' & E & Hb)
    by (eexists _, _; split; [vm_compute; reflexivity|reflexivity]).
  exists j, w'. split; [exact E|]. split; [exact Hb|].
  destruct (Claim_sound toy_keyring "resend" (λ _, false) 25 (oracle_at 5) (world_of toy_claim_db)
    [j] w' (oracle_at_healthy 5) E) as (_ & _ & Hj).
  destruct (Hj j) as (b & tok & _ & _ & _ & _ & Ha); [left|exact Ha].
Defined.

Lemma payload_dies_with_job_witness :
  winv outbox_ok (snd (Claim toy_keyring "resend" (λ _, false) 25 (oracle_at 5) (world_of toy_claim_db))).
Proof.
  destruct (payload_dies_with_job toy_keyring (oracle_at 5) (world_of toy_claim_db)) as (_ & H & _);
    [|apply H].
  split; [|done]. intros k b. unfold toy_claim_db. simpl. intros [<- <-]%lookup_singleton_Some. by split.
Defined.
