(* ===== verification/Svix.v ===== *)
(** * Svix: src/internal/email/webhook.go

    Authentication of provider webhooks: the signed content is
    "<id>.<timestamp>.<body>" under HMAC-SHA256. *)

From S2P Require Import Prelude GoLib GoHash World Keyring.

Definition HeaderSvixID : string := "svix-id".
Definition HeaderSvixTimestamp : string := "svix-timestamp".
Definition HeaderSvixSignature : string := "svix-signature".
Definition WebhookTolerance : Z := 5 * Minute.

Inductive webhook_error :=
| ErrWebhookHeaders | ErrWebhookSecret | ErrWebhookTimestamp | ErrWebhookSignature.

Fixpoint decode_secret_with (encs : list encoding) (secret : string) : res webhook_error string :=
  match encs with
  | [] => Err ErrWebhookSecret
  | enc :: encs =>
      match b64_decode enc secret with
      | Some key => if (0 <? String.length key)%nat then Ok key else decode_secret_with encs secret
      | None => decode_secret_with encs secret
      end
  end.
Definition decodeWebhookSecret (secret : string) : res webhook_error string :=
  let secret := TrimPrefix (TrimSpace secret) "whsec_" in
  if str_eqb secret "" then Err ErrWebhookSecret else decode_secret_with encodings secret.

(** The base64 HMAC over the signed content. *)
Definition svix_mac (key svixID timestamp body : string) : string :=
  b64_encode StdEncoding
    (hmac_sha256 key (svixID +:+ "." +:+ timestamp +:+ "." +:+ body)).

(** A candidate of the signature header: version "v1" and the expected MAC. *)
Definition v1_matches (want entry : string) : bool :=
  let '(version, sig, ok) := Cut entry comma in
  ok && str_eqb version "v1" && str_eqb sig want.

Definition VerifySvix (secret : string) (headers : list (string * string)) (body : string)
    (now tolerance : Z) : res webhook_error string :=
  let svixID := TrimSpace (header_value headers HeaderSvixID) in
  let timestamp := TrimSpace (header_value headers HeaderSvixTimestamp) in
  let signatures := TrimSpace (header_value headers HeaderSvixSignature) in
  if str_eqb svixID "" || str_eqb timestamp "" || str_eqb signatures "" then Err ErrWebhookHeaders
  else
    match decodeWebhookSecret secret with
    | Err e => Err e
    | Ok key =>
        match ParseInt timestamp with
        | None => Err ErrWebhookTimestamp
        | Some secs =>
            let drift := now - secs * Second in
            if (tolerance <? drift) || (drift <? - tolerance) then Err ErrWebhookTimestamp
            else if existsb (v1_matches (svix_mac key svixID timestamp body)) (Fields signatures)
            then Ok svixID else Err ErrWebhookSignature
        end
    end.

Definition SignSvix (secret svixID : string) (timestamp : Z) (body : string)
  : res webhook_error string :=
  match decodeWebhookSecret secret with
  | Err e => Err e
  | Ok key => Ok ("v1," +:+ svix_mac key svixID (FormatInt (timestamp / Second)) body)
  end.

(** ** Facts *)
Lemma b64_alphabet_graphic e c : b64_alphabet e c = true → is_graphic c = true.
Proof. destruct e as [[] []], c as [[] [] [] [] [] [] [] []]; vm_compute; done. Qed.

Lemma signature_graphic key id ts body :
  str_forallb is_graphic ("v1," +:+ svix_mac key id ts body) = true.
Proof.
  unfold svix_mac. rewrite str_forallb_app. apply andb_true_iff. split; [done|].
  eapply str_forallb_impl; [|apply b64_encode_alphabet]. intros c. apply b64_alphabet_graphic.
Qed.

Lemma v1_matches_own want : v1_matches want ("v1," +:+ want) = true.
Proof.
  unfold v1_matches. assert (Cut ("v1," +:+ want) comma = ("v1", want, true)) as -> by done.
  by rewrite !str_eqb_refl.
Qed.

Lemma v1_matches_spec want entry :
  v1_matches want entry = true → entry = "v1," +:+ want.
Proof.
  unfold v1_matches. destruct (Cut entry comma) as [[v s] ok] eqn:E.
  intros [[-> Hv%str_eqb_true]%andb_true_iff Hs%str_eqb_true]%andb_true_iff. subst.
  revert E. change ("v1," +:+ want) with ("v1" +:+ String comma want).
  assert (∀ e b a, Cut e comma = (b, a, true) → e = b +:+ String comma a) as HC.
  { induction e as [|c e IH]; intros b a; [done|]. cbn [Cut].
    destruct (Ascii.eqb c comma) eqn:Ec; [apply Ascii.eqb_eq in Ec as ->; by intros [= <- <-]|].
    destruct (Cut e comma) as [[b' a'] ok'] eqn:E'. intros [= <- <- ->]. simpl. f_equal. by apply IH. }
  by intros ->%HC.
Qed.

(** A genuine delivery is accepted: a body signed by [SignSvix] under the
    operator's secret verifies under the same secret whenever the clock is
    within the tolerance of the signing time, and yields its message id. *)
Theorem VerifySvix_SignSvix secret id ts body sig headers now tolerance :
  SignSvix secret id ts body = Ok sig → 0 ≤ ts →
  str_forallb is_graphic id = true → id ≠ "" → ts / Second ≤ max_int64 →
  header_value headers HeaderSvixID = id →
  header_value headers HeaderSvixTimestamp = FormatInt (ts / Second) →
  header_value headers HeaderSvixSignature = sig →
  Z.abs (now - ts / Second * Second) ≤ tolerance →
  VerifySvix secret headers body now tolerance = Ok id.
Proof.
  unfold SignSvix, VerifySvix. destruct (decodeWebhookSecret secret) as [key|]; [|done].
  intros Esig Hts Hid Hne Hmax -> -> -> Hd.
  assert (sig = "v1," +:+ svix_mac key id (FormatInt (ts / Second)) body) as -> by congruence.
  clear Esig.
  assert (0 ≤ ts / Second) as Hs by (apply Z.div_pos; [done|reflexivity]).
  destruct (decimal_graphic (ts / Second) Hs) as [Hg Hnz].
  pose proof (signature_graphic key id (FormatInt (ts / Second)) body) as Hsg.
  rewrite !TrimSpace_graphic by done.
  rewrite (proj2 (str_eqb_false id "")), (proj2 (str_eqb_false (FormatInt _) "")) by done.
  set (sig := "v1," +:+ svix_mac key id (FormatInt (ts / Second)) body) in *.
  rewrite (proj2 (str_eqb_false sig "")) by done. cbn [orb].
  rewrite ParseInt_FormatInt by done.
  destruct ((tolerance <? _) || _) eqn:Et.
  { apply orb_true_iff in Et as [Et|Et]; zb; lia. }
  rewrite Fields_graphic by done. cbn [existsb]. unfold sig. by rewrite v1_matches_own.
Qed.

Definition toy_secret : string := "whsec_MfKQ9r8GKYqrTwjUPD8ILPZIo2LaLaSw".
Definition toy_headers (sig : string) : list (string * string) :=
  [("Svix-Id", "msg_1"); ("Svix-Timestamp", FormatInt 1700000000); ("Svix-Signature", sig)].

Lemma VerifySvix_SignSvix_witness :
  ∃ sig, SignSvix toy_secret "msg_1" (1700000000 * Second) "{}" = Ok sig
    ∧ VerifySvix toy_secret (toy_headers sig) "{}" (1700000060 * Second) WebhookTolerance = Ok "msg_1".
Proof.
  assert (∃ sig, SignSvix toy_secret "msg_1" (1700000000 * Second) "{}" = Ok sig) as [sig E]
    by (eexists; vm_compute; reflexivity).
  exists sig. split; [exact E|].
  apply (VerifySvix_SignSvix toy_secret "msg_1" (1700000000 * Second) "{}" sig); try exact E;
    try reflexivity; vm_compute; discriminate.
Defined.

(** What verification means: an accepted delivery carries a timestamp
    within the tolerance of the clock and, among its signatures, a "v1" entry
    that is the HMAC of its id, its timestamp and its exact body under the
    operator's key; the id returned is the one that was signed. *)
Theorem VerifySvix_sound secret headers body now tolerance id :
  VerifySvix secret headers body now tolerance = Ok id →
  ∃ key secs, decodeWebhookSecret secret = Ok key ∧ key ≠ ""
    ∧ id = TrimSpace (header_value headers HeaderSvixID) ∧ id ≠ ""
    ∧ ParseInt (TrimSpace (header_value headers HeaderSvixTimestamp)) = Some secs
    ∧ Z.abs (now - secs * Second) ≤ tolerance
    ∧ ("v1," +:+ svix_mac key id (TrimSpace (header_value headers HeaderSvixTimestamp)) body)
      ∈ Fields (TrimSpace (header_value headers HeaderSvixSignature)).
Proof.
  unfold VerifySvix. destruct (str_eqb (TrimSpace (header_value headers HeaderSvixID)) "") eqn:E1; [done|].
  destruct (false || _ || _); [done|].
  destruct (decodeWebhookSecret secret) as [key|] eqn:Ek; [|done].
  destruct (ParseInt _) as [secs|] eqn:Ep; [|done].
  destruct ((tolerance <? _) || _) eqn:Et; [done|]. destruct (existsb _ _) eqn:Ex; [|done].
  intros [= <-]. apply str_eqb_false in E1. zb. exists key, secs.
  apply existsb_exists in Ex as (entry & Hin & ->%v1_matches_spec).
  split_and!; [done| |done|done|done|lia|by apply list_elem_of_In].
  intros ->. revert Ek. unfold decodeWebhookSecret.
  destruct (str_eqb (TrimPrefix _ _) ""); [done|]. generalize (TrimPrefix (TrimSpace secret) "whsec_") as x. intros x.
  induction encodings as [|enc encs IH]; [done|]. cbn [decode_secret_with].
  destruct (b64_decode enc x) as [k|]; [|apply IH]. destruct (0 <? String.length k)%nat eqn:El; [|apply IH].
  by intros [= ->].
Qed.

Lemma VerifySvix_sound_witness :
  ∃ sig secs, VerifySvix toy_secret (toy_headers sig) "{}" (1700000060 * Second) WebhookTolerance = Ok "msg_1"
    ∧ Z.abs (1700000060 * Second - secs * Second) ≤ WebhookTolerance.
Proof.
  assert (∃ sig, VerifySvix toy_secret (toy_headers sig) "{}" (1700000060 * Second) WebhookTolerance
                 = Ok "msg_1") as [sig E].
  { exists ("v1," +:+ svix_mac (default "" (b64_decode StdEncoding "MfKQ9r8GKYqrTwjUPD8ILPZIo2LaLaSw"))
               "msg_1" "1700000000" "{}"). vm_compute. reflexivity. }
  destruct (VerifySvix_sound _ _ _ _ _ _ E) as (key & secs & _ & _ & _ & _ & _ & Hd & _).
  exists sig, secs. split; [exact E|exact Hd].
Defined.
