(* ===== verification/Worker.v ===== *)
(** * Worker: src/internal/email/worker.go, and the seam of email.go

    The delivery worker: claim a batch, send each message through the
    [Sender] of the configured provider, classify the answer, record the
    outcome under the job's lease.  Timeouts and cancellation are answers of
    the environment: a send that runs out of time is an error of [Send], a
    finalize that does is a refused or lost statement. *)

From stdpp Require Import sorting.
From S2P Require Import Prelude GoLib GoHash GoAes Schema World Logic Crypto Keyring Outbox.

(** ** email.go: messages, receipts and classified failures *)
Record Message := MkMessage { To : string; Subject : string; Body : string }.
Record Receipt := MkReceipt { ProviderMessageID : string }.
Record SendError := MkSendError { Retryable : bool; Code : string; RetryAfter : Z }.

Definition CodeTransport : string := "transport".
Definition CodeRateLimited : string := "rate_limited".
Definition CodeProviderError : string := "provider_error".
Definition CodeConcurrentIdem : string := "concurrent_idempotent_requests".
Definition CodeIdempotencyClash : string := "invalid_idempotent_request".
Definition CodeRejected : string := "rejected".
Definition CodeMalformedResponse : string := "malformed_response".

(** An error of [Send]: a [*SendError], or a bare error of an adapter. *)
Inductive send_failure := Classified (e : SendError) | Bare.

(** [errors.As(err, &sendErr)]; a bare error is read as retryable. *)
Definition as_SendError (f : send_failure) : SendError :=
  match f with Classified e => e | Bare => MkSendError true CodeTransport 0 end.

(** The seam: whoever implements it does not write to the database. *)
Class Sender := {
  Send : Message → string → M (res send_failure Receipt);
  Send_db : ∀ msg key, preserves (sees w_db) (Send msg key);
  Send_tx : ∀ msg key, preserves (sees w_tx) (Send msg key)
}.

(** [logSender]: prints, and accepts everything. *)
#[export] Instance logSender : Sender.
Proof.
  refine {| Send := λ _ _, mret (Ok (MkReceipt "log")) |}; intros; apply preserves_ret; exact _.
Defined.

(** ** The worker's constants *)
Definition pollInterval : Z := 2 * Second.
Definition claimBatch : nat := 4.
Definition sendTimeout : Z := 20 * Second.
Definition finalizeTimeout : Z := 5 * Second.
Definition statsInterval : Z := 15 * Second.
Definition backoffBase : Z := 2 * Second.
Definition backoffCap : Z := 5 * Minute.
Definition backoffFloor : Z := Second.

(** [rand.Int64N(n)] of math/rand/v2. *)
Definition Int64N (n : Z) : M Z := tick (λ o i, o_rand_n o i n).

Definition Backoff (attempt retryAfter : Z) : M Z :=
  if 0 <? retryAfter then mret (Z.min retryAfter backoffCap) else
  let scaled := Z.shiftl backoffBase (Z.max (attempt - 1) 0) in
  let ceiling := if (attempt <? 32) && (scaled <? backoffCap) then scaled else backoffCap in
  r ← Int64N ceiling;
  mret (Z.max (r + 1) backoffFloor).

(** [classify]: a provider result becomes an outcome and a metric. *)
Definition classify (job : Job) (r : res send_failure Receipt) : M Outcome :=
  match r with
  | Ok receipt =>
      _ ← IncCounter MetricAccepted;
      mret (OutcomeAccepted (ProviderMessageID receipt))
  | Err f =>
      let e := as_SendError f in
      if str_eqb (Code e) CodeIdempotencyClash then
        _ ← IncCounter MetricFailed;
        mret (OutcomeFailed (Code e))
      else if Retryable e && (j_Attempt job <? MaxAttempts) then
        delay ← Backoff (j_Attempt job) (RetryAfter e);
        now ← time_Now;
        if j_SendBefore job <? now + delay then
          _ ← IncCounter MetricExpired;
          mret (OutcomeFailed reasonSendWindowElapsed)
        else
          _ ← IncCounter MetricRetries;
          mret (OutcomeRetry (Code e) delay)
      else
        _ ← IncCounter MetricFailed;
        mret (OutcomeFailed (Code e))
  end.

(** The message of a job: [Job] embeds [Message]. *)
Definition message_of (j : Job) : Message := MkMessage (j_To j) (j_Subject j) (j_Body j).

Definition deliver `{Sender} (job : Job) : M unit :=
  r ← Send (message_of job) (IdempotencyKey job);
  out ← classify job r;
  ferr ← Finalize (j_ID job) (j_LeaseToken job) out;
  match ferr with
  | Ok _ => mret tt
  | Err e => if errors_Is e ELeaseLost then IncCounter MetricLeaseLost else mret tt
  end.

Fixpoint deliver_all `{Sender} (jobs : list Job) : M unit :=
  match jobs with
  | [] => mret tt
  | job :: jobs => _ ← deliver job; deliver_all jobs
  end.

Definition runOnce `{Sender} (kr : Keyring) (provider : string) (locked : string → bool) : M nat :=
  r ← Claim kr provider locked claimBatch;
  match r with
  | Err _ => mret O
  | Ok jobs => _ ← deliver_all jobs; mret (length jobs)
  end.

(** [metrics.SetGauge]; a gauge of seconds is kept in nanoseconds. *)
Definition SetGauge (name : string) (v : Z) : M unit := λ o w,
  (tt, w <| w_metrics ::= <[name := v]> |>).
Definition GaugePending : string := "sesamo_email_outbox_pending".
Definition GaugeOldestPendingSeconds : string := "sesamo_email_outbox_oldest_pending_seconds".

Definition sampleQueue (provider : string) : M unit :=
  r ← QueueStats provider;
  match r with
  | Err _ => mret tt
  | Ok st =>
      _ ← SetGauge GaugePending (st_pending st);
      SetGauge GaugeOldestPendingSeconds (st_oldest_age st)
  end.

(** [jitterSleep(ctx, d)]: draws a duration; sleeping has no other effect. *)
Definition jitterSleep (d : Z) : M unit :=
  if d <=? 0 then mret tt else _ ← Int64N d; mret tt.

(** One turn of the loop of [Run], from the time of the last sample. *)
Definition poll `{Sender} (kr : Keyring) (provider : string) (locked : string → bool)
    (lastStats : Z) : M Z :=
  now ← time_Now;
  lastStats ← (if statsInterval <=? now - lastStats
               then _ ← sampleQueue provider; time_Now else mret lastStats);
  n ← runOnce kr provider locked;
  _ ← (if (n =? claimBatch)%nat then mret tt else jitterSleep (pollInterval / 4));
  mret lastStats.
(** [Run]: as many turns as the context lives. *)
Fixpoint Run `{Sender} (kr : Keyring) (provider : string) (locked : string → bool)
    (turns : nat) (lastStats : Z) : M unit :=
  match turns with
  | O => mret tt
  | S n => lastStats ← poll kr provider locked lastStats; Run kr provider locked n lastStats
  end.

(** ** The worker keeps the outbox's invariant *)
Lemma Int64N_keeps I n : preserves (keeps I) (Int64N n).
Proof. apply tick_keeps. Qed.
#[export] Hint Resolve Int64N_keeps : preserves.
Lemma Backoff_keeps I a r : preserves (keeps I) (Backoff a r).
Proof. unfold Backoff. solve_preserves. Qed.
#[export] Hint Resolve Backoff_keeps : preserves.
Lemma classify_keeps I j r : preserves (keeps I) (classify j r).
Proof. unfold classify. solve_preserves. Qed.
#[export] Hint Resolve classify_keeps : preserves.

Lemma sees_keeps {A} I (m : M A) :
  preserves (sees w_db) m → preserves (sees w_tx) m → preserves (keeps I) m.
Proof. intros Hd Ht o w [H1 H2]. split; [rewrite (Hd o w)|rewrite (Ht o w)]; done. Qed.

Section worker.
Context `{Sender}.

Lemma Send_keeps I msg key : preserves (keeps I) (Send msg key).
Proof. apply sees_keeps; [apply Send_db|apply Send_tx]. Qed.
Hint Resolve Send_keeps : preserves.
Lemma deliver_keeps job : preserves (keeps outbox_ok) (deliver job).
Proof. unfold deliver. solve_preserves. Qed.
Hint Resolve deliver_keeps : preserves.
Lemma deliver_all_keeps jobs : preserves (keeps outbox_ok) (deliver_all jobs).
Proof. induction jobs; simpl; solve_preserves. Qed.
Hint Resolve deliver_all_keeps : preserves.
Lemma Claim_keeps kr p l n : preserves (keeps outbox_ok) (Claim kr p l n).
Proof. unfold Claim. solve_preserves. Qed.
Hint Resolve Claim_keeps : preserves.
Lemma runOnce_keeps kr p l : preserves (keeps outbox_ok) (runOnce kr p l).
Proof. unfold runOnce. solve_preserves. Qed.
End worker.

(** ** Backoff *)

(** What math/rand/v2 promises of [Int64N]. *)
Definition rand_ok (o : oracle) : Prop := ∀ i n, 0 < n → 0 ≤ o_rand_n o i n < n.

Lemma scaled_positive n : 0 ≤ n → 0 < Z.shiftl backoffBase n.
Proof. intros Hn. rewrite Z.shiftl_mul_pow2 by done. unfold backoffBase, Second. nia. Qed.

Lemma Backoff_run a r o w :
  Backoff a r o w = (fst (Backoff a r o w), w <| w_step := w_step (snd (Backoff a r o w)) |>).
Proof. unfold Backoff. destruct (0 <? r); destruct w; reflexivity. Qed.

Lemma Backoff_range attempt retryAfter o w :
  rand_ok o → 1 ≤ attempt →
  let d := fst (Backoff attempt retryAfter o w) in
  0 < d ≤ backoffCap
  ∧ (0 < retryAfter → d = Z.min retryAfter backoffCap)
  ∧ (retryAfter ≤ 0 → backoffFloor ≤ d ≤ Z.max backoffFloor (backoffBase * 2 ^ (attempt - 1)))
  ∧ (attempt < 32 → Z.shiftl backoffBase (Z.max (attempt - 1) 0) < 2 ^ 63).
Proof.
  intros Ho Ha d.
  assert (Hpow : attempt < 32 → 2 ^ (attempt - 1) ≤ 2 ^ 30) by (intros; apply Z.pow_le_mono_r; lia).
  assert (Hpow' : 32 ≤ attempt → 2 ^ 31 ≤ 2 ^ (attempt - 1)) by (intros; apply Z.pow_le_mono_r; lia).
  pose proof (scaled_positive (attempt - 1) ltac:(lia)) as Hpos.
  revert Hpos. subst d. unfold Backoff. rewrite Z.max_l by lia.
  rewrite Z.shiftl_mul_pow2 by lia. set (p := 2 ^ (attempt - 1)) in *.
  unfold backoffCap, backoffBase, backoffFloor, Minute, Second in *. intros Hpos.
  destruct (0 <? retryAfter) eqn:Er; zb; [cbn; lia|].
  set (ceiling := if (attempt <? 32) && _ then _ else (_ : Z)).
  assert (0 < ceiling ≤ 300000000000 ∧ ceiling ≤ 2000000000 * p) as [Hc Hc'].
  { unfold ceiling. destruct (attempt <? 32) eqn:E1; simpl; zb; [|lia].
    destruct (_ <? _) eqn:E2; zb; lia. }
  rewrite bind_run. cbn. specialize (Ho (w_step w) ceiling). lia.
Qed.

(** The backoff is bounded: it is positive and at most [backoffCap]; a
    provider's own Retry-After is respected up to the cap; without one it is
    at least a second and at most [max(1s, 2s * 2^(attempt-1))], and no
    attempt number makes the shift leave 64 bits. *)
Theorem Backoff_bounds attempt retryAfter o w :
  rand_ok o → 1 ≤ attempt →
  let d := fst (Backoff attempt retryAfter o w) in
  0 < d ≤ backoffCap
  ∧ (0 < retryAfter → d = Z.min retryAfter backoffCap)
  ∧ (retryAfter ≤ 0 → backoffFloor ≤ d ≤ Z.max backoffFloor (backoffBase * 2 ^ (attempt - 1)))
  ∧ (attempt < 32 → Z.shiftl backoffBase (Z.max (attempt - 1) 0) < 2 ^ 63).
Proof. intros Ho Ha. by apply Backoff_range. Qed.

Lemma rand_ok_oracle_at t : rand_ok (oracle_at t).
Proof. intros i n Hn. simpl. lia. Qed.

Lemma Backoff_bounds_witness :
  0 < fst (Backoff 3 0 (oracle_at 0) (world_of empty_db)) ≤ backoffCap
  ∧ fst (Backoff 3 0 (oracle_at 0) (world_of empty_db)) = 8 * Second.
Proof.
  split; [|reflexivity].
  apply (Backoff_bounds 3 0 (oracle_at 0) (world_of empty_db)); [apply rand_ok_oracle_at|lia].
Defined.

Lemma Backoff_lit a r o d t i rs m :
  rand_ok o → 1 ≤ a →
  ∃ delay j, Backoff a r o (MkWorld d t i rs m) = (delay, MkWorld d t j rs m)
    ∧ 0 < delay ≤ backoffCap.
Proof.
  intros Ho Ha. rewrite Backoff_run. eexists _, _. split; [reflexivity|].
  by apply Backoff_range.
Qed.

(** ** What an attempt leaves behind *)
Lemma sql_finalize_holds id lease out now d b :
  outbox d !! id = Some b → ob_status b = pending → ob_lease_token b = Some lease →
  sql_finalize id lease out now d
  = Some (1, d <| outbox := <[id := finalized out now b]> (outbox d) |>).
Proof.
  intros Hb Hp Hl. unfold sql_finalize, finalizes, holds_lease, is_pending.
  rewrite Hb, Hl, Hp, !bool_decide_true by done. by destruct out.
Qed.

(** A send that failed is retried, unless its code or its attempt forbids it. *)
Definition may_retry (job : Job) (e : SendError) : bool :=
  negb (str_eqb (Code e) CodeIdempotencyClash) && Retryable e && (j_Attempt job <? MaxAttempts).

(** The outcome of a failed send. *)
Definition failure_outcome (o : oracle) (job : Job) (e : SendError) (out : Outcome) : Prop :=
  if may_retry job e
  then ∃ delay j, 0 < delay ≤ backoffCap ∧
         out = if j_SendBefore job <? o_clock o j + delay
               then OutcomeFailed reasonSendWindowElapsed
               else OutcomeRetry (Code e) delay
  else out = OutcomeFailed (Code e).

Lemma classify_failure job f o d t i rs m :
  rand_ok o → 1 ≤ j_Attempt job →
  let e := as_SendError f in
  ∃ out i' m', classify job (Err f) o (MkWorld d t i rs m) = (out, MkWorld d t i' rs m')
    ∧ failure_outcome o job e out.
Proof.
  intros Ho Ha e. unfold classify, failure_outcome, may_retry. fold e.
  destruct (str_eqb (Code e) CodeIdempotencyClash); simpl; [by eexists _, _, _|].
  destruct (Retryable e && (j_Attempt job <? MaxAttempts)); [|by eexists _, _, _].
  destruct (Backoff_lit (j_Attempt job) (RetryAfter e) o d t i rs m Ho Ha) as (delay & j & E & Hd).
  rewrite bind_run, E. cbn [fst snd]. rewrite bind_run, time_Now_lit. cbn [fst snd].
  destruct (j_SendBefore job <? o_clock o j + delay) eqn:Ew;
    (eexists _, _, _; split; [reflexivity|]; exists delay, j; by rewrite Ew).
Qed.

(** The row after an attempt that was answered with [r]. *)
Definition attempt_recorded (o : oracle) (job : Job) (r : res send_failure Receipt)
    (d d' : db) (b : outbox_row) : Prop :=
  ∃ b', outbox d' !! j_ID job = Some b' ∧
  match r with
  | Ok receipt =>
      let pmid := ProviderMessageID receipt in
      ob_status b' = (if str_eqb pmid "" then accepted
                      else fold_left (λ s e, status_after (ev_type e) s) (events_of pmid d) accepted)
      ∧ ob_nonce b' = None ∧ ob_ciphertext b' = None
  | Err f =>
      let e := as_SendError f in
      (∀ k, k ≠ j_ID job → outbox d' !! k = outbox d !! k) ∧ ob_lease_token b' = None ∧
      ∃ i j delay, 0 < delay ≤ backoffCap ∧
        if may_retry job e && (o_clock o i + delay <=? j_SendBefore job)
        then ob_status b' = pending ∧ ob_nonce b' = ob_nonce b
             ∧ ob_ciphertext b' = ob_ciphertext b ∧ ob_available_at b' = o_dbclock o j + delay
        else ob_status b' = failed ∧ ob_nonce b' = None ∧ ob_ciphertext b' = None
             ∧ ob_last_error b' = Some (if may_retry job e then reasonSendWindowElapsed else Code e)
  end.

Lemma reconcile_run pmid o w :
  healthy o → outbox_ok (w_db w) →
  ∃ w', reconcileEvents pmid o w = (Ok tt, w') ∧ outbox_ok (w_db w')
    ∧ ∀ k, ob_status <$> outbox (w_db w') !! k
           = final_status pmid (events_of pmid (w_db w)) <$> outbox (w_db w) !! k.
Proof.
  intros Ho Hok. destruct w as [d t i rs m]. unfold reconcileEvents. run Ho.
  apply (reduce_all_run pmid _ o (MkWorld d t (S i) rs m) Ho Hok).
Qed.

Lemma fold_status_not_pending (es : list event_row) s :
  s ≠ pending → fold_left (λ s e, status_after (ev_type e) s) es s ≠ pending.
Proof.
  revert s. induction es as [|e es IH]; intros s Hs; [done|]. simpl.
  by apply IH, status_after_not_pending.
Qed.

Lemma failure_recorded o job f d b out i :
  outbox d !! j_ID job = Some b → ob_status b = pending →
  failure_outcome o job (as_SendError f) out →
  attempt_recorded o job (Err f) d
    (d <| outbox := <[j_ID job := finalized out (o_dbclock o i) b]> (outbox d) |>) b.
Proof.
  intros Hb Hp Hout. exists (finalized out (o_dbclock o i) b). split; [apply lookup_insert_eq|].
  split; [intros k Hk; by apply lookup_insert_ne|]. unfold failure_outcome in Hout.
  destruct (may_retry job (as_SendError f)); cbn [andb].
  - destruct Hout as (delay & j & Hd & ->).
    destruct (j_SendBefore job <? o_clock o j + delay) eqn:E;
      (split; [done|]; exists j, i, delay; split; [done|]; by rewrite Z.leb_antisym, E).
  - subst out. split; [done|]. exists i, i, backoffCap. split; [done|]. done.
Qed.

(** C34. One delivery attempt leaves exactly one of three records: an accepted
    message carries the status its already received events imply and has lost
    its payload; a failure worth retrying leaves the job pending with its
    payload, due again after a bounded delay and still inside its send
    window, with the lease given back; any other failure ends the job with
    its reason and without its payload.  No other job is touched by a
    failure. *)
Theorem deliver_records `{Sender} job o w b :
  healthy o → rand_ok o → outbox_ok (w_db w) → 1 ≤ j_Attempt job →
  outbox (w_db w) !! j_ID job = Some b → ob_status b = pending →
  ob_lease_token b = Some (j_LeaseToken job) →
  attempt_recorded o job (fst (Send (message_of job) (IdempotencyKey job) o w))
    (w_db w) (w_db (snd (deliver job o w))) b.
Proof.
  intros Ho Hr Hok Ha Hb Hp Hl. unfold deliver. rewrite bind_run.
  pose proof (Send_db (message_of job) (IdempotencyKey job) o w) as Hd. unfold sees in Hd.
  destruct (Send _ _ o w) as [r [d t i rs m]]. simpl in Hd. subst d. cbn [fst snd].
  set (d := w_db w) in *. destruct r as [receipt|f].
  - pose proof (finalized_ok (OutcomeAccepted (ProviderMessageID receipt)) (o_dbclock o i)
      (j_LeaseToken job) b (Hok _ _ Hb)) as Hf.
    cbn [classify]. run Ho. unfold Finalize. rewrite bindE_run.
    erewrite (exec_Pool_lit _ Ho) by (eapply sql_finalize_holds; done). cbn [fst snd Z.eqb].
    set (pmid := ProviderMessageID receipt) in *. set (d1 := d <| outbox := _ |>).
    assert (Hok1 : outbox_ok d1).
    { apply map_Forall_insert_2; [|done]. apply Hf. unfold finalizes, holds_lease.
      by rewrite Hl, bool_decide_true. }
    assert (Hb1 : outbox d1 !! j_ID job = Some (finalized (OutcomeAccepted pmid) (o_dbclock o i) b))
      by apply lookup_insert_eq.
    unfold attempt_recorded. fold pmid. destruct (str_eqb pmid "") eqn:Epm;
      [by eexists|].
    match goal with |- context [reconcileEvents pmid o ?w1] =>
      destruct (reconcile_run pmid o w1 Ho Hok1) as (w' & -> & Hok' & Hs) end.
    cbn [fst snd]. specialize (Hs (j_ID job)). rewrite ret_run. cbn [fst snd w_db] in Hs |- *.
    rewrite Hb1 in Hs. destruct (outbox (w_db w') !! j_ID job) as [b'|] eqn:Eb; [|done].
    injection Hs as Hs. exists b'. split; [done|]. unfold final_status in Hs.
    rewrite bool_decide_true in Hs by done. cbn in Hs. rewrite Hs.
    split; [done|]. apply (Hok' (j_ID job) b' Eb). rewrite Hs. by apply fold_status_not_pending.
  - destruct (classify_failure job f o d t i rs m Hr Ha) as (out & i' & m' & E & Hout).
    rewrite bind_run, E. cbn [fst snd]. rewrite bind_run. unfold Finalize.
    rewrite bindE_run.
    erewrite (exec_Pool_lit _ Ho) by (eapply sql_finalize_holds; done). cbn [fst snd Z.eqb].
    replace (w_db _) with (d <| outbox := <[j_ID job := finalized out (o_dbclock o i') b]> (outbox d) |>).
    + by apply failure_recorded.
    + unfold failure_outcome in Hout. destruct (may_retry _ _); [destruct Hout as (delay & j & _ & ->); by destruct (_ <? _)|].
      by rewrite Hout.
Qed.

Definition toy_leased : outbox_row :=
  toy_pending <| ob_lease_token := Some "lease-1" |> <| ob_attempt_count := 1 |>.
Definition toy_leased_db : db := empty_db <| outbox := {["j1" := toy_leased]} |>.
Definition toy_delivery : Job :=
  MkJob "j1" "u1" "resend" PurposeReset 1 "lease-1" Hour Hour "ana@x.com" "" "subject" "the link".

Lemma deliver_records_witness :
  attempt_recorded (oracle_at 5) toy_delivery (Ok (MkReceipt "log")) toy_leased_db
    (w_db (snd (deliver toy_delivery (oracle_at 5) (world_of toy_leased_db)))) toy_leased.
Proof.
  refine (deliver_records toy_delivery (oracle_at 5) (world_of toy_leased_db) toy_leased
    (oracle_at_healthy 5) (rand_ok_oracle_at 5) _ _ eq_refl eq_refl eq_refl).
  - intros k b. unfold toy_leased_db. simpl. intros [_ <-]%lookup_singleton_Some. by split.
  - done.
Defined.

(** ** How often one message can be sent

    The statements of any number of workers, requests and webhooks on the
    outbox, interleaved.  [os_leases] lists the job of every lease handed
    out so far; a job is sent only by the holder of a lease, once per lease. *)
Record osys := MkOsys { os_db : db; os_used : gset string; os_leases : list string }.

(** A statement that invents no row and leaves the attempt counters alone. *)
Definition same_attempts (m m' : gmap string outbox_row) : Prop :=
  ∀ id b', m' !! id = Some b' → ∃ b, m !! id = Some b ∧ ob_attempt_count b' = ob_attempt_count b.

Inductive ostep : osys → osys → Prop :=
| ostep_claim provider locked limit uuid now clock x d u l :
    let cs := candidates provider locked limit now d in
    let ids := map cl_id (List.filter (is_verdict Leasable clock) cs) in
    sql_lease uuid ids now (retired_db clock now cs d) = Some x →
    ostep (MkOsys d u l) (MkOsys (snd x) u (ids ++ l))
| ostep_queue id q k n c now d d' u l :
    id ∉ u → sql_insert_job id (new_job q k n c) now d = Some (tt, d') →
    ostep (MkOsys d u l) (MkOsys d' ({[id]} ∪ u) l)
| ostep_supersede uid p now d d' u l :
    sql_cancel_superseded uid p now d = Some (tt, d') →
    ostep (MkOsys d u l) (MkOsys d' u l)
| ostep_finalize id lease out now n d d' u l :
    sql_finalize id lease out now d = Some (n, d') →
    ostep (MkOsys d u l) (MkOsys d' u l)
| ostep_event pmid typ at_ now d d' u l :
    sql_reduce pmid typ at_ now d = Some (tt, d') →
    ostep (MkOsys d u l) (MkOsys d' u l)
| ostep_purge age now n d d' u l :
    sql_purge_jobs age now d = Some (n, d') →
    ostep (MkOsys d u l) (MkOsys d' u l)
| ostep_elsewhere d d' u l :
    outbox d' = outbox d → ostep (MkOsys d u l) (MkOsys d' u l).

Lemma same_attempts_update q f m :
  (∀ b, ob_attempt_count (f b) = ob_attempt_count b) → same_attempts m (update_where q f m).
Proof.
  intros Hf id b'. rewrite lookup_update_where. destruct (m !! id) as [b|] eqn:E; [|done].
  simpl. intros [= <-]. exists b. split; [done|]. destruct (q id b); [apply Hf|done].
Qed.
Lemma same_attempts_trans m1 m2 m3 :
  same_attempts m1 m2 → same_attempts m2 m3 → same_attempts m1 m3.
Proof.
  intros H1 H2 id b3 H. destruct (H2 id b3 H) as (b2 & Hb2 & ->). by apply H1.
Qed.
Lemma reduce_row_attempts now at_ typ b :
  ob_attempt_count (reduce_row now at_ typ b) = ob_attempt_count b.
Proof.
  unfold reduce_row. destruct (event_kind_of typ); try done; [by destruct (is_pending b)|].
  by destruct (ob_status b).
Qed.
Lemma retired_db_attempts clock now cs d :
  same_attempts (outbox d) (outbox (retired_db clock now cs d)).
Proof.
  unfold retired_db, retire_db.
  eapply same_attempts_trans; [eapply same_attempts_trans|];
    apply same_attempts_update; done.
Qed.
Lemma sql_finalize_attempts id lease out now n d d' :
  sql_finalize id lease out now d = Some (n, d') → same_attempts (outbox d) (outbox d').
Proof.
  unfold sql_finalize. destruct (outbox d !! id) as [b|] eqn:E; [destruct (finalizes out lease b)|];
    intros [= <- <-]; intros k b'; eauto.
  rsimp. destruct (decide (k = id)) as [->|Hk].
  - rewrite lookup_insert_eq. intros [= <-]. exists b. by destruct out.
  - rewrite lookup_insert_ne by done. eauto.
Qed.
Lemma sql_purge_jobs_attempts age now n d d' :
  sql_purge_jobs age now d = Some (n, d') → same_attempts (outbox d) (outbox d').
Proof. intros [= <- <-] k b' (? & _)%lookup_delete_where_Some. eauto. Qed.

Definition sends (s : osys) (id : string) : Z :=
  Z.of_nat (count_occ String.string_dec (os_leases s) id).
Record attempts_inv (s : osys) : Prop := {
  ai_row : ∀ id b, outbox (os_db s) !! id = Some b →
    id ∈ os_used s ∧ sends s id = ob_attempt_count b ∧ ob_attempt_count b ≤ MaxAttempts;
  ai_max : ∀ id, sends s id ≤ MaxAttempts;
  ai_used : ∀ id, id ∉ os_used s → sends s id = 0
}.

Lemma attempts_inv_same d d' u l :
  same_attempts (outbox d) (outbox d') →
  attempts_inv (MkOsys d u l) → attempts_inv (MkOsys d' u l).
Proof.
  intros Hs [Hr Hm Hu]. split; [|done..]. intros id b' Hb'.
  destruct (Hs id b' Hb') as (b & Hb & ->). by apply (Hr id b).
Qed.

Lemma attempts_inv_claim d u l provider locked limit uuid now clock x :
  let cs := candidates provider locked limit now d in
  let ids := map cl_id (List.filter (is_verdict Leasable clock) cs) in
  sql_lease uuid ids now (retired_db clock now cs d) = Some x →
  attempts_inv (MkOsys d u l) → attempts_inv (MkOsys (snd x) u (ids ++ l)).
Proof.
  intros cs ids [= <-] [Hr Hm Hu].
  assert (Hnd : NoDup ids).
  { eapply sublist_NoDup; [apply (candidates_ids provider locked limit now d)|].
    apply fmap_sublist, filter_sublist'. }
  assert (Hin : ∀ id, id ∈ ids → ∃ b, outbox d !! id = Some b ∧ ob_attempt_count b < MaxAttempts).
  { intros id (c & -> & [Hc Hv]%list_elem_of_In%filter_In)%list_elem_of_fmap.
    exists (cl_row c). split; [|by apply (classify_leasable clock)].
    apply (candidates_spec provider locked limit now d). by apply list_elem_of_In. }
  assert (Hcnt : ∀ d' id, sends (MkOsys d' u (ids ++ l)) id
                       = (if decide (id ∈ ids) then 1 else 0) + sends (MkOsys d u l) id).
  { intros d' id. unfold sends. cbn [os_leases]. rewrite count_occ_app, Nat2Z.inj_add. f_equal.
    case_decide as Hid.
    - apply list_elem_of_In in Hid. rewrite (proj1 (NoDup_count_occ' String.string_dec ids));
        [done|by apply NoDup_ListNoDup|done].
    - by rewrite (proj1 (count_occ_not_In String.string_dec ids id)) by (by rewrite <-list_elem_of_In). }
  split; cbn [os_db os_used os_leases].
  - intros id b'. unfold set. cbn [snd outbox]. rewrite map_lookup_imap.
    intros (b1 & Hb1 & [= <-])%bind_Some.
    destruct (retired_db_attempts clock now cs d id b1 Hb1) as (b & Hb & Ha).
    destruct (Hr id b Hb) as (Hused & Hs & Hle). rewrite Hcnt. split; [done|].
    destruct (any_of ids id b1) eqn:E.
    + apply any_of_spec in E. rewrite decide_True by done.
      destruct (Hin id E) as (b2 & Hb2 & Hlt). cbn. cbn in Hb, Hb2. rewrite Hb in Hb2.
      injection Hb2 as ->. cbn in Hs. rewrite Ha. lia.
    + rewrite decide_False by (intros Hid; by rewrite (proj2 (any_of_spec ids id b1)) in E).
      rewrite Ha. cbn in Hs. lia.
  - intros id. rewrite Hcnt. specialize (Hm id). case_decide as Hid; [|lia].
    destruct (Hin id Hid) as (b & Hb & Hlt). destruct (Hr id b Hb) as (_ & -> & _). lia.
  - intros id Hid. rewrite Hcnt, decide_False; [by rewrite Hu|].
    intros Hi. destruct (Hin id Hi) as (b & Hb & _). by destruct (Hr id b Hb) as (Hd & _).
Qed.

Lemma attempts_inv_step s s' : attempts_inv s → ostep s s' → attempts_inv s'.
Proof.
  intros Hi Hst. destruct Hst as [? ? ? ? ? ? ? d u l cs ids E|id q k n c now d d' u l Hn E
    |? ? ? d d' u l [= <-]|? ? ? ? ? d d' u l E|? ? ? ? d d' u l [= <-]|? ? ? d d' u l E|d d' u l E].
  - by eapply attempts_inv_claim.
  - apply sql_insert_job_inv in E as (Hid & _ & ->). destruct Hi as [Hr Hm Hu].
    split; cbn [os_db os_used]; [|done|].
    + intros k' b. rsimp. destruct (decide (k' = id)) as [->|Hk].
      * rewrite lookup_insert_eq. intros [= <-]. split; [set_solver|]. split; [|done]. by apply (Hu id).
      * rewrite lookup_insert_ne by done. intros Hb. destruct (Hr k' b Hb) as (? & ? & ?).
        split_and!; [set_solver|done|done].
    + intros k' Hk. apply Hu. set_solver.
  - eapply attempts_inv_same; [|done]. by apply same_attempts_update.
  - eapply attempts_inv_same; [|done]. by eapply sql_finalize_attempts.
  - eapply attempts_inv_same; [|done]. apply same_attempts_update, reduce_row_attempts.
  - eapply attempts_inv_same; [|done]. by eapply sql_purge_jobs_attempts.
  - eapply attempts_inv_same; [|done]. intros id b'. rewrite E. eauto.
Qed.

(** C35. No message is sent more than [MaxAttempts] times: whatever workers,
    requests, provider events and purges do concurrently, starting from an
    empty queue, no job is ever leased for sending more often, crashed and
    abandoned attempts included. *)
Theorem sends_bounded d s id :
  outbox d = ∅ → rtc ostep (MkOsys d ∅ []) s → sends s id ≤ MaxAttempts.
Proof.
  intros Hd Hs. refine (ai_max s _ id). revert Hs. apply rtc_invariant; [|apply attempts_inv_step].
  split; cbn; [intros k b; by rewrite Hd, lookup_empty|done|done].
Qed.

(** A run: one message is queued, and leased to a worker. *)
Definition toy_queue : QueueInput :=
  MkQueueInput "u1" "" "ana@x.com" "no-reply@x.com" "subject" "the link" PurposeReset "resend" Hour.
Definition toy_user_row : user_row := MkUser "ana@x.com" true None None None 0 0 [] false.
Definition toy_users_db : db := empty_db <| users := {["u1" := toy_user_row]} |>.
Definition toy_queued_db : db :=
  toy_users_db <| outbox := {["j1" := new_job toy_queue "k" "n" "c" 1]} |>.

Lemma sends_bounded_witness :
  ∃ s, rtc ostep (MkOsys toy_users_db ∅ []) s ∧ sends s "j1" = 1 ∧ sends s "j1" ≤ MaxAttempts.
Proof.
  set (x := sql_lease (λ k, k) ["j1"] 2 (retired_db 2 2
    (candidates "resend" (λ _, false) 4 2 toy_queued_db) toy_queued_db)).
  destruct x as [x'|] eqn:Ex; [|by vm_compute in Ex].
  assert (Hr : rtc ostep (MkOsys toy_users_db ∅ []) (MkOsys (snd x') ({["j1"]} ∪ ∅) (["j1"] ++ []))).
  { eapply rtc_l; [apply (ostep_queue "j1" toy_queue "k" "n" "c" 1 _ toy_queued_db); [done|reflexivity]|].
    apply rtc_once.
    assert (["j1"] = map cl_id (List.filter (is_verdict Leasable 2)
      (candidates "resend" (λ _, false) 4 2 toy_queued_db))) as E by (vm_compute; reflexivity).
    pose proof (ostep_claim "resend" (λ _, false) 4 (λ k, k) 2 2 x' toy_queued_db ({["j1"]} ∪ ∅) []) as P.
    cbv zeta in P. rewrite <-E in P. by apply P. }
  eexists. split; [exact Hr|]. split; [reflexivity|].
  apply (sends_bounded toy_users_db _ "j1" eq_refl Hr).
Defined.
