(* ===== verification/OAuth.v ===== *)
(** * OAuth: src/internal/oauth (oauth.go, jwks.go, google.go, github.go, apple.go)

    PKCE, the registry of providers, the JWKS cache, the verification of
    id_tokens, and the code exchanges.  What the network answers is a
    function of the oracle and the step ([net]); ECDSA signing and the parsed
    private key of Apple are parameters.  RSA verification is executable. *)

From S2P Require Import Prelude GoLib GoUnicode GoHash GoNet GoUrl GoJson Schema World Logic Crypto Users.

(** ** oauth.go: PKCE and the registry of providers *)
Definition pkceChallengeFromVerifier (verifier : string) : string :=
  b64_encode RawURLEncoding (sha256 verifier).
Record PKCE := MkPKCE { Verifier : string; Challenge : string }.
Definition NewPKCE : M PKCE :=
  b ← rand_bytes 32;
  let verifier := b64_encode RawURLEncoding b in
  mret (MkPKCE verifier (pkceChallengeFromVerifier verifier)).

(** A provider.  Its exchange talks to the provider, not to the database;
    [None] is a panic. *)
Record Provider := MkProvider {
  AuthorizeURL : string → string → string;
  Exchange : string → string → M (option (res err OAuthProfile));
  Exchange_db : ∀ code v, preserves (sees w_db) (Exchange code v);
  Exchange_tx : ∀ code v, preserves (sees w_tx) (Exchange code v);
  Exchange_resp : ∀ code v, preserves (sees w_resp) (Exchange code v)
}.
Definition Registry : Type := gmap string Provider.
Definition Names (reg : Registry) : list string := map fst (map_to_list reg).

(** ** net/url: [Values.Encode] *)
Fixpoint QueryEscape (s : string) : string :=
  match s with
  | EmptyString => EmptyString
  | String c r =>
      if is_alnum c || contains_byte c "-_.~" then String c (QueryEscape r)
      else if Ascii.eqb c " "%char then String "+"%char (QueryEscape r)
      else
        let n := N_of_ascii c in
        String "%"%char (String (upper_hex (N.shiftr n 4))
          (String (upper_hex (N.land n 15)) (QueryEscape r)))
  end.
Fixpoint insert_pair (p : string * string) (l : list (string * string)) : list (string * string) :=
  match l with
  | [] => [p]
  | q :: l' => if String.leb (fst p) (fst q) then p :: l else q :: insert_pair p l'
  end.
(** Keys in order; every key here has one value. *)
Definition Values_Encode (l : list (string * string)) : string :=
  Join (map (λ kv, QueryEscape (fst kv) +:+ "=" +:+ QueryEscape (snd kv)) (foldr insert_pair [] l)) "&".

(** ** crypto/rsa: PKCS #1 v1.5 signatures over SHA-256 *)
Record rsa_key := MkRSA { rsa_N : Z; rsa_E : Z }.
Definition os2ip (s : string) : Z := foldl (λ z b, z * 256 + Z.of_N b) 0 (bytes_of s).
Fixpoint pow_mod (b : Z) (e : positive) (n : Z) : Z :=
  match e with
  | xH => b mod n
  | xO e => let h := pow_mod b e n in (h * h) mod n
  | xI e => let h := pow_mod b e n in ((h * h) mod n * b) mod n
  end.
Definition bit_length (n : Z) : Z := if n <=? 0 then 0 else Z.log2 n + 1.
Definition rsa_size (n : Z) : Z := (bit_length n + 7) / 8.
(** The key checks: at least 1024 bits, odd, and an odd exponent of 31 bits. *)
Definition rsa_key_ok (k : rsa_key) : bool :=
  (1024 <=? bit_length (rsa_N k)) && Z.odd (rsa_N k)
  && (2 <=? rsa_E k) && Z.odd (rsa_E k) && (rsa_E k <=? 2 ^ 31 - 1).
(** DigestInfo of SHA-256, and the padded message of [size] bytes. *)
Definition sha256_prefix : string :=
  string_of [48; 49; 48; 13; 6; 9; 96; 134; 72; 1; 101; 3; 4; 2; 1; 5; 0; 4; 32]%N.
Definition pkcs1v15_EM (size : Z) (digest : string) : option string :=
  let t := sha256_prefix +:+ digest in
  let tlen := Z.of_nat (String.length t) in
  if size <? tlen + 11 then None
  else Some (string_of ([0; 1] ++ replicate (Z.to_nat (size - tlen - 3)) 255 ++ [0])%N +:+ t).
Definition VerifyPKCS1v15 (k : rsa_key) (digest sig : string) : bool :=
  rsa_key_ok k && (Z.of_nat (String.length sig) =? rsa_size (rsa_N k))
  && (os2ip sig <? rsa_N k)
  && match pkcs1v15_EM (rsa_size (rsa_N k)) digest with
     | Some em => pow_mod (os2ip sig) (Z.to_pos (rsa_E k)) (rsa_N k) =? os2ip em
     | None => false
     end.

(** ** jwks.go: keys *)
Record jwk := MkJwk { jwk_kid : string; jwk_kty : string; jwk_alg : string; jwk_n : string; jwk_e : string }.
#[export] Instance jwk_eta : Eta jwk := λ k,
  MkJwk (jwk_kid k) (jwk_kty k) (jwk_alg k) (jwk_n k) (jwk_e k).
Definition jwk_fields : list (string * (jvalue → jwk → option jwk)) :=
  [("kid", λ v k, s ← store_string v (jwk_kid k); Some (k <| jwk_kid := s |>));
   ("kty", λ v k, s ← store_string v (jwk_kty k); Some (k <| jwk_kty := s |>));
   ("alg", λ v k, s ← store_string v (jwk_alg k); Some (k <| jwk_alg := s |>));
   ("n", λ v k, s ← store_string v (jwk_n k); Some (k <| jwk_n := s |>));
   ("e", λ v k, s ← store_string v (jwk_e k); Some (k <| jwk_e := s |>))].
Definition jwkSet_fields : list (string * (jvalue → list jwk → option (list jwk))) :=
  [("keys", store_slice (store_struct jwk_fields) (MkJwk "" "" "" "" ""))].
Definition decode_jwks (body : string) : option (list jwk) :=
  v ← json_first body; store_struct jwkSet_fields v [].

(** [toRSA]: an exponent of more than eight bytes makes the slice expression
    panic. *)
Inductive rsa_result := RsaKey (k : rsa_key) | RsaError | RsaPanic.
Definition toRSA (k : jwk) : rsa_result :=
  match b64_decode RawURLEncoding (jwk_n k), b64_decode RawURLEncoding (jwk_e k) with
  | Some nb, Some eb =>
      if (8 <? String.length eb)%nat then RsaPanic
      else RsaKey (MkRSA (os2ip nb) (wrap64 (os2ip eb)))
  | _, _ => RsaError
  end.
(** The map [refresh] builds: later keys of a kid replace earlier ones. *)
Fixpoint parse_keys (l : list jwk) (m : gmap string rsa_key) : option (gmap string rsa_key) :=
  match l with
  | [] => Some m
  | k :: l =>
      if negb (str_eqb (jwk_kty k) "RSA") then parse_keys l m else
      match toRSA k with
      | RsaPanic => None
      | RsaError => parse_keys l m
      | RsaKey p => parse_keys l (<[jwk_kid k := p]> m)
      end
  end.

(** ** jwks.go: the cache and the verification of id_tokens *)

(** [None] is a panic. *)
Definition outcome (A : Type) : Type := option (res err A).
Record out_request := MkOut {
  out_method : string; out_url : string; out_headers : list (string * string); out_body : string
}.
Record jwksCache := MkCache { jc_url : string; jc_keys : gmap string rsa_key; jc_fetchedAt : Z }.
Definition newJWKSCache (url : string) : jwksCache := MkCache url ∅ 0.

Record IDTokenClaims := MkClaims {
  Iss : string; Aud : string; Sub : string; Exp : Z; ClaimEmail : string; ClaimEmailVerified : bool;
  ClaimName : string; ClaimPicture : string
}.
#[export] Instance IDTokenClaims_eta : Eta IDTokenClaims := λ c,
  MkClaims (Iss c) (Aud c) (Sub c) (Exp c) (ClaimEmail c) (ClaimEmailVerified c) (ClaimName c)
    (ClaimPicture c).
Definition claim_fields : list (string * (jvalue → IDTokenClaims → option IDTokenClaims)) :=
  [("iss", λ v c, s ← store_string v (Iss c); Some (c <| Iss := s |>));
   ("aud", λ v c, s ← store_string v (Aud c); Some (c <| Aud := s |>));
   ("sub", λ v c, s ← store_string v (Sub c); Some (c <| Sub := s |>));
   ("exp", λ v c, z ← store_int64 v (Exp c); Some (c <| Exp := z |>));
   ("email", λ v c, s ← store_string v (ClaimEmail c); Some (c <| ClaimEmail := s |>));
   ("email_verified", λ v c, b ← store_bool v (ClaimEmailVerified c);
      Some (c <| ClaimEmailVerified := b |>));
   ("name", λ v c, s ← store_string v (ClaimName c); Some (c <| ClaimName := s |>));
   ("picture", λ v c, s ← store_string v (ClaimPicture c); Some (c <| ClaimPicture := s |>))].
Definition decode_claims (json : string) : option IDTokenClaims :=
  v ← json_parse json; store_struct claim_fields v (MkClaims "" "" "" 0 "" false "" "").

(** The header's algorithm and key. *)
Definition header_fields : list (string * (jvalue → string * string → option (string * string))) :=
  [("alg", λ v h, s ← store_string v (fst h); Some (s, snd h));
   ("kid", λ v h, s ← store_string v (snd h); Some (fst h, s))].
Definition decode_header (json : string) : option (string * string) :=
  v ← json_parse json; store_struct header_fields v ("", "").

(** The checks after the signature. *)
Definition check_claims (payload wantIss wantAud : string) (now : Z) : res err IDTokenClaims :=
  match b64_decode RawURLEncoding payload ≫= decode_claims with
  | None => Err (EOther "oauth: jwt payload")
  | Some c =>
      if negb (str_eqb (Iss c) wantIss) && negb (str_eqb (Iss c) ("https://" +:+ wantIss))
      then Err (EOther "oauth: bad issuer")
      else if negb (str_eqb (Aud c) wantAud) then Err (EOther "oauth: bad audience")
      else if Exp c <=? now / Second then Err (EOther "oauth: id_token expired")
      else Ok c
  end.

Section network.
(** What the network answers to a request made at a step: a status and a
    body, or a failure. *)
Context (net : oracle → nat → out_request → option (Z * string)).

Definition http_Do (q : out_request) : M (option (Z * string)) := tick (λ o i, net o i q).
Definition limited (kib : nat) (body : string) : string := str_take (kib * 1024) body.

Definition refresh (c : jwksCache) : M (jwksCache * outcome unit) :=
  a ← http_Do (MkOut "GET" (jc_url c) [] "");
  match a with
  | None => mret (c, Some (Err (EOther "oauth: fetch jwks")))
  | Some (status, body) =>
      if negb (status =? 200) then mret (c, Some (Err (EOther "oauth: jwks status"))) else
      match decode_jwks (limited 256 body) with
      | None => mret (c, Some (Err (EOther "oauth: decode jwks")))
      | Some set =>
          match parse_keys set ∅ with
          | None => mret (c, None)
          | Some keys => now ← time_Now; mret (MkCache (jc_url c) keys now, Some (Ok tt))
          end
      end
  end.

(** A known kid is served from the cache however old it is. *)
Definition cache_key (c : jwksCache) (kid : string) : M (jwksCache * outcome rsa_key) :=
  match jc_keys c !! kid with
  | Some k => mret (c, Some (Ok k))
  | None =>
      '(c, r) ← refresh c;
      match r with
      | None => mret (c, None)
      | Some (Err e) => mret (c, Some (Err e))
      | Some (Ok _) =>
          match jc_keys c !! kid with
          | Some k => mret (c, Some (Ok k))
          | None => mret (c, Some (Err (EOther "oauth: unknown signing key")))
          end
      end
  end.

Definition verifyIDToken (c : jwksCache) (raw wantIss wantAud : string)
  : M (jwksCache * outcome IDTokenClaims) :=
  match Split raw "."%char with
  | [h; p; s] =>
      match b64_decode RawURLEncoding h ≫= decode_header with
      | None => mret (c, Some (Err (EOther "oauth: jwt header")))
      | Some (alg, kid) =>
          if negb (str_eqb alg "RS256") then mret (c, Some (Err (EOther "oauth: unexpected jwt alg"))) else
          '(c, r) ← cache_key c kid;
          match r with
          | None => mret (c, None)
          | Some (Err e) => mret (c, Some (Err e))
          | Some (Ok pub) =>
              match b64_decode RawURLEncoding s with
              | None => mret (c, Some (Err (EOther "oauth: jwt sig")))
              | Some sig =>
                  if negb (VerifyPKCS1v15 pub (sha256 (h +:+ "." +:+ p)) sig)
                  then mret (c, Some (Err (EOther "oauth: jwt signature invalid")))
                  else now ← time_Now; mret (c, Some (check_claims p wantIss wantAud now))
              end
          end
      end
  | _ => mret (c, Some (Err (EOther "oauth: malformed jwt")))
  end.

(** ** google.go *)
Definition strPtr (s : string) : option string := if str_eqb s "" then None else Some s.
Definition form_post (url : string) (extra : list (string * string)) (form : list (string * string))
  : out_request :=
  MkOut "POST" url (("Content-Type", "application/x-www-form-urlencoded") :: extra) (Values_Encode form).
(** A 200 with a JSON object that has a non-empty text under [name]. *)
Definition token_of (who name : string) (a : option (Z * string)) : res err string :=
  match a with
  | None => Err (EOther (who +:+ " token exchange"))
  | Some (status, body) =>
      if negb (status =? 200) then Err (EOther (who +:+ " token status")) else
      match json_first (limited 64 body) ≫= λ v, store_struct [(name, store_string)] v "" with
      | None => Err (EOther (who +:+ " token decode"))
      | Some t => if str_eqb t "" then Err (EOther (who +:+ " response missing " +:+ name)) else Ok t
      end
  end.

Definition googleAuthorizeURL : string := "https://accounts.google.com/o/oauth2/v2/auth".
Definition googleTokenURL : string := "https://oauth2.googleapis.com/token".
Definition googleJWKSURL : string := "https://www.googleapis.com/oauth2/v3/certs".
Definition googleIssuer : string := "accounts.google.com".
Record client := MkClient { clientID : string; clientSecret : string; redirectURI : string }.

Definition google_AuthorizeURL (g : client) (state codeVerifier : string) : string :=
  googleAuthorizeURL +:+ "?" +:+ Values_Encode
    [("client_id", clientID g); ("redirect_uri", redirectURI g); ("response_type", "code");
     ("scope", "openid email profile"); ("state", state);
     ("code_challenge", pkceChallengeFromVerifier codeVerifier); ("code_challenge_method", "S256");
     ("access_type", "online"); ("prompt", "select_account")].

(** What becomes of verified claims; [picture]: Google only. *)
Definition profile_of (provider : string) (picture : bool) (r : outcome IDTokenClaims)
  : outcome OAuthProfile :=
  match r with
  | None => None
  | Some (Err e) => Some (Err e)
  | Some (Ok c) =>
      if negb (ClaimEmailVerified c) then Some (Err (EOther (provider +:+ " email not verified")))
      else Some (Ok (MkProfile provider (Sub c) (ClaimEmail c) true (strPtr (ClaimName c))
                       (if picture then strPtr (ClaimPicture c) else None)))
  end.
Definition google_Exchange (g : client) (jwks : jwksCache) (code codeVerifier : string)
  : M (jwksCache * outcome OAuthProfile) :=
  a ← http_Do (form_post googleTokenURL []
    [("client_id", clientID g); ("client_secret", clientSecret g); ("code", code);
     ("grant_type", "authorization_code"); ("redirect_uri", redirectURI g);
     ("code_verifier", codeVerifier)]);
  match token_of "google" "id_token" a with
  | Err e => mret (jwks, Some (Err e))
  | Ok t =>
      '(jwks, r) ← verifyIDToken jwks t googleIssuer (clientID g);
      mret (jwks, profile_of "google" true r)
  end.

(** ** github.go *)
Definition githubAuthorizeURL : string := "https://github.com/login/oauth/authorize".
Definition githubTokenURL : string := "https://github.com/login/oauth/access_token".
Definition githubUserURL : string := "https://api.github.com/user".
Definition githubEmailsURL : string := "https://api.github.com/user/emails".
Definition github_AuthorizeURL (g : client) (state codeVerifier : string) : string :=
  githubAuthorizeURL +:+ "?" +:+ Values_Encode
    [("client_id", clientID g); ("redirect_uri", redirectURI g); ("scope", "read:user user:email");
     ("state", state); ("code_challenge", pkceChallengeFromVerifier codeVerifier);
     ("code_challenge_method", "S256")].

Record github_user := MkGitHubUser { gu_ID : Z; gu_Name : string; gu_AvatarURL : string }.
Definition github_user_fields : list (string * (jvalue → github_user → option github_user)) :=
  [("id", λ v u, z ← store_int64 v (gu_ID u); Some (MkGitHubUser z (gu_Name u) (gu_AvatarURL u)));
   ("name", λ v u, s ← store_string v (gu_Name u); Some (MkGitHubUser (gu_ID u) s (gu_AvatarURL u)));
   ("avatar_url", λ v u, s ← store_string v (gu_AvatarURL u); Some (MkGitHubUser (gu_ID u) (gu_Name u) s))].
Record github_email := MkGitHubEmail { ge_Email : string; ge_Primary : bool; ge_Verified : bool }.
Definition github_email_fields : list (string * (jvalue → github_email → option github_email)) :=
  [("email", λ v e, s ← store_string v (ge_Email e); Some (MkGitHubEmail s (ge_Primary e) (ge_Verified e)));
   ("primary", λ v e, b ← store_bool v (ge_Primary e); Some (MkGitHubEmail (ge_Email e) b (ge_Verified e)));
   ("verified", λ v e, b ← store_bool v (ge_Verified e); Some (MkGitHubEmail (ge_Email e) (ge_Primary e) b))].

Definition github_get (url token : string) : out_request :=
  MkOut "GET" url [("Authorization", "Bearer " +:+ token); ("Accept", "application/vnd.github+json")] "".
Definition fetchUser (token : string) : M (res err OAuthProfile) :=
  a ← http_Do (github_get githubUserURL token);
  mret (match a with
        | None => Err (EOther "github user")
        | Some (status, body) =>
            if negb (status =? 200) then Err (EOther "github user status") else
            match json_first (limited 64 body)
                  ≫= λ v, store_struct github_user_fields v (MkGitHubUser 0 "" "") with
            | None => Err (EOther "github user decode")
            | Some u => Ok (MkProfile "github" (FormatInt (gu_ID u)) "" false (strPtr (gu_Name u))
                              (strPtr (gu_AvatarURL u)))
            end
        end).
Definition primary_email (l : list github_email) : option github_email :=
  List.find (λ e, ge_Primary e && ge_Verified e) l.
Definition fetchPrimaryEmail (token : string) : M (res err string) :=
  a ← http_Do (github_get githubEmailsURL token);
  mret (match a with
        | None => Err (EOther "github emails")
        | Some (status, body) =>
            if negb (status =? 200) then Err (EOther "github emails status") else
            match json_first (limited 64 body)
                  ≫= λ v, store_slice (store_struct github_email_fields) (MkGitHubEmail "" false false) v [] with
            | None => Err (EOther "github emails decode")
            | Some l =>
                match primary_email l with
                | Some e => Ok (ge_Email e)
                | None => Err (EOther "github: no verified primary email")
                end
            end
        end).
Definition github_Exchange (g : client) (code codeVerifier : string) : M (res err OAuthProfile) :=
  a ← http_Do (form_post githubTokenURL [("Accept", "application/json")]
    [("client_id", clientID g); ("client_secret", clientSecret g); ("code", code);
     ("redirect_uri", redirectURI g); ("code_verifier", codeVerifier)]);
  match token_of "github" "access_token" a with
  | Err e => mret (Err e)
  | Ok t =>
      profile ←? fetchUser t;
      email ←? fetchPrimaryEmail t;
      mret (Ok (MkProfile (op_provider profile) (op_sub profile) email true (op_name profile)
                  (op_picture_url profile)))
  end.

(** ** apple.go *)
Definition appleAuthorizeURL : string := "https://appleid.apple.com/auth/authorize".
Definition appleTokenURL : string := "https://appleid.apple.com/auth/token".
Definition appleJWKSURL : string := "https://appleid.apple.com/auth/keys".
Definition appleIssuer : string := "https://appleid.apple.com".

(** [ecdsa.Sign] draws a nonce: its answer depends on the step. *)
Context {ec_key : Type} (ecdsa_Sign : oracle → nat → ec_key → string → option (Z * Z)).
Record Apple := MkApple {
  a_clientID : string; a_teamID : string; a_keyID : string; a_privateKey : ec_key; a_redirectURI : string
}.
Definition apple_AuthorizeURL (a : Apple) (state codeVerifier : string) : string :=
  appleAuthorizeURL +:+ "?" +:+ Values_Encode
    [("client_id", a_clientID a); ("redirect_uri", a_redirectURI a); ("response_type", "code");
     ("scope", "name email"); ("state", state); ("response_mode", "query");
     ("code_challenge", pkceChallengeFromVerifier codeVerifier); ("code_challenge_method", "S256")].

(** [FillBytes] into 32 bytes. *)
Fixpoint fill_bytes (n : nat) (z : Z) : string :=
  match n with
  | O => ""
  | S n => String (ascii_of_N (Z.to_N ((z / 256 ^ Z.of_nat n) mod 256))) (fill_bytes n z)
  end.
(** Maps are marshalled with their keys in order. *)
Definition apple_header (a : Apple) : string :=
  json_marshal_map [("alg", json_quote "ES256"); ("kid", json_quote (a_keyID a)); ("typ", json_quote "JWT")].
Definition apple_claims (a : Apple) (now : Z) : string :=
  json_marshal_map [("aud", json_quote appleIssuer); ("exp", FormatInt ((now + 5 * Minute) / Second));
    ("iat", FormatInt (now / Second)); ("iss", json_quote (a_teamID a)); ("sub", json_quote (a_clientID a))].
Definition clientSecretJWT (a : Apple) : M (res err string) :=
  now ← time_Now;
  let signingInput := b64_encode RawURLEncoding (apple_header a) +:+ "."
                      +:+ b64_encode RawURLEncoding (apple_claims a now) in
  s ← tick (λ o i, ecdsa_Sign o i (a_privateKey a) (sha256 signingInput));
  mret (match s with
        | None => Err (EOther "apple sign")
        | Some (r, s) => Ok (signingInput +:+ "."
            +:+ b64_encode RawURLEncoding (fill_bytes 32 r +:+ fill_bytes 32 s))
        end).
Definition apple_Exchange (a : Apple) (jwks : jwksCache) (code codeVerifier : string)
  : M (jwksCache * outcome OAuthProfile) :=
  secret ← clientSecretJWT a;
  match secret with
  | Err e => mret (jwks, Some (Err e))
  | Ok secret =>
      ans ← http_Do (form_post appleTokenURL []
        [("client_id", a_clientID a); ("client_secret", secret); ("code", code);
         ("grant_type", "authorization_code"); ("redirect_uri", a_redirectURI a);
         ("code_verifier", codeVerifier)]);
      match token_of "apple" "id_token" ans with
      | Err e => mret (jwks, Some (Err e))
      | Ok t =>
          '(jwks, r) ← verifyIDToken jwks t appleIssuer (a_clientID a);
          mret (jwks, profile_of "apple" false r)
      end
  end.
End network.

(** ** The providers as the registry holds them, at a state of their cache *)
Section registered.
Context (net : oracle → nat → out_request → option (Z * string)).
Definition result_of {A} (m : M (jwksCache * outcome A)) : M (outcome A) := '(_, r) ← m; mret r.

Section seen.
Context {X} (f : world → X).
Context (Htick : ∀ A (g : oracle → nat → A), preserves (sees f) (tick g)).
Lemma refresh_sees c : preserves (sees f) (refresh net c).
Proof. unfold refresh, http_Do, time_Now. solve_preserves. Qed.
Lemma cache_key_sees c kid : preserves (sees f) (cache_key net c kid).
Proof. unfold cache_key. pose proof (refresh_sees c). solve_preserves. Qed.
Lemma verifyIDToken_sees c raw iss aud : preserves (sees f) (verifyIDToken net c raw iss aud).
Proof. unfold verifyIDToken, time_Now. pose proof (cache_key_sees c). solve_preserves. Qed.
Lemma google_Exchange_sees g c code v : preserves (sees f) (result_of (google_Exchange net g c code v)).
Proof. unfold result_of, google_Exchange, http_Do. pose proof (verifyIDToken_sees c). solve_preserves. Qed.
Lemma github_Exchange_sees g code v : preserves (sees f) (r ← github_Exchange net g code v; mret (Some r)).
Proof. unfold github_Exchange, fetchUser, fetchPrimaryEmail, http_Do. solve_preserves. Qed.
Lemma apple_Exchange_sees {key} (sign : oracle → nat → key → string → option (Z * Z)) a c code v :
  preserves (sees f) (result_of (apple_Exchange net sign a c code v)).
Proof.
  unfold result_of, apple_Exchange, clientSecretJWT, http_Do, time_Now. pose proof (verifyIDToken_sees c).
  solve_preserves.
Qed.
End seen.

Definition google_provider (g : client) (c : jwksCache) : Provider :=
  MkProvider (google_AuthorizeURL g) (λ code v, result_of (google_Exchange net g c code v))
    (google_Exchange_sees w_db (λ _ _, tick_sees_db _) g c) (google_Exchange_sees w_tx (λ _ _, tick_sees_tx _) g c)
    (google_Exchange_sees w_resp (λ _ _, tick_sees_resp _) g c).
Definition github_provider (g : client) : Provider :=
  MkProvider (github_AuthorizeURL g) (λ code v, r ← github_Exchange net g code v; mret (Some r))
    (github_Exchange_sees w_db (λ _ _, tick_sees_db _) g) (github_Exchange_sees w_tx (λ _ _, tick_sees_tx _) g)
    (github_Exchange_sees w_resp (λ _ _, tick_sees_resp _) g).
Definition apple_provider {key} (sign : oracle → nat → key → string → option (Z * Z)) (a : Apple) (c : jwksCache)
  : Provider :=
  MkProvider (apple_AuthorizeURL a) (λ code v, result_of (apple_Exchange net sign a c code v))
    (apple_Exchange_sees w_db (λ _ _, tick_sees_db _) sign a c)
    (apple_Exchange_sees w_tx (λ _ _, tick_sees_tx _) sign a c)
    (apple_Exchange_sees w_resp (λ _ _, tick_sees_resp _) sign a c).
End registered.



Section verified.
Context (net : oracle → nat → out_request → option (Z * string)).




End verified.



Section exchanges.
Context (net : oracle → nat → out_request → option (Z * string)).


End exchanges.

(** ** A login at a toy Google, with a 1024-bit key *)
Definition toy_modulus : string :=
  "3uoJ0fKWOSngCliPYUUJOe0x5coELlIjK-lH5bWq32BsheegnSEhQm7n1kMMyyYIqMKZHYxXWa53fLJXJKhnkZFv"
   +:+ "g--jUw3LxJS6Iw8xFAtk45OJ8vGwamdzi5ep5dX_faySep6htZSKJ2OnPutlJMngeM9U0yZmd4nimmnZ3LE".
Definition toy_id_token : string :=
  "eyJhbGciOiJSUzI1NiIsImtpZCI6ImsxIn0"
   +:+ "." +:+ "eyJpc3MiOiJodHRwczovL2FjY291bnRzLmdvb2dsZS5jb20iLCJhdWQiOiJjaWQiLCJzdWIiOiJzMSIsImV4cCI6"
   +:+ "MjAwMDAwMDAwMCwiZW1haWwiOiJhbmFAeC5jb20iLCJlbWFpbF92ZXJpZmllZCI6dHJ1ZSwibmFtZSI6IkFuYSJ9"
   +:+ "." +:+ "uBu0jdhx9YbUEjGq6wCdnVjvDM9PuH9t7-aWvias1m7tK1PIieBTOprUNvWsOEwMItMv2pFf7TcFG87bNckAYKto"
   +:+ "d53ElvLjtBodeAY0d3CND1pnBz6bACj0icAio19PAxKpfPxuHwEojMx-RV3OZoj8b-m1pULacnuQfcax0oo".
Definition quoted (s : string) : string := dquote +:+ s +:+ dquote.
Definition qt (k v : string) : string := quoted k +:+ ":" +:+ quoted v.
Definition toy_net (_ : oracle) (_ : nat) (r : out_request) : option (Z * string) :=
  if str_eqb (out_url r) googleTokenURL then Some (200, "{" +:+ qt "id_token" toy_id_token +:+ "}")
  else if str_eqb (out_url r) googleJWKSURL then
    Some (200, "{" +:+ quoted "keys" +:+ ":[{" +:+ qt "kid" "k1" +:+ "," +:+ qt "kty" "RSA" +:+ "," +:+ qt "e" "AQAB"
      +:+ "," +:+ qt "n" toy_modulus +:+ "}]}")
  else None.
Definition toy_google : client := MkClient "cid" "secret" "https://x.com/cb".
Definition toy_oauth_profile : OAuthProfile := MkProfile "google" "s1" "ana@x.com" true (Some "Ana") None.
Example toy_google_login :
  snd (fst (google_Exchange toy_net toy_google (newJWKSCache googleJWKSURL) "code" "verifier" (oracle_at 5)
    (world_of empty_db))) = Some (Ok toy_oauth_profile).
Proof. vm_compute. reflexivity. Qed.
(** A toy GitHub: the token, the user, and three addresses. *)
Definition toy_github_email (e : string) (primary verified : string) : string :=
  "{" +:+ qt "email" e +:+ "," +:+ quoted "primary" +:+ ":" +:+ primary +:+ ","
  +:+ quoted "verified" +:+ ":" +:+ verified +:+ "}".
Definition toy_github_net (primary_verified : string) (_ : oracle) (_ : nat) (r : out_request) : option (Z * string) :=
  if str_eqb (out_url r) githubTokenURL then Some (200, "{" +:+ qt "access_token" "gho_1" +:+ "}")
  else if str_eqb (out_url r) githubUserURL then
    Some (200, "{" +:+ quoted "id" +:+ ":42," +:+ qt "name" "Ana" +:+ "}")
  else if str_eqb (out_url r) githubEmailsURL then
    Some (200, "[" +:+ toy_github_email "other@x.com" "false" "true" +:+ ","
               +:+ toy_github_email "ana@x.com" "true" primary_verified +:+ "]")
  else None.
Example github_unverified :
  fst (github_Exchange (toy_github_net "false") toy_google "code" "verifier" (oracle_at 5) (world_of empty_db))
  = Err (EOther "github: no verified primary email").
Proof. vm_compute. reflexivity. Qed.


(** An exponent longer than eight bytes in the served key set makes [toRSA]
    panic, whatever the other keys are. *)
Example toRSA_panics : toRSA (MkJwk "k" "RSA" "RS256" "AQAB" "AAAAAAAAAAAB") = RsaPanic.
Proof. reflexivity. Qed.
