(* ===== verification/Senders.v ===== *)
(** * Senders: the provider adapters of src/internal/email/email.go

    Resend and Postmark behind the [Sender] seam: the request they make and
    how the answer becomes a receipt or a classified failure.  The network is
    a parameter: what it answers to a request made at a step. *)

From S2P Require Import Prelude GoLib GoUnicode GoHash GoAes GoNet GoJson GoText GoTime Schema World Logic Crypto Keyring Outbox Worker OAuth.

(** ** The network *)
Inductive http_answer :=
| Response (status : Z) (headers : list (string * string)) (body : string)
| NoAnswer (deadline : bool).    (* an error of [client.Do]; is it a timeout? *)

Definition emailResponseMaxBytes : nat := 8 * 1024.
Definition readBounded (body : string) : string := str_take emailResponseMaxBytes body.
Definition resendEndpoint : string := "https://api.resend.com/emails".
Definition postmarkEndpoint : string := "https://api.postmarkapp.com/email".

(** ** Classification *)
Definition terminal (code : string) : SendError := MkSendError false code 0.
Definition transportError (deadline : bool) : SendError :=
  MkSendError true (if deadline then "timeout" else CodeTransport) 0.
Definition providerCode (name : string) (status : Z) : string :=
  let name := TrimSpace name in
  if str_eqb name "" || (64 <? String.length name)%nat then "status_" +:+ Itoa status else name.

(** [time.Until], saturating. *)
Definition max_duration : Z := 2 ^ 63 - 1.
Definition until (at_ now : Z) : Z := Z.max (- 2 ^ 63) (Z.min max_duration (at_ - now)).
(** Seconds or a date; the product of seconds wraps. *)
Definition retryAfterHeader (headers : list (string * string)) : M Z :=
  let raw := TrimSpace (header_value headers "Retry-After") in
  if str_eqb raw "" then mret 0 else
  match Atoi raw with
  | Some secs => mret (if secs <=? 0 then 0 else wrap64 (secs * Second))
  | None =>
      match http_ParseTime raw with
      | Some at_ => now ← time_Now; mret (Z.max 0 (until at_ now))
      | None => mret 0
      end
  end.

(** A field of an ignored decoding: a value of the wrong type is skipped. *)
Definition lenient {A} (store : jvalue → A → option A) (v : jvalue) (cur : A) : A := default cur (store v cur).
Definition resend_error_name (body : string) : string :=
  default "" (v ← json_parse body;
    store_struct [("name", λ v s, Some (lenient store_string v s))] v "").
Definition is_2xx (status : Z) : bool := (200 <=? status) && (status <? 300).

Definition classifyResend (status : Z) (headers : list (string * string)) (body : string) : M SendError :=
  let name := resend_error_name body in
  after ← retryAfterHeader headers;
  mret (if status =? 429 then MkSendError true CodeRateLimited after
        else if 500 <=? status then MkSendError true CodeProviderError after
        else if (status =? 409) && Contains name CodeConcurrentIdem then MkSendError true CodeConcurrentIdem after
        else if (status =? 409) && Contains name CodeIdempotencyClash then terminal CodeIdempotencyClash
        else terminal (providerCode name status)).

(** Postmark's answer: message id and error code. *)
Definition postmark_answer (body : string) : string * Z :=
  default ("", 0) (v ← json_parse body;
    store_struct [("MessageID", λ v p, Some (lenient store_string v (fst p), snd p));
                  ("ErrorCode", λ v p, Some (fst p, lenient store_int64 v (snd p)))] v ("", 0)).

(** ** The requests *)
Definition json_array (l : list string) : string := "[" +:+ Join l "," +:+ "]".
Definition resend_request (from apiKey : string) (msg : Message) (idempotencyKey : string) : out_request :=
  MkOut "POST" resendEndpoint
    ([("Authorization", "Bearer " +:+ apiKey); ("Content-Type", "application/json")]
     ++ (if str_eqb idempotencyKey "" then [] else [("Idempotency-Key", idempotencyKey)]))
    (json_marshal_map [("from", json_quote from); ("subject", json_quote (Subject msg));
       ("text", json_quote (Body msg)); ("to", json_array [json_quote (To msg)])]).
Definition postmark_request (from apiKey : string) (msg : Message) : out_request :=
  MkOut "POST" postmarkEndpoint
    [("X-Postmark-Server-Token", apiKey); ("Content-Type", "application/json"); ("Accept", "application/json")]
    (json_marshal_map [("From", json_quote from); ("Subject", json_quote (Subject msg));
       ("TextBody", json_quote (Body msg)); ("To", json_quote (To msg))]).

Section senders.
Context (net : oracle → nat → out_request → http_answer).
Definition client_Do (q : out_request) : M http_answer := tick (λ o i, net o i q).

Definition resend_Send (from apiKey : string) (msg : Message) (idempotencyKey : string)
  : M (res send_failure Receipt) :=
  a ← client_Do (resend_request from apiKey msg idempotencyKey);
  match a with
  | NoAnswer deadline => mret (Err (Classified (transportError deadline)))
  | Response status headers body =>
      let body := readBounded body in
      if is_2xx status then
        mret (match v ← json_parse body; store_struct [("id", store_string)] v "" with
              | Some id => if str_eqb id "" then Err (Classified (MkSendError true CodeMalformedResponse 0))
                           else Ok (MkReceipt id)
              | None => Err (Classified (MkSendError true CodeMalformedResponse 0))
              end)
      else e ← classifyResend status headers body; mret (Err (Classified e))
  end.

Definition postmark_Send (from apiKey : string) (msg : Message) (_ : string) : M (res send_failure Receipt) :=
  a ← client_Do (postmark_request from apiKey msg);
  match a with
  | NoAnswer deadline => mret (Err (Classified (transportError deadline)))
  | Response status headers body =>
      let '(messageID, errorCode) := postmark_answer (readBounded body) in
      if is_2xx status then
        mret (if str_eqb messageID "" then Err (Classified (MkSendError true CodeMalformedResponse 0))
              else Ok (MkReceipt messageID))
      else
        after ← retryAfterHeader headers;
        mret (Err (Classified (
          if status =? 429 then MkSendError true CodeRateLimited after
          else if 500 <=? status then MkSendError true CodeProviderError after
          else terminal (providerCode (if errorCode =? 0 then "" else "postmark_" +:+ Itoa errorCode) status))))
  end.

(** ** They are senders: neither touches the database *)
Section seen.
Context {X} (f : world → X).
Context (Htick : ∀ A (g : oracle → nat → A), preserves (sees f) (tick g)).
Lemma retryAfterHeader_sees h : preserves (sees f) (retryAfterHeader h).
Proof. unfold retryAfterHeader, time_Now. solve_preserves. Qed.
Lemma resend_Send_sees from key m i : preserves (sees f) (resend_Send from key m i).
Proof.
  pose proof retryAfterHeader_sees. unfold resend_Send, client_Do, classifyResend. solve_preserves.
Qed.
Lemma postmark_Send_sees from key m i : preserves (sees f) (postmark_Send from key m i).
Proof. pose proof retryAfterHeader_sees. unfold postmark_Send, client_Do. solve_preserves. Qed.
End seen.
Definition resendSender (from apiKey : string) : Sender :=
  {| Send := resend_Send from apiKey;
     Send_db := resend_Send_sees w_db (λ _ _, tick_sees_db _) from apiKey;
     Send_tx := resend_Send_sees w_tx (λ _ _, tick_sees_tx _) from apiKey |}.
Definition postmarkSender (from apiKey : string) : Sender :=
  {| Send := postmark_Send from apiKey;
     Send_db := postmark_Send_sees w_db (λ _ _, tick_sees_db _) from apiKey;
     Send_tx := postmark_Send_sees w_tx (λ _ _, tick_sees_tx _) from apiKey |}.
(** [email.New]: unknown providers fall back to the log sender. *)
Definition New (provider from apiKey : string) : Sender :=
  if str_eqb provider "resend" then resendSender from apiKey
  else if str_eqb provider "postmark" then postmarkSender from apiKey
  else logSender.
End senders.

(** ** The retry policy *)

(** net/http parses statuses of three digits. *)
Definition three_digits (net : oracle → nat → out_request → http_answer) : Prop :=
  ∀ o i q st h b, net o i q = Response st h b → 100 ≤ st < 1000.

Definition provider_request (resend : bool) (from key : string) (msg : Message) (idem : string) : out_request :=
  if resend then resend_request from key msg idem else postmark_request from key msg.
(** The id under which the provider accepted the message. *)
Definition accepted_id (resend : bool) (a : http_answer) : option string :=
  match a with
  | NoAnswer _ => None
  | Response st _ body =>
      let id := if resend then default "" (v ← json_parse (readBounded body); store_struct [("id", store_string)] v "")
                else fst (postmark_answer (readBounded body)) in
      if is_2xx st && negb (str_eqb id "") then Some id else None
  end.
(** No answer, an answer without an id, throttling, a failing provider, or a
    first request of the same key still in flight. *)
Definition should_retry (resend : bool) (a : http_answer) : bool :=
  match a with
  | NoAnswer _ => true
  | Response st _ body =>
      is_2xx st || (st =? 429) || (500 <=? st)
      || (resend && (st =? 409) && Contains (resend_error_name (readBounded body)) CodeConcurrentIdem)
  end.
Definition code_fits (e : SendError) : Prop := (1 ≤ String.length (Code e) ≤ 64)%nat.

Lemma Itoa_three st : 100 ≤ st < 1000 → String.length (Itoa st) = 3%nat.
Proof.
  intros Hst.
  assert (Hall : forallb (λ n, String.length (Itoa (100 + Z.of_nat n)) =? 3)%nat (seq 0 900) = true) by (vm_compute; reflexivity).
  rewrite forallb_forall in Hall. specialize (Hall (Z.to_nat (st - 100))).
  replace (100 + Z.of_nat (Z.to_nat (st - 100))) with st in Hall by lia.
  apply Nat.eqb_eq, Hall, in_seq. lia.
Qed.
Lemma length_append (a b : string) : String.length (a +:+ b) = (String.length a + String.length b)%nat.
Proof. induction a as [|c a IH]; [done|]. cbn. by rewrite IH. Qed.
Lemma providerCode_fits name st : 100 ≤ st < 1000 → (1 ≤ String.length (providerCode name st) ≤ 64)%nat.
Proof.
  intros Hst. unfold providerCode. destruct (str_eqb (TrimSpace name) "" || _) eqn:E.
  - rewrite length_append, Itoa_three by done. cbn. lia.
  - apply orb_false_iff in E as [E1%str_eqb_false E2%Nat.ltb_ge]. destruct (TrimSpace name); [done|]. cbn in *. lia.
Qed.

(** C29. The adapters never guess about a retry: a message counts as accepted
    exactly when the provider answered 2xx with an id, which is the one
    recorded; otherwise the failure is classified, retryable exactly when there
    was no answer, the answer was 2xx without an id, 429 or 5xx, or the first
    request of the same key is still in flight, with a code of 1 to 64 bytes,
    and only a retryable failure carries a delay. *)
Theorem Send_policy net resend from key msg idem o w :
  three_digits net →
  let a := net o (w_step w) (provider_request resend from key msg idem) in
  match fst ((if resend then resend_Send net from key msg idem else postmark_Send net from key msg idem) o w) with
  | Ok r => accepted_id resend a = Some (ProviderMessageID r)
  | Err (Classified e) =>
      accepted_id resend a = None ∧ Retryable e = should_retry resend a ∧ code_fits e
      ∧ (Retryable e = false → RetryAfter e = 0)
  | Err Bare => False
  end.
Proof.
  intros Hnet a. unfold code_fits. destruct resend.
  - unfold resend_Send, client_Do, tick. rewrite bind_run. cbn [fst snd].
    change (net o (w_step w) (resend_request from key msg idem)) with a.
    destruct a as [st h body|dl] eqn:Ea; [|destruct dl; cbn; split_and!; try done; lia].
    pose proof (Hnet _ _ _ _ _ _ Ea) as Hst. cbn [accepted_id should_retry].
    destruct (is_2xx st) eqn:E2; cbn [andb orb].
    + rewrite ret_run. cbn [fst]. destruct (json_parse (readBounded body) ≫= _) as [id|]; cbn [default];
        [|cbn; split_and!; try done; lia].
      destruct (str_eqb id "") eqn:Eid; cbn; rewrite Eid; [|done]. cbn. split_and!; try done; lia.
    + unfold classifyResend. rewrite !bind_run. destruct (retryAfterHeader h o _) as [after w1]. cbn [fst snd].
      rewrite !ret_run. cbn [fst]. destruct (st =? 429); [cbn; split_and!; try done; lia|].
      destruct (500 <=? st); [cbn; split_and!; try done; lia|]. cbn [orb andb].
      destruct ((st =? 409) && Contains _ CodeConcurrentIdem) eqn:E4; [cbn; split_and!; try done; lia|].
      destruct ((st =? 409) && Contains _ CodeIdempotencyClash); [cbn; split_and!; try done; lia|].
      cbn [terminal Retryable Code RetryAfter]. split_and!; try done; by apply providerCode_fits.
  - unfold postmark_Send, client_Do, tick. rewrite bind_run. cbn [fst snd].
    change (net o (w_step w) (postmark_request from key msg)) with a.
    destruct a as [st h body|dl] eqn:Ea; [|destruct dl; cbn; split_and!; try done; lia].
    pose proof (Hnet _ _ _ _ _ _ Ea) as Hst. cbn [accepted_id should_retry].
    destruct (postmark_answer (readBounded body)) as [id code]. cbn [fst].
    destruct (is_2xx st) eqn:E2; cbn [andb orb].
    + rewrite ret_run. cbn [fst]. destruct (str_eqb id "") eqn:Eid; cbn; rewrite ?Eid; [|done]. cbn. split_and!; try done; lia.
    + rewrite bind_run. destruct (retryAfterHeader h o _) as [after w1]. cbn [fst snd]. rewrite ret_run. cbn [fst].
      destruct (st =? 429); [cbn; split_and!; try done; lia|].
      destruct (500 <=? st); [cbn; split_and!; try done; lia|]. cbn [orb andb].
      cbn [terminal Retryable Code RetryAfter]. split_and!; try done; by apply providerCode_fits.
Qed.

(** A provider that is out of order, and asks to come back in a minute. *)
Definition toy_mail_net (_ : oracle) (_ : nat) (_ : out_request) : http_answer :=
  Response 503 [("Retry-After", " 60 ")] "<html>".
Definition toy_message : Message := MkMessage "ana@x.com" "Hi" ("a" +:+ dquote +:+ "b").
Lemma Send_policy_witness :
  ∃ e, fst (resend_Send toy_mail_net "f@x.com" "k" toy_message "outbox:1" (oracle_at 5) (world_of empty_db))
       = Err (Classified e) ∧ Retryable e = true ∧ RetryAfter e = 60 * Second.
Proof.
  assert (Hn : three_digits toy_mail_net) by (intros o i q st h b [= <- _ _]; lia).
  pose proof (Send_policy toy_mail_net true "f@x.com" "k" toy_message "outbox:1" (oracle_at 5) (world_of empty_db) Hn)
    as HP. cbv zeta in HP.
  destruct (fst (resend_Send toy_mail_net "f@x.com" "k" toy_message "outbox:1" (oracle_at 5) (world_of empty_db)))
    as [r|[e|]] eqn:E.
  - discriminate HP.
  - exists e. split; [reflexivity|]. destruct HP as (_ & Hr & _). split; [exact Hr|].
    assert (Hv : fst (resend_Send toy_mail_net "f@x.com" "k" toy_message "outbox:1" (oracle_at 5) (world_of empty_db))
      = Err (Classified (MkSendError true CodeProviderError (60 * Second)))) by (vm_compute; reflexivity).
    rewrite E in Hv. injection Hv as ->. reflexivity.
  - destruct HP.
Defined.
Example resend_payload :
  out_body (resend_request "f@x.com" "k" toy_message "i")
  = "{" +:+ json_quote "from" +:+ ":" +:+ json_quote "f@x.com" +:+ "," +:+ json_quote "subject" +:+ ":"
    +:+ json_quote "Hi" +:+ "," +:+ json_quote "text" +:+ ":" +:+ dquote +:+ "a\" +:+ dquote +:+ "b" +:+ dquote
    +:+ "," +:+ json_quote "to" +:+ ":[" +:+ json_quote "ana@x.com" +:+ "]}".
Proof. vm_compute. reflexivity. Qed.
Example retry_date :
  fst (retryAfterHeader [("retry-after", "Thu, 01 Jan 1970 00:01:00 GMT")] (oracle_at (Second)) (world_of empty_db))
  = 59 * Second.
Proof. vm_compute. reflexivity. Qed.
(** 9223372037 seconds, 292 years, are a negative delay after wrap-around:
    the worker falls back to its own backoff. *)
Example retry_wraps :
  fst (retryAfterHeader [("Retry-After", "9223372037")] (oracle_at 0) (world_of empty_db)) < 0.
Proof. vm_compute. reflexivity. Qed.

(** C28. What the provider is asked to send is the message: whatever the
    sender, the address, the subject and the text contain, the body of either
    request is one JSON object whose fields are exactly these, ill-formed
    UTF-8 replaced; none of them can add a field, a recipient or change
    another. *)
Theorem payload_roundtrip from key msg idem :
  json_parse (out_body (resend_request from key msg idem))
  = Some (VObj [("from", VStr (valid_text from)); ("subject", VStr (valid_text (Subject msg)));
      ("text", VStr (valid_text (Body msg))); ("to", VArr [VStr (valid_text (To msg))])])
  ∧ json_parse (out_body (postmark_request from key msg))
  = Some (VObj [("From", VStr (valid_text from)); ("Subject", VStr (valid_text (Subject msg)));
      ("TextBody", VStr (valid_text (Body msg))); ("To", VStr (valid_text (To msg)))]).
Proof.
  assert (Hwhole : ∀ t v, prints maxNestingDepth t v → json_parse t = Some v).
  { intros t v Ht. unfold json_parse. destruct (Ht "") as [Hs Hv]. rewrite str_app_nil in Hs, Hv. by rewrite Hs, Hv. }
  assert (Hd : maxNestingDepth = S (S (maxNestingDepth - 2))) by reflexivity.
  split; apply Hwhole; rewrite Hd; generalize (maxNestingDepth - 2)%nat; intros d; cbn [out_body resend_request postmark_request].
  - refine (prints_map (S d)
      [("from", json_quote from); ("subject", json_quote (Subject msg)); ("text", json_quote (Body msg));
       ("to", json_array [json_quote (To msg)])]
      [VStr (valid_text from); VStr (valid_text (Subject msg)); VStr (valid_text (Body msg));
       VArr [VStr (valid_text (To msg))]] _ _); [|done].
    repeat (apply Forall2_cons; split); [apply prints_quote..|apply prints_single|constructor].
  - refine (prints_map (S d)
      [("From", json_quote from); ("Subject", json_quote (Subject msg)); ("TextBody", json_quote (Body msg));
       ("To", json_quote (To msg))]
      [VStr (valid_text from); VStr (valid_text (Subject msg)); VStr (valid_text (Body msg));
       VStr (valid_text (To msg))] _ _); [|done].
    repeat (apply Forall2_cons; split); [apply prints_quote..|constructor].
Qed.
Example payload_quotes :
  json_parse (out_body (resend_request "f@x.com" "k" toy_message "i"))
  = Some (VObj [("from", VStr "f@x.com"); ("subject", VStr "Hi"); ("text", VStr ("a" +:+ dquote +:+ "b")); ("to", VArr [VStr "ana@x.com"])]).
Proof. vm_compute. reflexivity. Qed.
