(* ===== verification/Config.v ===== *)
(** * Config: the configuration record of src/internal/config/config.go

    The fields, the predicates on them, and the origin of a URL.  [ConfigLoad]
    reads them from the environment. *)

From S2P Require Import Prelude GoLib GoHash GoNet GoUrl Schema World Logic Crypto Users Session.

Record OAuthProviderConfig := MkProviderConfig {
  pc_ClientID : string; pc_ClientSecret : string; pc_RedirectURI : string
}.
Definition set_string (s : string) : bool := negb (str_eqb s "").
Definition provider_Enabled (p : OAuthProviderConfig) : bool :=
  set_string (pc_ClientID p) && set_string (pc_ClientSecret p) && set_string (pc_RedirectURI p).

Record AppleConfig := MkAppleConfig {
  ap_ClientID : string; ap_TeamID : string; ap_KeyID : string; ap_PrivateKey : string;
  ap_RedirectURI : string
}.
Definition apple_Enabled (a : AppleConfig) : bool :=
  set_string (ap_ClientID a) && set_string (ap_TeamID a) && set_string (ap_KeyID a)
  && set_string (ap_PrivateKey a) && set_string (ap_RedirectURI a).

Record BrandConfig := MkBrand {
  LogoURL : string; PrimaryColor : string; PageBG : string; FontURL : string
}.
Definition brand_Active (b : BrandConfig) : bool :=
  set_string (LogoURL b) || set_string (PrimaryColor b) || set_string (PageBG b)
  || set_string (FontURL b).

Definition SignupPublic : string := "public".
Definition SignupDisabled : string := "disabled".
Definition EnvDevelopment : string := "development".
Definition EnvProduction : string := "production".

Record Config := MkConfig {
  Env : string;
  ProjectSlug : string;
  ProjectDisplayName : string;
  Version : string;
  DatabaseURL : string;
  BaseURL : string;
  ListenAddr : string;
  CookieName : string;
  CookieSecure : bool;
  CookieDomain : string;
  SessionLifetime : Z;
  SessionMaxLifetime : Z;
  SessionRenewalThreshold : Z;       (* RollingRenewalThreshold *)
  ServiceToken : string;
  AdminAPIKey : string;
  TrustProxy : bool;
  AuditStrict : bool;
  AuditRetention : Z;
  RedirectOrigins : list string;
  Signup_ : string;                  (* Signup *)
  Google : OAuthProviderConfig;
  GitHub : OAuthProviderConfig;
  Apple : AppleConfig;
  EmailProvider : string;
  EmailFrom : string;
  EmailAPIKey : string;
  EmailOutboxKeys : string;
  ResendWebhookSecret : string;
  ThemeCSSURL : string;
  Brand : BrandConfig;
  OIDCEnabled : bool
}.

#[export] Instance Config_eta : Eta Config := λ c,
  MkConfig (Env c) (ProjectSlug c) (ProjectDisplayName c) (Version c) (DatabaseURL c)
    (BaseURL c) (ListenAddr c) (CookieName c) (CookieSecure c) (CookieDomain c)
    (SessionLifetime c) (SessionMaxLifetime c) (SessionRenewalThreshold c) (ServiceToken c)
    (AdminAPIKey c) (TrustProxy c) (AuditStrict c) (AuditRetention c) (RedirectOrigins c)
    (Signup_ c) (Google c) (GitHub c) (Apple c) (EmailProvider c) (EmailFrom c) (EmailAPIKey c)
    (EmailOutboxKeys c) (ResendWebhookSecret c) (ThemeCSSURL c) (Brand c) (OIDCEnabled c).

(** The session policy [NewServer] derives. *)
Definition session_config (c : Config) : SessionConfig :=
  MkSessionConfig (SessionLifetime c) (SessionRenewalThreshold c) (SessionMaxLifetime c).

(** [config.Origin]: scheme and host of an absolute URL, or nothing. *)
Definition Origin (rawURL : string) : string :=
  if str_eqb rawURL "" then "" else
  match url_Parse rawURL with
  | Some u =>
      if str_eqb (Scheme u) "" || str_eqb (Host u) "" then ""
      else Scheme u +:+ "://" +:+ Host u
  | None => ""
  end.

(** A development deployment, for the examples. *)
Definition toy_config : Config :=
  MkConfig EnvDevelopment "sesamo" "Sesamo" "dev" "" "http://localhost:7777" ":7777"
    "sid" false "" (30 * 24 * Hour) (90 * 24 * Hour) (7 * 24 * Hour) "service-token" "admin-key"
    false false 0 ["https://app.example.com"] SignupPublic
    (MkProviderConfig "" "" "") (MkProviderConfig "" "" "") (MkAppleConfig "" "" "" "" "")
    "log" "no-reply@x.com" "" "" "" "" (MkBrand "" "" "" "") false.
