(* ===== verification/ConfigLoad.v ===== *)
(** * ConfigLoad: loading and validating the configuration
    (src/internal/config/config.go, [load] and what it calls)

    The environment is a function from names to values ([os.Getenv]: "" when
    unset).  An error is a constructor naming the check; its wording is not
    modelled.  Durations are products in [int64], wrapped. *)

From S2P Require Import Prelude GoLib GoUnicode GoHash GoNet GoUrl Schema World Logic Crypto Users Session Config.

Inductive config_problem :=
| PNotInteger (name value : string)
| PBaseURL | PCookieSecure
| PRequired (name : string)
| PTooShort (name : string) (length : Z)
| PSameSecrets
| PEmailProvider | PEmailAPIKey | PEmailFrom | POutboxKeys | PWebhookSecret
| POAuthPartial (provider : string) (set missing : list string)
| PSSLModeMissing
| PSSLMode (mode : string)
| PSessionLifetime | PRenewalThreshold | PMaxLifetime.

Inductive config_error :=
| EEnv (value : string)
| EOriginAbsolute (entry : string)
| EOriginBare (entry : string)
| ESignupPolicy (value : string)
| ESlug (value : string)
| EBrandCSS (name value : string)
| EBrandURL (name value : string)
| EDatabaseURL
| ESessionCap
| EProduction (problems : list config_problem).

Definition defaultSessionMaxLifetimeDays : Z := 90.
Definition productionSecretMinLen : Z := 32.
Definition productionSSLModes : list string := ["require"; "verify-ca"; "verify-full"].

(** ** Reading the environment *)
Section environment.
Context (env : string → string).

Definition getenv (key def : string) : string :=
  let v := TrimSpace (env key) in if str_eqb v "" then def else v.
Definition getbool (key : string) (def : bool) : bool :=
  let v := TrimSpace (env key) in
  if str_eqb v "" then def else default def (ParseBool v).
(** The value and the parse failure, if there was one. *)
Definition getint (key : string) (def : Z) : Z * list config_problem :=
  let v := TrimSpace (env key) in
  if str_eqb v "" then (def, []) else
  match Atoi v with
  | Some n => (n, [])
  | None => (def, [PNotInteger key v])
  end.

(** [dsnSSLMode]: the mode the DSN states, or PGSSLMODE. *)
Fixpoint keyword_sslmode (items : list string) : option string :=
  match items with
  | [] => None
  | item :: l =>
      let '(k, v, ok) := Cut item "="%char in
      if (ok : bool) && str_eqb k "sslmode" then Some (TrimSpace v) else keyword_sslmode l
  end.
Definition url_sslmode (dsn : string) : option string :=
  u ← url_Parse dsn;
  let mode := TrimSpace (Query_Get u "sslmode") in
  if str_eqb mode "" then None else Some mode.
Definition dsnSSLMode (dsn : string) : string :=
  let stated :=
    if HasPrefix dsn "postgres://" || HasPrefix dsn "postgresql://" then url_sslmode dsn
    else keyword_sslmode (Fields dsn) in
  default (TrimSpace (env "PGSSLMODE")) stated.
End environment.

(** ** Redirect origins *)
Definition http_scheme (u : URL) : bool := str_eqb (Scheme u) "http" || str_eqb (Scheme u) "https".
Definition parse_origin (entry : string) : res config_error string :=
  match url_Parse entry with
  | Some u =>
      if negb (http_scheme u) || str_eqb (Host u) "" then Err (EOriginAbsolute entry)
      else if HasUser u || (negb (str_eqb (Path u) "") && negb (str_eqb (Path u) "/"))
              || negb (str_eqb (RawQuery u) "") || negb (str_eqb (Fragment u) "")
      then Err (EOriginBare entry)
      else Ok (Scheme u +:+ "://" +:+ ToLower (Host u))
  | None => Err (EOriginAbsolute entry)
  end.
Fixpoint parse_origins (entries : list string) : res config_error (list string) :=
  match entries with
  | [] => Ok []
  | e :: l =>
      let entry := TrimSpace e in
      if str_eqb entry "" then parse_origins l else
      match parse_origin entry with
      | Err x => Err x
      | Ok o =>
          match parse_origins l with
          | Ok os => Ok (o :: os)
          | Err x => Err x
          end
      end
  end.
Definition parseRedirectOrigins (raw : string) : res config_error (list string) :=
  parse_origins (Split raw ","%char).

(** ** Slug and branding *)
Definition slug_edge (c : ascii) : bool := is_lower c || is_digit c.
Definition slug_byte (c : ascii) : bool := slug_edge c || Ascii.eqb c "-"%char.
Definition last_byte_ok (s : string) : bool :=
  match str_rev s with String c _ => slug_edge c | EmptyString => false end.
(** [projectSlugRe]. *)
Definition slug_ok (s : string) : bool :=
  match s with
  | String c _ => slug_edge c && last_byte_ok s && str_forallb slug_byte s
                  && (String.length s <=? 64)%nat
  | EmptyString => false
  end.

Definition css_space (c : ascii) : bool :=
  let n := N_of_ascii c in ((n =? 9) || (n =? 10) || (n =? 12) || (n =? 13) || (n =? 32))%N.
Definition css_byte (c : ascii) : bool :=
  is_alnum c || contains_byte c "#(),.%-" || css_space c.
(** [cssValueRe]. *)
Definition css_value_ok (s : string) : bool := negb (str_eqb s "") && str_forallb css_byte s.
Definition brand_url_ok (v : string) : bool :=
  match url_Parse v with
  | Some u => http_scheme u && negb (str_eqb (Host u) "")
  | None => false
  end.
(** Go visits each of the two maps in an unspecified order: with two bad
    values, which one is named is not determined; here it is the first. *)
Definition brand_validate (b : BrandConfig) : res config_error unit :=
  let bad_css v := negb (str_eqb v "") && negb (css_value_ok v) in
  let bad_url v := negb (str_eqb v "") && negb (brand_url_ok v) in
  if bad_css (PrimaryColor b) then Err (EBrandCSS "SESAMO_BRAND_PRIMARY_COLOR" (PrimaryColor b))
  else if bad_css (PageBG b) then Err (EBrandCSS "SESAMO_BRAND_PAGE_BG" (PageBG b))
  else if bad_url (LogoURL b) then Err (EBrandURL "SESAMO_BRAND_LOGO_URL" (LogoURL b))
  else if bad_url (FontURL b) then Err (EBrandURL "SESAMO_BRAND_FONT_URL" (FontURL b))
  else Ok tt.

(** ** Production *)
Definition unset (f : string * string) : bool := str_eqb (snd f) "".
Definition checkOAuthBlock (provider : string) (fields : list (string * string)) : list config_problem :=
  let missing := map fst (List.filter unset fields) in
  let set := map fst (List.filter (λ f, negb (unset f)) fields) in
  match set, missing with
  | [], _ | _, [] => []
  | _, _ => [POAuthPartial provider set missing]
  end.

Definition problem_if (b : bool) (p : config_problem) : list config_problem := if b then [p] else [].
Definition check_secret (f : string * string) : list config_problem :=
  let n := Z.of_nat (String.length (snd f)) in
  if unset f then [PRequired (fst f)]
  else problem_if (n <? productionSecretMinLen) (PTooShort (fst f) n).
Definition check_sslmode (mode : string) : list config_problem :=
  if str_eqb mode "" then [PSSLModeMissing]
  else problem_if (negb (existsb (str_eqb mode) productionSSLModes)) (PSSLMode mode).

Definition validateProduction (env : string → string) (c : Config) (intErrs : list config_problem)
  : list config_problem :=
  intErrs
  ++ problem_if (negb (HasPrefix (BaseURL c) "https://")) PBaseURL
  ++ problem_if (negb (CookieSecure c)) PCookieSecure
  ++ check_secret ("SESAMO_SERVICE_TOKEN", ServiceToken c)
  ++ check_secret ("SESAMO_ADMIN_API_KEY", AdminAPIKey c)
  ++ problem_if (negb (str_eqb (ServiceToken c) "") && str_eqb (ServiceToken c) (AdminAPIKey c)) PSameSecrets
  ++ problem_if (negb (str_eqb (EmailProvider c) "resend") && negb (str_eqb (EmailProvider c) "postmark"))
       PEmailProvider
  ++ problem_if (str_eqb (EmailAPIKey c) "") PEmailAPIKey
  ++ problem_if (str_eqb (EmailFrom c) "" || Contains (ToLower (EmailFrom c)) "localhost") PEmailFrom
  ++ problem_if (str_eqb (EmailOutboxKeys c) "") POutboxKeys
  ++ problem_if (str_eqb (EmailProvider c) "resend" && str_eqb (ResendWebhookSecret c) "") PWebhookSecret
  ++ checkOAuthBlock "google"
       [("SESAMO_GOOGLE_CLIENT_ID", pc_ClientID (Google c));
        ("SESAMO_GOOGLE_CLIENT_SECRET", pc_ClientSecret (Google c));
        ("SESAMO_GOOGLE_REDIRECT_URI", pc_RedirectURI (Google c))]
  ++ checkOAuthBlock "github"
       [("SESAMO_GITHUB_CLIENT_ID", pc_ClientID (GitHub c));
        ("SESAMO_GITHUB_CLIENT_SECRET", pc_ClientSecret (GitHub c));
        ("SESAMO_GITHUB_REDIRECT_URI", pc_RedirectURI (GitHub c))]
  ++ checkOAuthBlock "apple"
       [("SESAMO_APPLE_CLIENT_ID", ap_ClientID (Apple c)); ("SESAMO_APPLE_TEAM_ID", ap_TeamID (Apple c));
        ("SESAMO_APPLE_KEY_ID", ap_KeyID (Apple c)); ("SESAMO_APPLE_PRIVATE_KEY", ap_PrivateKey (Apple c));
        ("SESAMO_APPLE_REDIRECT_URI", ap_RedirectURI (Apple c))]
  ++ check_sslmode (dsnSSLMode env (DatabaseURL c))
  ++ problem_if (SessionLifetime c <=? 0) PSessionLifetime
  ++ problem_if (SessionRenewalThreshold c <=? 0) PRenewalThreshold
  ++ problem_if (SessionMaxLifetime c <=? 0) PMaxLifetime.

(** ** load *)
Definition days (n : Z) : Z := wrap64 (n * (24 * Hour)).
Definition minutes (n : Z) : Z := wrap64 (n * Minute).

(** The integers of the environment, defaults applied. *)
Definition env_lifetime (env : string → string) := getint env "SESAMO_SESSION_LIFETIME_DAYS" 30.
Definition env_renewal (env : string → string) := getint env "SESAMO_ROLLING_RENEWAL_THRESHOLD_MINUTES" 15.
Definition env_max_lifetime (env : string → string) :=
  getint env "SESAMO_SESSION_MAX_LIFETIME_DAYS" defaultSessionMaxLifetimeDays.
Definition max_days (prod : bool) (n : Z) : Z :=
  if negb prod && (n <=? 0) then defaultSessionMaxLifetimeDays else n.

Definition config_of_env (env : string → string) (origins : list string) : Config :=
  let get := getenv env in
  let prod := str_eqb (get "SESAMO_ENV" EnvDevelopment) EnvProduction in
  let rd := fst (getint env "SESAMO_AUDIT_RETENTION_DAYS" 0) in
  {| Env := get "SESAMO_ENV" EnvDevelopment;
     ProjectSlug := get "SESAMO_PROJECT_SLUG" "sesamo";
     ProjectDisplayName := get "SESAMO_PROJECT_DISPLAY_NAME" "Sésamo";
     Version := "";
     DatabaseURL := get "SESAMO_DATABASE_URL" "";
     BaseURL := get "SESAMO_BASE_URL" "http://localhost:7777";
     ListenAddr := get "SESAMO_LISTEN_ADDR" ":7777";
     CookieName := get "SESAMO_COOKIE_NAME" "sid";
     CookieSecure := getbool env "SESAMO_COOKIE_SECURE" false;
     CookieDomain := get "SESAMO_COOKIE_DOMAIN" "";
     SessionLifetime := days (fst (env_lifetime env));
     SessionMaxLifetime := days (max_days prod (fst (env_max_lifetime env)));
     SessionRenewalThreshold := minutes (fst (env_renewal env));
     ServiceToken := get "SESAMO_SERVICE_TOKEN" "";
     AdminAPIKey := get "SESAMO_ADMIN_API_KEY" "";
     TrustProxy := getbool env "SESAMO_TRUST_PROXY" false;
     AuditStrict := getbool env "SESAMO_AUDIT_STRICT" false;
     AuditRetention := if 0 <? rd then days rd else 0;
     RedirectOrigins := origins;
     Signup_ := get "SESAMO_SIGNUP" SignupPublic;
     Google := MkProviderConfig (get "SESAMO_GOOGLE_CLIENT_ID" "") (get "SESAMO_GOOGLE_CLIENT_SECRET" "")
                 (get "SESAMO_GOOGLE_REDIRECT_URI" "");
     GitHub := MkProviderConfig (get "SESAMO_GITHUB_CLIENT_ID" "") (get "SESAMO_GITHUB_CLIENT_SECRET" "")
                 (get "SESAMO_GITHUB_REDIRECT_URI" "");
     Apple := MkAppleConfig (get "SESAMO_APPLE_CLIENT_ID" "") (get "SESAMO_APPLE_TEAM_ID" "")
                (get "SESAMO_APPLE_KEY_ID" "") (get "SESAMO_APPLE_PRIVATE_KEY" "")
                (get "SESAMO_APPLE_REDIRECT_URI" "");
     EmailProvider := get "SESAMO_EMAIL_PROVIDER" "log";
     EmailFrom := get "SESAMO_EMAIL_FROM" "auth@localhost";
     EmailAPIKey := get "SESAMO_EMAIL_API_KEY" "";
     EmailOutboxKeys := get "SESAMO_EMAIL_OUTBOX_KEYS" "";
     ResendWebhookSecret := get "SESAMO_RESEND_WEBHOOK_SECRET" "";
     ThemeCSSURL := get "SESAMO_THEME_CSS_URL" "";
     Brand := MkBrand (get "SESAMO_BRAND_LOGO_URL" "") (get "SESAMO_BRAND_PRIMARY_COLOR" "")
                (get "SESAMO_BRAND_PAGE_BG" "") (get "SESAMO_BRAND_FONT_URL" "");
     OIDCEnabled := getbool env "SESAMO_OIDC_ENABLED" false |}.

(** The checks of [load] after the redirect origins. *)
Definition check_config (requireDatabase : bool) (env : string → string) (c : Config)
  : res config_error Config :=
  if negb (str_eqb (Signup_ c) SignupPublic) && negb (str_eqb (Signup_ c) SignupDisabled)
  then Err (ESignupPolicy (Signup_ c)) else
  if negb (slug_ok (ProjectSlug c)) then Err (ESlug (ProjectSlug c)) else
  match brand_validate (Brand c) with
  | Err e => Err e
  | Ok _ =>
      if requireDatabase && str_eqb (DatabaseURL c) "" then Err EDatabaseURL else
      if SessionMaxLifetime c <? SessionLifetime c then Err ESessionCap else
      if str_eqb (Env c) EnvProduction then
        let intErrs := snd (env_lifetime env) ++ snd (env_renewal env) ++ snd (env_max_lifetime env) in
        match validateProduction env c intErrs with
        | [] => Ok c
        | probs => Err (EProduction probs)
        end
      else Ok c
  end.
Definition load (requireDatabase : bool) (env : string → string) : res config_error Config :=
  let e := getenv env "SESAMO_ENV" EnvDevelopment in
  if negb (str_eqb e EnvDevelopment) && negb (str_eqb e EnvProduction) then Err (EEnv e) else
  match parseRedirectOrigins (env "SESAMO_REDIRECT_ORIGINS") with
  | Err x => Err x
  | Ok origins => check_config requireDatabase env (config_of_env env origins)
  end.
Definition Load := load true.
Definition LoadForDescribe := load false.

(** ** What a loaded configuration guarantees *)
Definition secret_ok (s : string) : Prop := productionSecretMinLen ≤ Z.of_nat (String.length s).
Definition all_or_none (l : list string) : Prop := (∀ s, s ∈ l → s = "") ∨ (∀ s, s ∈ l → s ≠ "").
Definition production_ready (env : string → string) (c : Config) : Prop :=
  HasPrefix (BaseURL c) "https://" = true ∧ CookieSecure c = true
  ∧ secret_ok (ServiceToken c) ∧ secret_ok (AdminAPIKey c) ∧ ServiceToken c ≠ AdminAPIKey c
  ∧ (EmailProvider c = "resend" ∧ ResendWebhookSecret c ≠ "" ∨ EmailProvider c = "postmark")
  ∧ EmailAPIKey c ≠ "" ∧ EmailFrom c ≠ "" ∧ Contains (ToLower (EmailFrom c)) "localhost" = false
  ∧ EmailOutboxKeys c ≠ ""
  ∧ all_or_none [pc_ClientID (Google c); pc_ClientSecret (Google c); pc_RedirectURI (Google c)]
  ∧ all_or_none [pc_ClientID (GitHub c); pc_ClientSecret (GitHub c); pc_RedirectURI (GitHub c)]
  ∧ all_or_none [ap_ClientID (Apple c); ap_TeamID (Apple c); ap_KeyID (Apple c); ap_PrivateKey (Apple c);
                 ap_RedirectURI (Apple c)]
  ∧ dsnSSLMode env (DatabaseURL c) ∈ productionSSLModes
  ∧ 0 < SessionLifetime c ≤ SessionMaxLifetime c ∧ 0 < SessionRenewalThreshold c.

Lemma problem_if_nil b p : problem_if b p = [] ↔ b = false.
Proof. by destruct b. Qed.
Lemma check_secret_nil f : check_secret f = [] ↔ secret_ok (snd f).
Proof.
  unfold check_secret, secret_ok, unset, productionSecretMinLen. destruct f as [n v]. cbn [fst snd].
  destruct (str_eqb v "") eqn:E.
  - apply str_eqb_true in E as ->. cbn. split; [done|lia].
  - rewrite problem_if_nil, Z.ltb_ge. lia.
Qed.
Lemma check_sslmode_nil m : check_sslmode m = [] → m ∈ productionSSLModes.
Proof.
  unfold check_sslmode. destruct (str_eqb m ""); [done|]. rewrite problem_if_nil, negb_false_iff.
  intros (x & Hin & ->%str_eqb_true)%existsb_exists. by apply list_elem_of_In.
Qed.
Lemma filter_empty {A} (p : A → bool) l x : List.filter p l = [] → x ∈ l → p x = false.
Proof.
  intros E Hx%list_elem_of_In. destruct (p x) eqn:Ep; [|done].
  assert (In x (List.filter p l)) as Hin by (by apply filter_In). by rewrite E in Hin.
Qed.
Lemma checkOAuthBlock_nil p fields : checkOAuthBlock p fields = [] → all_or_none (map snd fields).
Proof.
  unfold checkOAuthBlock, all_or_none. intros Hc.
  destruct (map fst (List.filter (λ f, negb (unset f)) fields)) as [|x l] eqn:Es.
  - left. intros s (f & -> & Hf)%list_elem_of_fmap. apply map_eq_nil in Es.
    pose proof (filter_empty _ _ _ Es Hf) as Hu. by apply negb_false_iff, str_eqb_true in Hu.
  - destruct (map fst (List.filter unset fields)) as [|y m] eqn:Em; [|done].
    right. intros s (f & -> & Hf)%list_elem_of_fmap. apply map_eq_nil in Em.
    pose proof (filter_empty _ _ _ Em Hf) as Hu. by apply str_eqb_false in Hu.
Qed.

Lemma validateProduction_nil env c errs :
  validateProduction env c errs = [] → SessionLifetime c ≤ SessionMaxLifetime c →
  errs = [] ∧ production_ready env c.
Proof.
  unfold validateProduction. intros H Hcap.
  repeat (apply app_eq_nil in H as [? H]).
  repeat match goal with
  | H : problem_if _ _ = [] |- _ => apply problem_if_nil in H
  | H : check_secret _ = [] |- _ => apply check_secret_nil in H; cbn [snd] in H
  | H : checkOAuthBlock _ _ = [] |- _ => apply checkOAuthBlock_nil in H; cbn [map snd] in H
  | H : check_sslmode _ = [] |- _ => apply check_sslmode_nil in H
  | H : negb _ = false |- _ => apply negb_false_iff in H
  | H : _ || _ = false |- _ => apply orb_false_iff in H as [? ?]
  | H : (_ <=? 0) = false |- _ => apply Z.leb_gt in H
  | H : str_eqb _ _ = false |- _ => apply str_eqb_false in H
  end.
  split; [done|]. unfold production_ready. split_and!; try done.
  - intros He. rewrite He in *.
    match goal with H : _ && str_eqb _ _ = false |- _ => rewrite str_eqb_refl, andb_true_r in H;
      apply negb_false_iff, str_eqb_true in H; rewrite H in *; done end.
  - destruct (str_eqb (EmailProvider c) "resend") eqn:Er.
    + left. split; [by apply str_eqb_true|]. apply str_eqb_false. done.
    + right. apply str_eqb_true. match goal with H : _ && _ = false |- _ => cbn in H end.
      by apply negb_false_iff.
Qed.

Lemma check_config_ok rd env c0 c :
  check_config rd env c0 = Ok c →
  c = c0 ∧ (Signup_ c = SignupPublic ∨ Signup_ c = SignupDisabled) ∧ slug_ok (ProjectSlug c) = true
  ∧ brand_validate (Brand c) = Ok tt ∧ (rd = true → DatabaseURL c ≠ "")
  ∧ SessionLifetime c ≤ SessionMaxLifetime c
  ∧ (Env c = EnvProduction →
     snd (env_lifetime env) ++ snd (env_renewal env) ++ snd (env_max_lifetime env) = []
     ∧ production_ready env c).
Proof.
  unfold check_config.
  destruct (negb (str_eqb (Signup_ c0) SignupPublic) && _) eqn:E1; [done|].
  destruct (slug_ok (ProjectSlug c0)) eqn:E2; [cbn [negb]|done].
  destruct (brand_validate (Brand c0)) as [[]|e] eqn:E3; [|done].
  destruct (rd && str_eqb (DatabaseURL c0) "") eqn:E4; [done|].
  destruct (SessionMaxLifetime c0 <? SessionLifetime c0) eqn:E5; [done|]. apply Z.ltb_ge in E5.
  intros Hc.
  assert (c = c0) as ->.
  { destruct (str_eqb (Env c0) EnvProduction); [destruct (validateProduction _ _ _)|]; congruence. }
  split_and!; try done.
  - apply andb_false_iff in E1 as [E1|E1]; apply negb_false_iff, str_eqb_true in E1; auto.
  - intros ->. by apply str_eqb_false in E4.
  - intros He. rewrite He in Hc. cbn [str_eqb] in Hc. rewrite str_eqb_refl in Hc.
    destruct (validateProduction _ _ _) eqn:EV; [|done]. by apply validateProduction_nil.
Qed.

(** An origin as the allowlist holds it. *)
Definition normal_origin (o : string) : Prop :=
  ∃ scheme host, (scheme = "http" ∨ scheme = "https") ∧ host ≠ "" ∧ o = scheme +:+ "://" +:+ ToLower host.
Lemma parse_origin_normal e o : parse_origin e = Ok o → normal_origin o.
Proof.
  unfold parse_origin. destruct (url_Parse e) as [u|]; [|done].
  destruct (negb (http_scheme u) || _) eqn:E; [done|]. destruct (HasUser u || _ || _ || _); [done|]. intros [= <-].
  apply orb_false_iff in E as [Hs%negb_false_iff Hh%str_eqb_false].
  exists (Scheme u), (Host u). split_and!; [|done|done].
  unfold http_scheme in Hs. apply orb_true_iff in Hs as [?%str_eqb_true|?%str_eqb_true]; auto.
Qed.
Lemma parse_origins_normal l os : parse_origins l = Ok os → ∀ o, o ∈ os → normal_origin o.
Proof.
  revert os. induction l as [|e l IH]; intros os; cbn [parse_origins].
  - intros [= <-] o Ho. by apply elem_of_nil in Ho.
  - destruct (str_eqb (TrimSpace e) ""); [apply IH|].
    destruct (parse_origin (TrimSpace e)) as [o1|] eqn:E1; [|done].
    destruct (parse_origins l) as [os1|]; [|done]. intros [= <-] o [->|Ho]%elem_of_cons; [|by eapply IH].
    by eapply parse_origin_normal.
Qed.

Lemma load_ok rd env c :
  load rd env = Ok c →
  (Env c = EnvDevelopment ∨ Env c = EnvProduction)
  ∧ (∀ o, o ∈ RedirectOrigins c → normal_origin o)
  ∧ ∃ os, check_config rd env (config_of_env env os) = Ok c.
Proof.
  unfold load. destruct (_ && _) eqn:Ee; [done|].
  destruct (parseRedirectOrigins _) as [os|] eqn:Eo; [|done]. intros Hc.
  pose proof (check_config_ok _ _ _ _ Hc) as [Heq _]. subst c. split_and!; [| |by eexists].
  - cbn [Env config_of_env]. apply andb_false_iff in Ee as [Ee|Ee]; apply negb_false_iff, str_eqb_true in Ee; auto.
  - intros o Ho. by eapply parse_origins_normal.
Qed.

(** C11. A production server does not start on a weak configuration: when
    [load] accepts a production environment, the base URL is https, the
    cookies are secure, the two bearer secrets are long and different, mail
    goes out through a real provider from a configured address with an
    encryption key (and a webhook secret for Resend), no OAuth block is half
    set, the database connection is encrypted, the session policy is positive
    and ordered even after 64-bit wrap-around, and no integer was guessed. *)
Theorem load_production rd env c :
  load rd env = Ok c → Env c = EnvProduction →
  production_ready env c
  ∧ (∀ name, name ∈ ["SESAMO_SESSION_LIFETIME_DAYS"; "SESAMO_ROLLING_RENEWAL_THRESHOLD_MINUTES";
                     "SESAMO_SESSION_MAX_LIFETIME_DAYS"] →
     TrimSpace (env name) = "" ∨ ∃ n, Atoi (TrimSpace (env name)) = Some n).
Proof.
  intros Hl He. apply load_ok in Hl as (_ & _ & os & Hc).
  apply check_config_ok in Hc as (_ & _ & _ & _ & _ & _ & Hp). apply Hp in He as [Hi Hr]. split; [done|].
  apply app_eq_nil in Hi as [H1 Hi]. apply app_eq_nil in Hi as [H2 H3].
  assert (Hint : ∀ name def, snd (getint env name def) = [] →
    TrimSpace (env name) = "" ∨ ∃ n, Atoi (TrimSpace (env name)) = Some n).
  { intros name def. unfold getint. destruct (str_eqb (TrimSpace (env name)) "") eqn:E;
      [left; by apply str_eqb_true|]. destruct (Atoi _); [eauto|done]. }
  intros name Hn. repeat (apply elem_of_cons in Hn as [->|Hn]; [by eapply Hint|]). by apply elem_of_nil in Hn.
Qed.

(** C33. Whatever the profile, a loaded configuration is well formed: a known
    profile and signup policy, a DNS-label slug, validated branding, a
    session cap no shorter than a session, a database unless none is needed,
    and an allowlist of normalized http(s) origins. *)
Theorem load_wellformed rd env c :
  load rd env = Ok c →
  (Env c = EnvDevelopment ∨ Env c = EnvProduction)
  ∧ (Signup_ c = SignupPublic ∨ Signup_ c = SignupDisabled)
  ∧ slug_ok (ProjectSlug c) = true ∧ brand_validate (Brand c) = Ok tt
  ∧ SessionLifetime c ≤ SessionMaxLifetime c
  ∧ (rd = true → DatabaseURL c ≠ "")
  ∧ (∀ o, o ∈ RedirectOrigins c → normal_origin o).
Proof.
  intros Hl. apply load_ok in Hl as (He & Ho & os & Hc).
  apply check_config_ok in Hc as (_ & Hs & Hg & Hb & Hd & Hcap & _). split_and!; done.
Qed.

(** An environment a production server starts with. *)
Definition toy_env (name : string) : string :=
  match find (λ kv, str_eqb (fst kv) name)
    [("SESAMO_ENV", "production"); ("SESAMO_BASE_URL", "https://auth.example.com");
     ("SESAMO_COOKIE_SECURE", "true"); ("SESAMO_SERVICE_TOKEN", "0123456789abcdef0123456789abcdef");
     ("SESAMO_ADMIN_API_KEY", "fedcba9876543210fedcba9876543210"); ("SESAMO_EMAIL_PROVIDER", "postmark");
     ("SESAMO_EMAIL_API_KEY", "key"); ("SESAMO_EMAIL_FROM", "auth@example.com");
     ("SESAMO_EMAIL_OUTBOX_KEYS", "k1:AAAA"); ("SESAMO_SESSION_LIFETIME_DAYS", " 7 ");
     ("SESAMO_REDIRECT_ORIGINS", "https://App.example.com, http://localhost:3000/");
     ("SESAMO_DATABASE_URL", "postgres://u:p@db/sesamo?sslmode=verify-full")] with
  | Some kv => snd kv
  | None => ""
  end.
Definition toy_loaded : Config :=
  config_of_env toy_env ["https://app.example.com"; "http://localhost:3000"].
Lemma load_production_witness : 0 < SessionLifetime toy_loaded ≤ SessionMaxLifetime toy_loaded.
Proof. apply (load_production true toy_env toy_loaded); reflexivity. Defined.
Lemma load_wellformed_witness :
  slug_ok (ProjectSlug toy_loaded) = true ∧ normal_origin "https://app.example.com".
Proof.
  destruct (load_wellformed true toy_env toy_loaded) as (_ & _ & Hs & _ & _ & _ & Ho); [reflexivity|].
  split; [exact Hs|]. apply Ho. apply elem_of_cons. by left.
Defined.

(** The product of days and nanoseconds wraps: 213504 days, more than five
    centuries, become twenty-five minutes, and nothing refuses them. *)
Example days_wrap : days 213504 = 1526290448384.
Proof. reflexivity. Qed.
Lemma days_exact n : -106751 ≤ n ≤ 106751 → days n = n * (24 * Hour).
Proof.
  intros Hn. unfold days, wrap64, Hour, Minute, Second. rewrite Z.mod_small; lia.
Qed.
