(* ===== verification/Ui.v ===== *)
(** * Ui: the generated stylesheet of src/internal/ui/ui.go

    [ui.BrandInput] has the fields of [config.BrandConfig], from which the
    server converts it.  [Pages] has the HTML screens; theme.css is an
    embedded file, a parameter of the server. *)

From S2P Require Import Prelude GoLib GoUnicode GoHash GoNet GoUrl Schema World Logic Crypto Users Session Config ConfigLoad.

Definition q (s : string) : string := dquote +:+ s +:+ dquote.

(** None is the nil slice: nothing is set. *)
Definition BrandCSS (b : BrandConfig) : option string :=
  if str_eqb (PrimaryColor b) "" && str_eqb (PageBG b) "" && str_eqb (FontURL b) "" then None else
  let head := "/* generated from SESAMO_BRAND_* — layers over theme.css */" +:+ newline in
  let face :=
    if str_eqb (FontURL b) "" then "" else
    let format : string := if HasSuffix (ToLower (FontURL b)) ".woff2" then "woff2" else "woff" in
    "@font-face {" +:+ newline +:+ "  font-family: " +:+ q "SesamoBrand" +:+ ";" +:+ newline
    +:+ "  src: url(" +:+ q (FontURL b) +:+ ") format(" +:+ q format +:+ ");" +:+ newline
    +:+ "  font-display: swap;" +:+ newline +:+ "}" +:+ newline in
  let primary :=
    if str_eqb (PrimaryColor b) "" then "" else
    "  --sesamo-primary: " +:+ PrimaryColor b +:+ ";" +:+ newline in
  let page :=
    if str_eqb (PageBG b) "" then "" else
    if Contains (PageBG b) "gradient"
    then "  --sesamo-page-bg-image: " +:+ PageBG b +:+ ";" +:+ newline
    else "  --sesamo-bg: " +:+ PageBG b +:+ ";" +:+ newline in
  let font :=
    if str_eqb (FontURL b) "" then "" else
    "  --sesamo-font: " +:+ q "SesamoBrand" +:+ ", system-ui, sans-serif;" +:+ newline in
  Some (head +:+ face +:+ ":root {" +:+ newline +:+ primary +:+ page +:+ font +:+ "}" +:+ newline).

(** [len(s.brandCSS) > 0]. *)
Definition has_brand_css (b : BrandConfig) : bool :=
  match BrandCSS b with Some css => negb (str_eqb css "") | None => false end.

(** ** What validated branding can put into the stylesheet *)
Fixpoint count_byte (c : ascii) (s : string) : nat :=
  match s with
  | EmptyString => 0
  | String a r => (if Ascii.eqb a c then 1 else 0) + count_byte c r
  end.
Lemma count_byte_app c a b : count_byte c (a +:+ b) = (count_byte c a + count_byte c b)%nat.
Proof. induction a as [|x a IH]; [done|]. cbn. rewrite IH. lia. Qed.
Lemma count_byte_absent c (p : ascii → bool) s : str_forallb p s = true → p c = false → count_byte c s = 0%nat.
Proof.
  intros Hs Hc. induction s as [|a s IH]; [done|]. cbn in Hs. apply andb_true_iff in Hs as [Ha Hs].
  cbn. rewrite IH by done. destruct (Ascii.eqb_spec a c) as [->|]; [by rewrite Hc in Ha|done].
Qed.

(** The bytes that end a declaration, open or close a block, or quote. *)
Definition css_structure (c : ascii) : Prop :=
  c ∈ [";"%char; "{"%char; "}"%char; "/"%char; ":"%char; byte 34; "'"%char; byte 92; "<"%char; "@"%char].
Lemma css_structure_refused c : css_structure c → css_byte c = false.
Proof.
  unfold css_structure. intros Hc.
  repeat (apply elem_of_cons in Hc as [->|Hc]; [reflexivity|]). by apply elem_of_nil in Hc.
Qed.
Lemma brand_validate_values b :
  brand_validate b = Ok tt →
  str_forallb css_byte (PrimaryColor b) = true ∧ str_forallb css_byte (PageBG b) = true.
Proof.
  assert (Hv : ∀ v, negb (str_eqb v "") && negb (css_value_ok v) = false → str_forallb css_byte v = true).
  { intros v. unfold css_value_ok. destruct (str_eqb v "") eqn:E; [by apply str_eqb_true in E as ->|].
    cbn. by rewrite negb_false_iff. }
  unfold brand_validate. destruct (_ && negb (css_value_ok (PrimaryColor b))) eqn:E1; [done|].
  destruct (_ && negb (css_value_ok (PageBG b))) eqn:E2; [done|]. intros _. auto.
Qed.

Definition set_count (s : string) : nat := if str_eqb s "" then 0 else 1.
Definition values_set (b : BrandConfig) : nat := set_count (PrimaryColor b) + set_count (PageBG b).

(** Validated colours and backgrounds cannot break out of the generated
    stylesheet: without a custom font, brand.css is one comment and one
    block, with one declaration per value that is set and no quotes,
    whatever the values are. *)
Theorem brand_css_contained b css :
  brand_validate b = Ok tt → FontURL b = "" → BrandCSS b = Some css →
  count_byte "{"%char css = 1%nat ∧ count_byte "}"%char css = 1%nat ∧ count_byte "/"%char css = 2%nat
  ∧ count_byte ";"%char css = values_set b ∧ count_byte ":"%char css = (1 + values_set b)%nat
  ∧ count_byte (byte 34) css = 0%nat.
Proof.
  intros Hv Hf. unfold BrandCSS. rewrite Hf. cbn [str_eqb bool_decide decide]. intros Hcss.
  destruct (brand_validate_values b Hv) as [Hp Hg].
  assert (Hz : ∀ c, css_structure c → count_byte c (PrimaryColor b) = 0%nat ∧ count_byte c (PageBG b) = 0%nat).
  { intros c Hc%css_structure_refused. split; by eapply count_byte_absent. }
  assert (Hin : ∀ c, c ∈ ["{"%char; "}"%char; "/"%char; ";"%char; ":"%char; byte 34] → css_structure c).
  { unfold css_structure. set_solver. }
  destruct (str_eqb (PrimaryColor b) "" && _); [done|]. injection Hcss as <-.
  unfold values_set, set_count.
  split_and!;
    match goal with |- count_byte ?c _ = _ =>
      destruct (Hz c) as [Hz1 Hz2]; [apply Hin; set_solver|] end;
    (destruct (str_eqb (PrimaryColor b) ""); destruct (str_eqb (PageBG b) "");
     try destruct (Contains (PageBG b) "gradient"));
    repeat progress (cbn; rewrite ?count_byte_app, ?Hz1, ?Hz2); reflexivity.
Qed.
Lemma brand_css_contained_witness :
  count_byte ";"%char (default "" (BrandCSS (MkBrand "" "rgb(1, 2, 3)" "linear-gradient(red, blue)" ""))) = 2%nat.
Proof.
  apply (brand_css_contained (MkBrand "" "rgb(1, 2, 3)" "linear-gradient(red, blue)" "")); reflexivity.
Defined.

(** A validated font URL can: [url.Parse] accepts quotes, braces and
    semicolons in a path, and the URL is written as it is, so a font URL that
    passes the validation closes the string and adds a rule of its own. *)
Theorem font_url_breaks_out :
  let url := "https://x.com/f.woff2" +:+ dquote +:+ ");}body{display:none}@font-face{src:url(" +:+ dquote in
  let b := MkBrand "" "" "" url in
  brand_validate b = Ok tt ∧
  ∃ css, BrandCSS b = Some css ∧ Contains css "}body{display:none}" = true.
Proof. split; [reflexivity|]. eexists. split; reflexivity. Qed.
