(* ===== verification/Http.v ===== *)
(** * Http: src/internal/http/{errors,ratelimit,cookies}.go and the shared
    parts of server.go and enduser.go

    The response writer, the error shape, login rate limits, cookies, the
    CSRF pair, redirect targets, client addresses, and [auditedTx].  A
    handler is a computation [M unit] over a parsed request; the cookie is
    the [http.Cookie] handed to [http.SetCookie]. *)

From Stdlib Require Import QArith.
Close Scope Q_scope.
Open Scope Z_scope.
From S2P Require Import Prelude GoLib GoUnicode GoHash GoNet GoUrl Schema World Logic Crypto Users Session RateLimit AuditLog Config Ui.

(** ** The response writer *)
Definition update_response (f : response → response) : M unit := λ o w,
  (tt, w <| w_resp ::= f |>).

(** [w.Header().Set]: after [WriteHeader] the headers have been sent. *)
Definition setHeader (k v : string) : M unit := update_response (λ rs,
  match rs_status rs with
  | Some _ => rs
  | None => rs <| rs_headers ::= λ l,
      List.filter (λ kv, negb (EqualFold k (fst kv))) l ++ [(k, v)] |>
  end).
Definition http_SetCookie (c : cookie) : M unit := update_response (λ rs,
  match rs_status rs with
  | Some _ => rs
  | None => rs <| rs_cookies ::= λ l, l ++ [c] |>
  end).
(** Only the first status counts ([statusRecorder]). *)
Definition WriteHeader (status : Z) : M unit := update_response (λ rs,
  match rs_status rs with Some _ => rs | None => rs <| rs_status := Some status |> end).
(** A body without a status implies 200. *)
Definition Write (b : body) : M unit := update_response (λ rs,
  rs <| rs_status ::= λ st, Some (default 200 st) |> <| rs_body ::= λ l, l ++ [b] |>).

(** ** Metrics *)
Definition metricHTTPPanics : string := "sesamo_http_panics_total".
Definition metricOAuthExchangeErrors : string := "sesamo_oauth_exchange_errors_total".
Definition metricEmailQueueErrors : string := "sesamo_email_queue_errors_total".
Definition metricAuditWriteErrors : string := "sesamo_audit_write_errors_total".

(** ** errors.go *)
Definition codeInvalidCredentials : string := "invalid_credentials".
Definition codeInvalidRequest : string := "invalid_request".
Definition codeRateLimited : string := "rate_limited".
Definition codeUnauthorized : string := "unauthorized".
Definition codeForbidden : string := "forbidden".
Definition codeNotFound : string := "not_found".
Definition codeInternal : string := "internal_error".
Definition codeStateMismatch : string := "state_mismatch".
Definition codeOAuthFailed : string := "oauth_failed".
Definition codeCSRFFailed : string := "csrf_failed".
Definition stableErrorCodes : list string :=
  [codeInvalidCredentials; codeInvalidRequest; codeRateLimited; codeUnauthorized;
   codeForbidden; codeNotFound; codeInternal; codeStateMismatch; codeOAuthFailed;
   codeCSRFFailed].

Definition writeJSON (status : Z) (v : json) : M unit :=
  _ ← setHeader "Content-Type" "application/json; charset=utf-8";
  _ ← WriteHeader status;
  Write (BJson v).
Definition apiError (code message : string) : json :=
  JObj [("error", JObj [("code", JStr code); ("message", JStr message)])].
Definition writeError (status : Z) (code message : string) : M unit :=
  writeJSON status (apiError code message).
Definition internalError : M unit := writeError 500 codeInternal "Error interno.".

(** A panic that reaches [withRecover]: the handler is over; a 500 is
    written unless the response has begun. *)
Definition recovered : M unit := λ o w,
  (_ ← IncCounter metricHTTPPanics;
   match rs_status (w_resp w) with Some _ => mret tt | None => internalError end) o w.

Definition wantsJSON (r : request) : bool :=
  str_eqb (QueryGet r "mode") "json" || Contains (HeaderGet r "Accept") "application/json".

(** [map[string]string] payloads. *)
Definition json_strings (l : list (string * string)) : json :=
  JObj (map (λ kv, (fst kv, JStr (snd kv))) l).

(** ** net/http: [http.Redirect] *)
Definition http_Redirect (r : request) (url : string) (code : Z) : M unit := λ o w,
  let hadCT := negb (str_eqb (header_value (rs_headers (w_resp w)) "Content-Type") "") in
  let get := str_eqb (r_method r) "GET" in
  (_ ← setHeader "Location" (redirect_location (r_path r) url);
   _ ← (if negb hadCT && (get || str_eqb (r_method r) "HEAD")
        then setHeader "Content-Type" "text/html; charset=utf-8" else mret tt);
   _ ← WriteHeader code;
   if negb hadCT && get
   then Write (BHtml "redirect" [("href", JStr (redirect_url (r_path r) url))]) else mret tt) o w.

(** ** cookies.go: constants *)
Definition cookieOAuthState : string := "sesamo_oauth_state".
Definition cookiePKCE : string := "sesamo_pkce".
Definition cookiePostLogin : string := "sesamo_post_login".
Definition cookieCSRF : string := "sesamo_csrf".
Definition oauthCookieMaxAge : Z := 5 * 60.
Definition postLoginCookieMaxAge : Z := 15 * 60.
Definition csrfCookieMaxAge : Z := 60 * 60.
Definition csrfField : string := "csrf_token".
Definition csrfHeader : string := "X-CSRF-Token".

Definition cookieValue (r : request) (name : string) : string :=
  default "" (find_cookie (r_cookies r) name).

(** ** cookies.go: redirect targets *)
Definition safeInternalPath (p : string) : string :=
  match p with
  | String a r =>
      if negb (Ascii.eqb a "/"%char) then "/"
      else match r with
           | String b _ => if Ascii.eqb b "/"%char || Ascii.eqb b (byte 92) then "/" else p
           | EmptyString => p
           end
  | EmptyString => "/"
  end.

Definition is_control (c : ascii) : bool := let n := N_of_ascii c in ((n <? 32) || (n =? 127))%N.

Definition safeRedirectTarget (allowedOrigins : list string) (raw : string) : string :=
  if str_eqb raw "" then "/"
  else if negb (str_forallb (λ c, negb (is_control c)) raw) then "/"
  else if HasPrefix raw "/" then safeInternalPath raw
  else
    match url_Parse raw with
    | None => "/"
    | Some u =>
        if negb (str_eqb (Scheme u) "http") && negb (str_eqb (Scheme u) "https")
           || str_eqb (Host u) "" || HasUser u then "/"
        else
          let origin := Scheme u +:+ "://" +:+ ToLower (Host u) in
          if existsb (str_eqb origin) allowedOrigins then
            let target := origin +:+ safeInternalPath (EscapedPath u) in
            if str_eqb (RawQuery u) "" then target else target +:+ "?" +:+ RawQuery u
          else "/"
    end.

(** ** ratelimit.go: rules *)
Definition loginIPRule : Rule := MkRule 20 (20 # 60).
Definition loginIdentityRule : Rule := MkRule 5 (5 # 60).

Section server.
Context `{Postgres} (cfg : Config).

(** ** server.go *)
Definition clientIP (r : request) : string :=
  let direct := match SplitHostPort (r_remote_addr r) with
                | Some host => host | None => r_remote_addr r end in
  let xff := HeaderGet r "X-Forwarded-For" in
  if TrustProxy cfg && negb (str_eqb xff "")
  then TrimSpace (fst (fst (Cut xff ","%char))) else direct.

(** False: the evidence could not be written, a 500 was, and the caller stops. *)
Definition recordAudit (r : request) (e : Event) (actorUser : string)
    (detail : list (string * json)) : M bool :=
  res ← Record (AuditStrict cfg) e actorUser (clientIP r) detail;
  match res with
  | Ok _ => mret true
  | Err _ =>
      _ ← IncCounter metricAuditWriteErrors;
      _ ← internalError;
      mret false
  end.

(** ** ratelimit.go *)
Definition allow (key : string) (rule : Rule) : M bool :=
  r ← Allow key rule;
  match r with
  | Err _ => mret true
  | Ok (true, _) => mret true
  | Ok (false, retry) =>
      let secs := Z.max 1 (Z.quot retry Second) in
      _ ← setHeader "Retry-After" (Itoa secs);
      _ ← writeError 429 codeRateLimited "Demasiados intentos. Probá más tarde.";
      mret false
  end.
Definition checkLoginRate (r : request) (identity : string) : M bool :=
  ok ← allow ("login_ip:" +:+ clientIP r) loginIPRule;
  if negb ok then mret false else
  allow ("login_id:" +:+ identity) loginIdentityRule.

(** ** cookies.go *)
Definition setSessionCookie (token : string) (expires : Z) : M unit :=
  http_SetCookie (MkCookie (CookieName cfg) token "/" (CookieDomain cfg) (Some expires) 0
    true (CookieSecure cfg) true).
Definition clearSessionCookie : M unit :=
  http_SetCookie (MkCookie (CookieName cfg) "" "/" (CookieDomain cfg) (Some 0) (-1)
    true (CookieSecure cfg) true).
Definition setTransientTTL (name value : string) (maxAge : Z) : M unit :=
  http_SetCookie (MkCookie name value "/" "" None maxAge true (CookieSecure cfg) true).
Definition setTransient (name value : string) : M unit :=
  setTransientTTL name value oauthCookieMaxAge.
Definition clearTransient (name : string) : M unit :=
  http_SetCookie (MkCookie name "" "/" "" None (-1) true (CookieSecure cfg) true).

Definition issueCSRFToken : M string :=
  token ← GenerateToken;
  _ ← setTransientTTL cookieCSRF token csrfCookieMaxAge;
  mret token.

(** What every page of ui.go is given. *)
Definition page_chrome : list (string * json) :=
  [("BaseURL", JStr (BaseURL cfg)); ("ThemeCSSURL", JStr (ThemeCSSURL cfg));
   ("BrandCSS", JBool (has_brand_css (Brand cfg))); ("LogoURL", JStr (LogoURL (Brand cfg)))].
Definition renderMessage (status : Z) (title body : string) : M unit :=
  _ ← setHeader "Content-Type" "text/html; charset=utf-8";
  _ ← WriteHeader status;
  Write (BHtml "message.html" (page_chrome ++ [("Title", JStr title); ("Body", JStr body)])).

(** The request half of the double-submit pair. *)
Definition csrf_sent (r : request) : string :=
  let sent := FormValue r csrfField in
  if str_eqb sent "" then HeaderGet r csrfHeader else sent.
Definition csrf_ok (r : request) : bool :=
  let cookie := cookieValue r cookieCSRF in
  let sent := csrf_sent r in
  negb (str_eqb cookie "") && negb (str_eqb sent "") && SafeEqual cookie sent.
Definition checkCSRF (r : request) : M bool :=
  if r_form_error r then
    _ ← writeError 400 codeInvalidRequest "Formulario ilegible.";
    mret false
  else if csrf_ok r then mret true
  else if wantsJSON r then
    _ ← writeError 403 codeCSRFFailed "Token CSRF inválido o ausente.";
    mret false
  else
    _ ← renderMessage 403 "No pudimos procesar el formulario"
      "El formulario venció o no viene de esta página. Volvé a cargarla y probá de nuevo.";
    mret false.

Definition safe_target (raw : string) : string := safeRedirectTarget (RedirectOrigins cfg) raw.
Definition captureRedirect (r : request) : M unit :=
  let raw := QueryGet r "redirect_to" in
  if str_eqb raw "" then mret tt
  else setTransientTTL cookiePostLogin (safe_target raw) postLoginCookieMaxAge.

(** ** enduser.go: action and evidence in one transaction *)
Record auditRecord := MkAuditRecord {
  ar_event : option Event;      (* None: the zero event, nothing to record *)
  ar_actor : string;
  ar_detail : list (string * json)
}.
Definition no_record : auditRecord := MkAuditRecord None "" [].

(** The action returns the record and what its closure captured. *)
Definition auditedTx {A} (ip : string) (action : M (res err (auditRecord * A)))
  : M (res err A) :=
  with_tx (
    '(rec, a) ←? action;
    _ ←? (match ar_event rec with
          | Some e =>
              if AuditStrict cfg then
                r ← RecordTx (AuditStrict cfg) e (ar_actor rec) ip (ar_detail rec);
                match r with
                | Ok _ => mret (Ok tt)
                | Err e => _ ← IncCounter metricAuditWriteErrors; mret (Err (EAuditWrite e))
                end
              else mret (Ok tt)
          | None => mret (Ok tt)
          end);
    _ ←? Commit;
    _ ← (match ar_event rec with
         | Some e =>
             if AuditStrict cfg then mret (Ok tt)
             else Record (AuditStrict cfg) e (ar_actor rec) ip (ar_detail rec)
         | None => mret (Ok tt)
         end);
    mret (Ok a)).
End server.

(** ** What the pieces touch *)
Lemma update_response_sees_db f : preserves (sees w_db) (update_response f).
Proof. by intros o w. Qed.
Lemma update_response_sees_tx f : preserves (sees w_tx) (update_response f).
Proof. by intros o w. Qed.
#[export] Hint Resolve update_response_sees_db update_response_sees_tx : preserves.

(** Writing the response leaves the database and the open transaction alone. *)
Definition responds {A} (m : M A) : Prop := preserves (sees w_db) m ∧ preserves (sees w_tx) m.
Lemma responds_bind {A B} (m : M A) (k : A → M B) :
  responds m → (∀ a, responds (k a)) → responds (m ≫= k).
Proof.
  intros [Hd Ht] Hk. split; apply preserves_bind; try exact _; try done; intros a; apply Hk.
Qed.
Lemma responds_update f : responds (update_response f).
Proof. split; auto with preserves. Qed.
Lemma responds_ret {A} (a : A) : responds (mret a).
Proof. split; apply preserves_ret; exact _. Qed.
Create HintDb responds.
#[export] Hint Resolve responds_update responds_ret : responds.
Ltac solve_responds :=
  repeat first
    [ apply responds_bind; [|intros ?]
    | lazymatch goal with |- responds (match ?x with _ => _ end) => destruct x eqn:? end
    | solve [eauto with responds] ].

Lemma responds_setHeader k v : responds (setHeader k v).
Proof. apply responds_update. Qed.
Lemma responds_WriteHeader st : responds (WriteHeader st).
Proof. apply responds_update. Qed.
Lemma responds_Write b : responds (Write b).
Proof. apply responds_update. Qed.
Lemma responds_SetCookie c : responds (http_SetCookie c).
Proof. apply responds_update. Qed.
Lemma responds_IncCounter n : responds (IncCounter n).
Proof. split; auto with preserves. Qed.
Lemma responds_tick {A} (f : oracle → nat → A) : responds (tick f).
Proof. split; auto with preserves. Qed.
#[export] Hint Resolve responds_setHeader responds_WriteHeader responds_Write responds_SetCookie
  responds_IncCounter responds_tick : responds.
Lemma responds_writeJSON st v : responds (writeJSON st v).
Proof. unfold writeJSON. solve_responds. Qed.
#[export] Hint Resolve responds_writeJSON : responds.
Lemma responds_writeError st c msg : responds (writeError st c msg).
Proof. apply responds_writeJSON. Qed.
Lemma responds_Redirect r url code : responds (http_Redirect r url code).
Proof.
  split; intros o w; unfold http_Redirect;
    match goal with |- sees _ w (snd (?m o w)) => cut (responds m); [by intros [H1 H2]|] end;
    solve_responds.
Qed.
#[export] Hint Resolve responds_writeError responds_Redirect : responds.
Lemma responds_internalError : responds internalError.
Proof. apply responds_writeError. Qed.
#[export] Hint Resolve responds_internalError : responds.
Lemma responds_renderMessage cfg st t b : responds (renderMessage cfg st t b).
Proof. unfold renderMessage. solve_responds. Qed.
Lemma responds_recovered : responds recovered.
Proof.
  split; intros o w; unfold recovered;
    match goal with |- sees _ w (snd (?m o w)) => cut (responds m); [by intros [H1 H2]|] end;
    solve_responds.
Qed.
#[export] Hint Resolve responds_renderMessage responds_recovered : responds.
Lemma responds_checkCSRF cfg r : responds (checkCSRF cfg r).
Proof. unfold checkCSRF. solve_responds. Qed.
Lemma responds_GenerateToken : responds GenerateToken.
Proof. split; by intros o w. Qed.
#[export] Hint Resolve responds_checkCSRF responds_GenerateToken : responds.
Lemma responds_issueCSRFToken cfg : responds (issueCSRFToken cfg).
Proof. unfold issueCSRFToken, setTransientTTL. solve_responds. Qed.
#[export] Hint Resolve responds_issueCSRFToken : responds.
Lemma responds_keeps {A} I (m : M A) : responds m → preserves (keeps I) m.
Proof. intros [Hd Ht] o w [H1 H2]. split; [rewrite (Hd o w)|rewrite (Ht o w)]; done. Qed.

(** ** The response a handler leaves *)

(** The response [m] leaves is a function of the one it found. *)
Definition answers {A} (m : M A) (f : response → response) : Prop :=
  ∀ o w, w_resp (snd (m o w)) = f (w_resp w).
Definition resp_body (st : Z) (ct : string) (b : body) (rs : response) : response :=
  match rs_status rs with
  | Some _ => rs <| rs_body ::= λ l, l ++ [b] |>
  | None => MkResponse (Some st)
      (List.filter (λ kv, negb (EqualFold "Content-Type" (fst kv))) (rs_headers rs)
       ++ [("Content-Type", ct)]) (rs_cookies rs) (rs_body rs ++ [b])
  end.
Definition resp_json (st : Z) (v : json) : response → response :=
  resp_body st "application/json; charset=utf-8" (BJson v).
Definition resp_error (st : Z) (code message : string) : response → response :=
  resp_json st (apiError code message).

Lemma writeJSON_answers st v : answers (writeJSON st v) (resp_json st v).
Proof.
  intros o [d t i [[st'|] h c b] m]; unfold writeJSON, resp_json, resp_body; done.
Qed.
Lemma writeError_answers st c msg : answers (writeError st c msg) (resp_error st c msg).
Proof. apply writeJSON_answers. Qed.
Definition message_body (cfg : Config) (title text : string) : body :=
  BHtml "message.html" (page_chrome cfg ++ [("Title", JStr title); ("Body", JStr text)]).
Lemma renderMessage_answers cfg st t b :
  answers (renderMessage cfg st t b)
    (resp_body st "text/html; charset=utf-8" (message_body cfg t b)).
Proof. intros o [d tx i [[st'|] h c bs] m]; done. Qed.

(** A response not begun yet. *)
Definition fresh (rs : response) : Prop := rs_status rs = None ∧ rs_body rs = [].
Lemma resp_body_fresh st ct b rs :
  fresh rs → rs_status (resp_body st ct b rs) = Some st ∧ rs_body (resp_body st ct b rs) = [b].
Proof. intros [Hs Hb]. unfold resp_body. rewrite Hs, Hb. done. Qed.

Lemma resp_error_status st c msg rs : fresh rs → rs_status (resp_error st c msg rs) = Some st.
Proof. intros Hf. by apply resp_body_fresh. Qed.

(** ** Action and evidence *)

(** What the tables may be once the action's transaction [t] is committed:
    in strict mode they hold the evidence; in best-effort mode they may. *)
Definition with_evidence `{Postgres} (rec : auditRecord) (ip : string) (d d' : db) : Prop :=
  match ar_event rec with
  | None => d' = d
  | Some e => ∃ at_ actor, d' = d <| audit_log ::= λ l,
      l ++ [MkAudit at_ actor e (canonical_ip ip) (ar_detail rec)] |>
  end.
Definition committed `{Postgres} (strict : bool) (rec : auditRecord) (ip : string) (d d' : db) : Prop :=
  with_evidence rec ip d d' ∨ (strict = false ∧ d' = d).

Lemma sql_insert_audit_inv `{Postgres} e actor ip dt now d x d' :
  sql_insert_audit e actor ip dt now d = Some (x, d') →
  ∃ a, d' = d <| audit_log ::= λ l, l ++ [MkAudit now a e ip dt] |>.
Proof.
  unfold sql_insert_audit, with_uuid, audit_entry.
  destruct (str_eqb actor ""); [|destruct (uuid_in actor); [|done]]; intros [= <- <-]; eauto.
Qed.

Lemma RecordTx_strict `{Postgres} e actor ip dt o w w' :
  RecordTx true e actor ip dt o w = (Ok tt, w') →
  ∃ t a, w_tx w = Some t ∧ tx_aborted t = false ∧ w_db w' = w_db w ∧
    w_tx w' = Some (t <| tx_db := (tx_db t) <| audit_log ::= λ l,
      l ++ [MkAudit (tx_now t) a e (canonical_ip ip) dt] |> |>).
Proof.
  unfold RecordTx, record. rewrite bind_run. case_exec x w1 Ex. rewrite ret_run.
  destruct x as [[]|]; [|done]. intros [= <-]. apply exec_tx_ok in Ex as (t & d & Ht & Ha & Hs & ->).
  apply sql_insert_audit_inv in Hs as (a & ->). exists t, a. by split_and!.
Qed.

Lemma Record_outcome `{Postgres} e actor ip dt o w :
  let w' := snd (Record false e actor ip dt o w) in
  w_tx w' = w_tx w ∧ (w_db w' = w_db w ∨ ∃ at_ a, w_db w' = (w_db w) <| audit_log ::= λ l,
    l ++ [MkAudit at_ a e (canonical_ip ip) dt] |>).
Proof.
  unfold Record, record. rewrite bind_run. cbn [fst snd]. rewrite ret_run. cbn [snd]. split.
  - apply exec_Pool_sees_tx.
  - apply (exec_pool_db (λ d, d = w_db w ∨ ∃ at_ a, d = (w_db w) <| audit_log ::= λ l,
      l ++ [MkAudit at_ a e (canonical_ip ip) dt] |>)); [by left|].
    intros now a d (x & ->)%sql_insert_audit_inv. right. eauto.
Qed.

(** A commit: refused, or applied whatever is answered. *)
Lemma Commit_cases o w t :
  w_tx w = Some t →
  let '(r, w') := Commit o w in
  w_tx w' = None ∧
  ((∃ e, r = Err e) ∧ w_db w' = w_db w
   ∨ tx_aborted t = false ∧ w_db w' = tx_db t ∧ (r = Ok tt ∨ r = Err EDb)).
Proof.
  intros Ht. unfold Commit. rewrite Ht. destruct (tx_aborted t) eqn:Ea; [by split; [|left; split; [eexists|]]|].
  destruct (o_outcome o (w_step w)); (split; [done|]).
  - right. by split_and!; [..|left].
  - left. by split; [eexists|].
  - right. by split_and!; [..|right].
Qed.

Lemma Begin_cases o w r w0 :
  Begin o w = (r, w0) →
  w_db w0 = w_db w ∧ (is_ok r = false → w_tx w0 = w_tx w).
Proof. unfold Begin. destruct (o_outcome o (w_step w)); intros [= <- <-]; by split. Qed.

Section audited.
Context `{Postgres} (cfg : Config) {A : Type} (ip : string).
Context (action : M (res err (auditRecord * A))) (Hact : preserves (sees w_db) action).

(** The statements of [auditedTx] after the action. *)
Definition conclude (rec : auditRecord) (a : A) : M (res err A) :=
  _ ←? (match ar_event rec with
        | Some e =>
            if AuditStrict cfg then
              r ← RecordTx (AuditStrict cfg) e (ar_actor rec) ip (ar_detail rec);
              match r with
              | Ok _ => mret (Ok tt)
              | Err e => _ ← IncCounter metricAuditWriteErrors; mret (Err (EAuditWrite e))
              end
            else mret (Ok tt)
        | None => mret (Ok tt)
        end);
  _ ←? Commit;
  _ ← (match ar_event rec with
       | Some e =>
           if AuditStrict cfg then mret (Ok tt)
           else Record (AuditStrict cfg) e (ar_actor rec) ip (ar_detail rec)
       | None => mret (Ok tt)
       end);
  mret (Ok a).

Lemma conclude_cases rec a o w t :
  w_tx w = Some t →
  let out := conclude rec a o w in
  (w_db (snd out) = w_db w ∧ is_ok (fst out) = false) ∨
  (tx_aborted t = false ∧ committed (AuditStrict cfg) rec ip (tx_db t) (w_db (snd out))
   ∧ (fst out = Ok a ∨ fst out = Err EDb)).
Proof.
  intros Ht. unfold conclude, committed, with_evidence. rewrite bindE_run.
  destruct (ar_event rec) as [e|].
  2:{ rewrite ret_run. cbn [fst snd]. rewrite bindE_run. pose proof (Commit_cases o w t Ht) as HC.
      destruct (Commit o w) as [r w1]. cbn [fst snd]. destruct HC as [_ [[[e ->] Hd]|(Ha & Hd & [-> | ->])]].
      - by left.
      - right. rewrite bind_run, !ret_run. cbn [fst snd]. auto.
      - right. cbn [fst snd]. auto. }
  destruct (AuditStrict cfg).
  - rewrite bind_run. destruct (RecordTx true e _ ip _ o w) as [[[]|e'] w1] eqn:ER; cbn [fst snd].
    + apply RecordTx_strict in ER as (t' & ac & Ht' & Ha & Hd & Ht1).
      rewrite Ht in Ht'. injection Ht' as <-. rewrite ret_run. cbn [fst snd]. rewrite bindE_run.
      pose proof (Commit_cases o w1 _ Ht1) as HC. destruct (Commit o w1) as [r w2]. cbn [fst snd].
      destruct HC as [_ [[[e' ->] Hd2]|(_ & Hd2 & Hr)]]; [left; cbn [fst snd]; by rewrite Hd2, Hd|].
      right. split; [done|]. destruct Hr as [-> | ->]; [rewrite bind_run, !ret_run|]; cbn [fst snd];
        rewrite Hd2; (split; [left; by eexists _, _|auto]).
    + rewrite bind_run, ret_run. cbn [fst snd]. left.
      assert (HR : preserves (sees w_db) (RecordTx true e (ar_actor rec) ip (ar_detail rec)))
        by (unfold RecordTx, record; solve_preserves).
      specialize (HR o w). rewrite ER in HR. cbn [snd] in HR. split; [|done]. apply HR.
  - rewrite ret_run. cbn [fst snd]. rewrite bindE_run. pose proof (Commit_cases o w t Ht) as HC.
    destruct (Commit o w) as [r w1]. cbn [fst snd]. destruct HC as [_ [[[e' ->] Hd]|(Ha & Hd & [-> | ->])]].
    + by left.
    + right. rewrite bind_run, ret_run. cbn [fst snd]. split; [done|].
      destruct (Record_outcome e (ar_actor rec) ip (ar_detail rec) o w1) as [_ [-> | (at_ & ac & ->)]];
        rewrite Hd; [by auto|]. split; [|by left]. left. by eexists _, _.
    + right. cbn [fst snd]. rewrite Hd. auto.
Qed.

Lemma conclude_no_tx rec a o w :
  w_tx w = None →
  w_db (snd (conclude rec a o w)) = w_db w ∧ is_ok (fst (conclude rec a o w)) = false.
Proof.
  intros Ht. unfold conclude. rewrite bindE_run.
  assert (HC : Commit o w = (Err EDb, w <| w_step := S (w_step w) |> <| w_tx := None |>))
    by (unfold Commit; by rewrite Ht).
  destruct (ar_event rec) as [e|]; [|rewrite ret_run; cbn [fst snd]; by rewrite bindE_run, HC].
  destruct (AuditStrict cfg); [|rewrite ret_run; cbn [fst snd]; by rewrite bindE_run, HC].
  unfold RecordTx, record. rewrite !bind_run. unfold exec, exec_tx. by rewrite Ht.
Qed.

(** When the database answers, the evidence is there in either mode. *)
Lemma conclude_recorded rec a o w t e :
  healthy o → w_tx w = Some t → tx_aborted t = false → ar_event rec = Some e →
  ar_actor rec = "" ∨ is_Some (uuid_in (ar_actor rec)) →
  with_evidence rec ip (tx_db t) (w_db (snd (conclude rec a o w))).
Proof.
  intros Ho Ht Ha He Hact'. destruct w as [d tx i rs m]. cbn [w_tx] in Ht. subst tx.
  destruct t as [d1 ab now]. cbn [tx_aborted tx_db] in *. subst ab.
  assert (Hs : ∀ now' d', ∃ ac, sql_insert_audit e (ar_actor rec) (canonical_ip ip) (ar_detail rec) now' d'
    = Some (tt, d' <| audit_log ::= λ l, l ++ [MkAudit now' ac e (canonical_ip ip) (ar_detail rec)] |>)).
  { intros now' d'. unfold sql_insert_audit, with_uuid, audit_entry. destruct (str_eqb (ar_actor rec) "") eqn:E; [eauto|].
    destruct Hact' as [H0|[k ->]]; [by rewrite H0 in E|eauto]. }
  unfold conclude, with_evidence. rewrite He. destruct (AuditStrict cfg); unfold RecordTx, Record, record.
  - destruct (Hs now d1) as [ac Hac]. exists now, ac. run Ho.
    rewrite (exec_Tx_lit _ Ho _ _ d d1 _ now i rs m Hac). cbn [fst snd]. run Ho. done.
  - run Ho. destruct (Hs (o_dbclock o (S i)) d1) as [ac Hac]. exists (o_dbclock o (S i)), ac.
    rewrite (exec_Pool_lit _ Ho _ _ d1 _ None (S i) rs m Hac). cbn [fst snd]. run Ho. done.
Qed.

(** Either nothing is committed, or the whole action is. *)
Lemma auditedTx_cases o w :
  let out := auditedTx cfg ip action o w in
  let run := action o (snd (Begin o w)) in
  (w_db (snd out) = w_db w ∧ is_ok (fst out) = false) ∨
  (∃ rec a t, fst run = Ok (rec, a) ∧ w_tx (snd run) = Some t ∧ tx_aborted t = false
     ∧ committed (AuditStrict cfg) rec ip (tx_db t) (w_db (snd out))
     ∧ (fst out = Ok a ∨ fst out = Err EDb)).
Proof.
  unfold auditedTx, with_tx. rewrite bindE_run.
  destruct (Begin o w) as [[[]|e] w0] eqn:EB; cbn [fst snd].
  all: apply Begin_cases in EB as [Hd0 _].
  2: by left.
  rewrite bind_run, bindE_run. pose proof (Hact o w0) as Hd1. unfold sees in Hd1.
  destruct (action o w0) as [[[rec a]|e] w1]; cbn [fst snd] in *.
  2:{ left. rewrite bind_run, ret_run. unfold Rollback. cbn. by rewrite Hd1. }
  fold (conclude rec a). rewrite bind_run, ret_run. unfold Rollback. cbn [fst snd w_db].
  rewrite <-Hd0, <-Hd1. destruct (w_tx w1) as [t|] eqn:Et.
  - destruct (conclude_cases rec a o w1 t Et) as [H1|(Ha & Hc & Hr)]; [by left|].
    right. exists rec, a, t. by split_and!.
  - left. by apply conclude_no_tx.
Qed.

Lemma auditedTx_recorded o w rec a t e :
  healthy o → let run := action o (snd (Begin o w)) in
  fst run = Ok (rec, a) → w_tx (snd run) = Some t → tx_aborted t = false → ar_event rec = Some e →
  ar_actor rec = "" ∨ is_Some (uuid_in (ar_actor rec)) →
  with_evidence rec ip (tx_db t) (w_db (snd (auditedTx cfg ip action o w))).
Proof.
  intros Ho run Hr Ht Ha He Hac. subst run. unfold auditedTx, with_tx. rewrite bindE_run.
  destruct (Begin o w) as [[[]|er] w0] eqn:EB; cbn [fst snd] in *.
  2:{ unfold Begin in EB. rewrite Ho in EB. done. }
  rewrite bind_run, bindE_run. destruct (action o w0) as [x w1]. cbn [fst snd] in *. subst x.
  fold (conclude rec a). rewrite bind_run, ret_run. unfold Rollback. cbn [fst snd w_db].
  by apply (conclude_recorded rec a o w1 t e).
Qed.
End audited.

Lemma record_sees_resp `{Postgres} strict ex e a ip dt :
  preserves (sees w_resp) (record strict ex e a ip dt).
Proof. unfold record. solve_preserves. Qed.
#[export] Hint Resolve record_sees_resp : preserves.
Lemma auditedTx_sees_resp `{Postgres} {A} cfg ip (action : M (res err (auditRecord * A))) :
  preserves (sees w_resp) action → preserves (sees w_resp) (auditedTx cfg ip action).
Proof. intros Ha. unfold auditedTx, RecordTx, Record. apply with_tx_sees_resp. solve_preserves. Qed.

(** A transaction begins with the committed tables. *)
Lemma Begin_ok o w r w0 t :
  Begin o w = (r, w0) → w_tx w = None → w_tx w0 = Some t → r = Ok tt ∧ tx_db t = w_db w.
Proof.
  unfold Begin. intros HB Hw Ht. destruct (o_outcome o (w_step w)); injection HB as <- <-;
    cbn in Ht; [by injection Ht as <-|by rewrite Hw in Ht..].
Qed.

(** Nothing happened, or the action and the row that evidences it did. *)
Definition all_or_nothing `{Postgres} {A} (ip : string) (action : M (res err (auditRecord * A)))
    (o : oracle) (w : world) (r : res err A) (w' : world) : Prop :=
  (w_db w' = w_db w ∧ is_ok r = false) ∨
  (∃ rec a w1 t, action o (snd (Begin o w)) = (Ok (rec, a), w1) ∧ w_tx w1 = Some t
     ∧ with_evidence rec ip (tx_db t) (w_db w') ∧ (r = Ok a ∨ r = Err EDb)).

(** C14. No evidence, no action: in strict mode, whatever the database
    answers, the transaction of an audited action leaves the tables exactly
    as they were, or with everything the action did and the row that
    evidences it; only a commit whose answer was lost can do the second and
    report an error. *)
Theorem auditedTx_strict `{Postgres} {A} cfg ip (action : M (res err (auditRecord * A))) o w :
  preserves (sees w_db) action → AuditStrict cfg = true →
  let '(r, w') := auditedTx cfg ip action o w in all_or_nothing ip action o w r w'.
Proof.
  intros Hact Hs. pose proof (auditedTx_cases cfg ip action Hact o w) as Hc.
  destruct (auditedTx cfg ip action o w) as [r w']. cbn [fst snd] in Hc.
  destruct Hc as [Hc|(rec & a & t & Hf & Ht & _ & Hd & Hr)]; [by left|]. right.
  rewrite Hs in Hd. destruct Hd as [Hd|[? _]]; [|done].
  destruct (action o (snd (Begin o w))) as [x w1]. cbn [fst snd] in *. subst x.
  exists rec, a, w1, t. by split_and!.
Qed.

Definition toy_action : M (res err (auditRecord * unit)) :=
  _ ←? exec Tx (λ _ d, Some (tt, d <| sessions := ∅ |>));
  mret (Ok (MkAuditRecord (Some Logout) "" [], tt)).
Lemma auditedTx_strict_witness :
  let '(r, w') := auditedTx (toy_config <| AuditStrict := true |>) "" toy_action
                    (oracle_at 1) (world_of empty_db) in
  all_or_nothing "" toy_action (oracle_at 1) (world_of empty_db) r w'.
Proof.
  apply (auditedTx_strict (toy_config <| AuditStrict := true |>)); [|done].
  unfold toy_action. solve_preserves.
Defined.

(** The best-effort mode differs in one thing: the action may be committed
    without its evidence, never the other way round. *)
Lemma auditedTx_best_effort `{Postgres} {A} cfg ip (action : M (res err (auditRecord * A))) o w :
  preserves (sees w_db) action →
  let '(r, w') := auditedTx cfg ip action o w in
  w_db w' = w_db w ∨
  (∃ rec a t, fst (action o (snd (Begin o w))) = Ok (rec, a)
     ∧ w_tx (snd (action o (snd (Begin o w)))) = Some t
     ∧ committed (AuditStrict cfg) rec ip (tx_db t) (w_db w')).
Proof.
  intros Hact. pose proof (auditedTx_cases cfg ip action Hact o w) as Hc.
  destruct (auditedTx cfg ip action o w) as [r w']. cbn [fst snd] in Hc.
  destruct Hc as [[Hc _]|(rec & a & t & Hf & Ht & _ & Hd & Hr)]; [by left|]. right. by exists rec, a, t.
Qed.

(** ** Redirect targets *)

(** A path a browser resolves on this origin: no control character (a tab
    would be dropped), one slash, then neither a slash nor a backslash. *)
Definition rooted_path (p : string) : bool :=
  str_forallb not_ctl p &&
  match p with
  | String a r => Ascii.eqb a "/"%char &&
      match r with
      | String b _ => negb (Ascii.eqb b "/"%char || Ascii.eqb b (byte 92))
      | EmptyString => true
      end
  | EmptyString => false
  end.
Lemma safeInternalPath_rooted p : str_forallb not_ctl p = true → rooted_path (safeInternalPath p) = true.
Proof.
  intros Hp. unfold safeInternalPath. destruct p as [|a r]; [done|].
  destruct (Ascii.eqb a "/"%char) eqn:Ea; [|done]. cbn [negb]. unfold rooted_path.
  destruct r as [|b r']; [by rewrite Hp, Ea|].
  destruct (Ascii.eqb b "/"%char || Ascii.eqb b (byte 92)) eqn:E; [done|]. by rewrite Hp, Ea, E.
Qed.
Lemma safeInternalPath_keeps p : rooted_path p = true → safeInternalPath p = p.
Proof.
  unfold rooted_path, safeInternalPath. destruct p as [|a [|b r]]; [done|..]; intros [_ [-> Hb]%andb_true_iff]%andb_true_iff;
    [done|]. apply negb_true_iff in Hb. by rewrite Hb.
Qed.
(** C18. A validated redirect target cannot leave the trust boundary: it is a
    path on this origin, or one of the allowed origins followed by a path and
    perhaps a query, and neither path nor query holds a control character, so
    that the host a browser reads off the target is the allowed one; and a
    path that is fine is kept as it is. *)
Theorem safeRedirectTarget_safe allowed raw :
  let t := safeRedirectTarget allowed raw in
  (rooted_path t = true ∨
   ∃ origin path rest, origin ∈ allowed ∧ rooted_path path = true ∧ t = origin +:+ path +:+ rest
     ∧ (rest = "" ∨ HasPrefix rest "?" = true ∧ str_forallb not_ctl rest = true))
  ∧ (rooted_path raw = true → t = raw).
Proof.
  split.
  2:{ intros Hr. unfold safeRedirectTarget. pose proof Hr as Hr'. unfold rooted_path in Hr'.
      apply andb_true_iff in Hr' as [Hc Hp]. destruct raw as [|a r]; [done|]. apply andb_true_iff in Hp as [Ha _].
      change (str_forallb (λ c, negb (is_control c)) (String a r)) with (str_forallb not_ctl (String a r)).
      rewrite Hc. cbn [negb]. apply Ascii.eqb_eq in Ha as ->.
      change (str_eqb (String "/" r) "") with false. assert (HasPrefix (String "/" r) "/" = true) as -> by by destruct r.
      by apply safeInternalPath_keeps. }
  unfold safeRedirectTarget. destruct (str_eqb raw ""); [by left|].
  destruct (str_forallb _ raw) eqn:Hc; [|by left]. cbn [negb].
  destruct (HasPrefix raw "/"); [left; by apply safeInternalPath_rooted|].
  destruct (url_Parse raw) as [u|] eqn:EU; [|by left].
  destruct (_ || HasUser u); [by left|].
  destruct (existsb _ allowed) eqn:E; [|by left].
  apply existsb_exists in E as (origin & Hin & ->%str_eqb_true). right.
  pose proof (safeInternalPath_rooted _ (EscapedPath_not_ctl u)) as Hp.
  exists origin, (safeInternalPath (EscapedPath u)).
  destruct (str_eqb (RawQuery u) "").
  - exists "". rewrite str_app_nil. split_and!; [by apply list_elem_of_In|done..|by left].
  - exists ("?" +:+ RawQuery u).
    split_and!; [by apply list_elem_of_In|done|by rewrite str_app_assoc|right].
    split; [done|]. exact (url_Parse_query _ _ EU).
Qed.
Lemma safeRedirectTarget_safe_witness :
  safeRedirectTarget [] "/app?tab=1" = "/app?tab=1"
  ∧ safeRedirectTarget [] ("/" +:+ String (byte 9) "/evil.com") = "/".
Proof.
  split; [|vm_compute; reflexivity].
  apply (safeRedirectTarget_safe [] "/app?tab=1"). vm_compute. reflexivity.
Defined.

(** The boundary holds for the target, not for the Location header:
    [http.Redirect] cleans the path of a target that passed the validation,
    and "/./\evil.com" leaves as "/\evil.com", which a browser reads as
    another host. *)
Theorem redirect_cleans_into_backslash :
  let raw := "/./" +:+ String (byte 92) "evil.com" in
  safeRedirectTarget [] raw = raw ∧ rooted_path raw = true
  ∧ redirect_location "/login" raw = "/" +:+ String (byte 92) "evil.com"
  ∧ rooted_path (redirect_location "/login" raw) = false.
Proof. by vm_compute. Qed.

(** ** What evidence and rate limits leave alone: everything but their tables *)
Definition core (d : db) : db := d <| audit_log := [] |> <| buckets := ∅ |>.
Definition quiet (c d : db) : Prop := core d = c.

Lemma sql_refill_quiet c key rule : stmt_ok (quiet c) (sql_refill key rule).
Proof. by intros now d a d' Hd [= <- <-]. Qed.
Lemma sql_spend_quiet c key : stmt_ok (quiet c) (sql_spend key).
Proof. by intros now d a d' Hd [= <- <-]. Qed.
Lemma read_quiet {A} c (f : Z → db → A) : stmt_ok (quiet c) (λ now d, Some (f now d, d)).
Proof. by intros now d a d' Hd [= <- <-]. Qed.
#[export] Hint Resolve sql_refill_quiet sql_spend_quiet read_quiet : preserves.

Section quiet.
Context `{Postgres} (cfg : Config) (c : db).

Lemma Allow_quiet key rule : preserves (keeps (quiet c)) (Allow key rule).
Proof. unfold Allow. apply with_tx_keeps. solve_preserves. Qed.
Lemma record_quiet strict ex e a ip dt : preserves (keeps (quiet c)) (record strict ex e a ip dt).
Proof.
  unfold record. pose proof (sql_insert_audit_ok (quiet c) e a (canonical_ip ip) dt
    (λ d l Hd, Hd)). solve_preserves.
Qed.
Hint Resolve Allow_quiet record_quiet : preserves.
Lemma responds_quiet {A} (m : M A) : responds m → preserves (keeps (quiet c)) m.
Proof. apply responds_keeps. Qed.
Hint Extern 3 (preserves (keeps (quiet _)) _) => apply responds_quiet; solve [solve_responds] : preserves.
Lemma recordAudit_quiet r e a dt : preserves (keeps (quiet c)) (recordAudit cfg r e a dt).
Proof. unfold recordAudit, Record. solve_preserves. Qed.
Lemma allow_quiet key rule : preserves (keeps (quiet c)) (allow key rule).
Proof. unfold allow. solve_preserves. Qed.
Hint Resolve allow_quiet : preserves.
Lemma checkLoginRate_quiet r id : preserves (keeps (quiet c)) (checkLoginRate cfg r id).
Proof. unfold checkLoginRate. solve_preserves. Qed.
End quiet.
#[export] Hint Resolve recordAudit_quiet checkLoginRate_quiet : preserves.
#[export] Hint Extern 3 (preserves (keeps (quiet _)) _) =>
  apply responds_quiet; solve [solve_responds] : preserves.

(** A quiet computation in a world without an open transaction. *)
Lemma quiet_run {A} (m : M A) o w :
  (∀ c, preserves (keeps (quiet c)) m) → w_tx w = None →
  core (w_db (snd (m o w))) = core (w_db w).
Proof.
  intros Hm Hw. apply (Hm (core (w_db w)) o w). split; [done|]. intros t Ht. by rewrite Hw in Ht.
Qed.
Lemma core_users d d' : core d = core d' → users d = users d'.
Proof. intros H. by apply (f_equal users) in H. Qed.
Lemma core_sessions d d' : core d = core d' → sessions d = sessions d'.
Proof. intros H. by apply (f_equal sessions) in H. Qed.

(** The evidence is outside the core. *)
Lemma committed_core `{Postgres} strict rec ip d d' :
  committed strict rec ip d d' → core d' = core d.
Proof.
  unfold committed, with_evidence. destruct (ar_event rec) as [e|].
  - by intros [(at_ & a & ->)|[_ ->]].
  - by intros [-> |[_ ->]].
Qed.

(** No operation leaves a transaction open. *)
Definition closes (w w' : world) : Prop := w_tx w = None → w_tx w' = None.
#[export] Instance closes_preorder : PreOrder closes.
Proof. split; [by intros w H|]. intros w1 w2 w3 H1 H2 H. by apply H2, H1. Qed.
Lemma sees_closes {A} (m : M A) : preserves (sees w_tx) m → preserves closes m.
Proof. intros H o w Hw. unfold sees in H. by rewrite (H o w). Qed.
Lemma with_tx_closes {A} (m : M (res err A)) : preserves closes (with_tx m).
Proof.
  intros o w Hw. unfold with_tx. rewrite bindE_run.
  destruct (Begin o w) as [[[]|e] w0] eqn:EB; cbn [fst snd].
  - by rewrite bind_run.
  - apply Begin_cases in EB as [_ Ht]. by rewrite Ht.
Qed.
Lemma responds_closes {A} (m : M A) : responds m → preserves closes m.
Proof. intros [_ H]. by apply sees_closes. Qed.
Lemma exec_Pool_closes {A} (s : stmt A) : preserves closes (exec Pool s).
Proof. apply sees_closes, exec_Pool_sees_tx. Qed.
#[export] Hint Resolve with_tx_closes exec_Pool_closes : preserves.
#[export] Hint Extern 3 (preserves closes _) => apply responds_closes; solve [solve_responds] : preserves.
Lemma queryRow_Pool_closes {A} (s : stmt (option A)) : preserves closes (queryRow Pool s).
Proof. unfold queryRow. solve_preserves. Qed.
#[export] Hint Resolve queryRow_Pool_closes : preserves.
Lemma checkLoginRate_closes `{Postgres} cfg r id : preserves closes (checkLoginRate cfg r id).
Proof. unfold checkLoginRate, allow, Allow. solve_preserves. Qed.
Lemma recordAudit_closes `{Postgres} cfg r e a dt : preserves closes (recordAudit cfg r e a dt).
Proof. unfold recordAudit, Record, record. solve_preserves. Qed.
Lemma auditedTx_closes `{Postgres} {A} cfg ip (action : M (res err (auditRecord * A))) :
  preserves closes (auditedTx cfg ip action).
Proof. apply with_tx_closes. Qed.
#[export] Hint Resolve checkLoginRate_closes recordAudit_closes auditedTx_closes : preserves.

(** Writing evidence: in best-effort mode it always succeeds silently; in
    strict mode it either stored the row or answered 500. *)
Lemma recordAudit_run `{Postgres} cfg r e a dt o w :
  let '(ok, w1) := recordAudit cfg r e a dt o w in
  if (ok : bool) then w_resp w1 = w_resp w
    ∧ (AuditStrict cfg = true → ∃ row, a_event row = e ∧ a_detail row = dt
         ∧ audit_log (w_db w1) = audit_log (w_db w) ++ [row])
  else AuditStrict cfg = true ∧ w_resp w1 = resp_error 500 codeInternal "Error interno." (w_resp w).
Proof.
  unfold recordAudit, Record. rewrite bind_run.
  pose proof (record_sees_resp (AuditStrict cfg) Pool e a (clientIP cfg r) dt o w) as Hr. unfold sees in Hr.
  destruct (record (AuditStrict cfg) Pool e a (clientIP cfg r) dt o w) as [x w1] eqn:E. cbn [fst snd] in *.
  unfold record in E. rewrite bind_run in E. revert E. case_exec y w2 EX. rewrite ret_run. intros [= <- <-].
  destruct y as [[]|er].
  - rewrite ret_run. split; [done|]. intros _. apply exec_pool_ok in EX as (d & Hs & ->).
    apply sql_insert_audit_inv in Hs as (ac & ->). eexists. split_and!; [| |reflexivity]; done.
  - destruct (AuditStrict cfg); [|rewrite ret_run; by split].
    rewrite bind_run, bind_run. cbn [fst snd]. rewrite ret_run. split; [done|].
    unfold internalError. rewrite writeError_answers.
    by rewrite (IncCounter_sees_resp metricAuditWriteErrors o w2), Hr.
Qed.

(** A handler that ends in an audited transaction and an answer. *)
Lemma auditedTx_then `{Postgres} {A} cfg ip (action : M (res err (auditRecord * A)))
    (post : res err A → M unit) o w :
  preserves (sees w_db) action → preserves closes action → (∀ x, responds (post x)) →
  w_tx w = None →
  let w' := snd ((auditedTx cfg ip action ≫= post) o w) in
  ∃ res w1, auditedTx cfg ip action o w = (res, w1) ∧ w' = snd (post res o w1) ∧
    ((w_db w' = w_db w ∧ is_ok res = false) ∨
     ∃ rec a w0 t0 w2 t, w_tx w0 = Some t0 ∧ tx_db t0 = w_db w
       ∧ action o w0 = (Ok (rec, a), w2) ∧ w_tx w2 = Some t
       ∧ committed (AuditStrict cfg) rec ip (tx_db t) (w_db w')).
Proof.
  intros Hd Hc Hp Hw w'. subst w'. rewrite bind_run.
  destruct (auditedTx cfg ip action o w) as [res w1] eqn:EA. exists res, w1. do 2 (split; [done|]).
  cbn [fst snd]. rewrite (proj1 (Hp res) o w1).
  pose proof (auditedTx_cases cfg ip action Hd o w) as Hcases. rewrite EA in Hcases. cbn [fst snd] in Hcases.
  destruct Hcases as [?|(rec & a & t & Hf & Ht & _ & Hcom & _)]; [by left|]. right.
  destruct (Begin o w) as [rb w0] eqn:EB. cbn [snd] in *.
  destruct (action o w0) as [x w2] eqn:Eact. cbn [fst snd] in *. subst x.
  destruct (w_tx w0) as [t0|] eqn:Et0.
  - destruct (Begin_ok _ _ _ _ _ EB Hw Et0) as [_ Hd0]. by exists rec, a, w0, t0, w2, t.
  - pose proof (Hc o w0 Et0) as Hno. rewrite Eact in Hno. cbn [snd] in Hno. by rewrite Ht in Hno.
Qed.

(** Inside a transaction, nothing is done once it is gone. *)
Lemma exec_Tx_closes {A} (s : stmt A) : preserves closes (exec Tx s).
Proof. intros o w Hw. unfold exec, exec_tx. by rewrite Hw. Qed.
#[export] Hint Resolve exec_Tx_closes : preserves.
Lemma queryRow_closes {A} ex (s : stmt (option A)) : preserves closes (queryRow ex s).
Proof. unfold queryRow. destruct ex; solve_preserves. Qed.
#[export] Hint Resolve queryRow_closes : preserves.
