(* ===== verification/Documents.v ===== *)
(** * Documents: the texts of src/internal/http/descriptor.go

    The OpenAPI template, cut where its sections begin, and the briefing for
    agents.  A double quote of the texts is written as a single one, of which
    they have none. *)

From S2P Require Import Prelude GoLib.

Definition quotes (s : string) : string := ReplaceByte s (byte 39) (byte 34).

Definition spec_head : string := quotes "{
  'openapi': '3.1.0',
  'info': {
    'title': 'Sésamo',
    'version': '0.0.0-placeholder',
    'summary': 'Servidor de autenticación con sesiones opacas en Postgres.',
    'description': 'Superficie HTTP de un deployment de Sésamo. Un deployment sirve un solo project (single-tenant). Descubrimiento en tiempo de ejecución: GET /.well-known/sesamo.'
  },
  'servers': [{ 'url': '/', 'description': 'Este deployment (rutas relativas).' }],
  'tags': [
    { 'name': 'enduser', 'description': 'Flujos de usuario final (navegador o cliente headless).' },
    { 'name': 'service', 'description': 'Server-to-server; requiere SESAMO_SERVICE_TOKEN.' },
    { 'name': 'admin', 'description': 'Administración; requiere SESAMO_ADMIN_API_KEY.' },
    { 'name': 'ops', 'description': 'Salud, métricas y descubrimiento.' }
  ],
  'paths': {
".

Definition spec_login : string := quotes "    '/login': {
      'get': {
        'tags': ['enduser'],
        'summary': 'Métodos de login disponibles y token CSRF.',
        'description': 'HTML por defecto. Con Accept: application/json o ?mode=json devuelve providers, methods y csrf_token; el token acompaña a los POST de esta sección.',
        'parameters': [
          { 'name': 'mode', 'in': 'query', 'required': false, 'schema': { 'type': 'string', 'enum': ['json'] } }
        ],
        'responses': {
          '200': {
            'description': 'Página de login o descripción de métodos.',
            'content': {
              'application/json': { 'schema': { '$ref': '#/components/schemas/LoginOptions' } },
              'text/html': { 'schema': { 'type': 'string' } }
            }
          }
        }
      },
      'post': {
        'tags': ['enduser'],
        'summary': 'Login con email y contraseña.',
        'requestBody': {
          'required': true,
          'content': {
            'application/x-www-form-urlencoded': {
              'schema': {
                'type': 'object',
                'required': ['email', 'password'],
                'properties': {
                  'email': { 'type': 'string', 'format': 'email' },
                  'password': { 'type': 'string' },
                  'csrf_token': { 'type': 'string', 'description': 'Alternativa al header X-CSRF-Token.' }
                }
              }
            }
          }
        },
        'responses': {
          '200': { '$ref': '#/components/responses/SessionEstablished' },
          '303': { 'description': 'Redirección al destino post-login (modo navegador).' },
          '400': { '$ref': '#/components/responses/Error' },
          '401': { '$ref': '#/components/responses/Error' },
          '403': { '$ref': '#/components/responses/Error' },
          '429': { '$ref': '#/components/responses/Error' }
        }
      }
    },
    '/signup': {
      'post': {
        'tags': ['enduser'],
        'summary': 'Registro de una cuenta nueva.',
        'description': 'Deshabilitado cuando SESAMO_SIGNUP=disabled; consultar capabilities.signup en el descriptor.',
        'requestBody': {
          'required': true,
          'content': {
            'application/x-www-form-urlencoded': {
              'schema': {
                'type': 'object',
                'required': ['email', 'password'],
                'properties': {
                  'email': { 'type': 'string', 'format': 'email' },
                  'password': { 'type': 'string' },
                  'name': { 'type': 'string' },
                  'csrf_token': { 'type': 'string' }
                }
              }
            }
          }
        },
        'responses': {
          '200': { '$ref': '#/components/responses/SessionEstablished' },
          '303': { 'description': 'Redirección post-registro (modo navegador).' },
          '400': { '$ref': '#/components/responses/Error' },
          '403': { '$ref': '#/components/responses/Error' },
          '429': { '$ref': '#/components/responses/Error' }
        }
      }
    },
    '/logout': {
      'post': {
        'tags': ['enduser'],
        'summary': 'Cierra la sesión actual.',
        'description': 'Solo POST y con par CSRF: un GET de logout se dispara desde cualquier imagen remota.',
        'responses': {
          '200': { '$ref': '#/components/responses/Status' },
          '303': { 'description': 'Redirección post-logout (modo navegador).' },
          '403': { '$ref': '#/components/responses/Error' }
        }
      }
    },
    '/auth/{provider}': {
      'get': {
        'tags': ['enduser'],
        'summary': 'Inicia el flujo OAuth de un provider habilitado.',
        'parameters': [{ '$ref': '#/components/parameters/Provider' }],
        'responses': {
          '303': { 'description': 'Redirección al authorization endpoint del provider.' },
          '404': { '$ref': '#/components/responses/Error' }
        }
      }
    },
    '/auth/{provider}/callback': {
      'get': {
        'tags': ['enduser'],
        'summary': 'Callback OAuth: valida state y PKCE, y establece la sesión.',
        'parameters': [
          { '$ref': '#/components/parameters/Provider' },
          { 'name': 'code', 'in': 'query', 'required': false, 'schema': { 'type': 'string' } },
          { 'name': 'state', 'in': 'query', 'required': false, 'schema': { 'type': 'string' } }
        ],
        'responses': {
          '303': { 'description': 'Redirección al destino post-login.' },
          '400': { '$ref': '#/components/responses/Error' },
          '403': { '$ref': '#/components/responses/Error' },
          '502': { '$ref': '#/components/responses/Error' }
        }
      }
    },
".

Definition spec_reset : string := quotes "    '/reset': {
      'get': {
        'tags': ['enduser'],
        'summary': 'Formulario de pedido de reset.',
        'responses': { '200': { 'description': 'Página de pedido de reset.' } }
      },
      'post': {
        'tags': ['enduser'],
        'summary': 'Pide un email de reset de contraseña.',
        'description': 'Respuesta idéntica exista o no la cuenta: no es un oráculo de enumeración.',
        'requestBody': {
          'required': true,
          'content': {
            'application/x-www-form-urlencoded': {
              'schema': {
                'type': 'object',
                'required': ['email'],
                'properties': {
                  'email': { 'type': 'string', 'format': 'email' },
                  'csrf_token': { 'type': 'string' }
                }
              }
            }
          }
        },
        'responses': {
          '200': { '$ref': '#/components/responses/Status' },
          '303': { 'description': 'Redirección con acuse genérico.' },
          '403': { '$ref': '#/components/responses/Error' },
          '429': { '$ref': '#/components/responses/Error' }
        }
      }
    },
    '/reset/confirm': {
      'get': {
        'tags': ['enduser'],
        'summary': 'Formulario de nueva contraseña para un token de reset.',
        'parameters': [{ '$ref': '#/components/parameters/Token' }],
        'responses': { '200': { 'description': 'Página de nueva contraseña.' } }
      },
      'post': {
        'tags': ['enduser'],
        'summary': 'Consume el token de reset y fija la contraseña nueva.',
        'requestBody': {
          'required': true,
          'content': {
            'application/x-www-form-urlencoded': {
              'schema': {
                'type': 'object',
                'required': ['token', 'password'],
                'properties': {
                  'token': { 'type': 'string' },
                  'password': { 'type': 'string' },
                  'csrf_token': { 'type': 'string' }
                }
              }
            }
          }
        },
        'responses': {
          '200': { '$ref': '#/components/responses/Status' },
          '303': { 'description': 'Redirección al login.' },
          '400': { '$ref': '#/components/responses/Error' },
          '403': { '$ref': '#/components/responses/Error' }
        }
      }
    },
    '/verify': {
      'get': {
        'tags': ['enduser'],
        'summary': 'Verifica una dirección de email con el token enviado.',
        'parameters': [{ '$ref': '#/components/parameters/Token' }],
        'responses': {
          '200': { '$ref': '#/components/responses/Status' },
          '303': { 'description': 'Redirección con el resultado.' },
          '400': { '$ref': '#/components/responses/Error' }
        }
      }
    },
    '/magiclink': {
      'post': {
        'tags': ['enduser'],
        'summary': 'Pide un link de acceso sin contraseña.',
        'description': 'Respuesta idéntica exista o no la cuenta.',
        'requestBody': {
          'required': true,
          'content': {
            'application/x-www-form-urlencoded': {
              'schema': {
                'type': 'object',
                'required': ['email'],
                'properties': {
                  'email': { 'type': 'string', 'format': 'email' },
                  'csrf_token': { 'type': 'string' }
                }
              }
            }
          }
        },
        'responses': {
          '200': { '$ref': '#/components/responses/Status' },
          '303': { 'description': 'Redirección con acuse genérico.' },
          '403': { '$ref': '#/components/responses/Error' },
          '429': { '$ref': '#/components/responses/Error' }
        }
      }
    },
    '/magiclink/confirm': {
      'get': {
        'tags': ['enduser'],
        'summary': 'Consume el token de magic link y establece la sesión.',
        'parameters': [{ '$ref': '#/components/parameters/Token' }],
        'responses': {
          '200': { '$ref': '#/components/responses/SessionEstablished' },
          '303': { 'description': 'Redirección al destino post-login.' },
          '400': { '$ref': '#/components/responses/Error' }
        }
      }
    },
".

Definition spec_service : string := quotes "    '/v1/webhooks/resend': {
      'post': {
        'tags': ['ops'],
        'summary': 'Registra eventos de entrega de Resend.',
        'description': 'Callback público autenticado por firma Svix. Disponible solo cuando SESAMO_RESEND_WEBHOOK_SECRET está configurado; consultar capabilities.email_delivery_webhook.',
        'parameters': [
          { 'name': 'svix-id', 'in': 'header', 'required': true, 'schema': { 'type': 'string' } },
          { 'name': 'svix-timestamp', 'in': 'header', 'required': true, 'schema': { 'type': 'string' } },
          { 'name': 'svix-signature', 'in': 'header', 'required': true, 'schema': { 'type': 'string' } }
        ],
        'requestBody': {
          'required': true,
          'content': { 'application/json': { 'schema': { 'type': 'object' } } }
        },
        'responses': {
          '200': { '$ref': '#/components/responses/Status' },
          '400': { '$ref': '#/components/responses/Error' },
          '503': { '$ref': '#/components/responses/Error' }
        }
      }
    },
    '/v1/introspect': {
      'post': {
        'tags': ['service'],
        'summary': 'Resuelve un token de sesión opaco a una identidad.',
        'description': 'Camino caliente de integración. El token viaja en el campo token o en la cookie de sesión reenviada por el gateway. Un token inválido o vencido no es un error: responde 200 con active=false.',
        'security': [{ 'serviceToken': [] }],
        'requestBody': {
          'required': false,
          'content': {
            'application/x-www-form-urlencoded': {
              'schema': {
                'type': 'object',
                'properties': { 'token': { 'type': 'string', 'description': 'Valor crudo de la cookie de sesión.' } }
              }
            }
          }
        },
        'responses': {
          '200': {
            'description': 'Resultado de la introspección.',
            'headers': {
              'X-Session-Renewed': {
                'description': 'Presente con valor 1 cuando la renovación rolling extendió la sesión.',
                'schema': { 'type': 'string' }
              }
            },
            'content': {
              'application/json': { 'schema': { '$ref': '#/components/schemas/IntrospectResponse' } }
            }
          },
          '401': { '$ref': '#/components/responses/Error' },
          '500': { '$ref': '#/components/responses/Error' },
          '503': { '$ref': '#/components/responses/Error' }
        }
      }
    },
    '/v1/sessions/revoke': {
      'post': {
        'tags': ['service'],
        'summary': 'Revoca una sesión por token.',
        'security': [{ 'serviceToken': [] }],
        'requestBody': {
          'required': true,
          'content': {
            'application/x-www-form-urlencoded': {
              'schema': {
                'type': 'object',
                'required': ['token'],
                'properties': { 'token': { 'type': 'string' } }
              }
            }
          }
        },
        'responses': {
          '200': { '$ref': '#/components/responses/Status' },
          '400': { '$ref': '#/components/responses/Error' },
          '401': { '$ref': '#/components/responses/Error' },
          '500': { '$ref': '#/components/responses/Error' }
        }
      }
    },
".

Definition spec_admin : string := quotes "    '/v1/admin/users/{id}': {
      'get': {
        'tags': ['admin'],
        'summary': 'Devuelve un usuario por id.',
        'security': [{ 'adminKey': [] }],
        'parameters': [{ '$ref': '#/components/parameters/UserID' }],
        'responses': {
          '200': {
            'description': 'Usuario.',
            'content': { 'application/json': { 'schema': { '$ref': '#/components/schemas/User' } } }
          },
          '401': { '$ref': '#/components/responses/Error' },
          '404': { '$ref': '#/components/responses/Error' },
          '503': { '$ref': '#/components/responses/Error' }
        }
      }
    },
    '/v1/admin/users/{id}/revoke-sessions': {
      'post': {
        'tags': ['admin'],
        'summary': 'Revoca todas las sesiones de un usuario.',
        'security': [{ 'adminKey': [] }],
        'parameters': [{ '$ref': '#/components/parameters/UserID' }],
        'responses': {
          '200': { '$ref': '#/components/responses/Status' },
          '401': { '$ref': '#/components/responses/Error' },
          '500': { '$ref': '#/components/responses/Error' }
        }
      }
    },
    '/v1/admin/users/{id}/disable': {
      'post': {
        'tags': ['admin'],
        'summary': 'Habilita o deshabilita una cuenta.',
        'description': 'El campo disabled lleva el estado deseado, así que el mismo endpoint deshabilita y revierte. Deshabilitar revoca además todas las sesiones vivas.',
        'security': [{ 'adminKey': [] }],
        'parameters': [{ '$ref': '#/components/parameters/UserID' }],
        'requestBody': {
          'required': true,
          'content': {
            'application/x-www-form-urlencoded': {
              'schema': {
                'type': 'object',
                'required': ['disabled'],
                'properties': { 'disabled': { 'type': 'boolean' } }
              }
            }
          }
        },
        'responses': {
          '200': {
            'description': 'Estado aplicado.',
            'content': {
              'application/json': {
                'schema': {
                  'type': 'object',
                  'properties': {
                    'status': { 'type': 'string' },
                    'user_id': { 'type': 'string' },
                    'disabled': { 'type': 'boolean' }
                  }
                }
              }
            }
          },
          '400': { '$ref': '#/components/responses/Error' },
          '401': { '$ref': '#/components/responses/Error' },
          '404': { '$ref': '#/components/responses/Error' },
          '500': { '$ref': '#/components/responses/Error' }
        }
      }
    },
".

Definition spec_ops : string := quotes "    '/healthz': {
      'get': {
        'tags': ['ops'],
        'summary': 'Liveness: el proceso responde.',
        'responses': { '200': { 'description': 'ok', 'content': { 'text/plain': { 'schema': { 'type': 'string' } } } } }
      }
    },
    '/readyz': {
      'get': {
        'tags': ['ops'],
        'summary': 'Readiness: la base responde.',
        'responses': {
          '200': { 'description': 'ready', 'content': { 'text/plain': { 'schema': { 'type': 'string' } } } },
          '503': { 'description': 'db unavailable', 'content': { 'text/plain': { 'schema': { 'type': 'string' } } } }
        }
      }
    },
    '/metrics': {
      'get': {
        'tags': ['ops'],
        'summary': 'Métricas en formato de exposición Prometheus.',
        'responses': { '200': { 'description': 'Métricas.', 'content': { 'text/plain': { 'schema': { 'type': 'string' } } } } }
      }
    },
    '/.well-known/sesamo': {
      'get': {
        'tags': ['ops'],
        'summary': 'Descriptor del deployment, legible por máquinas.',
        'responses': {
          '200': {
            'description': 'Descriptor.',
            'content': { 'application/json': { 'schema': { 'type': 'object' } } }
          }
        }
      }
    },
    '/openapi.json': {
      'get': {
        'tags': ['ops'],
        'summary': 'Este documento.',
        'responses': { '200': { 'description': 'Especificación OpenAPI.', 'content': { 'application/json': { 'schema': { 'type': 'object' } } } } }
      }
    },
    '/llms.txt': {
      'get': {
        'tags': ['ops'],
        'summary': 'Guía corta de integración para agentes.',
        'responses': { '200': { 'description': 'Texto plano.', 'content': { 'text/plain': { 'schema': { 'type': 'string' } } } } }
      }
    }
  },
".

Definition spec_components : string := quotes "  'components': {
    'securitySchemes': {
      'serviceToken': {
        'type': 'http',
        'scheme': 'bearer',
        'description': 'SESAMO_SERVICE_TOKEN. Habilita introspección y revocación, nunca administración.'
      },
      'adminKey': {
        'type': 'http',
        'scheme': 'bearer',
        'description': 'SESAMO_ADMIN_API_KEY. Debe diferir del service token.'
      }
    },
    'parameters': {
      'Provider': {
        'name': 'provider',
        'in': 'path',
        'required': true,
        'description': 'Nombre del provider OAuth; los habilitados están en capabilities.oauth_providers.',
        'schema': { 'type': 'string', 'enum': ['google', 'github', 'apple'] }
      },
      'Token': {
        'name': 'token',
        'in': 'query',
        'required': true,
        'description': 'Token de un solo uso enviado por email.',
        'schema': { 'type': 'string' }
      },
      'UserID': {
        'name': 'id',
        'in': 'path',
        'required': true,
        'schema': { 'type': 'string', 'format': 'uuid' }
      }
    },
    'responses': {
      'Error': {
        'description': 'Error con código estable.',
        'content': { 'application/json': { 'schema': { '$ref': '#/components/schemas/Error' } } }
      },
      'Status': {
        'description': 'Acuse de la operación.',
        'content': {
          'application/json': {
            'schema': { 'type': 'object', 'properties': { 'status': { 'type': 'string' } } }
          }
        }
      },
      'SessionEstablished': {
        'description': 'Sesión creada; la cookie de sesión viaja en Set-Cookie (HttpOnly, SameSite=Lax).',
        'content': {
          'application/json': { 'schema': { 'type': 'object', 'properties': { 'status': { 'type': 'string' } } } }
        }
      }
    },
".

Definition spec_schemas : string := quotes "    'schemas': {
      'Error': {
        'type': 'object',
        'required': ['error'],
        'description': 'Forma única de error de toda respuesta JSON. El código es estable y legible por máquina; el mensaje es humano y deliberadamente genérico.',
        'properties': {
          'error': {
            'type': 'object',
            'required': ['code', 'message'],
            'properties': {
              'code': {
                'type': 'string',
                'enum': [
                  'invalid_credentials',
                  'invalid_request',
                  'rate_limited',
                  'unauthorized',
                  'forbidden',
                  'not_found',
                  'internal_error',
                  'state_mismatch',
                  'oauth_failed',
                  'csrf_failed'
                ]
              },
              'message': { 'type': 'string' }
            }
          }
        }
      },
      'IntrospectResponse': {
        'type': 'object',
        'required': ['active'],
        'description': 'Con la forma de RFC 7662: active es el único campo que todo caller debe chequear. El resto se omite cuando active es false.',
        'properties': {
          'active': { 'type': 'boolean' },
          'user_id': { 'type': 'string', 'format': 'uuid' },
          'email': { 'type': 'string', 'format': 'email' },
          'email_verified': { 'type': 'boolean' },
          'name': { 'type': ['string', 'null'] },
          'expires_at': { 'type': 'integer', 'format': 'int64', 'description': 'Epoch en segundos.' },
          'metadata': { 'type': 'object', 'additionalProperties': true }
        }
      },
      'LoginOptions': {
        'type': 'object',
        'properties': {
          'providers': { 'type': 'array', 'items': { 'type': 'string' } },
          'methods': { 'type': 'array', 'items': { 'type': 'string' } },
          'csrf_token': { 'type': 'string', 'description': 'Mandarlo en el campo csrf_token o en el header X-CSRF-Token.' },
          'branding': { 'type': 'object', 'additionalProperties': true }
        }
      },
      'User': {
        'type': 'object',
        'properties': {
          'id': { 'type': 'string', 'format': 'uuid' },
          'email': { 'type': 'string', 'format': 'email' },
          'email_verified': { 'type': 'boolean' },
          'name': { 'type': ['string', 'null'] },
          'disabled': { 'type': 'boolean' },
          'created_at': { 'type': 'string', 'format': 'date-time' },
          'metadata': { 'type': 'object', 'additionalProperties': true }
        }
      }
    }
  }
}
".

Definition openAPISpec : string :=
  spec_head +:+ spec_login +:+ spec_reset +:+ spec_service
  +:+ spec_admin +:+ spec_ops +:+ spec_components +:+ spec_schemas.

Definition llmsTxt : string := quotes "# Sésamo

Servidor de autenticación con sesiones opacas en Postgres. Un deployment
sirve un solo project (single-tenant): ninguna request lleva tenant.

## Descubrimiento

- GET /.well-known/sesamo  descriptor JSON y fuente de verdad: versión,
  project, endpoints, capacidades, sesión y catálogo de errores.
- GET /openapi.json        contrato HTTP completo (OpenAPI 3.1).

## Validar una sesión

La sesión vive en una cookie opaca (session.cookie_name del descriptor,
por defecto 'sid'). No la parsees: no es un JWT y no lleva claims.

    POST /v1/introspect
    Authorization: Bearer $SESAMO_SERVICE_TOKEN
    Content-Type: application/x-www-form-urlencoded

    token=<valor crudo de la cookie de sesión>

Devuelve 200 con {'active':true,'user_id','email',...} o
{'active':false}. Un token vencido, revocado o inexistente NO es un error
HTTP: es active=false, así que chequeá active antes que cualquier otro
campo. El header X-Session-Renewed: 1 avisa que la sesión se extendió y
un gateway que cachea la cookie debería refrescarla. Para cerrar sesión
desde el backend: POST /v1/sessions/revoke, mismo Bearer, mismo token.

## Login headless y contrato CSRF

Todo POST que muta estado (login, signup, logout, reset, magiclink) exige
un par CSRF de doble envío. La cookie es HttpOnly, así que el token se
pide explícitamente:

1. GET /login con Accept: application/json (o ?mode=json) devuelve
   {'providers','methods','csrf_token'} y setea la cookie CSRF.
2. Reenviá esa cookie y mandá el token en el header X-CSRF-Token (o en el
   campo de formulario csrf_token).

Sin el par la respuesta es 403 con código csrf_failed. Para OAuth usá
/auth/{provider} y su callback; los providers habilitados están en
capabilities.oauth_providers.

## Errores

Forma única: {'error':{'code':'...','message':'...'}}. El code es estable
y es lo que hay que programar; el message es humano y puede cambiar. Los
diez: invalid_credentials, invalid_request, rate_limited, unauthorized,
forbidden, not_found, internal_error, state_mismatch, oauth_failed,
csrf_failed; el descriptor los publica en su campo 'errors'. Reset y
magiclink responden igual exista o no la cuenta: no sirven para averiguar
si un email está registrado.

## Configuración

Solo variables de entorno (SESAMO_*), documentadas en .env.example del
repositorio. No hay archivo ni API de configuración: nada de lo que este
servidor expone permite cambiarla. Para ver el descriptor sin levantar el
servidor: sesamo describe.
".
