(* ===== verification/Descriptor.v ===== *)
(** * Descriptor: the deployment descriptor of src/internal/http/descriptor.go

    The document that GET /.well-known/sesamo and [sesamo describe] publish.
    The texts of the OpenAPI document and of llms.txt are in [Documents]. *)

From S2P Require Import Prelude GoLib GoSort GoUnicode GoHash GoNet GoUrl GoJson Schema World Logic Crypto Users Session Config Ui Http Documents.

(** ** The document *)
Definition descriptorSchemaVersion : Z := 1.
Definition sessionRenewalHeader : string := "X-Session-Renewed".
Definition authServiceToken : string := "bearer_service_token".
Definition authAdminKey : string := "bearer_admin_api_key".
Definition authSvixSignature : string := "svix_signature".

Record descriptorEndpoint := MkEndpoint { ep_method : string; ep_path : string; ep_auth : string }.
(** The struct of endpoints: JSON name and endpoint, in order. *)
Definition descriptorEndpoints : Type := list (string * descriptorEndpoint).
Record descriptorCapabilities := MkCapabilities {
  cap_Password : bool; cap_MagicLink : bool; cap_EmailDeliveryWebhook : bool;
  cap_OAuthProviders : list string; cap_Signup : string
}.
Record descriptorSession := MkDescriptorSession {
  ds_CookieName : string; ds_Secure : bool; ds_SameSite : string;
  ds_LifetimeSeconds : Z; ds_AbsoluteLifetimeSeconds : Z; ds_RenewalHeader : string
}.
Record descriptorDoc := MkDescriptor {
  SchemaVersion : Z;
  doc_Service : string * string;      (* name, version *)
  doc_Project : string * string;      (* slug, display name *)
  doc_Endpoints : descriptorEndpoints;
  doc_Capabilities : descriptorCapabilities;
  doc_Session : descriptorSession;
  doc_Errors : list string
}.

Definition endpoints : descriptorEndpoints :=
  [("descriptor", MkEndpoint "GET" "/.well-known/sesamo" "");
   ("login", MkEndpoint "GET" "/login" "");
   ("login_submit", MkEndpoint "POST" "/login" "");
   ("signup", MkEndpoint "POST" "/signup" "");
   ("logout", MkEndpoint "POST" "/logout" "");
   ("oauth_start", MkEndpoint "GET" "/auth/{provider}" "");
   ("oauth_callback", MkEndpoint "GET" "/auth/{provider}/callback" "");
   ("reset_page", MkEndpoint "GET" "/reset" "");
   ("reset", MkEndpoint "POST" "/reset" "");
   ("reset_confirm_page", MkEndpoint "GET" "/reset/confirm" "");
   ("reset_confirm", MkEndpoint "POST" "/reset/confirm" "");
   ("magiclink", MkEndpoint "POST" "/magiclink" "");
   ("magiclink_confirm", MkEndpoint "GET" "/magiclink/confirm" "");
   ("resend_webhook", MkEndpoint "POST" "/v1/webhooks/resend" authSvixSignature);
   ("introspect", MkEndpoint "POST" "/v1/introspect" authServiceToken);
   ("revoke_session", MkEndpoint "POST" "/v1/sessions/revoke" authServiceToken);
   ("admin_user", MkEndpoint "GET" "/v1/admin/users/{id}" authAdminKey);
   ("admin_revoke_sessions", MkEndpoint "POST" "/v1/admin/users/{id}/revoke-sessions" authAdminKey);
   ("admin_disable", MkEndpoint "POST" "/v1/admin/users/{id}/disable" authAdminKey);
   ("healthz", MkEndpoint "GET" "/healthz" "");
   ("readyz", MkEndpoint "GET" "/readyz" "");
   ("metrics", MkEndpoint "GET" "/metrics" "");
   ("openapi", MkEndpoint "GET" "/openapi.json" "");
   ("llms", MkEndpoint "GET" "/llms.txt" "")].

(** [int64(d.Seconds())]: whole seconds, for durations of whole seconds. *)
Definition whole_seconds (d : Z) : Z := Z.quot d Second.
Definition doc_version (v : string) : string := if str_eqb v "" then "dev" else v.
Definition buildDescriptor (cfg : Config) (oauthProviders : list string) : descriptorDoc := {|
  SchemaVersion := descriptorSchemaVersion;
  doc_Service := ("sesamo", doc_version (Version cfg));
  doc_Project := (ProjectSlug cfg, ProjectDisplayName cfg);
  doc_Endpoints := endpoints;
  doc_Capabilities := MkCapabilities true true (negb (str_eqb (ResendWebhookSecret cfg) ""))
                        (slices_Sort oauthProviders) (Signup_ cfg);
  doc_Session := MkDescriptorSession (CookieName cfg) (CookieSecure cfg) "Lax"
                   (whole_seconds (SessionLifetime cfg)) (whole_seconds (SessionMaxLifetime cfg))
                   sessionRenewalHeader;
  doc_Errors := stableErrorCodes |}.

(** As [encoding/json] prints it; an absent [auth] is omitted. *)
Definition endpoint_json (e : descriptorEndpoint) : json :=
  JObj ([("method", JStr (ep_method e)); ("path", JStr (ep_path e))]
        ++ (if str_eqb (ep_auth e) "" then [] else [("auth", JStr (ep_auth e))])).
Definition descriptor_json (d : descriptorDoc) : json :=
  JObj [("schema_version", JInt (SchemaVersion d));
    ("service", JObj [("name", JStr (fst (doc_Service d))); ("version", JStr (snd (doc_Service d)))]);
    ("project", JObj [("slug", JStr (fst (doc_Project d))); ("display_name", JStr (snd (doc_Project d)))]);
    ("endpoints", JObj (map (λ ne, (fst ne, endpoint_json (snd ne))) (doc_Endpoints d)));
    ("capabilities", JObj
       [("password", JBool (cap_Password (doc_Capabilities d)));
        ("magic_link", JBool (cap_MagicLink (doc_Capabilities d)));
        ("email_delivery_webhook", JBool (cap_EmailDeliveryWebhook (doc_Capabilities d)));
        ("oauth_providers", JArr (map JStr (cap_OAuthProviders (doc_Capabilities d))));
        ("signup", JStr (cap_Signup (doc_Capabilities d)))]);
    ("session", JObj
       [("cookie_name", JStr (ds_CookieName (doc_Session d))); ("secure", JBool (ds_Secure (doc_Session d)));
        ("same_site", JStr (ds_SameSite (doc_Session d)));
        ("lifetime_seconds", JInt (ds_LifetimeSeconds (doc_Session d)));
        ("absolute_lifetime_seconds", JInt (ds_AbsoluteLifetimeSeconds (doc_Session d)));
        ("renewal_header", JStr (ds_RenewalHeader (doc_Session d)))]);
    ("errors", JArr (map JStr (doc_Errors d)))].

(** [openAPIDocument]: the version, quoted, in place of the first placeholder. *)
Definition openAPIVersionPlaceholder : string := dquote +:+ "0.0.0-placeholder" +:+ dquote.
Fixpoint replace_first (s old new : string) : string :=
  if HasPrefix s old then new +:+ str_drop (String.length old) s else
  match s with
  | EmptyString => EmptyString
  | String c r => String c (replace_first r old new)
  end.
Definition openAPIDocument (version : string) : string :=
  replace_first openAPISpec openAPIVersionPlaceholder (json_quote (doc_version version)).

(** ** What the descriptor publishes *)

(** The part of a configuration meant for everybody; of the webhook secret
    only whether there is one. *)
Definition public_view (cfg : Config) :=
  (Version cfg, (ProjectSlug cfg, ProjectDisplayName cfg), str_eqb (ResendWebhookSecret cfg) "", Signup_ cfg,
   (CookieName cfg, CookieSecure cfg), (SessionLifetime cfg, SessionMaxLifetime cfg)).

(** The descriptor leaks no secret and does not flicker: two deployments
    whose public settings agree publish the same document whatever their
    database, tokens, keys, mail credentials, provider secrets and redirect
    origins are, and whatever order the provider map is iterated in. *)
Theorem descriptor_public cfg cfg' names names' :
  public_view cfg = public_view cfg' → names ≡ₚ names' →
  descriptor_json (buildDescriptor cfg names) = descriptor_json (buildDescriptor cfg' names').
Proof.
  unfold public_view. intros [= Hv Hs Hn Hw Hg Hc Hse Hl Hm] Hp. f_equal. unfold buildDescriptor.
  by rewrite Hv, Hs, Hn, Hw, Hg, Hc, Hse, Hl, Hm, (slices_Sort_permutation _ _ Hp).
Qed.
Lemma descriptor_public_witness :
  descriptor_json (buildDescriptor toy_config ["google"; "apple"])
  = descriptor_json (buildDescriptor (toy_config <| ServiceToken := "s" |> <| DatabaseURL := "d" |>)
      ["apple"; "google"]).
Proof.
  apply (descriptor_public toy_config (toy_config <| ServiceToken := "s" |> <| DatabaseURL := "d" |>));
    [reflexivity|]. apply Permutation_swap.
Defined.
Example providers_sorted : slices_Sort ["google"; "apple"; "github"] = ["apple"; "github"; "google"].
Proof. reflexivity. Qed.
