(* ===== verification/Webhook.v ===== *)
(** * Webhook: src/internal/http/webhook.go

    Delivery events of the mail provider: authenticated by signature over the
    raw body, decoded, and recorded once. *)

From S2P Require Import Prelude GoLib GoUnicode GoHash GoNet GoUrl GoJson GoTime Schema World Logic Crypto Users Session AuditLog Keyring Outbox Svix Config Http.

(** ** The event *)
Record resendEvent := MkResendEvent { re_type : string; re_created_at : string; re_email_id : string }.
#[export] Instance resendEvent_eta : Eta resendEvent := λ e,
  MkResendEvent (re_type e) (re_created_at e) (re_email_id e).
Definition event_data_fields : list (string * (jvalue → resendEvent → option resendEvent)) :=
  [("email_id", λ v e, s ← store_string v (re_email_id e); Some (e <| re_email_id := s |>))].
Definition event_fields : list (string * (jvalue → resendEvent → option resendEvent)) :=
  [("type", λ v e, s ← store_string v (re_type e); Some (e <| re_type := s |>));
   ("created_at", λ v e, s ← store_string v (re_created_at e); Some (e <| re_created_at := s |>));
   ("data", store_struct event_data_fields)].
(** [json.Unmarshal], and the two fields that must be there. *)
Definition decode_event (body : string) : option resendEvent :=
  v ← json_parse body;
  ev ← store_struct event_fields v (MkResendEvent "" "" "");
  if str_eqb (re_type ev) "" || str_eqb (re_email_id ev) "" then None else Some ev.

(** The provider's clock when it can be read, the time of reception if not. *)
Definition occurred_at (ev : resendEvent) (now : Z) : Z :=
  if str_eqb (re_created_at ev) "" then now else default now (parse_RFC3339 (re_created_at ev)).

Section webhook.
Context `{Postgres} (cfg : Config).

Definition record_event (svixID : string) (ev : resendEvent) : M unit :=
  now ← time_Now;
  res ← RecordProviderEvent svixID (re_email_id ev) (re_type ev) (occurred_at ev now);
  match res with
  | Err _ => internalError
  | Ok _ => writeJSON 200 (json_strings [("status", "ok")])
  end.

Definition handleResendWebhook (r : request) : M unit :=
  if str_eqb (ResendWebhookSecret cfg) "" then writeError 503 codeForbidden "Webhook no configurado." else
  match r_body r with
  | None => writeError 400 codeInvalidRequest "Cuerpo ilegible."
  | Some body =>
      now ← time_Now;
      match VerifySvix (ResendWebhookSecret cfg) (r_headers r) body now WebhookTolerance with
      | Err _ =>
          _ ← IncCounter MetricWebhookSignatureErrors;
          writeError 401 codeUnauthorized "Firma inválida."
      | Ok svixID =>
          match decode_event body with
          | None => writeError 400 codeInvalidRequest "Evento inválido."
          | Some ev => record_event svixID ev
          end
      end
  end.
End webhook.

Definition toy_event_body : string :=
  "{" +:+ dquote +:+ "type" +:+ dquote +:+ ":" +:+ dquote +:+ "email.bounced" +:+ dquote +:+ "," +:+
  dquote +:+ "data" +:+ dquote +:+ ":{" +:+ dquote +:+ "EMAIL_ID" +:+ dquote +:+ ":" +:+ dquote +:+ "m1" +:+
  dquote +:+ "}," +:+ dquote +:+ "created_at" +:+ dquote +:+ ":null}".
Example decode_toy_event : decode_event toy_event_body = Some (MkResendEvent "email.bounced" "" "m1").
Proof. reflexivity. Qed.

(** ** What a delivery can do *)

(** The tables after an event: appended once, and possibly applied to the
    rows of its message; no other table differs. *)
Definition event_recorded (svixID : string) (ev : resendEvent) (at_ now : Z) (d d' : db) : Prop :=
  existsb (seen_event svixID) (events d) = false ∧
  let d1 := d <| events ::= λ l, l ++ [MkEvent svixID (re_email_id ev) (re_type ev) at_ now] |> in
  d' = d1 ∨ ∃ now', d' = d1 <| outbox := update_where (of_message (re_email_id ev))
                                  (reduce_row now' at_ (re_type ev)) (outbox d1) |>.

Lemma reduceEvent_db pmid typ at_ o w :
  w_db (snd (reduceEvent pmid typ at_ o w)) = w_db w ∨
  ∃ now, w_db (snd (reduceEvent pmid typ at_ o w))
    = (w_db w) <| outbox := update_where (of_message pmid) (reduce_row now at_ typ) (outbox (w_db w)) |>.
Proof.
  set (P d := d = w_db w ∨ ∃ now, d = (w_db w) <| outbox :=
         update_where (of_message pmid) (reduce_row now at_ typ) (outbox (w_db w)) |>).
  assert (He : P (w_db (snd (exec Pool (sql_reduce pmid typ at_) o w)))).
  { apply (exec_pool_db P); [by left|]. intros now a d [= _ <-]. right. by exists now. }
  assert (Hc : ∀ c, P (w_db (snd ((_ ←? exec Pool (sql_reduce pmid typ at_);
                       _ ← IncCounter c; mret (Ok tt : res err unit)) o w)))).
  { intros c. rewrite bindE_run. destruct (exec _ _ _ _) as [[[]|e] w1] eqn:E; cbn [fst snd] in *; done. }
  unfold reduceEvent. destruct (event_kind_of typ); try apply Hc; try apply He. by left.
Qed.

Lemma RecordProviderEvent_db svixID ev at_ o w :
  let w' := snd (RecordProviderEvent svixID (re_email_id ev) (re_type ev) at_ o w) in
  w_db w' = w_db w ∨ ∃ now, event_recorded svixID ev at_ now (w_db w) (w_db w').
Proof.
  intros w'. subst w'. unfold RecordProviderEvent. rewrite bindE_run.
  set (d1 now := (w_db w) <| events ::= λ l, l ++ [MkEvent svixID (re_email_id ev) (re_type ev) at_ now] |>).
  set (P d := d = w_db w ∨ ∃ now, existsb (seen_event svixID) (events (w_db w)) = false ∧ d = d1 now).
  assert (HP : P (w_db (snd (exec Pool (sql_insert_event svixID (re_email_id ev) (re_type ev) at_) o w)))).
  { apply (exec_pool_db P); [by left|]. intros now a d. unfold sql_insert_event.
    destruct (existsb _ _) eqn:E; intros [= _ <-]; [by left|right; by exists now]. }
  assert (Hdone : ∀ d, P d → d = w_db w ∨ ∃ now, event_recorded svixID ev at_ now (w_db w) d).
  { intros d [->|(now & Hs & ->)]; [by left|]. right. exists now. split; [done|]. by left. }
  destruct (exec _ _ _ _) as [[n|e] w1] eqn:E; cbn [fst snd] in *; [|by apply Hdone].
  destruct (n =? 0) eqn:En; [by apply Hdone|]. rewrite !bind_run. cbn [fst snd]. rewrite bindE_run.
  apply exec_pool_ok in E as (d & Hs & ->). unfold sql_insert_event in Hs.
  destruct (existsb _ _) eqn:Eseen; [by injection Hs as <- _|]. injection Hs as <- <-. clear HP Hdone.
  match goal with |- context [reduceEvent ?p ?t ?a ?o' ?w2] =>
    pose proof (reduceEvent_db p t a o' w2) as Hr; destruct (reduceEvent p t a o' w2) as [[[]|e] w3] end;
    cbn [fst snd] in *; right; exists (o_dbclock o (w_step w)); (split; [done|]); exact Hr.
Qed.
(** C12. Only the provider writes, and only once per delivery: whatever the
    database answers, a request to the webhook changes nothing unless its
    signed timestamp is within the tolerance of the server's clock as the
    request is handled, one of its signatures is the HMAC of its id, that
    timestamp and its raw body under the operator's key, and the body is a
    well-formed event; then the event is new, one row records it, and nothing
    but the outbox rows of its message is touched.  No token, session or
    account ever changes. *)
Theorem webhook_records_signed_events cfg r o w :
  let w' := snd (handleResendWebhook cfg r o w) in
  w_db w' = w_db w ∨
  ∃ body svixID ev key secs now,
    let timestamp := TrimSpace (header_value (r_headers r) HeaderSvixTimestamp) in
    r_body r = Some body ∧ decode_event body = Some ev
    ∧ decodeWebhookSecret (ResendWebhookSecret cfg) = Ok key ∧ key ≠ ""
    ∧ svixID = TrimSpace (header_value (r_headers r) HeaderSvixID) ∧ svixID ≠ ""
    ∧ ParseInt timestamp = Some secs
    ∧ Z.abs (o_clock o (w_step w) - secs * Second) ≤ WebhookTolerance
    ∧ ("v1," +:+ svix_mac key svixID timestamp body)
        ∈ Fields (TrimSpace (header_value (r_headers r) HeaderSvixSignature))
    ∧ event_recorded svixID ev (occurred_at ev (o_clock o (S (w_step w)))) now (w_db w) (w_db w').
Proof.
  intros w'. subst w'. unfold handleResendWebhook.
  destruct (str_eqb (ResendWebhookSecret cfg) "") eqn:Es;
    [left; by rewrite (proj1 (responds_writeError _ _ _) o w)|]. apply str_eqb_false in Es.
  destruct (r_body r) as [body|]; [|left; by rewrite (proj1 (responds_writeError _ _ _) o w)].
  rewrite bind_run. unfold time_Now, tick. cbn [fst snd].
  set (w1 := w <| w_step ::= S |>). set (received := o_clock o (w_step w)).
  destruct (VerifySvix _ _ _ _ _) as [svixID|e] eqn:EV.
  2:{ left. rewrite bind_run. by rewrite (proj1 (responds_writeError _ _ _) o _). }
  destruct (decode_event body) as [ev|] eqn:ED;
    [|left; by rewrite (proj1 (responds_writeError _ _ _) o _)].
  unfold record_event. rewrite bind_run. unfold time_Now, tick. cbn [fst snd]. rewrite bind_run.
  match goal with |- context [RecordProviderEvent ?a ?b ?c ?d ?e ?f] =>
    pose proof (RecordProviderEvent_db a ev d e f) as HR; destruct (RecordProviderEvent a b c d e f) as [res w3] end.
  cbn [fst snd] in *.
  assert (Hfin : ∀ m : M unit, responds m → w_db (snd (m o w3)) = w_db w3) by (by intros m [Hm _]; apply Hm).
  rewrite (Hfin (match res with Ok _ => _ | Err _ => _ end)) by (destruct res; auto with responds).
  destruct HR as [HR|[now HR]]; [by left|]. right.
  apply VerifySvix_sound in EV as (key & secs & Hk & Hne & Hid & Hid0 & Hp & Hd & Hin).
  exists body, svixID, ev, key, secs, now. by split_and!.
Qed.

Definition toy_webhook_config : Config := toy_config <| ResendWebhookSecret := toy_secret |>.
Definition toy_delivery : request :=
  let sig := match SignSvix toy_secret "msg_1" 0 toy_event_body with Ok s => s | Err _ => "" end in
  MkRequest "POST" "/v1/webhooks/resend" [] [] false
    [("Svix-Id", "msg_1"); ("Svix-Timestamp", "0"); ("Svix-Signature", sig)] [] "10.0.0.1:5000" []
    (Some toy_event_body).
(** Signed, and its event is recorded; tampered with, and nothing happens. *)
Example webhook_accepts :
  let w' := snd (handleResendWebhook toy_webhook_config toy_delivery (oracle_at 7) (world_of empty_db)) in
  rs_status (w_resp w') = Some 200
  ∧ events (w_db w') = [MkEvent "msg_1" "m1" "email.bounced" 7 7].
Proof. vm_compute. split; reflexivity. Qed.
Example webhook_refuses :
  let r := toy_delivery <| r_body := Some (toy_event_body +:+ " ") |> in
  let w' := snd (handleResendWebhook toy_webhook_config r (oracle_at 7) (world_of empty_db)) in
  rs_status (w_resp w') = Some 401 ∧ w_db w' = empty_db.
Proof. vm_compute. split; reflexivity. Qed.
