(* ===== verification/Service.v ===== *)
(** * Service: src/internal/http/service.go and admin.go

    The server-to-server endpoints: introspection and forced logout behind
    the service token, user administration behind the admin key. *)

From S2P Require Import Prelude GoLib GoHash GoNet GoUrl Schema World Logic Crypto Users Session RateLimit AuditLog Config Http.

Definition bearerToken (r : request) : string :=
  let h := HeaderGet r "Authorization" in
  let p : string := "Bearer " in
  if (String.length p <? String.length h)%nat && EqualFold (str_take (String.length p) h) p
  then TrimSpace (str_drop (String.length p) h) else "".

Section service.
Context `{Postgres} (cfg : Config).

(** The shared shape of [requireServiceToken] and [requireAdminKey]. *)
Definition requireBearer (secret unset wrong : string) (next : request → M unit)
    (r : request) : M unit :=
  if str_eqb secret "" then writeError 503 codeForbidden unset
  else
    let got := bearerToken r in
    if str_eqb got "" || negb (SafeEqual got secret)
    then writeError 401 codeUnauthorized wrong
    else next r.
Definition requireServiceToken (next : request → M unit) : request → M unit :=
  requireBearer (ServiceToken cfg) "Introspección no configurada." "Token de servicio inválido." next.
Definition requireAdminKey (next : request → M unit) : request → M unit :=
  requireBearer (AdminAPIKey cfg) "Admin API no configurada." "Clave de admin inválida." next.

(** ** service.go *)
Definition introspectToken (r : request) : string :=
  let t := TrimSpace (FormValue r "token") in
  if str_eqb t "" then cookieValue r (CookieName cfg) else t.

(** [introspectResponse] as [encoding/json] prints it: [omitempty] fields. *)
Definition omit_string (k s : string) : list (string * json) :=
  if str_eqb s "" then [] else [(k, JStr s)].
Definition inactive : json := JObj [("active", JBool false)].
Definition unix_seconds (t : Z) : Z := t / Second.
Definition introspectResponse (u : User) (expiresAt : Z) : json :=
  JObj ([("active", JBool true)] ++ omit_string "user_id" (ID u) ++ omit_string "email" (Email u)
    ++ (if EmailVerified u then [("email_verified", JBool true)] else [])
    ++ (match Name u with Some n => [("name", JStr n)] | None => [] end)
    ++ (if unix_seconds expiresAt =? 0 then [] else [("expires_at", JInt (unix_seconds expiresAt))])
    ++ (match Metadata u with [] => [] | md => [("metadata", JObj md)] end)).

Definition handleIntrospect (r : request) : M unit :=
  let token := introspectToken r in
  if str_eqb token "" then writeJSON 200 inactive else
  res ← Validate (session_config cfg) token;
  match res with
  | Err _ => internalError
  | Ok v =>
      match vr_kind v, vr_user v with
      | KindValid, Some u =>
          _ ← (if vr_renewed v then setHeader "X-Session-Renewed" "1" else mret tt);
          writeJSON 200 (introspectResponse u (vr_expires_at v))
      | _, _ => writeJSON 200 inactive
      end
  end.

Definition handleSessionRevoke (r : request) : M unit :=
  let token := introspectToken r in
  if str_eqb token "" then writeError 400 codeInvalidRequest "Falta el token de sesión." else
  res ← Revoke token;
  match res with
  | Err _ => internalError
  | Ok uid =>
      ok ← (if str_eqb uid "" then mret true
            else recordAudit cfg r SessionRevoked uid [("via", JStr "service")]);
      if (ok : bool) then writeJSON 200 (json_strings [("status", "revoked")]) else mret tt
  end.

(** ** admin.go *)

(** [user.User] as [encoding/json] is given it. *)
Definition json_option (o : option string) : json :=
  match o with Some s => JStr s | None => JNull end.
Definition user_json (u : User) : json :=
  JObj [("id", JStr (ID u)); ("email", JStr (Email u));
        ("email_verified", JBool (EmailVerified u)); ("disabled", JBool (Disabled u));
        ("name", json_option (Name u)); ("picture_url", json_option (PictureURL u));
        ("created_at", JTime (CreatedAt u)); ("metadata", JObj (Metadata u))].

Definition handleAdminGetUser (r : request) : M unit :=
  u ← ByID (PathValue r "id");
  match u with
  | Err _ => writeError 404 codeNotFound "Usuario no encontrado."
  | Ok u => writeJSON 200 (user_json u)
  end.

Definition handleAdminRevokeUserSessions (r : request) : M unit :=
  let id := PathValue r "id" in
  res ← RevokeAllForUser id;
  match res with
  | Err _ => internalError
  | Ok _ =>
      ok ← recordAudit cfg r SessionsRevokedAll id [("via", JStr "admin")];
      if (ok : bool) then writeJSON 200 (json_strings [("status", "sessions_revoked")]) else mret tt
  end.

(** The transaction of [handleAdminSetUserDisabled]. *)
Definition set_disabled_action (id : string) (disabled : bool)
  : M (res err (auditRecord * unit)) :=
  _ ←? SetDisabledTx id disabled;
  _ ←? (if disabled then RevokeAllForUserTx id else mret (Ok tt));
  mret (Ok (MkAuditRecord (Some (if disabled then UserDisabled else UserEnabled)) id
              [("via", JStr "admin"); ("sessions_revoked", JBool disabled)], tt)).
Definition handleAdminSetUserDisabled (r : request) : M unit :=
  let id := PathValue r "id" in
  match ParseBool (FormValue r "disabled") with
  | None => writeError 400 codeInvalidRequest
      ("El campo " +:+ dquote +:+ "disabled" +:+ dquote +:+ " debe ser " +:+ dquote +:+ "true"
       +:+ dquote +:+ " o " +:+ dquote +:+ "false" +:+ dquote +:+ ".")
  | Some disabled =>
      u ← ByID id;
      match u with
      | Err _ => writeError 404 codeNotFound "Usuario no encontrado."
      | Ok _ =>
          res ← auditedTx cfg (clientIP cfg r) (set_disabled_action id disabled);
          match res with
          | Err _ => internalError
          | Ok _ => writeJSON 200 (JObj [("status", JStr "updated"); ("user_id", JStr id);
                                         ("disabled", JBool disabled)])
          end
      end
  end.

(** ** Routes *)
Definition post_introspect := requireServiceToken handleIntrospect.
Definition post_sessions_revoke := requireServiceToken handleSessionRevoke.
Definition get_admin_user := requireAdminKey handleAdminGetUser.
Definition post_admin_revoke_sessions := requireAdminKey handleAdminRevokeUserSessions.
Definition post_admin_disable := requireAdminKey handleAdminSetUserDisabled.
End service.

(** ** The bearer guard *)
Lemma requireBearer_refuses secret unset wrong next r o w :
  secret = "" ∨ bearerToken r ≠ secret → fresh (w_resp w) →
  let w' := snd (requireBearer secret unset wrong next r o w) in
  w_db w' = w_db w ∧ w_tx w' = w_tx w
  ∧ rs_status (w_resp w') = Some (if str_eqb secret "" then 503 else 401).
Proof.
  intros Hs Hf. unfold requireBearer. destruct (str_eqb secret "") eqn:Es.
  - split_and!; [apply responds_writeError..|]. rewrite writeError_answers.
    by apply resp_body_fresh.
  - assert (str_eqb (bearerToken r) "" || negb (SafeEqual (bearerToken r) secret) = true) as ->.
    { apply str_eqb_false in Es. destruct Hs as [|Hs]; [done|].
      unfold SafeEqual. rewrite (proj2 (str_eqb_false _ _) Hs). apply orb_true_r. }
    split_and!; [apply responds_writeError..|]. rewrite writeError_answers.
    by apply resp_body_fresh.
Qed.

Lemma bearerToken_header r secret :
  HeaderGet r "Authorization" = "Bearer " +:+ secret →
  str_forallb is_graphic secret = true → secret ≠ "" → bearerToken r = secret.
Proof.
  intros Hh Hg Hs. unfold bearerToken. rewrite Hh, str_length_app.
  rewrite (str_take_app "Bearer " secret), (str_drop_app "Bearer " secret).
  destruct secret as [|c s]; [done|]. cbn [String.length Nat.ltb Nat.leb Nat.add andb].
  replace (EqualFold "Bearer " "Bearer ") with true by reflexivity.
  by rewrite TrimSpace_graphic.
Qed.

(** The five endpoints behind a secret. *)
Definition guarded `{Postgres} (cfg : Config) : list (string * (request → M unit) * (request → M unit)) :=
  [(ServiceToken cfg, post_introspect cfg, handleIntrospect cfg);
   (ServiceToken cfg, post_sessions_revoke cfg, handleSessionRevoke cfg);
   (AdminAPIKey cfg, get_admin_user cfg, handleAdminGetUser);
   (AdminAPIKey cfg, post_admin_revoke_sessions cfg, handleAdminRevokeUserSessions cfg);
   (AdminAPIKey cfg, post_admin_disable cfg, handleAdminSetUserDisabled cfg)].

(** C19. The secrets guard: a request to a service or admin endpoint that does
    not present its secret (or finds none configured) changes nothing and is
    answered 401 (503); one that presents it as a bearer token is handled. *)
Theorem guarded_endpoints `{Postgres} cfg secret endpoint handler r :
  (secret, endpoint, handler) ∈ guarded cfg →
  (∀ o w, secret = "" ∨ bearerToken r ≠ secret → fresh (w_resp w) →
    let w' := snd (endpoint r o w) in
    w_db w' = w_db w ∧ rs_status (w_resp w') = Some (if str_eqb secret "" then 503 else 401)) ∧
  (HeaderGet r "Authorization" = "Bearer " +:+ secret → str_forallb is_graphic secret = true →
   secret ≠ "" → endpoint r = handler r).
Proof.
  intros Hin. assert (∃ unset wrong, endpoint = requireBearer secret unset wrong handler)
    as (unset & wrong & ->).
  { unfold guarded in Hin. repeat apply elem_of_cons in Hin as [[= -> -> ->]|Hin];
      [by eexists _, _..|]. by apply elem_of_nil in Hin. }
  split.
  - intros o w Hs Hf w'. destruct (requireBearer_refuses secret unset wrong handler r o w Hs Hf)
      as (? & _ & ?). done.
  - intros Hh Hg Hs. unfold requireBearer. rewrite (bearerToken_header r secret) by done.
    apply str_eqb_false in Hs. rewrite Hs. unfold SafeEqual. by rewrite str_eqb_refl.
Qed.

Definition toy_request : request :=
  MkRequest "POST" "/v1/introspect" [] [("token", "tok")] false
    [("Authorization", "Bearer service-token")] [] "10.0.0.1:5000" [] None.
Lemma guarded_endpoints_witness :
  post_introspect toy_config toy_request = handleIntrospect toy_config toy_request.
Proof.
  apply (guarded_endpoints toy_config "service-token" (post_introspect toy_config)
    (handleIntrospect toy_config) toy_request); [left|reflexivity..|discriminate].
Defined.

(** ** Introspection *)
Lemma setHeader_answers k v o w :
  rs_body (w_resp (snd (setHeader k v o w))) = rs_body (w_resp w)
  ∧ rs_status (w_resp (snd (setHeader k v o w))) = rs_status (w_resp w).
Proof. destruct w as [d t i [[st|] h c b] m]; done. Qed.

Lemma Validate_sees_resp `{Postgres} cfg tok : preserves (sees w_resp) (Validate cfg tok).
Proof. unfold Validate, time_Now. solve_preserves. Qed.

(** The one answer of [handleIntrospect], given what [Validate] returned. *)
Definition introspect_body (res : res err Result) : option json :=
  match res with
  | Err _ => None
  | Ok v => Some (match vr_kind v, vr_user v with
                  | KindValid, Some u => introspectResponse u (vr_expires_at v)
                  | _, _ => inactive
                  end)
  end.
Lemma handleIntrospect_response `{Postgres} cfg r o w :
  introspectToken cfg r ≠ "" → fresh (w_resp w) →
  let rs := w_resp (snd (handleIntrospect cfg r o w)) in
  match introspect_body (fst (Validate (session_config cfg) (introspectToken cfg r) o w)) with
  | Some j => rs_status rs = Some 200 ∧ rs_body rs = [BJson j]
  | None => rs_status rs = Some 500
  end.
Proof.
  intros Ht Hf. unfold handleIntrospect. apply str_eqb_false in Ht. rewrite Ht, bind_run.
  pose proof (Validate_sees_resp (session_config cfg) (introspectToken cfg r) o w) as Hr.
  destruct (Validate _ _ o w) as [res w1]. cbn [fst snd] in *. unfold sees in Hr.
  rewrite <-Hr in Hf. destruct res as [v|e]; cbn [introspect_body].
  - destruct (vr_kind v); [| |destruct (vr_user v) as [u|]];
      try (rewrite writeJSON_answers; by apply resp_body_fresh).
    rewrite bind_run, writeJSON_answers. apply resp_body_fresh. destruct Hf as [Hs Hb].
    destruct (vr_renewed v); [|done]. cbn [fst snd].
    destruct (setHeader_answers "X-Session-Renewed" "1" o w1) as [E1 E2].
    split; [by rewrite E2|by rewrite E1].
  - unfold internalError. rewrite writeError_answers. by apply resp_body_fresh.
Qed.

(** C20. Introspection tells the truth: whatever the database answers, a token
    is reported active only if it belongs to a live session of an enabled
    user, with that user's data and an expiry in the future; every other
    answer is exactly [{"active":false}] or an error.  While the database
    answers, a live session is reported active. *)
Theorem introspect_truthful `{Postgres} cfg r o w :
  introspectToken cfg r ≠ "" → fresh (w_resp w) →
  let rs := w_resp (snd (handleIntrospect cfg r o w)) in
  let now := o_clock o (S (w_step w)) in
  let live := live_session (w_db w) now (HashToken (introspectToken cfg r)) in
  (rs_status rs = Some 500 ∨ rs_status rs = Some 200 ∧
    (rs_body rs = [BJson inactive] ∨ ∃ s u expiry, live s u ∧ now < expiry
       ∧ rs_body rs = [BJson (introspectResponse (user_of_row (s_user_id s) u) expiry)])) ∧
  (healthy o → ∀ s u, live s u → ∃ expiry, now < expiry
     ∧ rs_body rs = [BJson (introspectResponse (user_of_row (s_user_id s) u) expiry)]).
Proof.
  intros Ht Hf rs now live. pose proof (handleIntrospect_response cfg r o w Ht Hf) as Hr.
  cbv zeta in Hr. fold rs in Hr. set (tok := introspectToken cfg r) in *.
  assert (Hexp : ∀ s u, live s u →
    let v := valid_result (session_config cfg) now s (user_of_row (s_user_id s) u) in
    now < vr_expires_at v ∧ vr_kind v = KindValid ∧ vr_user v = Some (user_of_row (s_user_id s) u)).
  { intros s u (_ & _ & _ & He). unfold valid_result.
    destruct (renewal _ _ s) as [[e|]|] eqn:Er; [|done..].
    apply renewal_extends in Er as [Hlt _]. simpl. split; [lia|done]. }
  split.
  - destruct (Validate (session_config cfg) tok o w) as [[v|e] w1] eqn:EV; [|by left].
    destruct Hr as [Hs Hb]. right. split; [done|]. cbn [fst introspect_body] in Hb.
    destruct (vr_kind v) eqn:Ek; [by left|by left|].
    destruct (Validate_valid _ _ _ _ _ _ EV Ek) as (s & u & Hl & -> & _). right.
    fold now in Hb, Hl. destruct (Hexp s u Hl) as (He & _ & Hu). rewrite Hu in Hb. eauto 6.
  - intros Ho s u Hl. destruct (Validate_live (session_config cfg) tok o w s u Ho Hl) as (w1 & EV).
    destruct (Hexp s u Hl) as (He & Hk & Hu). rewrite EV in Hr. cbn [fst introspect_body] in Hr.
    fold now in Hr. rewrite Hk, Hu in Hr. destruct Hr as [_ Hr]. eauto.
Qed.

Lemma introspect_truthful_witness :
  let rs := w_resp (snd (handleIntrospect toy_config toy_request (oracle_at (2 * Hour)) (world_of toy_db))) in
  ∃ expiry, 2 * Hour < expiry ∧ rs_body rs = [BJson (introspectResponse (user_of_row "u1" toy_user) expiry)].
Proof.
  assert (introspectToken toy_config toy_request ≠ "") as Ht by (vm_compute; discriminate).
  destruct (introspect_truthful toy_config toy_request (oracle_at (2 * Hour)) (world_of toy_db) Ht
    (conj eq_refl eq_refl)) as [_ H].
  apply (H (oracle_at_healthy (2 * Hour)) toy_session toy_user). split_and!; by vm_compute.
Defined.

(** ** The kill switch *)
Definition killed (k : string) (b : bool) (now : Z) (d : db) : db :=
  d <| users := alter (λ u, u <| u_disabled := b |> <| u_updated_at := now |>) k (users d) |>
    <| sessions := if b then delete_where (owned_by k) (sessions d) else sessions d |>.
Definition kill_event (b : bool) : Event := if b then UserDisabled else UserEnabled.

Section kill.
Context `{Postgres}.

Lemma set_disabled_sees_db id b : preserves (sees w_db) (set_disabled_action id b).
Proof.
  unfold set_disabled_action, SetDisabledTx, setDisabled, RevokeAllForUserTx, revokeAllForUser.
  solve_preserves.
Qed.
Lemma set_disabled_sees_resp id b : preserves (sees w_resp) (set_disabled_action id b).
Proof.
  unfold set_disabled_action, SetDisabledTx, setDisabled, RevokeAllForUserTx, revokeAllForUser.
  solve_preserves.
Qed.
Lemma ByID_sees_resp id : preserves (sees w_resp) (ByID id).
Proof. unfold ByID. solve_preserves. Qed.
Lemma ByID_sees_tx id : preserves (sees w_tx) (ByID id).
Proof. unfold ByID. apply queryRow_preserves; [exact _|]. auto with preserves. Qed.
Lemma ByID_sees_db id : preserves (sees w_db) (ByID id).
Proof.
  unfold ByID. apply queryRow_preserves; [exact _|]. intros o w. unfold sees.
  apply (exec_pool_db (λ d, d = w_db w)); [done|]. intros now a d. unfold with_uuid, sql_user_by_id.
  destruct (uuid_in id); [by intros [= _ <-]|done].
Qed.

Lemma set_disabled_action_ok id b o w rec x w1 :
  set_disabled_action id b o w = (Ok (rec, x), w1) →
  ∃ k t, uuid_in id = Some k ∧ ar_event rec = Some (kill_event b) ∧ w_tx w = Some t
    ∧ w_tx w1 = Some (t <| tx_db := killed k b (tx_now t) (tx_db t) |>) ∧ ar_actor rec = id.
Proof.
  unfold set_disabled_action, SetDisabledTx, setDisabled, RevokeAllForUserTx, revokeAllForUser.
  rewrite bindE_run. case_exec y w2 E1. destruct y as [[]|]; [|done]. intros Hr.
  apply exec_tx_ok in E1 as (t & d1 & Ht & Ha & Hs & ->).
  unfold with_uuid in Hs. destruct (uuid_in id) as [k|] eqn:Ek; [|done]. injection Hs as <-.
  exists k, t. split; [done|]. rewrite bindE_run in Hr. destruct b.
  - revert Hr. case_exec y w3 E2. destruct y as [[]|]; [|done]. rewrite ret_run. intros [= <- _ <-].
    apply exec_tx_ok in E2 as (t2 & d2 & Ht2 & _ & Hs & ->). rsimp. injection Ht2 as <-.
    unfold with_uuid in Hs. rewrite Ek in Hs. injection Hs as <-. done.
  - cbn in Hr. injection Hr as <- _ <-. do 2 (split; [done|]).
    unfold killed, set; cbn. by destruct t as [[]].
Qed.

(** What [killed] and the evidence of it come to. *)
Lemma killed_committed (ok : Prop) strict k b now d ip rec d' :
  ar_event rec = Some (kill_event b) → committed strict rec ip (killed k b now d) d' →
  (ok → with_evidence rec ip (killed k b now d) d') →
  (∀ u, users d' !! k = Some u → u_disabled u = b)
  ∧ (∀ k', k' ≠ k → users d' !! k' = users d !! k')
  ∧ (∀ h s, sessions d' !! h = Some s → b = true → s_user_id s ≠ k)
  ∧ (∀ h s, sessions d !! h = Some s → b = false ∨ s_user_id s ≠ k → sessions d' !! h = Some s)
  ∧ (strict = true ∨ ok → ∃ row, audit_log d' = audit_log d ++ [row] ∧ a_event row = kill_event b).
Proof.
  intros He Hc Hok. unfold committed, with_evidence in Hc, Hok. rewrite He in Hc, Hok.
  assert (users d' = users (killed k b now d) ∧ sessions d' = sessions (killed k b now d)
    ∧ (strict = true ∨ ok → ∃ row, audit_log d' = audit_log d ++ [row] ∧ a_event row = kill_event b))
    as (-> & -> & Ha).
  { destruct Hc as [(at_ & actor & ->)|[-> Hd]]; [split_and!; [done..|]; intros _; by eexists|].
    rewrite Hd at 1 2. split_and!; [done..|]. intros [?|(at_ & actor & ->)%Hok]; [done|]. by eexists. }
  unfold killed, set. cbn. split_and!; [| | | |done].
  - intros u. rewrite lookup_alter_eq. by intros (u0 & _ & ->)%fmap_Some.
  - intros k' Hk. by apply lookup_alter_ne.
  - intros h s Hs ->. apply lookup_delete_where_Some in Hs as [_ Ho]. by apply str_eqb_false in Ho.
  - intros h s Hs Hor. destruct b; [|done]. apply lookup_delete_where_Some. split; [done|].
    destruct Hor as [|Hne]; [done|]. by apply str_eqb_false.
Qed.
End kill.

(** C13. The kill switch is atomic: disabling an account flags it and removes
    every session it has in one step, enabling it clears the flag; other
    accounts are untouched, and anything short of that leaves the database as
    it was and is not answered 200.  In strict mode the evidence is stored in
    the same step, whatever the database answers; in best-effort mode it is
    stored when the database answers. *)
Theorem kill_switch `{Postgres} cfg r b o w :
  ParseBool (FormValue r "disabled") = Some b → fresh (w_resp w) → w_tx w = None →
  let d := w_db w in
  let w' := snd (handleAdminSetUserDisabled cfg r o w) in
  (w_db w' = d ∧ rs_status (w_resp w') ≠ Some 200) ∨
  ∃ k, uuid_in (PathValue r "id") = Some k
    ∧ (∀ u, users (w_db w') !! k = Some u → u_disabled u = b)
    ∧ (∀ k', k' ≠ k → users (w_db w') !! k' = users d !! k')
    ∧ (∀ h s, sessions (w_db w') !! h = Some s → b = true → s_user_id s ≠ k)
    ∧ (∀ h s, sessions d !! h = Some s → b = false ∨ s_user_id s ≠ k →
         sessions (w_db w') !! h = Some s)
    ∧ (AuditStrict cfg = true ∨ healthy o →
         ∃ row, audit_log (w_db w') = audit_log d ++ [row] ∧ a_event row = kill_event b).
Proof.
  intros Hb Hf Ht d w'. unfold w', handleAdminSetUserDisabled. rewrite Hb, bind_run.
  pose proof (ByID_sees_db (PathValue r "id") o w) as Hd1.
  pose proof (ByID_sees_resp (PathValue r "id") o w) as Hr1.
  pose proof (ByID_sees_tx (PathValue r "id") o w) as Ht1. unfold sees in *.
  destruct (ByID _ o w) as [[u|e] w1]; cbn [fst snd] in *.
  2:{ left. rewrite (proj1 (responds_writeError _ _ _)), writeError_answers. split; [done|].
      rewrite resp_error_status; [done|]. by rewrite Hr1. }
  rewrite bind_run. set (id := PathValue r "id").
  pose proof (auditedTx_cases cfg (clientIP cfg r) _ (set_disabled_sees_db id b) o w1) as Hc.
  pose proof (auditedTx_recorded cfg (clientIP cfg r) (set_disabled_action id b) o w1) as Hev.
  pose proof (auditedTx_sees_resp cfg (clientIP cfg r) _ (set_disabled_sees_resp id b) o w1) as Hr2.
  unfold sees in Hr2.
  destruct (auditedTx cfg _ _ o w1) as [res w2]. cbn [fst snd] in *.
  assert (Hw : w_db (snd (match res with
     | Ok _ => writeJSON 200 (JObj [("status", JStr "updated"); ("user_id", JStr id); ("disabled", JBool b)])
     | Err _ => internalError end o w2)) = w_db w2)
    by (destruct res; [apply (proj1 (responds_writeJSON _ _))|apply (proj1 responds_internalError)]).
  rewrite Hw. clear Hw. destruct Hc as [[Hd Hok]|(rec & a & t & Hrun & Htx & Hab & Hcom & _)].
  { left. split; [by rewrite Hd, Hd1|]. destruct res; [done|]. unfold internalError.
    rewrite writeError_answers. rewrite resp_error_status; [done|].
    by rewrite Hr2, Hr1. }
  right. destruct (Begin o w1) as [rb w0] eqn:EB. cbn [snd] in *.
  destruct (set_disabled_action id b o w0) as [x w3] eqn:EA. cbn [fst snd] in *. subst x.
  apply set_disabled_action_ok in EA as (k & t0 & Hk & He & Ht0 & Ht3 & Hac).
  assert (Hev' : healthy o → with_evidence rec (clientIP cfg r) (tx_db t) (w_db w2)).
  { intros Ho. eapply Hev; [done|done|exact Htx|done|exact He|right]. rewrite Hac. by exists k. }
  rewrite Htx in Ht3. injection Ht3 as ->. destruct (Begin_ok _ _ _ _ _ EB (eq_trans Ht1 Ht) Ht0) as [_ Hd0].
  exists k. split; [done|]. unfold set in Hcom, Hev'. cbn in Hcom, Hev'. rewrite Hd0, Hd1 in Hcom, Hev'.
  by eapply killed_committed.
Qed.

Definition toy_disable : request :=
  MkRequest "POST" "/v1/admin/users/u1/disable" [] [("disabled", "true")] false
    [] [] "10.0.0.1:5000" [("id", "u1")] None.
Lemma kill_switch_witness :
  let w' := snd (handleAdminSetUserDisabled toy_config toy_disable (oracle_at 5) (world_of toy_db)) in
  rs_status (w_resp w') = Some 200 ∧ u_disabled <$> users (w_db w') !! "u1" = Some true.
Proof.
  intros w'. split; [by vm_compute|].
  destruct (kill_switch toy_config toy_disable true (oracle_at 5) (world_of toy_db)
    eq_refl (conj eq_refl eq_refl) eq_refl) as [[_ Hn]|(k & Hk & Hu & _)].
  - destruct Hn. by vm_compute.
  - assert (k = "u1") as -> by (vm_compute in Hk; by injection Hk).
    fold w' in Hu. destruct (users (w_db w') !! "u1") as [u|] eqn:E; [|by vm_compute in E].
    simpl. f_equal. by apply Hu.
Defined.
