(* ===== verification/EndUser.v ===== *)
(** * EndUser: src/internal/http/enduser.go

    The browser and headless flows: password login, signup, logout, OAuth,
    password reset, e-mail verification and magic links.  A handler writes a
    page as its template's name and data; [Pages] has the text and shows that
    rendering succeeds. *)

From S2P Require Import Prelude GoLib GoHash GoNet GoUrl Schema World Logic Crypto Users Session RateLimit Tokens AuditLog Keyring Outbox Config Http OAuth.

Definition sendBeforeMargin : Z := Minute.

Section enduser.
Context `{Postgres} `{PasswordLib} (cfg : Config) (kr : Keyring) (providers : Registry).

(** ** Pages *)
Definition handleLoginPage (r : request) : M unit :=
  _ ← captureRedirect cfg r;
  csrf ← issueCSRFToken cfg;
  if wantsJSON r then
    let opt k v := if str_eqb v "" then [] else [(k, JStr v)] in
    let branding :=
      if brand_Active (Brand cfg) || set_string (ThemeCSSURL cfg) then
        [("branding", JObj (opt "logo_url" (LogoURL (Brand cfg))
            ++ opt "primary_color" (PrimaryColor (Brand cfg))
            ++ opt "page_background" (PageBG (Brand cfg))
            ++ opt "font_url" (FontURL (Brand cfg))
            ++ opt "theme_css_url" (ThemeCSSURL cfg)))]
      else [] in
    writeJSON 200 (JObj ([("providers", JArr (map JStr (Names providers)));
      ("methods", JArr [JStr "password"; JStr "magiclink"]); ("csrf_token", JStr csrf)] ++ branding))
  else
    _ ← setHeader "Content-Type" "text/html; charset=utf-8";
    Write (BHtml "login.html" (page_chrome cfg ++
      [("Providers", JArr (map JStr (Names providers))); ("Password", JBool true);
       ("MagicLink", JBool true); ("Error", JStr (QueryGet r "error")); ("CSRFToken", JStr csrf)])).

Definition handleResetRequestPage (r : request) : M unit :=
  csrf ← issueCSRFToken cfg;
  if wantsJSON r then
    writeJSON 200 (JObj [("method", JStr "POST"); ("fields", JArr [JStr "email"]);
                         ("csrf_token", JStr csrf)])
  else
    _ ← setHeader "Content-Type" "text/html; charset=utf-8";
    Write (BHtml "reset_request.html" (page_chrome cfg ++ [("CSRFToken", JStr csrf)])).

Definition handleResetConfirmPage (r : request) : M unit :=
  let token := QueryGet r "token" in
  csrf ← issueCSRFToken cfg;
  if wantsJSON r then
    writeJSON 200 (JObj [("method", JStr "POST"); ("fields", JArr [JStr "token"; JStr "password"]);
                         ("csrf_token", JStr csrf)])
  else if str_eqb token "" then
    renderMessage cfg 400 "Enlace inválido"
      ("El enlace no es válido. Pedí uno nuevo desde " +:+ dquote +:+ "¿Olvidaste tu contraseña?"
       +:+ dquote +:+ ".")
  else
    _ ← setHeader "Content-Type" "text/html; charset=utf-8";
    Write (BHtml "reset_confirm.html"
      (page_chrome cfg ++ [("Token", JStr token); ("CSRFToken", JStr csrf)])).

(** ** Starting a session *)

(** [resolve] identifies the user inside the transaction. *)
Definition login_action (r : request) (detail : list (string * json))
    (resolve : M (res err string)) : M (res err (auditRecord * (Created * string))) :=
  userID ←? resolve;
  created ←? CreateTx (session_config cfg)
    (MkCreateInput userID (Some (HeaderGet r "User-Agent")) (Some (clientIP cfg r)));
  mret (Ok (MkAuditRecord (Some LoginSuccess) userID detail, (created, userID))).
Definition loginTx (r : request) (detail : list (string * json)) (resolve : M (res err string))
  : M (res err (Created * string)) :=
  auditedTx cfg (clientIP cfg r) (login_action r detail resolve).

Definition finishLogin (r : request) (created : Created) : M unit :=
  _ ← setSessionCookie cfg (cr_token created) (cr_expires_at created);
  csrf ← issueCSRFToken cfg;
  let raw := FormValue r "redirect_to" in
  let raw := if str_eqb raw "" then cookieValue r cookiePostLogin else raw in
  let target := safe_target cfg raw in
  _ ← clearTransient cfg cookiePostLogin;
  if wantsJSON r then
    writeJSON 200 (json_strings [("status", "authenticated"); ("redirect_to", target);
                                 ("csrf_token", csrf)])
  else http_Redirect r target 302.

(** ** Queueing a one-time link *)
Definition queueOneTimeLinkTx (userID to : string) (purpose : Purpose) (path subject : string)
    (ttl : Z) : M (res err unit) :=
  '(token, tokenID) ←? IssueTx userID purpose ttl;
  let link := BaseURL cfg +:+ path +:+ "?token=" +:+ token in
  let text := subject +:+ ":" +:+ newline +:+ newline +:+ link +:+ newline +:+ newline
              +:+ "Este enlace expira pronto y se usa una sola vez." in
  now ← time_Now;
  QueueTx kr (MkQueueInput userID tokenID to (EmailFrom cfg) subject text purpose
    (EmailProvider cfg) (now + (ttl - sendBeforeMargin))).

(** ** Password login *)
Definition bad_credentials : M unit :=
  writeError 401 codeInvalidCredentials "Email o contraseña incorrectos.".
Definition login_failed (r : request) (actor emailAddr reason : string) : M unit :=
  ok ← recordAudit cfg r LoginFailed actor
    [("method", JStr "password"); ("email", JStr emailAddr); ("reason", JStr reason)];
  if (ok : bool) then bad_credentials else mret tt.

(** Lazy migration: a bcrypt hash is replaced; a failed update is ignored.
    False: hashing panicked, and the request is over. *)
Definition rehash (userID password : string) : M bool :=
  h ← HashPassword password;
  match h with
  | None => _ ← recovered; mret false
  | Some newHash => _ ← SetPassword userID newHash; mret true
  end.

Definition start_password_session (r : request) (userID : string) : M unit :=
  res ← loginTx r [("method", JStr "password")] (mret (Ok userID));
  match res with
  | Err _ => internalError
  | Ok (created, _) => finishLogin r created
  end.

Definition password_checked (r : request) (emailAddr password : string) (cred : Credential) : M unit :=
  if negb (c_has_password cred) || c_disabled cred then
    match DummyVerify password with
    | VerdictPanic => recovered
    | _ =>
        if c_disabled cred then login_failed r (c_user_id cred) emailAddr "user_disabled"
        else login_failed r "" emailAddr "unknown_user"
    end
  else
    match VerifyPassword password (c_hash cred) with
    | VerdictPanic => recovered
    | Verdict true needsRehash =>
        ok ← (if needsRehash then rehash (c_user_id cred) password else mret true);
        if (ok : bool) then start_password_session r (c_user_id cred) else mret tt
    | Verdict false _ | VerdictError => login_failed r (c_user_id cred) emailAddr "bad_password"
    end.

Definition handlePasswordLogin (r : request) : M unit :=
  ok ← checkCSRF cfg r;
  if negb ok then mret tt else
  let emailAddr := FormValue r "email" in
  let password := FormValue r "password" in
  if str_eqb emailAddr "" || str_eqb password "" then
    writeError 400 codeInvalidRequest "Email y contraseña requeridos."
  else
    ok ← checkLoginRate cfg r emailAddr;
    if negb ok then mret tt else
    cred ← PasswordCredential emailAddr;
    match cred with
    | Err _ => internalError
    | Ok cred => password_checked r emailAddr password cred
    end.

(** ** Signup *)
Definition signup_action (id emailAddr hash : string) : M (res err (auditRecord * unit)) :=
  _ ←? CreateWithPasswordTx id emailAddr hash;
  _ ←? queueOneTimeLinkTx id emailAddr PurposeVerify "/verify" "Verificá tu email" (24 * Hour);
  mret (Ok (MkAuditRecord (Some Signup) id [("email", JStr emailAddr)], tt)).

Definition handleSignup (r : request) : M unit :=
  ok ← checkCSRF cfg r;
  if negb ok then mret tt else
  if str_eqb (Signup_ cfg) SignupDisabled then
    ok ← recordAudit cfg r SignupRejected ""
      [("method", JStr "password"); ("reason", JStr "signup_disabled")];
    if (ok : bool) then writeError 403 codeForbidden "El registro está deshabilitado." else mret tt
  else
    let emailAddr := FormValue r "email" in
    let password := FormValue r "password" in
    if str_eqb emailAddr "" || (String.length password <? 8)%nat then
      writeError 400 codeInvalidRequest "Email válido y contraseña de 8+ caracteres requeridos."
    else
      hash ← HashPassword password;
      match hash with
      | None => recovered
      | Some hash =>
          id ← UUIDv7;
          res ← auditedTx cfg (clientIP cfg r) (signup_action id emailAddr hash);
          _ ← (match res with
               | Err e => if is_audit_error e then mret tt else IncCounter metricEmailQueueErrors
               | Ok _ => mret tt
               end);
          writeJSON 200 (json_strings [("status", "verification_sent")])
      end.

(** ** Logout *)
Definition logout_action (token : string) : M (res err (auditRecord * unit)) :=
  uid ←? RevokeTx token;
  if str_eqb uid "" then mret (Ok (no_record, tt))
  else mret (Ok (MkAuditRecord (Some Logout) uid [], tt)).
Definition finish_logout (r : request) : M unit :=
  _ ← clearSessionCookie cfg;
  let target := safe_target cfg (FormValue r "redirect_to") in
  if wantsJSON r then
    writeJSON 200 (json_strings [("status", "logged_out"); ("redirect_to", target)])
  else http_Redirect r target 302.
Definition handleLogout (r : request) : M unit :=
  ok ← checkCSRF cfg r;
  if negb ok then mret tt else
  let token := cookieValue r (CookieName cfg) in
  if str_eqb token "" then finish_logout r else
  res ← auditedTx cfg (clientIP cfg r) (logout_action token);
  match res with
  | Err _ => internalError
  | Ok _ => finish_logout r
  end.

(** ** Password reset *)

(** What /reset and /magiclink do for an account: evidence, token and mail
    together; a failure is counted and masked. *)
Definition link_action (userID emailAddr : string) (purpose : Purpose) (path subject : string)
    (event : Event) : M (res err (auditRecord * unit)) :=
  _ ←? queueOneTimeLinkTx userID emailAddr purpose path subject (15 * Minute);
  mret (Ok (MkAuditRecord (Some event) userID [], tt)).
Definition send_link (r : request) (userID emailAddr : string) (purpose : Purpose)
    (path subject : string) (event : Event) : M unit :=
  res ← auditedTx cfg (clientIP cfg r) (link_action userID emailAddr purpose path subject event);
  match res with
  | Err _ => IncCounter metricEmailQueueErrors
  | Ok _ => mret tt
  end.

Definition handleResetRequest (r : request) : M unit :=
  ok ← checkCSRF cfg r;
  if negb ok then mret tt else
  let emailAddr := FormValue r "email" in
  if str_eqb emailAddr "" then writeError 400 codeInvalidRequest "Email requerido." else
  ok ← checkLoginRate cfg r emailAddr;
  if negb ok then mret tt else
  u ← ByEmail emailAddr;
  _ ← (match u with
       | Ok (Some u) => send_link r (ID u) emailAddr PurposeReset "/reset/confirm"
                          "Restablecé tu contraseña" ResetRequested
       | _ => mret tt
       end);
  if wantsJSON r then writeJSON 200 (json_strings [("status", "reset_sent")])
  else renderMessage cfg 200 "Revisá tu email"
    "Si existe una cuenta con ese email, te enviamos un enlace para restablecer la contraseña.".

Definition reset_action (token hash : string) : M (res err (auditRecord * unit)) :=
  userID ←? ConsumeTx token PurposeReset;
  _ ←? SetPasswordTx userID hash;
  _ ←? RevokeAllForUserTx userID;
  mret (Ok (MkAuditRecord (Some ResetCompleted) userID [("sessions_revoked", JStr "all")], tt)).
Definition reset_done (r : request) (res : res err unit) : M unit :=
  match res with
  | Err e =>
      if errors_Is e EInvalidToken then
        if wantsJSON r then writeError 400 codeInvalidRequest "Token inválido o expirado."
        else renderMessage cfg 400 "Enlace inválido o vencido"
          ("El enlace ya fue usado o expiró. Pedí uno nuevo desde " +:+ dquote +:+
           "¿Olvidaste tu contraseña?" +:+ dquote +:+ ".")
      else internalError
  | Ok _ =>
      if wantsJSON r then writeJSON 200 (json_strings [("status", "password_reset")])
      else renderMessage cfg 200 "Contraseña actualizada"
        "Tu contraseña fue cambiada y cerramos todas tus sesiones. Iniciá sesión de nuevo."
  end.
Definition handleResetConfirm (r : request) : M unit :=
  ok ← checkCSRF cfg r;
  if negb ok then mret tt else
  let token := FormValue r "token" in
  let password := FormValue r "password" in
  if str_eqb token "" || (String.length password <? 8)%nat then
    writeError 400 codeInvalidRequest "Token y contraseña de 8+ caracteres requeridos."
  else
    hash ← HashPassword password;
    match hash with
    | None => recovered
    | Some hash =>
        res ← auditedTx cfg (clientIP cfg r) (reset_action token hash);
        reset_done r res
    end.

(** ** E-mail verification *)
Definition handleVerify (r : request) : M unit :=
  let token := QueryGet r "token" in
  if str_eqb token "" then writeError 400 codeInvalidRequest "Token requerido." else
  uid ← Consume token PurposeVerify;
  match uid with
  | Err _ =>
      if wantsJSON r then writeError 400 codeInvalidRequest "Token inválido o expirado."
      else renderMessage cfg 400 "Enlace inválido o vencido"
        "El enlace de verificación ya fue usado o expiró."
  | Ok userID =>
      res ← MarkEmailVerified userID;
      match res with
      | Err _ => internalError
      | Ok _ =>
          ok ← recordAudit cfg r Schema.EmailVerified userID [];
          if negb ok then mret tt
          else if wantsJSON r then writeJSON 200 (json_strings [("status", "email_verified")])
          else renderMessage cfg 200 "Email verificado"
            "Tu email quedó verificado. Ya podés iniciar sesión."
      end
  end.

(** ** Magic links *)
Definition handleMagicLinkRequest (r : request) : M unit :=
  ok ← checkCSRF cfg r;
  if negb ok then mret tt else
  let emailAddr := FormValue r "email" in
  if str_eqb emailAddr "" then
    if wantsJSON r then writeError 400 codeInvalidRequest "Email requerido."
    else http_Redirect r "/login?error=email_required" 302
  else
  ok ← checkLoginRate cfg r emailAddr;
  if negb ok then mret tt else
  u ← ByEmail emailAddr;
  _ ← (match u with
       | Ok (Some u) =>
           if Disabled u then mret tt
           else send_link r (ID u) emailAddr PurposeMagicLink "/magiclink/confirm"
                  "Tu enlace de acceso" MagicLinkRequest
       | _ => mret tt
       end);
  if wantsJSON r then writeJSON 200 (json_strings [("status", "magiclink_sent")])
  else renderMessage cfg 200 "Revisá tu email"
    "Si existe una cuenta con ese email, te enviamos un enlace de acceso.".

Definition magic_resolve (token : string) : M (res err string) :=
  userID ←? ConsumeTx token PurposeMagicLink;
  disabled ←? DisabledTx userID;
  if (disabled : bool) then mret (Err EUserDisabled) else
  _ ←? MarkEmailVerifiedTx userID;
  mret (Ok userID).
Definition handleMagicLinkConfirm (r : request) : M unit :=
  let token := QueryGet r "token" in
  if str_eqb token "" then writeError 400 codeInvalidRequest "Token requerido." else
  res ← loginTx r [("method", JStr "magiclink")] (magic_resolve token);
  match res with
  | Err e =>
      if errors_Is e EInvalidToken || errors_Is e EUserDisabled then
        if wantsJSON r then writeError 400 codeInvalidRequest "Enlace inválido o expirado."
        else renderMessage cfg 400 "Enlace inválido o vencido"
          "El enlace de acceso ya fue usado o expiró. Pedí uno nuevo desde la pantalla de inicio de sesión."
      else internalError
  | Ok (created, _) => finishLogin r created
  end.

(** ** OAuth *)
Definition oauthFail (r : request) (code msg : string) : M unit :=
  _ ← clearSessionCookie cfg;
  if wantsJSON r then writeError 400 code msg
  else http_Redirect r ("/login?error=" +:+ code) 302.

Definition handleOAuthStart (r : request) : M unit :=
  match providers !! PathValue r "provider" with
  | None => writeError 404 codeNotFound "Proveedor no disponible."
  | Some prov =>
      state ← GenerateOAuthState;
      pkce ← NewPKCE;
      _ ← setTransient cfg cookieOAuthState state;
      _ ← setTransient cfg cookiePKCE (Verifier pkce);
      _ ← captureRedirect cfg r;
      let url := AuthorizeURL prov state (Verifier pkce) in
      if wantsJSON r then writeJSON 200 (json_strings [("authorize_url", url)])
      else http_Redirect r url 302
  end.

(** The callback once the provider vouched for [profile]. *)
Definition oauth_login (r : request) (name : string) (profile : OAuthProfile) : M unit :=
  res ← UpsertByOAuth profile (negb (str_eqb (Signup_ cfg) SignupDisabled));
  match res with
  | Err e =>
      if errors_Is e ESignupDisabled then
        ok ← recordAudit cfg r SignupRejected ""
          [("method", JStr "oauth"); ("provider", JStr name); ("reason", JStr "signup_disabled")];
        if (ok : bool) then oauthFail r codeForbidden "El registro está deshabilitado." else mret tt
      else if errors_Is e EUserDisabled then
        ok ← recordAudit cfg r LoginFailed ""
          [("method", JStr "oauth"); ("provider", JStr name); ("reason", JStr "user_disabled")];
        if (ok : bool) then oauthFail r codeOAuthFailed "No pudimos iniciar sesión. Probá de nuevo."
        else mret tt
      else internalError
  | Ok ur =>
      res ← loginTx r [("method", JStr "oauth"); ("provider", JStr name)]
        (mret (Ok (ur_user_id ur)));
      match res with
      | Err _ => internalError
      | Ok (created, _) => finishLogin r created
      end
  end.

Definition handleOAuthCallback (r : request) : M unit :=
  let name := PathValue r "provider" in
  match providers !! name with
  | None => writeError 404 codeNotFound "Proveedor no disponible."
  | Some prov =>
      let code := QueryGet r "code" in
      let stateQ := QueryGet r "state" in
      let stateC := cookieValue r cookieOAuthState in
      let verifier := cookieValue r cookiePKCE in
      _ ← clearTransient cfg cookieOAuthState;
      _ ← clearTransient cfg cookiePKCE;
      if str_eqb code "" || str_eqb stateQ "" then
        oauthFail r codeInvalidRequest "Falta el código o el estado."
      else if str_eqb stateC "" || negb (SafeEqual stateC stateQ) then
        oauthFail r codeStateMismatch "Estado inválido. Probá de nuevo."
      else
        profile ← Exchange prov code verifier;
        match profile with
        | None => recovered
        | Some (Err _) =>
            _ ← IncCounter metricOAuthExchangeErrors;
            oauthFail r codeOAuthFailed "No pudimos iniciar sesión. Probá de nuevo."
        | Some (Ok profile) => oauth_login r name profile
        end
  end.
End enduser.

(** ** The CSRF pair *)
Lemma checkCSRF_refuses cfg r o w :
  csrf_ok r = false ∨ r_form_error r = true → fresh (w_resp w) →
  let '(ok, w') := checkCSRF cfg r o w in
  ok = false ∧ w_db w' = w_db w ∧ rs_cookies (w_resp w') = rs_cookies (w_resp w)
  ∧ (rs_status (w_resp w') = Some 400 ∨ rs_status (w_resp w') = Some 403).
Proof.
  intros Hc Hf. destruct w as [d t i [st h c b] m], Hf as [Hst Hb]. cbn in Hst, Hb. subst st b.
  unfold checkCSRF. destruct (r_form_error r) eqn:Ef; [split_and!; auto|].
  destruct Hc as [-> |]; [|done]. destruct (wantsJSON r); split_and!; auto.
Qed.
Lemma checkCSRF_accepts cfg r o w :
  csrf_ok r = true → r_form_error r = false → checkCSRF cfg r o w = (true, w).
Proof. intros Hc Hf. unfold checkCSRF. by rewrite Hf, Hc. Qed.

Definition csrf_protected `{Postgres} `{PasswordLib} (cfg : Config) (kr : Keyring)
  : list (request → M unit) :=
  [handlePasswordLogin cfg; handleSignup cfg kr; handleLogout cfg;
   handleResetRequest cfg kr; handleResetConfirm cfg; handleMagicLinkRequest cfg kr].

(** C17. No form is processed without the CSRF pair: a POST to any of the
    session-mutating forms whose body does not parse, or whose token is
    absent or differs from the cookie, changes neither the database nor the
    cookies, whatever else it carries; it is answered 400 or 403. *)
Theorem csrf_guard `{Postgres} `{PasswordLib} cfg kr handler r o w :
  handler ∈ csrf_protected cfg kr →
  csrf_ok r = false ∨ r_form_error r = true → fresh (w_resp w) →
  let w' := snd (handler r o w) in
  w_db w' = w_db w ∧ rs_cookies (w_resp w') = rs_cookies (w_resp w)
  ∧ (rs_status (w_resp w') = Some 400 ∨ rs_status (w_resp w') = Some 403).
Proof.
  intros Hin Hc Hf. pose proof (checkCSRF_refuses cfg r o w Hc Hf) as Hk.
  destruct (checkCSRF cfg r o w) as [ok w1] eqn:E. destruct Hk as [-> Hk].
  assert (∃ k : bool → M unit, handler r = (checkCSRF cfg r ≫= λ ok, k ok) ∧ k false = mret tt)
    as (k & -> & Hk0).
  { unfold csrf_protected in Hin.
    repeat (apply elem_of_cons in Hin as [->|Hin]; [eexists; split; reflexivity|]).
    by apply elem_of_nil in Hin. }
  rewrite bind_run, E. cbn [fst snd]. by rewrite Hk0.
Qed.

Definition toy_form (fields : list (string * string)) (cookies : list (string * string)) : request :=
  MkRequest "POST" "/login" [] fields false [] cookies "10.0.0.1:5000" [] None.

Lemma csrf_guard_witness :
  w_db (snd (handleLogout toy_config (toy_form [] [("sid", "tok")]) (oracle_at 1) (world_of toy_db)))
  = toy_db.
Proof.
  apply (csrf_guard toy_config toy_keyring (handleLogout toy_config)); [|by left|done].
  unfold csrf_protected. do 2 right. left.
Defined.

(** ** Minting a session *)

(** A session of [uid] under a new key, and nothing else but evidence. *)
Definition minted (uid : string) (d d' : db) : Prop :=
  ∃ tok s, sessions d !! HashToken tok = None ∧ s_user_id s = uid
    ∧ core d' = core (d <| sessions := <[HashToken tok := s]> (sessions d) |>).

Section login.
Context `{Postgres} (cfg : Config) (r : request) (detail : list (string * json)).
Context (resolve : M (res err string)).

Lemma login_action_sees_db :
  preserves (sees w_db) resolve → preserves (sees w_db) (login_action cfg r detail resolve).
Proof.
  intros Hr. unfold login_action, CreateTx, create, time_Now.
  pose proof (proj1 responds_GenerateToken) as HG. solve_preserves.
Qed.
Lemma login_action_sees_resp :
  preserves (sees w_resp) resolve → preserves (sees w_resp) (login_action cfg r detail resolve).
Proof.
  intros Hr. unfold login_action, CreateTx, create, time_Now.
  assert (HG : preserves (sees w_resp) GenerateToken) by (unfold GenerateToken, rand_bytes; solve_preserves).
  solve_preserves.
Qed.

Lemma login_action_ok o w rec created uid w1 :
  login_action cfg r detail resolve o w = (Ok (rec, (created, uid)), w1) →
  ∃ w2 t tok s, resolve o w = (Ok uid, w2) ∧ w_tx w2 = Some t
    ∧ sessions (tx_db t) !! HashToken tok = None ∧ s_user_id s = uid
    ∧ w_tx w1 = Some (t <| tx_db := (tx_db t) <| sessions :=
                        <[HashToken tok := s]> (sessions (tx_db t)) |> |>).
Proof.
  unfold login_action. rewrite bindE_run.
  destruct (resolve o w) as [[uid'|e] w2] eqn:ER; cbn [fst snd]; [|done].
  rewrite bindE_run. unfold CreateTx, create. rewrite bind_run.
  destruct (GenerateToken o w2) as [tok w3] eqn:EG. cbn [fst snd].
  pose proof (proj2 responds_GenerateToken o w2) as Ht3. rewrite EG in Ht3. unfold sees in Ht3. cbn in Ht3.
  rewrite bind_run. unfold time_Now, tick. cbn [fst snd]. rewrite bindE_run.
  case_exec x w4 E4. destruct x as [[]|]; cbn [fst snd]; rewrite ?ret_run; [|done].
  intros [= <- <- <- <-]. apply exec_tx_ok in E4 as (t & d & Ht & _ & Hs & ->).
  apply sql_insert_session_inv in Hs as (Hn & _ & ->). cbn in Ht. rewrite Ht3 in Ht.
  eexists w2, t, tok, _. split_and!; [done|done|done| |done]. done.
Qed.

(** Either nothing is committed, or what [resolve] did and one new session
    of the user it named. *)
Lemma loginTx_cases o w :
  preserves (sees w_db) resolve → preserves closes resolve → w_tx w = None →
  let out := loginTx cfg r detail resolve o w in
  (w_db (snd out) = w_db w ∧ is_ok (fst out) = false) ∨
  ∃ uid w0 w2 t0 t, w_tx w0 = Some t0 ∧ tx_db t0 = w_db w ∧ resolve o w0 = (Ok uid, w2)
    ∧ w_tx w2 = Some t ∧ minted uid (tx_db t) (w_db (snd out)).
Proof.
  intros Hr Hcl Hw. unfold loginTx. cbv zeta.
  destruct (auditedTx_cases cfg (clientIP cfg r) _ (login_action_sees_db Hr) o w)
    as [Hc|(rec & [created uid] & t & Hf & Ht & _ & Hcom & _)]; [by left|]. right.
  destruct (Begin o w) as [rb w0] eqn:EB. cbn [snd] in *.
  destruct (login_action cfg r detail resolve o w0) as [x w1] eqn:EA. cbn [fst snd] in *. subst x.
  apply login_action_ok in EA as (w2 & t2 & tok & s & ER & Ht2 & Hn & Hu & Ht1).
  rewrite Ht in Ht1. injection Ht1 as ->.
  destruct (w_tx w0) as [t0|] eqn:Et0.
  - destruct (Begin_ok _ _ _ _ _ EB Hw Et0) as [_ Hd0].
    exists uid, w0, w2, t0, t2. split_and!; [done..|]. exists tok, s. split_and!; [done|done|].
    by rewrite (committed_core _ _ _ _ _ Hcom).
  - pose proof (Hcl o w0 Et0) as Hno. rewrite ER in Hno. cbn [snd] in Hno. by rewrite Ht2 in Hno.
Qed.
End login.

Lemma loginTx_closes `{Postgres} cfg r detail resolve : preserves closes (loginTx cfg r detail resolve).
Proof. apply auditedTx_closes. Qed.
Lemma finishLogin_responds cfg r created : responds (finishLogin cfg r created).
Proof. unfold finishLogin, setSessionCookie, clearTransient. solve_responds. Qed.
Lemma bad_credentials_responds : responds bad_credentials.
Proof. apply responds_writeError. Qed.
#[export] Hint Resolve finishLogin_responds bad_credentials_responds : responds.
#[export] Hint Resolve loginTx_closes : preserves.

(** ** Password login *)
Section password_login.
Context `{Postgres} `{PasswordLib} (cfg : Config).

Lemma login_failed_quiet c r a e reason : preserves (keeps (quiet c)) (login_failed cfg r a e reason).
Proof. unfold login_failed. solve_preserves. Qed.
Lemma PasswordCredential_quiet c e : preserves (keeps (quiet c)) (PasswordCredential e).
Proof.
  unfold PasswordCredential. apply preserves_bind; [exact _| |intros; apply preserves_ret; exact _].
  apply queryRow_preserves; [exact _|]. apply exec_keeps. exact (read_quiet c (λ _ d, _)).
Qed.
Lemma PasswordCredential_closes e : preserves closes (PasswordCredential e).
Proof. unfold PasswordCredential. solve_preserves. Qed.

(** A credential that was found is the one of the account with that address. *)
Lemma PasswordCredential_found e o w c w' :
  PasswordCredential e o w = (Ok c, w') → c_has_password c = true →
  ∃ u h, user_by_email (w_db w) e = Some (c_user_id c, u) ∧ u_password_hash u = Some h
    ∧ c_hash c = h ∧ c_disabled c = u_disabled u.
Proof.
  unfold PasswordCredential. rewrite bind_run.
  destruct (queryRow Pool (sql_credential e) o w) as [q w1] eqn:EQ. cbn [fst snd]. rewrite ret_run.
  unfold sql_credential in EQ. apply queryRow_read_ok in EQ as (_ & _ & Hq).
  intros [= Hc <-]. destruct q as [c'|er]; [|destruct er; simplify_eq; done].
  injection Hc as ->. destruct (user_by_email (w_db w) e) as [[k u]|]; [|done].
  cbn in Hq. injection Hq as <-. cbn. intros Hp. apply bool_decide_eq_true in Hp as [h Hh].
  exists u, h. by rewrite Hh.
Qed.

Lemma rehash_run uid pw o w :
  sessions (w_db (snd (rehash uid pw o w))) = sessions (w_db w)
  ∧ (w_tx w = None → w_tx (snd (rehash uid pw o w)) = None).
Proof.
  unfold rehash, HashPassword. rewrite bind_run.
  destruct (rand_bytes argonSaltLen o w) as [salt w1] eqn:ER.
  assert (w_db w1 = w_db w ∧ w_tx w1 = w_tx w) as [Hd Ht] by (by injection ER as _ <-).
  rewrite bind_run, ER. cbn [fst snd]. rewrite ret_run. cbn [fst snd].
  destruct (_ <$> argon2_IDKey _ _ _ _ _ _) as [h|]; rewrite bind_run, ret_run; cbn [fst snd].
  - unfold SetPassword, setPassword. rewrite (exec_Pool_sees_tx _ o w1), Ht. split; [|done].
    rewrite <-Hd. apply (exec_pool_db (λ d, sessions d = sessions (w_db w1))); [done|].
    intros now a d. by intros [= _ <-].
  - rewrite (proj1 responds_recovered o w1), (proj2 responds_recovered o w1). by rewrite Hd, Ht.
Qed.

Lemma start_password_session_run r uid o w :
  w_tx w = None →
  let w' := snd (start_password_session cfg r uid o w) in
  w_db w' = w_db w ∨ minted uid (w_db w) (w_db w').
Proof.
  intros Hw w'. subst w'. unfold start_password_session. rewrite bind_run.
  assert (H1 : preserves (sees w_db) (mret (Ok uid) : M (res err string))) by done.
  assert (H2 : preserves closes (mret (Ok uid) : M (res err string))) by (by intros ??).
  destruct (loginTx_cases cfg r [("method", JStr "password")] _ o w H1 H2 Hw)
    as [[Hd _]|(uid' & w0 & w2 & t0 & t & Ht0 & Hd0 & [= <- <-] & Ht & Hm)].
  - left. destruct (loginTx _ _ _ _ o w) as [[[created u]|e] w1]; cbn [fst snd] in *;
      [rewrite (proj1 (finishLogin_responds cfg r created) o w1)
      |rewrite (proj1 responds_internalError o w1)]; done.
  - right. rewrite Ht0 in Ht. injection Ht as <-. rewrite Hd0 in Hm.
    destruct (loginTx _ _ _ _ o w) as [[[created u]|e] w1]; cbn [fst snd] in *;
      [rewrite (proj1 (finishLogin_responds cfg r created) o w1)
      |rewrite (proj1 responds_internalError o w1)]; done.
Qed.

(** The sessions after an attempt with a credential that was read. *)
Lemma password_checked_sessions r e pw cred o w :
  w_tx w = None →
  let w' := snd (password_checked cfg r e pw cred o w) in
  sessions (w_db w') = sessions (w_db w) ∨
  (c_has_password cred = true ∧ c_disabled cred = false
   ∧ (∃ re, VerifyPassword pw (c_hash cred) = Verdict true re)
   ∧ ∃ tok s, sessions (w_db w) !! HashToken tok = None ∧ s_user_id s = c_user_id cred
       ∧ sessions (w_db w') = <[HashToken tok := s]> (sessions (w_db w))).
Proof.
  intros Hw w'. subst w'. unfold password_checked.
  assert (Hq : ∀ m : M unit, (∀ c, preserves (keeps (quiet c)) m) →
    sessions (w_db (snd (m o w))) = sessions (w_db w)).
  { intros m Hm. apply core_sessions. by apply quiet_run. }
  pose proof (λ c, login_failed_quiet c r) as Hlf.
  destruct (negb (c_has_password cred) || c_disabled cred) eqn:Ec.
  { left. destruct (DummyVerify pw); [destruct (c_disabled cred)..|];
      apply Hq; intros c; auto with preserves. }
  apply orb_false_iff in Ec as [Hp%negb_false_iff Hd].
  destruct (VerifyPassword pw (c_hash cred)) as [[] re| |] eqn:EV;
    try (left; apply Hq; intros c; solve [auto with preserves]).
  rewrite bind_run. set (pre := if re then _ else _).
  assert (Hpre : sessions (w_db (snd (pre o w))) = sessions (w_db w) ∧ w_tx (snd (pre o w)) = None).
  { unfold pre. destruct re; [|done]. destruct (rehash_run (c_user_id cred) pw o w) as [H1 H2]. auto. }
  destruct (pre o w) as [ok w1]. cbn [fst snd] in *. destruct Hpre as [Hs Ht].
  destruct ok; [|left; done].
  destruct (start_password_session_run r (c_user_id cred) o w1 Ht) as [Hdb|(tok & s & Hn & Hu & Hc)];
    [left; by rewrite Hdb|]. right. split_and!; [done|done|by exists re|].
  exists tok, s. rewrite <-Hs. split_and!; [done|done|].
  apply core_sessions in Hc. done.
Qed.
End password_login.

Lemma checkCSRF_true cfg r o w w1 :
  checkCSRF cfg r o w = (true, w1) → csrf_ok r = true ∧ r_form_error r = false ∧ w1 = w.
Proof.
  unfold checkCSRF. destruct (r_form_error r); [done|]. destruct (csrf_ok r); [by intros [= <-]|].
  by destruct (wantsJSON r).
Qed.

(** C6. A password login needs the password: whatever the database answers, a
    request to /login creates a session only if it carries the CSRF pair and
    the password of an enabled account with that address; it creates exactly
    one, for that account, under a key that was free. *)
Theorem password_login_sound `{Postgres} `{PasswordLib} cfg r o w :
  w_tx w = None →
  let w' := snd (handlePasswordLogin cfg r o w) in
  sessions (w_db w') = sessions (w_db w) ∨
  (csrf_ok r = true ∧ ∃ uid u h re tok s,
    user_by_email (w_db w) (FormValue r "email") = Some (uid, u) ∧ u_disabled u = false
    ∧ u_password_hash u = Some h ∧ VerifyPassword (FormValue r "password") h = Verdict true re
    ∧ sessions (w_db w) !! HashToken tok = None ∧ s_user_id s = uid
    ∧ sessions (w_db w') = <[HashToken tok := s]> (sessions (w_db w))).
Proof.
  intros Hw w'. subst w'. unfold handlePasswordLogin. rewrite bind_run.
  pose proof (proj1 (responds_checkCSRF cfg r) o w) as Hd. unfold sees in Hd.
  destruct (checkCSRF cfg r o w) as [[|] w1] eqn:EC; cbn [fst snd negb] in *; [|left; exact (f_equal sessions Hd)].
  apply checkCSRF_true in EC as (Hc & _ & ->). clear Hd.
  destruct (str_eqb _ "" || _); [left; by rewrite (proj1 (responds_writeError _ _ _) o w)|].
  set (e := FormValue r "email"). rewrite bind_run.
  pose proof (quiet_run (checkLoginRate cfg r e) o w (λ c, checkLoginRate_quiet cfg c r e) Hw) as Hq1.
  pose proof (checkLoginRate_closes cfg r e o w Hw) as Ht1.
  destruct (checkLoginRate cfg r e o w) as [ok w1]. cbn [fst snd] in *.
  destruct ok; cbn [negb]; [|left; by apply core_sessions]. rewrite bind_run.
  pose proof (quiet_run (PasswordCredential e) o w1 (λ c, PasswordCredential_quiet c e) Ht1) as Hq2.
  pose proof (PasswordCredential_closes e o w1 Ht1) as Ht2.
  destruct (PasswordCredential e o w1) as [[cred|er] w2] eqn:EP; cbn [fst snd] in *;
    [|left; rewrite (proj1 responds_internalError o w2); apply core_sessions; by rewrite Hq2].
  assert (Hs2 : sessions (w_db w2) = sessions (w_db w)) by (apply core_sessions; by rewrite Hq2).
  destruct (password_checked_sessions cfg r e (FormValue r "password") cred o w2 Ht2)
    as [Hs|(Hp & Hdis & [re HV] & tok & s & Hn & Hu & Hs)]; [left; by rewrite Hs|].
  right. split; [done|].
  destruct (PasswordCredential_found e o w1 cred w2 EP Hp) as (u & h & Hu1 & Hh & Hch & Hcd).
  exists (c_user_id cred), u, h, re, tok, s. rewrite Hs2 in Hn, Hs. rewrite Hch in HV. rewrite <-Hcd.
  split_and!; try done. rewrite <-Hu1. unfold user_by_email. by rewrite (core_users _ _ Hq1).
Qed.

Definition toy_accounts : db :=
  empty_db <| users := {["u1" := MkUser "ana@x.com" true (Some "$2a$letmein!") None None 0 0 [] false]} |>.
Definition toy_login : request :=
  toy_form [("email", "Ana@x.com"); ("password", "letmein!"); ("csrf_token", "t")] [("sesamo_csrf", "t")].
Lemma password_login_sound_witness :
  let w' := snd (handlePasswordLogin toy_config toy_login (oracle_at 5) (world_of toy_accounts)) in
  size (sessions (w_db w')) = 1%nat ∧
  ∃ u h re, user_by_email toy_accounts "Ana@x.com" = Some ("u1", u) ∧ u_password_hash u = Some h
    ∧ VerifyPassword "letmein!" h = Verdict true re.
Proof.
  intros w'. assert (Hsz : size (sessions (w_db w')) = 1%nat) by (vm_compute; reflexivity).
  split; [exact Hsz|].
  destruct (password_login_sound toy_config toy_login (oracle_at 5) (world_of toy_accounts) eq_refl)
    as [Hs|(_ & uid & u & h & re & tok & s & Hu & _ & Hh & HV & _)].
  - fold w' in Hs. rewrite Hs in Hsz. clear Hs. vm_compute in Hsz. discriminate Hsz.
  - exists u, h, re. clear - Hu Hh HV. change (FormValue toy_login "email") with "Ana@x.com" in Hu.
    assert (uid = "u1") as -> by (vm_compute in Hu; injection Hu as <- _; reflexivity).
    split_and!; [exact Hu|exact Hh|exact HV].
Defined.

(** A credential and a password that do not open a session. *)
Definition rejected `{PasswordLib} (cred : Credential) (pw : string) : bool :=
  negb (c_has_password cred) || c_disabled cred ||
  match VerifyPassword pw (c_hash cred) with
  | Verdict false _ | VerdictError => true
  | _ => false
  end.

(** C21. A failed login does not say why: for an unknown address, an account
    without a password, a disabled account and a wrong password the response
    is the same function of what was there before, the same 401 down to the
    last byte; only a strict audit that cannot be written turns it into a
    500, and nothing but the evidence, which says why, is written. *)
Theorem login_failures_alike `{Postgres} `{PasswordLib} cfg r e pw cred o w :
  rejected cred pw = true → DummyVerify pw ≠ VerdictPanic → w_tx w = None →
  let w' := snd (password_checked cfg r e pw cred o w) in
  core (w_db w') = core (w_db w) ∧
  (w_resp w' = resp_error 401 codeInvalidCredentials "Email o contraseña incorrectos." (w_resp w)
     ∧ (AuditStrict cfg = true → ∃ row, a_event row = LoginFailed
          ∧ audit_log (w_db w') = audit_log (w_db w) ++ [row])
   ∨ AuditStrict cfg = true
     ∧ w_resp w' = resp_error 500 codeInternal "Error interno." (w_resp w)).
Proof.
  intros Hr Hd Hw w'. subst w'.
  assert (∃ a reason, password_checked cfg r e pw cred = login_failed cfg r a e reason) as (a & reason & ->).
  { unfold password_checked, rejected in *. destruct (negb (c_has_password cred) || c_disabled cred).
    - destruct (DummyVerify pw); [destruct (c_disabled cred); eauto..|done].
    - destruct (VerifyPassword pw (c_hash cred)) as [[] re| |]; try done; eauto. }
  split; [apply quiet_run; [|done]; intros c; apply login_failed_quiet|].
  unfold login_failed. rewrite bind_run.
  pose proof (recordAudit_run cfg r LoginFailed a
    [("method", JStr "password"); ("email", JStr e); ("reason", JStr reason)] o w) as HA.
  destruct (recordAudit _ _ _ _ _ o w) as [ok w1]. cbn [fst snd]. destruct ok.
  - destruct HA as [Hre Hev]. left. unfold bad_credentials. rewrite writeError_answers, Hre. split; [done|].
    intros Hs. destruct (Hev Hs) as (row & He & _ & Hl). exists row. split; [done|].
    by rewrite (proj1 (responds_writeError _ _ _) o w1).
  - destruct HA as [Hs Hre]. right. done.
Qed.
Lemma login_failures_alike_witness :
  w_resp (snd (password_checked toy_config toy_login "ana@x.com" "wrong" (MkCredential "u1" "$2a$letmein!" true false)
    (oracle_at 5) (world_of toy_accounts)))
  = w_resp (snd (password_checked toy_config toy_login "nobody@x.com" "wrong" no_credential
    (oracle_at 5) (world_of toy_accounts))).
Proof.
  destruct (login_failures_alike toy_config toy_login "ana@x.com" "wrong" (MkCredential "u1" "$2a$letmein!" true false)
    (oracle_at 5) (world_of toy_accounts)) as [_ [[-> _]|[Hs _]]]; [reflexivity|vm_compute; discriminate|reflexivity| |discriminate Hs].
  destruct (login_failures_alike toy_config toy_login "nobody@x.com" "wrong" no_credential
    (oracle_at 5) (world_of toy_accounts)) as [_ [[-> _]|[Hs _]]]; [reflexivity|vm_compute; discriminate|reflexivity| |discriminate Hs].
  reflexivity.
Defined.

(** ** Enumeration *)
Lemma Allow_sees_resp key rule : preserves (sees w_resp) (Allow key rule).
Proof. unfold Allow. apply with_tx_sees_resp. solve_preserves. Qed.
Lemma allow_true key rule o w w1 : allow key rule o w = (true, w1) → w_resp w1 = w_resp w.
Proof.
  unfold allow. rewrite bind_run. pose proof (Allow_sees_resp key rule o w) as Hr. unfold sees in Hr.
  destruct (Allow key rule o w) as [[[[] wait]|e] w2]; cbn [fst snd] in *;
    [rewrite ret_run; by intros [= <-]| |rewrite ret_run; by intros [= <-]].
  rewrite !bind_run, ret_run. done.
Qed.
Lemma checkLoginRate_true `{Postgres} cfg r id o w w1 :
  checkLoginRate cfg r id o w = (true, w1) → w_resp w1 = w_resp w.
Proof.
  unfold checkLoginRate. rewrite bind_run. destruct (allow _ loginIPRule o w) as [[] w2] eqn:E; cbn [fst snd negb].
  - intros E2. apply allow_true in E, E2. by rewrite E2, E.
  - by rewrite ret_run.
Qed.

Lemma GenerateToken_sees_resp : preserves (sees w_resp) GenerateToken.
Proof. by intros o w. Qed.
Lemma UUIDv7_sees_resp : preserves (sees w_resp) UUIDv7.
Proof. by intros o w. Qed.
#[export] Hint Resolve GenerateToken_sees_resp UUIDv7_sees_resp : preserves.
Lemma queueOneTimeLinkTx_sees_resp cfg kr u to p path subj ttl :
  preserves (sees w_resp) (queueOneTimeLinkTx cfg kr u to p path subj ttl).
Proof.
  unfold queueOneTimeLinkTx, IssueTx, QueueTx, Encrypt, time_Now, rand_bytes. solve_preserves.
Qed.
Lemma queueOneTimeLinkTx_sees_db cfg kr u to p path subj ttl :
  preserves (sees w_db) (queueOneTimeLinkTx cfg kr u to p path subj ttl).
Proof.
  pose proof (proj1 responds_GenerateToken) as HG.
  assert (HU : preserves (sees w_db) UUIDv7) by done.
  unfold queueOneTimeLinkTx, IssueTx, QueueTx, Encrypt, time_Now, rand_bytes. solve_preserves.
Qed.
#[export] Hint Resolve queueOneTimeLinkTx_sees_resp queueOneTimeLinkTx_sees_db : preserves.
Lemma send_link_sees_resp `{Postgres} cfg kr r u e p path subj ev :
  preserves (sees w_resp) (send_link cfg kr r u e p path subj ev).
Proof.
  unfold send_link.
  pose proof (auditedTx_sees_resp cfg (clientIP cfg r) (link_action cfg kr u e p path subj ev)) as HA.
  assert (HL : preserves (sees w_resp) (link_action cfg kr u e p path subj ev))
    by (unfold link_action; solve_preserves).
  specialize (HA HL). solve_preserves.
Qed.
Lemma ByEmail_sees_resp `{Postgres} e : preserves (sees w_resp) (ByEmail e).
Proof. apply exec_sees_resp. Qed.

(** The generic answer to a request for a link. *)
Definition link_sent (cfg : Config) (r : request) (status text : string) (rs : response) : response :=
  if wantsJSON r then resp_json 200 (json_strings [("status", status)]) rs
  else resp_body 200 "text/html; charset=utf-8" (message_body cfg "Revisá tu email" text) rs.

Lemma link_sent_answers cfg r status text o w :
  w_resp (snd ((if wantsJSON r then writeJSON 200 (json_strings [("status", status)])
                else renderMessage cfg 200 "Revisá tu email" text) o w))
  = link_sent cfg r status text (w_resp w).
Proof.
  unfold link_sent. destruct (wantsJSON r); [apply writeJSON_answers|apply renderMessage_answers].
Qed.

(** The part of a request for a link behind the rate limit: whatever is done
    for an account leaves no trace in the response. *)
Lemma link_request_response `{Postgres} cfg r status text e (send : User → M unit) o w :
  (∀ u, preserves (sees w_resp) (send u)) →
  w_resp (snd ((u ← ByEmail e;
    _ ← (match u with Ok (Some u) => send u | _ => mret tt end);
    if wantsJSON r then writeJSON 200 (json_strings [("status", status)])
    else renderMessage cfg 200 "Revisá tu email" text) o w))
  = link_sent cfg r status text (w_resp w).
Proof.
  intros Hs. rewrite bind_run. pose proof (ByEmail_sees_resp e o w) as H1. unfold sees in H1.
  destruct (ByEmail e o w) as [u w1]. cbn [fst snd] in *. rewrite bind_run, link_sent_answers, <-H1.
  f_equal. destruct u as [[u|]|]; [apply Hs|done..].
Qed.

(** *** What the answers of a request for a link depend on *)
Create HintDb blind.
#[export] Hint Resolve blind_ret blind_exec blind_tick blind_Commit blind_with_tx : blind.
Ltac solve_blind :=
  repeat lazymatch goal with
  | |- blind _ (bindE _ _) => apply blind_bindE
  | |- blind _ (mbind _ _) => apply blind_bind
  | |- blind _ (match ?x with _ => _ end) => destruct x
  | |- forall _, _ => intro
  | |- blind _ _ => solve [eauto with blind]
  end.
Lemma update_response_blind {X} (f : db → X) g : blind f (update_response g).
Proof.
  intros o w1 w2 [Hd Ht Hi Hr]. split; [done|]. split; cbn; [done..|by rewrite Hr].
Qed.
#[export] Hint Resolve update_response_blind : blind.
Lemma setHeader_blind {X} (f : db → X) k v : blind f (setHeader k v).
Proof. apply update_response_blind. Qed.
Lemma WriteHeader_blind {X} (f : db → X) st : blind f (WriteHeader st).
Proof. apply update_response_blind. Qed.
Lemma Write_blind {X} (f : db → X) b : blind f (Write b).
Proof. apply update_response_blind. Qed.
#[export] Hint Resolve setHeader_blind WriteHeader_blind Write_blind : blind.
Lemma writeJSON_blind {X} (f : db → X) st v : blind f (writeJSON st v).
Proof. unfold writeJSON. solve_blind. Qed.
Lemma writeError_blind {X} (f : db → X) st c t : blind f (writeError st c t).
Proof. apply writeJSON_blind. Qed.
Lemma renderMessage_blind {X} (f : db → X) cfg st t b : blind f (renderMessage cfg st t b).
Proof. unfold renderMessage. solve_blind. Qed.
#[export] Hint Resolve writeJSON_blind writeError_blind renderMessage_blind : blind.
Lemma http_Redirect_blind {X} (f : db → X) r url code : blind f (http_Redirect r url code).
Proof.
  intros o w1 w2 Hw. unfold http_Redirect. rewrite (ag_resp _ _ _ Hw). revert o w1 w2 Hw.
  set (ct := λ w : world, negb (str_eqb (header_value (rs_headers (w_resp w)) "Content-Type") "")).
  intros o w1 w2 Hw. change (negb (str_eqb _ "")) with (ct w2). generalize (ct w2). intros b. revert o w1 w2 Hw.
  match goal with |- ∀ o w1 w2, _ → fst (?m o w1) = _ ∧ _ => change (blind f m) end. solve_blind.
Qed.
#[export] Hint Resolve http_Redirect_blind : blind.
Lemma checkCSRF_blind {X} (f : db → X) cfg r : blind f (checkCSRF cfg r).
Proof. unfold checkCSRF. solve_blind. Qed.
(** The rate limit reads and writes its buckets and nothing else. *)
Lemma sql_refill_blind key rule : stmt_blind buckets (sql_refill key rule).
Proof. intros now d1 d2 Hd. unfold sql_refill. cbn. by rewrite Hd. Qed.
Lemma sql_spend_blind key : stmt_blind buckets (sql_spend key).
Proof. intros now d1 d2 Hd. unfold sql_spend. cbn. by rewrite Hd. Qed.
#[export] Hint Resolve checkCSRF_blind sql_refill_blind sql_spend_blind : blind.
Lemma allow_blind key rule : blind buckets (allow key rule).
Proof. unfold allow, Allow. apply blind_bind; [apply blind_with_tx|]; solve_blind. Qed.
#[export] Hint Resolve allow_blind : blind.
Lemma checkLoginRate_blind cfg r id : blind buckets (checkLoginRate cfg r id).
Proof. unfold checkLoginRate. solve_blind. Qed.

(** Responses of runs that agree: of a computation that is blind to the
    tables, and of one that goes on from one that is. *)
Definition same_response (o : oracle) (w1 w2 : world) (m : M unit) : Prop :=
  w_resp (snd (m o w1)) = w_resp (snd (m o w2)).
Lemma blind_same_response {X} (f : db → X) m o w1 w2 : blind f m → agree f w1 w2 → same_response o w1 w2 m.
Proof. intros Hm Hw. apply (ag_resp f), Hm, Hw. Qed.
Lemma same_response_bind {X A} (f : db → X) (m : M A) k o w1 w2 :
  blind f m → agree f w1 w2 → (∀ a w1 w2, agree f w1 w2 → same_response o w1 w2 (k a)) →
  same_response o w1 w2 (m ≫= k).
Proof.
  intros Hm Hw Hk. unfold same_response. rewrite !bind_run. destruct (Hm o w1 w2 Hw) as [E Hw'].
  rewrite E. by apply Hk.
Qed.
Lemma link_request_same `{Postgres} cfg r status text e (send : User → M unit) o w1 w2 :
  (∀ u, preserves (sees w_resp) (send u)) → agree buckets w1 w2 →
  same_response o w1 w2 (u ← ByEmail e;
    _ ← (match u with Ok (Some u) => send u | _ => mret tt end);
    if wantsJSON r then writeJSON 200 (json_strings [("status", status)])
    else renderMessage cfg 200 "Revisá tu email" text).
Proof.
  intros Hs Hw. unfold same_response. rewrite !link_request_response by done. by rewrite (ag_resp _ _ _ Hw).
Qed.
Lemma send_magic_sees_resp `{Postgres} cfg kr r p path subj ev e u :
  preserves (sees w_resp) (if Disabled u then mret tt else send_link cfg kr r (ID u) e p path subj ev).
Proof. destruct (Disabled u); [done|apply send_link_sees_resp]. Qed.

(** C22. Asking for a link reveals nothing: the response to a reset or
    magic-link request depends on the tables through the buckets of the rate
    limit only: whatever else the database holds and whatever goes wrong in
    it, two servers with the same buckets give the same response, so that it
    does not show whether an account with that address exists, is disabled,
    or could be mailed; and past the CSRF check and the rate limit it is one
    fixed answer. *)
Theorem link_requests_reveal_nothing `{Postgres} `{PasswordLib} cfg kr r o w1 w2 :
  agree buckets w1 w2 →
  same_response o w1 w2 (handleResetRequest cfg kr r)
  ∧ same_response o w1 w2 (handleMagicLinkRequest cfg kr r)
  ∧ (∀ w', csrf_ok r = true → r_form_error r = false → FormValue r "email" ≠ "" →
     checkLoginRate cfg r (FormValue r "email") o w1 = (true, w') →
     w_resp (snd (handleResetRequest cfg kr r o w1)) = link_sent cfg r "reset_sent"
       "Si existe una cuenta con ese email, te enviamos un enlace para restablecer la contraseña." (w_resp w1)
     ∧ w_resp (snd (handleMagicLinkRequest cfg kr r o w1)) = link_sent cfg r "magiclink_sent"
       "Si existe una cuenta con ese email, te enviamos un enlace de acceso." (w_resp w1)).
Proof.
  intros Hw.
  pose proof (λ e u, send_link_sees_resp cfg kr r (ID u) e PurposeReset "/reset/confirm"
    "Restablecé tu contraseña" ResetRequested) as HsR.
  pose proof (send_magic_sees_resp cfg kr r PurposeMagicLink "/magiclink/confirm"
    "Tu enlace de acceso" MagicLinkRequest) as HsM.
  split_and!.
  - unfold handleResetRequest. eapply same_response_bind; [apply checkCSRF_blind|exact Hw|]. intros [] v1 v2 Hv; [|apply Hv].
    cbn [negb]. destruct (str_eqb _ ""); [by eapply blind_same_response; [apply writeError_blind|]|].
    eapply same_response_bind; [apply checkLoginRate_blind|exact Hv|]. intros [] u1 u2 Hu; [|apply Hu].
    apply link_request_same; [apply HsR|done].
  - unfold handleMagicLinkRequest. eapply same_response_bind; [apply checkCSRF_blind|exact Hw|]. intros [] v1 v2 Hv; [|apply Hv].
    cbn [negb]. destruct (str_eqb _ "").
    { destruct (wantsJSON r); by (eapply blind_same_response; [eauto with blind|]). }
    eapply same_response_bind; [apply checkLoginRate_blind|exact Hv|]. intros [] u1 u2 Hu; [|apply Hu].
    apply link_request_same; [apply HsM|done].
  - intros w' Hc Hf He HL. pose proof (checkLoginRate_true _ _ _ _ _ _ HL) as Hr. apply str_eqb_false in He.
    split; [unfold handleResetRequest|unfold handleMagicLinkRequest];
      rewrite bind_run, checkCSRF_accepts by done; cbn [fst snd negb]; rewrite He, bind_run, HL;
      cbn [fst snd negb]; rewrite <-Hr; apply link_request_response; [apply HsR|apply HsM].
Qed.

Definition toy_reset : request :=
  toy_form [("email", "Ana@x.com"); ("csrf_token", "t")] [("sesamo_csrf", "t")].
Definition toy_bucket : gmap string bucket_row := {["login_id:Ana@x.com" := MkBucket (QArith_base.Qmake 1 2) 5]}.
(** With an account and without one, the bucket full and spent. *)
Lemma link_requests_reveal_nothing_witness :
  same_response (oracle_at 5) (world_of toy_accounts) (world_of empty_db)
    (handleResetRequest toy_config toy_keyring toy_reset)
  ∧ same_response (oracle_at 5) (world_of (toy_accounts <| buckets := toy_bucket |>))
      (world_of (empty_db <| buckets := toy_bucket |>)) (handleMagicLinkRequest toy_config toy_keyring toy_reset)
  ∧ rs_status (w_resp (snd (handleMagicLinkRequest toy_config toy_keyring toy_reset (oracle_at 5)
      (world_of (toy_accounts <| buckets := toy_bucket |>))))) = Some 429.
Proof.
  split; [|split; [|vm_compute; reflexivity]].
  - by apply link_requests_reveal_nothing.
  - by apply link_requests_reveal_nothing.
Defined.

(** ** Password reset *)
Section reset.
Context `{Postgres} `{PasswordLib} (cfg : Config).

Lemma reset_action_sees_db tok hash : preserves (sees w_db) (reset_action tok hash).
Proof.
  unfold reset_action, ConsumeTx, consume, SetPasswordTx, setPassword, RevokeAllForUserTx,
    revokeAllForUser. solve_preserves.
Qed.
Lemma reset_action_sees_resp tok hash : preserves (sees w_resp) (reset_action tok hash).
Proof.
  unfold reset_action, ConsumeTx, consume, SetPasswordTx, setPassword, RevokeAllForUserTx,
    revokeAllForUser. solve_preserves.
Qed.
Lemma reset_action_closes tok hash : preserves closes (reset_action tok hash).
Proof.
  unfold reset_action, ConsumeTx, consume, SetPasswordTx, setPassword, RevokeAllForUserTx,
    revokeAllForUser. solve_preserves.
Qed.

(** The tables after a reset: the token spent, the password replaced, every
    session of its owner gone. *)
Definition reset_db (tok uid k hash : string) (now : Z) (d : db) : db :=
  let d1 := spend (HashToken tok) PurposeReset now d in
  d1 <| users := alter (λ u, u <| u_password_hash := Some hash |> <| u_updated_at := now |>) uid (users d1) |>
     <| sessions := delete_where (owned_by k) (sessions d1) |>.

Lemma reset_action_ok tok hash o w rec x w1 :
  reset_action tok hash o w = (Ok (rec, x), w1) →
  ∃ t id row k, w_tx w = Some t ∧ tokens (tx_db t) !! id = Some row
    ∧ consumable (HashToken tok) PurposeReset (tx_now t) id row = true
    ∧ uuid_in (t_user_id row) = Some k
    ∧ w_tx w1 = Some (t <| tx_db := reset_db tok (t_user_id row) k hash (tx_now t) (tx_db t) |>).
Proof.
  unfold reset_action. rewrite bindE_run.
  destruct (ConsumeTx tok PurposeReset o w) as [[uid|] w2] eqn:EC; cbn [fst snd]; [|done].
  apply ConsumeTx_ok in EC as (t & id & row & Ht & Hrow & Hc & <- & Ht2).
  unfold SetPasswordTx, setPassword, RevokeAllForUserTx, revokeAllForUser.
  rewrite bindE_run. case_exec y w3 E3. destruct y as [[]|]; [|done].
  apply exec_tx_ok in E3 as (t3 & d3 & Ht3 & _ & [= <-] & ->). rewrite Ht2 in Ht3. injection Ht3 as <-.
  rewrite bindE_run. case_exec y w4 E4. destruct y as [[]|]; [|done]. rewrite ret_run. intros [= <- _ <-].
  apply exec_tx_ok in E4 as (t4 & d4 & Ht4 & _ & Hs & ->). rsimp. injection Ht4 as <-.
  unfold with_uuid in Hs. destruct (uuid_in (t_user_id row)) as [k|] eqn:Ek; [|done]. injection Hs as <-.
  exists t, id, row, k. split_and!; done.
Qed.

Lemma reset_done_responds r res : responds (reset_done cfg r res).
Proof. unfold reset_done. solve_responds. Qed.
Lemma reset_done_status r e o w :
  fresh (w_resp w) → rs_status (w_resp (snd (reset_done cfg r (Err e) o w))) ≠ Some 200.
Proof.
  intros Hf. unfold reset_done. destruct (errors_Is e EInvalidToken); [destruct (wantsJSON r)|].
  - rewrite writeError_answers, resp_error_status; done.
  - rewrite renderMessage_answers, (proj1 (resp_body_fresh _ _ _ _ Hf)). done.
  - unfold internalError. rewrite writeError_answers, resp_error_status; done.
Qed.
End reset.

(** A freshly made hash opens with its password. *)
Lemma HashPassword_verifies `{PasswordLibLaws} pw o w h w' :
  HashPassword pw o w = (Some h, w') → VerifyPassword pw h = Verdict true false.
Proof.
  unfold HashPassword. rewrite bind_run, ret_run. intros [=Hphc <-].
  apply fmap_Some in Hphc as (key & Hkey & ->).
  rewrite VerifyPassword_format by (by eapply argon2_key_length). rewrite Hkey. unfold SafeEqual.
  by rewrite str_eqb_refl.
Qed.
Lemma HashPassword_keeps_world `{PasswordLib} pw o w :
  let w1 := snd (HashPassword pw o w) in
  w_db w1 = w_db w ∧ w_tx w1 = w_tx w ∧ w_resp w1 = w_resp w.
Proof. done. Qed.
Lemma recovered_fresh o w : fresh (w_resp w) → rs_status (w_resp (snd (recovered o w))) = Some 500.
Proof.
  intros [Hs Hb]. unfold recovered. rewrite Hs, bind_run. unfold internalError.
  rewrite writeError_answers, (IncCounter_sees_resp metricHTTPPanics o w). by apply resp_error_status.
Qed.
Lemma core_tokens d d' : core d = core d' → tokens d = tokens d'.
Proof. intros H. by apply (f_equal tokens) in H. Qed.

(** What the tables show after a reset. *)
Lemma reset_db_spec tok uid k hash now d id row :
  tokens d !! id = Some row → consumable (HashToken tok) PurposeReset now id row = true →
  let d' := reset_db tok uid k hash now d in
  tokens d' !! id = Some (row <| t_consumed_at := Some now |>)
  ∧ (∀ u, users d' !! uid = Some u → u_password_hash u = Some hash)
  ∧ (∀ h s, sessions d' !! h = Some s → s_user_id s ≠ k).
Proof.
  intros Hrow Hc d'. subst d'. split_and!.
  - unfold reset_db. unfold spend. rsimp. by rewrite lookup_update_where, Hrow; simpl; rewrite Hc.
  - intros u. unfold reset_db. cbn. rewrite lookup_alter. case_decide; [|done].
    destruct (users _ !! uid) as [u0|]; [|done]. by intros [= <-].
  - intros h s. unfold reset_db. cbn. intros Hl. apply lookup_delete_where_Some in Hl as [_ Ho].
    by apply str_eqb_false in Ho.
Qed.

(** C7. A reset is all or nothing: whatever the database answers, either
    nothing changed and the answer is not 200 (so the link still works), or
    a live reset token was spent, its owner's password is the new one (it
    verifies), and no session of that account is left. *)
Theorem reset_confirm_atomic `{Postgres} `{PasswordLibLaws} cfg r o w :
  w_tx w = None → fresh (w_resp w) →
  let w' := snd (handleResetConfirm cfg r o w) in
  (w_db w' = w_db w ∧ rs_status (w_resp w') ≠ Some 200) ∨
  (csrf_ok r = true ∧ ∃ id row k now,
    tokens (w_db w) !! id = Some row
    ∧ consumable (HashToken (FormValue r "token")) PurposeReset now id row = true
    ∧ uuid_in (t_user_id row) = Some k
    ∧ tokens (w_db w') !! id = Some (row <| t_consumed_at := Some now |>)
    ∧ (∀ u, users (w_db w') !! t_user_id row = Some u → ∃ h, u_password_hash u = Some h
         ∧ VerifyPassword (FormValue r "password") h = Verdict true false)
    ∧ (∀ h s, sessions (w_db w') !! h = Some s → s_user_id s ≠ k)).
Proof.
  intros Hw Hf w'. subst w'. unfold handleResetConfirm. rewrite bind_run.
  pose proof (proj1 (responds_checkCSRF cfg r) o w) as Hd. unfold sees in Hd.
  destruct (csrf_ok r && negb (r_form_error r)) eqn:Ec.
  2:{ left. assert (Hc : csrf_ok r = false ∨ r_form_error r = true).
      { destruct (csrf_ok r), (r_form_error r); auto. }
      pose proof (checkCSRF_refuses cfg r o w Hc Hf) as Hk.
      destruct (checkCSRF cfg r o w) as [ok w1]. destruct Hk as (-> & Hdb & _ & [Hs|Hs]);
        cbn [fst snd negb]; rewrite ret_run; cbn [snd]; by rewrite Hs. }
  apply andb_true_iff in Ec as [Hc Hfe%negb_true_iff]. rewrite checkCSRF_accepts by done.
  cbn [fst snd negb]. destruct (str_eqb _ "" || _).
  { left. rewrite (proj1 (responds_writeError _ _ _) o w), writeError_answers, resp_error_status; done. }
  rewrite bind_run. pose proof (HashPassword_keeps_world (FormValue r "password") o w) as Hk.
  destruct (HashPassword (FormValue r "password") o w) as [[hash|] w1] eqn:EH;
    cbn [fst snd] in *; destruct Hk as (Hd1 & Ht1 & Hr1).
  2:{ left. rewrite (proj1 responds_recovered o w1), recovered_fresh; [done|by rewrite Hr1]. }
  apply HashPassword_verifies in EH. set (tok := FormValue r "token").
  rewrite <-Ht1 in Hw. rewrite <-Hr1 in Hf.
  destruct (auditedTx_then cfg (clientIP cfg r) (reset_action tok hash) (λ res, reset_done cfg r res) o w1
    (reset_action_sees_db tok hash) (reset_action_closes tok hash) (reset_done_responds cfg r) Hw)
    as (rs & w2 & EA & Heq & Hcase).
  rewrite Heq in Hcase |- *. clear Heq.
  destruct Hcase as [[Hdb Hok]|(rec & a & w0 & t0 & w3 & t & Ht0 & Hd0 & Hact & Ht & Hcom)].
  - left. split; [by rewrite Hdb|]. destruct rs as [|e]; [done|]. apply reset_done_status.
    pose proof (auditedTx_sees_resp cfg (clientIP cfg r) _ (reset_action_sees_resp tok hash) o w1) as Hs.
    rewrite EA in Hs. unfold sees in Hs. cbn [snd] in Hs. by rewrite Hs.
  - right. split; [done|].
    apply reset_action_ok in Hact as (t1 & id & row & k & Ht1' & Hrow & Hcons & Hk & Ht3).
    rewrite Ht0 in Ht1'. injection Ht1' as <-. rewrite Ht in Ht3. injection Ht3 as ->.
    rewrite Hd0, Hd1 in Hrow. apply committed_core in Hcom. cbn in Hcom. rewrite Hd0, Hd1 in Hcom.
    destruct (reset_db_spec tok (t_user_id row) k hash (tx_now t0) (w_db w) id row Hrow Hcons)
      as (Hp1 & Hp2 & Hp3).
    exists id, row, k, (tx_now t0). split_and!; try done.
    + by rewrite (core_tokens _ _ Hcom).
    + intros u. rewrite (core_users _ _ Hcom). intros Hu. exists hash. by rewrite (Hp2 u Hu).
    + intros h s. rewrite (core_sessions _ _ Hcom). apply Hp3.
Qed.

Definition toy_with_token (p : Purpose) : db :=
  toy_accounts <| tokens := {["k1" := MkToken "u1" (HashToken "tok") p 1000 None 0]} |>.
Definition toy_reset_form : request :=
  toy_form [("token", "tok"); ("password", "new-password"); ("csrf_token", "t")] [("sesamo_csrf", "t")].
Lemma reset_confirm_atomic_witness :
  let w' := snd (handleResetConfirm toy_config toy_reset_form (oracle_at 5)
              (world_of (toy_with_token PurposeReset))) in
  ∃ id row now, tokens (w_db w') !! id = Some (row <| t_consumed_at := Some now |>)
    ∧ tokens (toy_with_token PurposeReset) !! id = Some row.
Proof.
  intros w'. assert (Hst : rs_status (w_resp w') = Some 200) by (vm_compute; reflexivity).
  assert (Hf : fresh (w_resp (world_of (toy_with_token PurposeReset)))) by (split; reflexivity).
  destruct (reset_confirm_atomic toy_config toy_reset_form (oracle_at 5)
    (world_of (toy_with_token PurposeReset)) eq_refl Hf)
    as [[_ Hn]|(_ & id & row & k & now & Hrow & _ & _ & Hrow' & _)]; [by destruct (Hn Hst)|].
  exists id, row, now. split; [exact Hrow'|exact Hrow].
Defined.
