(* ===== verification/Races.v ===== *)
(** * Races: a password login across another request

    Everywhere else a request runs alone.  [handlePasswordLogin] is three
    steps on the database, each atomic and none protected from what commits
    between them: it reads the credential, may replace the hash of the
    password it checked, and opens a session.  [interleaved] lets anything
    commit between the first step and the others; the lemma says what still
    holds, the examples what does not. *)

From S2P Require Import Prelude GoLib GoUnicode GoHash Schema World Logic Crypto Users Session Tokens Config Http Service EndUser.

(** A login that read its credential in [d0] and goes on in [d1], to [d2]. *)
Inductive interleaved `{Postgres} `{PasswordLib} (cfg : Config) (r : request) (d0 d1 : db) : db → Prop :=
| login_resumed cred o w0 o' :
    PasswordCredential (FormValue r "email") o (world_of d0) = (Ok cred, w0) →
    interleaved cfg r d0 d1 (w_db (snd (password_checked cfg r (FormValue r "email") (FormValue r "password")
                                         cred o' (world_of d1)))).

(** Whatever commits in between, and whatever the database answers, a login
    that adds a session had the password of an account that was enabled, with
    that address, when the credential was read; it adds one session, of that
    account, under a key that is still free. *)
Lemma interleaved_login_sound `{Postgres} `{PasswordLib} cfg r d0 d1 d2 :
  interleaved cfg r d0 d1 d2 →
  sessions d2 = sessions d1 ∨
  ∃ uid u h re tok s,
    user_by_email d0 (FormValue r "email") = Some (uid, u) ∧ u_disabled u = false
    ∧ u_password_hash u = Some h ∧ VerifyPassword (FormValue r "password") h = Verdict true re
    ∧ sessions d1 !! HashToken tok = None ∧ s_user_id s = uid
    ∧ sessions d2 = <[HashToken tok := s]> (sessions d1).
Proof.
  intros [cred o w0 o' EP].
  destruct (password_checked_sessions cfg r (FormValue r "email") (FormValue r "password") cred o' (world_of d1) eq_refl)
    as [Hs|(Hp & Hdis & [re HV] & tok & s & Hn & Hu & Hs)]; [by left|right].
  destruct (PasswordCredential_found _ _ _ _ _ EP Hp) as (u & h & Hu1 & Hh & Hch & Hcd).
  rewrite Hch in HV. exists (c_user_id cred), u, h, re, tok, s. rewrite <-Hcd. by split_and!.
Qed.

(** ** What the steps do not see

    [toy_login], with the credential of the bcrypt account of [toy_accounts]. *)
Definition toy_read (d : db) : Credential :=
  match fst (PasswordCredential "Ana@x.com" (oracle_at 5) (world_of d)) with
  | Ok cred => cred
  | Err _ => no_credential
  end.
Definition toy_resume (cred : Credential) (d : db) : world :=
  snd (password_checked toy_config toy_login "Ana@x.com" "letmein!" cred (oracle_at 7) (world_of d)).
Definition toy_verdict (password : string) (d : db) : option verdict :=
  h ← users d !! "u1" ≫= u_password_hash; Some (VerifyPassword password h).

(** With nothing in between the session is the one of the handler (but for the
    random bytes of its token, which come later in the handler). *)
Example resumed_alone :
  (map_to_list (sessions (w_db (toy_resume (toy_read toy_accounts) toy_accounts)))).*2
  = (map_to_list (sessions (w_db (snd (handlePasswordLogin toy_config toy_login (oracle_at 7)
      (world_of toy_accounts)))))).*2.
Proof. vm_compute. reflexivity. Qed.

(** A reset that commits in between is undone: the login writes a new hash of
    the password it checked over the one the reset has just set, and opens a
    session after the reset closed them all.  Without the interleaving the
    old password no longer verifies. *)
Definition toy_reset : world :=
  snd (handleResetConfirm toy_config toy_reset_form (oracle_at 6) (world_of (toy_with_token PurposeReset))).
Definition toy_undone : db := w_db (toy_resume (toy_read (toy_with_token PurposeReset)) (w_db toy_reset)).
Example rehash_undoes_reset :
  rs_status (w_resp toy_reset) = Some 200
  ∧ toy_verdict "new-password" (w_db toy_reset) = Some (Verdict true false)
  ∧ toy_verdict "letmein!" (w_db toy_reset) = Some (Verdict false false)
  ∧ toy_verdict "new-password" toy_undone = Some (Verdict false false)
  ∧ toy_verdict "letmein!" toy_undone = Some (Verdict true false)
  ∧ size (sessions (w_db toy_reset)) = 0%nat ∧ size (sessions toy_undone) = 1%nat.
Proof. split_and!; vm_compute; reflexivity. Qed.

(** A kill switch that commits in between leaves a session behind, although
    it revokes every session and a disabled account cannot log in.  The
    session is refused while the account is disabled, and works once the
    account is enabled again. *)
Definition toy_switch (disabled : string) (d : db) : db :=
  w_db (snd (handleAdminSetUserDisabled toy_config
    (MkRequest "POST" "/v1/admin/users/u1/disable" [] [("disabled", disabled)] false
      [] [] "10.0.0.1:5000" [("id", "u1")] None) (oracle_at 6) (world_of d))).
Definition toy_left : world := toy_resume (toy_read toy_accounts) (toy_switch "true" toy_accounts).
Definition toy_left_token : string :=
  default "" (ck_value <$> find (λ c, str_eqb (ck_name c) "sid") (rs_cookies (w_resp toy_left))).
Definition toy_kind (d : db) : option Kind :=
  match fst (Validate (session_config toy_config) toy_left_token (oracle_at 8) (world_of d)) with
  | Ok v => Some (vr_kind v)
  | Err _ => None
  end.
Example session_survives_kill_switch :
  size (sessions (toy_switch "true" toy_accounts)) = 0%nat ∧ size (sessions (w_db toy_left)) = 1%nat
  ∧ toy_kind (w_db toy_left) ≠ Some KindValid
  ∧ toy_kind (toy_switch "false" (w_db toy_left)) = Some KindValid.
Proof. split_and!; vm_compute; first [reflexivity | discriminate]. Qed.
