(* ===== verification/GoHtml.v ===== *)
(** * GoHtml: html/template, and the reader of its output

    What the standard library's html/template does with a template: parse the
    actions, find the context of each, and escape what they print.  The second
    half is the other side of the wire: an HTML reader, the tokenizer of the
    HTML standard for the part of the language it covers, which gives up
    ([Unsupported]) on anything else.  The two meet in [page_reads]: whatever
    the data, a page reads as its template with the data in place. *)

From S2P Require Import Prelude GoLib GoHash Schema.
#[local] Set Warnings "-register-all".

(** [strings.Cut]: around the first occurrence of [sep]. *)
Fixpoint cut_at (s sep : string) : option (string * string) :=
  if HasPrefix s sep then Some ("", str_drop (String.length sep) s) else
  match s with
  | EmptyString => None
  | String c r => '(a, b) ← cut_at r sep; Some (String c a, b)
  end.

(** ** Templates *)

(** [.], [.Name] and [$.Name]. *)
Inductive path := Dot | Field (name : string) | Root (name : string).
Inductive node :=
| Text (s : string)
| Action (p : path)
| If (p : path) (th el : list node)
| Range (p : path) (body : list node).

Inductive lexeme := LText (s : string) | LPath (p : path) | LIf (p : path) | LElse | LElseIf (p : path)
  | LRange (p : path) | LEnd.

Definition name_byte (c : ascii) : bool :=
  let n := N_of_ascii c in ((65 <=? n) && (n <=? 90) || (97 <=? n) && (n <=? 122))%N.
Definition parse_path (s : string) : option path :=
  match s with
  | String "."%char r =>
      if str_eqb r "" then Some Dot else if str_forallb name_byte r then Some (Field r) else None
  | String "$"%char (String "."%char r) => if negb (str_eqb r "") && str_forallb name_byte r then Some (Root r) else None
  | _ => None
  end.
Definition lex_action (s : string) : option lexeme :=
  if str_eqb s "end" then Some LEnd
  else if str_eqb s "else" then Some LElse
  else match cut_at s "else if " with
  | Some ("", r) => LElseIf <$> parse_path r
  | _ => match cut_at s "if " with
  | Some ("", r) => LIf <$> parse_path r
  | _ => match cut_at s "range " with
  | Some ("", r) => LRange <$> parse_path r
  | _ => LPath <$> parse_path s
  end end end.
Fixpoint lex (fuel : nat) (s : string) : option (list lexeme) :=
  match fuel with
  | O => None
  | S fuel =>
      match cut_at s "{{" with
      | None => Some [LText s]
      | Some (before, r) =>
          '(a, r) ← cut_at r "}}";
          a ← lex_action a;
          l ← lex fuel r;
          Some (LText before :: a :: l)
      end
  end.

(** Up to the [end] or [else] that belongs to an outer action. *)
Fixpoint parse_nodes (fuel : nat) (l : list lexeme) : option (list node * list lexeme) :=
  match fuel with
  | O => None
  | S fuel =>
      match l with
      | LText s :: l => '(ns, l) ← parse_nodes fuel l; Some (Text s :: ns, l)
      | LPath p :: l => '(ns, l) ← parse_nodes fuel l; Some (Action p :: ns, l)
      | LIf p :: l => '(n, l) ← parse_if fuel p l; '(ns, l) ← parse_nodes fuel l; Some (n :: ns, l)
      | LRange p :: l =>
          '(body, l) ← parse_nodes fuel l;
          match l with
          | LEnd :: l => '(ns, l) ← parse_nodes fuel l; Some (Range p body :: ns, l)
          | _ => None
          end
      | _ => Some ([], l)
      end
  end
with parse_if (fuel : nat) (p : path) (l : list lexeme) : option (node * list lexeme) :=
  match fuel with
  | O => None
  | S fuel =>
      '(th, l) ← parse_nodes fuel l;
      match l with
      | LEnd :: l => Some (If p th [], l)
      | LElse :: l =>
          '(el, l) ← parse_nodes fuel l;
          match l with LEnd :: l => Some (If p th el, l) | _ => None end
      | LElseIf q :: l => '(n, l) ← parse_if fuel q l; Some (If p th [n], l)
      | _ => None
      end
  end.
Definition parse_template (s : string) : option (list node) :=
  l ← lex (S (String.length s)) s;
  '(ns, l) ← parse_nodes (S (length l)) l;
  match l with [] => Some ns | _ => None end.

(** ** The escapers of html/template *)

(** [htmlReplacementTable]; a byte above 127 is never part of it. *)
Definition html_byte (c : ascii) : string :=
  if Ascii.eqb c (byte 0) then String (byte 239) (String (byte 191) (String (byte 189) ""))
  else if Ascii.eqb c (byte 34) then "&#34;"
  else if Ascii.eqb c "&" then "&amp;"
  else if Ascii.eqb c "'" then "&#39;"
  else if Ascii.eqb c "+" then "&#43;"
  else if Ascii.eqb c "<" then "&lt;"
  else if Ascii.eqb c ">" then "&gt;"
  else String c "".
Fixpoint concat_bytes (f : ascii → string) (s : string) : string :=
  match s with
  | EmptyString => ""
  | String c r => f c +:+ concat_bytes f r
  end.
Definition html_escape : string → string := concat_bytes html_byte.

(** [strings.EqualFold] with "http", "https" or "mailto": of their letters
    only s has a variant outside ASCII, the long s (two bytes). *)
Fixpoint plain_s (s : string) : string :=
  match s with
  | String a ((String b r) as t) =>
      if Ascii.eqb a (byte 197) && Ascii.eqb b (byte 191) then String "s"%char (plain_s r) else String a (plain_s t)
  | _ => s
  end.
Definition fold_is (s scheme : string) : bool := EqualFold (plain_s s) scheme.
(** [isSafeURL] and [urlFilter]. *)
Definition isSafeURL (s : string) : bool :=
  match cut_at s ":" with
  | Some (protocol, _) =>
      Contains protocol "/" || fold_is protocol "http" || fold_is protocol "https" || fold_is protocol "mailto"
  | None => true
  end.
Definition urlFilter (s : string) : string := if isSafeURL s then s else "#ZgotmplZ".

(** [processURLOnto] with [norm]: reserved and unreserved bytes and valid
    escapes stay, the others are percent-encoded. *)
Definition url_kept (c : ascii) : bool :=
  let n := N_of_ascii c in
  ((97 <=? n) && (n <=? 122) || (65 <=? n) && (n <=? 90) || (48 <=? n) && (n <=? 57))%N
  || existsb (Ascii.eqb c) (String.list_ascii_of_string "!#$&*+,/:;=?@[]-._~").
Definition is_hex (c : ascii) : bool :=
  let n := N_of_ascii c in
  ((48 <=? n) && (n <=? 57) || (97 <=? n) && (n <=? 102) || (65 <=? n) && (n <=? 70))%N.
Fixpoint urlNormalize (s : string) : string :=
  match s with
  | EmptyString => ""
  | String c r =>
      (if url_kept c
          || Ascii.eqb c "%" && match r with String a (String b _) => is_hex a && is_hex b | _ => false end
       then String c "" else String "%"%char (hex_encode (String c ""))) +:+ urlNormalize r
  end.

Inductive escaper := HTMLEscaper | RCDATAEscaper | AttrEscaper | URLFilter | URLNormalizer.
Definition apply_escaper (e : escaper) (s : string) : string :=
  match e with
  | HTMLEscaper | RCDATAEscaper | AttrEscaper => html_escape s
  | URLFilter => urlFilter s
  | URLNormalizer => urlNormalize s
  end.
Definition apply_escapers (es : list escaper) (s : string) : string := foldl (λ s e, apply_escaper e s) s es.

(** ** The reader *)

(** A tag: closing or not, its name. *)
Definition tag : Type := bool * string.
Inductive hstate :=
| Data | DataRef (ref : string)
| RCData (elem : string) | RCRef (elem ref : string) | RCLess (elem seen : string)
| TagOpen | MarkupDecl (seen : string)
| TagName (close : bool) (name : string)
| InTag (t : tag) | AttrName (t : tag) (name : string) | AfterAttrName (t : tag)
| BeforeValue (t : tag) (name : string)
| Value (t : tag) (name : string) | ValueRef (t : tag) (name ref : string)
| AfterValue (t : tag) | SelfClosing (t : tag)
| Unsupported.
#[export] Instance hstate_eq : EqDecision hstate.
Proof. solve_decision. Defined.

(** What the reader reports: text, tags, attributes and their values. *)
Inductive event := EText (s : string) | EOpen (t : tag) | EAttr (name : string) | EValue (s : string) | EDone.

(** The character references the escapers write. *)
Definition decode_ref (r : string) : option ascii :=
  if str_eqb r "amp" then Some "&"%char else if str_eqb r "lt" then Some "<"%char
  else if str_eqb r "gt" then Some ">"%char else if str_eqb r "#34" then Some (byte 34)
  else if str_eqb r "#39" then Some "'"%char else if str_eqb r "#43" then Some "+"%char else None.
Definition is_letter (c : ascii) : bool := name_byte c.
Definition is_space (c : ascii) : bool :=
  existsb (Ascii.eqb c) [" "%char; byte 9; byte 10; byte 12].
Definition ref_byte (c : ascii) : bool :=
  let n := N_of_ascii c in is_letter c || ((48 <=? n) && (n <=? 57))%N || Ascii.eqb c "#".
Definition snoc (s : string) (c : ascii) : string := s +:+ String c "".
Definition one (c : ascii) : string := String c "".

Definition on_ref (c : ascii) (ref : string) (more : string → hstate) (st : hstate) (emit : string → event)
  : hstate * list event :=
  if Ascii.eqb c ";" then
    match decode_ref ref with Some x => (st, [emit (one x)]) | None => (Unsupported, []) end
  else if ref_byte c then (more (snoc ref c), []) else (Unsupported, []).
(** After a tag: the content of a title is character data, that of the other
    elements with a syntax of their own is not supported. *)
Definition after_tag (t : tag) : hstate :=
  let '(close, name) := t in
  if close then Data
  else if str_eqb name "title" || str_eqb name "textarea" then RCData name
  else if existsb (str_eqb name) ["script"; "style"; "xmp"; "iframe"; "noembed"; "noframes"; "noscript"; "plaintext";
                                  "svg"; "math"; "template"]
  then Unsupported else Data.
Definition in_tag (t : tag) (c : ascii) : hstate * list event :=
  if is_space c then (InTag t, [])
  else if Ascii.eqb c "/" then (SelfClosing t, [])
  else if Ascii.eqb c ">" then (after_tag t, [EDone])
  else if is_letter c then (AttrName t (one (lower_byte c)), [])
  else (Unsupported, []).
(** The end of an attribute's name. *)
Definition after_name (t : tag) (c : ascii) : hstate * list event := in_tag t c.

Definition step (st : hstate) (c : ascii) : hstate * list event :=
  match st with
  | Data =>
      if Ascii.eqb c "<" then (TagOpen, [])
      else if Ascii.eqb c "&" then (DataRef "", [])
      else if Ascii.eqb c (byte 0) then (Unsupported, [])
      else (Data, [EText (one c)])
  | DataRef ref => on_ref c ref DataRef Data EText
  | RCData e =>
      if Ascii.eqb c "<" then (RCLess e "", [])
      else if Ascii.eqb c "&" then (RCRef e "", [])
      else if Ascii.eqb c (byte 0) then (Unsupported, [])
      else (RCData e, [EText (one c)])
  | RCRef e ref => on_ref c ref (RCRef e) (RCData e) EText
  | RCLess e seen =>
      let seen' := snoc seen c in
      if str_eqb seen' ("/" +:+ e +:+ ">") then (Data, [EOpen (true, e); EDone])
      else if HasPrefix ("/" +:+ e +:+ ">") seen' then (RCLess e seen', [])
      else (Unsupported, [])
  | TagOpen =>
      if Ascii.eqb c "!" then (MarkupDecl "", [])
      else if Ascii.eqb c "/" then (TagName true "", [])
      else if is_letter c then (TagName false (one (lower_byte c)), [])
      else (Unsupported, [])
  | MarkupDecl seen =>
      if Ascii.eqb c ">" then (if str_eqb seen "doctype html" then Data else Unsupported, [])
      else (MarkupDecl (snoc seen (lower_byte c)), [])
  | TagName close name =>
      if is_letter c || negb (str_eqb name "") && ref_byte c && negb (Ascii.eqb c "#")
      then (TagName close (snoc name (lower_byte c)), [])
      else if str_eqb name "" then (Unsupported, [])
      else let '(st, es) := in_tag (close, name) c in
           match st with
           | AttrName _ _ => (Unsupported, [])
           | _ => (st, EOpen (close, name) :: es)
           end
  | InTag t => in_tag t c
  | AttrName t name =>
      if Ascii.eqb c "=" then (BeforeValue t name, [EAttr name])
      else if is_letter c || Ascii.eqb c "-" then (AttrName t (snoc name (lower_byte c)), [])
      else let '(st, es) := in_tag t c in
           match st with
           | InTag _ => (AfterAttrName t, EAttr name :: es)
           | _ => (st, EAttr name :: es)
           end
  | AfterAttrName t => if Ascii.eqb c "=" then (Unsupported, []) else in_tag t c
  | BeforeValue t name =>
      if is_space c then (BeforeValue t name, [])
      else if Ascii.eqb c (byte 34) then (Value t name, []) else (Unsupported, [])
  | Value t name =>
      if Ascii.eqb c (byte 34) then (AfterValue t, [])
      else if Ascii.eqb c "&" then (ValueRef t name "", [])
      else if Ascii.eqb c (byte 0) then (Unsupported, [])
      else (Value t name, [EValue (one c)])
  | ValueRef t name ref => on_ref c ref (ValueRef t name) (Value t name) EValue
  | AfterValue t =>
      if is_space c || Ascii.eqb c "/" || Ascii.eqb c ">" then in_tag t c else (Unsupported, [])
  | SelfClosing t => if Ascii.eqb c ">" then (after_tag t, [EDone]) else (Unsupported, [])
  | Unsupported => (Unsupported, [])
  end.
Fixpoint run (st : hstate) (s : string) : hstate * list event :=
  match s with
  | EmptyString => (st, [])
  | String c r => let '(st, es) := step st c in let '(st, es') := run st r in (st, es ++ es')
  end.

(** ** The context of an action *)

(** [urlPart]: where in a URL. *)
Inductive urlpart := PartNone | PartPreQuery | PartQuery.
#[export] Instance urlpart_eq : EqDecision urlpart.
Proof. solve_decision. Defined.
Definition context : Type := hstate * urlpart.

(** [attrType]: what html/template takes an attribute for.  Those whose
    content is a style sheet, a script, a document or a list of images, and
    those guessed from a part of their name, are not supported. *)
Inductive attr_type := AttrPlain | AttrURL | AttrOther.
Definition attrType (name : string) : attr_type :=
  if existsb (str_eqb name) ["action"; "archive"; "background"; "cite"; "classid"; "codebase"; "data"; "formaction";
       "href"; "icon"; "longdesc"; "manifest"; "poster"; "profile"; "src"; "usemap"; "xmlns"] then AttrURL
  else if existsb (str_eqb name) ["style"; "srcset"; "srcdoc"] || HasPrefix name "on" || Contains name "src"
       || Contains name "uri" || Contains name "url" || HasPrefix name "data-" then AttrOther
  else AttrPlain.

(** [escapeAction], for the contexts the reader supports. *)
Definition escapers_at (c : context) : option (list escaper) :=
  match c with
  | (Data, _) => Some [HTMLEscaper]
  | (RCData _, _) => Some [RCDATAEscaper]
  | (Value t name, part) =>
      match attrType name, part with
      | AttrPlain, _ => Some [AttrEscaper]
      | AttrURL, PartNone => Some [URLFilter; URLNormalizer; AttrEscaper]
      | AttrURL, PartPreQuery => Some [URLNormalizer; AttrEscaper]
      | AttrURL, PartQuery | AttrOther, _ => None
      end
  | _ => None
  end.

(** [tURL], byte by byte. *)
Definition part_step (st : hstate) (p : urlpart) (c : ascii) : urlpart :=
  match st with
  | Value _ _ =>
      if Ascii.eqb c "#" || Ascii.eqb c "?" then PartQuery
      else match p with PartNone => if is_space c then PartNone else PartPreQuery | p => p end
  | _ => PartNone
  end.
Fixpoint part_after (st : hstate) (p : urlpart) (s : string) : urlpart :=
  match s with
  | EmptyString => p
  | String c r => part_after (fst (step st c)) (part_step st p c) r
  end.

(** A template with the context of its actions: the escapers of each, and
    what the reader sees of its texts. *)
Inductive slot := InText | InValue.
Inductive enode :=
| XText (s : string) (es : list event)
| XAction (esc : list escaper) (sl : slot) (p : path)
| XIf (p : path) (th el : list enode)
| XRange (p : path) (body : list enode).

Definition slot_of (st : hstate) : slot := match st with Value _ _ => InValue | _ => InText end.
(** Adjacent text, and adjacent parts of a value, as one. *)
Definition put (e : event) (l : list event) : list event :=
  match e, l with
  | EText a, EText b :: l => EText (a +:+ b) :: l
  | EValue a, EValue b :: l => EValue (a +:+ b) :: l
  | _, _ => e :: l
  end.
Definition merge (l : list event) : list event := foldr put [] l.

(** [escapeTemplate]: both branches of an [if], and a turn of a [range], must
    end in one context. *)
Fixpoint escape_node (n : node) (c : context) {struct n} : option (context * enode) :=
  let fix escape_list (ns : list node) (c : context) {struct ns} : option (context * list enode) :=
    match ns with
    | [] => Some (c, [])
    | n :: ns => '(c, x) ← escape_node n c; '(c, xs) ← escape_list ns c; Some (c, x :: xs)
    end in
  match n with
  | Text s =>
      let '(st, es) := run (fst c) s in
      if decide (st = Unsupported) then None else Some ((st, part_after (fst c) (snd c) s), XText s (merge es))
  | Action p => esc ← escapers_at c; Some (c, XAction esc (slot_of (fst c)) p)
  | If p th el =>
      '(c1, th) ← escape_list th c; '(c2, el) ← escape_list el c;
      if decide (c1 = c2) then Some (c1, XIf p th el) else None
  | Range p body =>
      '(c1, body) ← escape_list body c; if decide (c1 = c) then Some (c, XRange p body) else None
  end.
Fixpoint escape_list (ns : list node) (c : context) : option (context * list enode) :=
  match ns with
  | [] => Some (c, [])
  | n :: ns => '(c, x) ← escape_node n c; '(c, xs) ← escape_list ns c; Some (c, x :: xs)
  end.

(** ** Execution *)
Definition fields : Type := list (string * json).
Definition field (d : fields) (name : string) : option json := snd <$> List.find (λ kv, str_eqb (fst kv) name) d.
(** [dot] is the page's data at the top, an element inside a [range]. *)
Definition value_of (d : fields) (dot : option json) (p : path) : option json :=
  match p with
  | Dot => dot
  | Field n => match dot with None => field d n | Some _ => None end
  | Root n => field d n
  end.
Definition printed (v : json) : option string :=
  match v with JStr s => Some s | JBool true => Some "true" | JBool false => Some "false" | _ => None end.
Definition truth (v : json) : option bool :=
  match v with
  | JStr s => Some (negb (str_eqb s ""))
  | JBool b => Some b
  | JArr l => Some (match l with [] => false | _ => true end)
  | _ => None
  end.
Definition elements_of (v : json) : option (list json) := match v with JArr l => Some l | _ => None end.

(** One walk for what a template prints and for what its reader sees. *)
Section walk.
Context {M : Type} (empty : M) (app : M → M → M).
Context (text : string → list event → M) (action : list escaper → slot → string → M) (d : fields).
Definition each (f : json → option M) (l : list json) : option M :=
  foldr (λ e r, a ← f e; b ← r; Some (app a b)) (Some empty) l.
Fixpoint walk (x : enode) (dot : option json) {struct x} : option M :=
  let fix walk_list (xs : list enode) (dot : option json) {struct xs} : option M :=
    match xs with
    | [] => Some empty
    | x :: xs => a ← walk x dot; b ← walk_list xs dot; Some (app a b)
    end in
  match x with
  | XText s es => Some (text s es)
  | XAction esc sl p => v ← value_of d dot p; s ← printed v; Some (action esc sl s)
  | XIf p th el => v ← value_of d dot p; b ← truth v; if (b : bool) then walk_list th dot else walk_list el dot
  | XRange p body => v ← value_of d dot p; l ← elements_of v; each (λ e, walk_list body (Some e)) l
  end.
Fixpoint walk_list (xs : list enode) (dot : option json) : option M :=
  match xs with
  | [] => Some empty
  | x :: xs => a ← walk x dot; b ← walk_list xs dot; Some (app a b)
  end.
End walk.

(** [template.Must(..Parse..)], then [ExecuteTemplate]. *)
Definition compiled (source : string) : option (list enode) :=
  ns ← parse_template source;
  '(c, xs) ← escape_list ns (Data, PartNone);
  if decide (fst c = Data) then Some xs else None.
Definition print_nodes (d : fields) : list enode → option json → option string :=
  walk_list "" String.append (λ s _, s) (λ esc _ s, apply_escapers esc s) d.
Definition execute (source : string) (d : fields) : option string := xs ← compiled source; print_nodes d xs None.

(** What the reader gets back of what an action prints: the data, but for a
    NUL, which HTML cannot carry, and for what the URL escapers changed. *)
Definition shown_byte (c : ascii) : string :=
  if Ascii.eqb c (byte 0) then String (byte 239) (String (byte 191) (String (byte 189) "")) else one c.
Definition shown : string → string := concat_bytes shown_byte.
Definition read_back (esc : list escaper) (s : string) : string := shown (apply_escapers (removelast esc) s).
Definition slot_event (sl : slot) (s : string) : event := match sl with InText => EText s | InValue => EValue s end.
Definition page_events (d : fields) : list enode → option json → option (list event) :=
  walk_list [] app (λ _ es, es) (λ esc sl s, [slot_event sl (read_back esc s)]) d.

(** ** Pages read as written *)

(** Text and values byte by byte, as the reader reports them. *)
Definition explode (e : event) : list event :=
  match e with
  | EText s => map (λ c, EText (one c)) (String.list_ascii_of_string s)
  | EValue s => map (λ c, EValue (one c)) (String.list_ascii_of_string s)
  | e => [e]
  end.
Definition chars (l : list event) : list event := flat_map explode l.
Lemma chars_app a b : chars (a ++ b) = chars a ++ chars b.
Proof. apply flat_map_app. Qed.
Lemma list_ascii_app a b :
  String.list_ascii_of_string (a +:+ b) = String.list_ascii_of_string a ++ String.list_ascii_of_string b.
Proof. induction a as [|c a IH]; [done|]. cbn. by rewrite IH. Qed.
Lemma chars_put e l : chars (put e l) = explode e ++ chars l.
Proof.
  destruct e, l as [|[] l]; try done; cbn [put chars flat_map explode]; by rewrite list_ascii_app, map_app, <-app_assoc.
Qed.
Lemma chars_merge l : chars (merge l) = chars l.
Proof. induction l as [|e l IH]; [done|]. change (merge (e :: l)) with (put e (merge l)). by rewrite chars_put, IH. Qed.

Lemma run_app st a b :
  run st (a +:+ b) = (fst (run (fst (run st a)) b), snd (run st a) ++ snd (run (fst (run st a)) b)).
Proof.
  revert st. induction a as [|c a IH]; intros st; cbn; [by destruct (run st b)|].
  destruct (step st c) as [st1 es1]. rewrite IH. destruct (run st1 a) as [st2 es2]. cbn. by rewrite <-app_assoc.
Qed.
Lemma in_tag_single t c : chars (snd (in_tag t c)) = snd (in_tag t c).
Proof. unfold in_tag. by repeat case_match. Qed.
Lemma step_single st c : chars (snd (step st c)) = snd (step st c).
Proof.
  destruct st; cbn [step]; unfold on_ref; repeat case_match; try done; try apply in_tag_single;
    match goal with H : in_tag ?t ?c = (?st, ?es) |- _ => pose proof (in_tag_single t c) as Hs; rewrite H in Hs end;
    cbn in *; by rewrite Hs.
Qed.
Lemma run_single st s : chars (snd (run st s)) = snd (run st s).
Proof.
  revert st. induction s as [|c s IH]; intros st; [done|]. cbn. pose proof (step_single st c) as Hs.
  destruct (step st c) as [st1 es1]. specialize (IH st1). destruct (run st1 s) as [st2 es2]. cbn [fst snd] in *.
  by rewrite chars_app, Hs, IH.
Qed.

(** Escaped data stays in its place. *)
Definition holds_text (st : hstate) : Prop :=
  match st with Data | RCData _ | Value _ _ => True | _ => False end.
Lemma run_html_byte st c :
  holds_text st → run st (html_byte c) = (st, explode (slot_event (slot_of st) (shown_byte c))).
Proof. destruct st; try done; intros _; destruct c as [[] [] [] [] [] [] [] []]; reflexivity. Qed.
Lemma run_html_escape st s : holds_text st → run st (html_escape s) = (st, explode (slot_event (slot_of st) (shown s))).
Proof.
  intros Hst. induction s as [|c s IH]; [by destruct st|]. unfold html_escape, shown in *. cbn [concat_bytes].
  rewrite run_app, run_html_byte by done. cbn [fst snd]. rewrite IH. cbn [fst snd]. f_equal.
  destruct (slot_of st); cbn [slot_event explode]; by rewrite list_ascii_app, map_app.
Qed.
Lemma run_escaped c esc s :
  escapers_at c = Some esc →
  run (fst c) (apply_escapers esc s) = (fst c, chars [slot_event (slot_of (fst c)) (read_back esc s)]).
Proof.
  intros He. assert (Hc : holds_text (fst c) ∧ apply_escapers esc s = html_escape (apply_escapers (removelast esc) s)).
  { destruct c as [[] part]; cbn in He; try done; try (injection He as <-; done).
    destruct (attrType name), part; try done; injection He as <-; done. }
  destruct Hc as [Hc ->]. rewrite run_html_escape by done. cbn [chars flat_map]. by rewrite app_nil_r.
Qed.

Section node_ind.
Context (P : node → Prop) (HT : ∀ s, P (Text s)) (HA : ∀ p, P (Action p)).
Context (HI : ∀ p th el, Forall P th → Forall P el → P (If p th el)) (HR : ∀ p body, Forall P body → P (Range p body)).
Fixpoint node_nested_ind (n : node) : P n :=
  let all := fix all (ns : list node) : Forall P ns :=
    match ns with [] => Forall_nil_2 P | n :: ns => Forall_cons_2 P n ns (node_nested_ind n) (all ns) end in
  match n with
  | Text s => HT s
  | Action p => HA p
  | If p th el => HI p th el (all th) (all el)
  | Range p body => HR p body (all body)
  end.
End node_ind.
Section reading.
Context (d : fields).
(** From the context [c] to [c']: what is printed reads as the events. *)
Definition reads (c c' : context) (out : option string) (evs : option (list event)) : Prop :=
  ∀ es, evs = Some es → ∃ s, out = Some s ∧ run (fst c) s = (fst c', chars es).
Definition print_node : enode → option json → option string :=
  walk "" String.append (λ s _, s) (λ esc _ s, apply_escapers esc s) d.
Definition node_events : enode → option json → option (list event) :=
  walk [] app (λ _ es, es) (λ esc sl s, [slot_event sl (read_back esc s)]) d.
Definition node_reads (n : node) : Prop :=
  ∀ c c' x dot, escape_node n c = Some (c', x) → reads c c' (print_node x dot) (node_events x dot).
Definition list_reads (ns : list node) : Prop :=
  ∀ c c' xs dot, escape_list ns c = Some (c', xs) → reads c c' (print_nodes d xs dot) (page_events d xs dot).

Lemma reads_app c c1 c2 o1 o2 e1 e2 :
  reads c c1 o1 e1 → reads c1 c2 o2 e2 →
  reads c c2 (a ← o1; b ← o2; Some (a +:+ b)) (a ← e1; b ← e2; Some (a ++ b)).
Proof.
  intros H1 H2 es (es1 & E1 & (es2 & E2 & [= <-])%bind_Some)%bind_Some.
  destruct (H1 es1 E1) as (s1 & -> & R1). destruct (H2 es2 E2) as (s2 & -> & R2). exists (s1 +:+ s2). split; [done|].
  rewrite run_app, R1. cbn [fst snd]. rewrite R2. cbn [fst snd]. by rewrite chars_app.
Qed.
Lemma reads_nil c : reads c c (Some "") (Some []).
Proof. intros es [= <-]. by exists "". Qed.
Lemma list_reads_nodes ns : Forall node_reads ns → list_reads ns.
Proof.
  induction 1 as [|n ns Hn _ IH]; intros c c' xs dot.
  - intros [= <- <-]. apply reads_nil.
  - cbn [escape_list]. intros ([c1 x] & Ex & ([c2 xs'] & Exs & [= <- <-])%bind_Some)%bind_Some.
    apply (reads_app c c1); [by apply (Hn c c1)|by apply (IH c1 c2)].
Qed.
Lemma reads_each c body l :
  (∀ e, reads c c (print_nodes d body (Some e)) (page_events d body (Some e))) →
  reads c c (each "" String.append (λ e, print_nodes d body (Some e)) l) (each [] app (λ e, page_events d body (Some e)) l).
Proof. intros Hb. induction l as [|e l IH]; [apply reads_nil|]. by apply (reads_app c c). Qed.

Lemma every_node_reads n : node_reads n.
Proof.
  induction n as [s|p|p th el Hth Hel|p body Hb] using node_nested_ind; intros c c' x dot.
  - cbn [escape_node]. pose proof (run_single (fst c) s) as Hr. destruct (run (fst c) s) as [st es] eqn:E.
    case_decide; [done|]. intros [= <- <-] es' [= <-]. exists s. split; [done|]. rewrite E, chars_merge. cbn [fst snd] in *. by rewrite Hr.
  - cbn [escape_node]. intros (esc & He & [= <- <-])%bind_Some es Hes.
    cbn in Hes. apply bind_Some in Hes as (v & Hv & (s & Hs & [= <-])%bind_Some).
    exists (apply_escapers esc s). split; [cbn; by rewrite Hv; cbn; rewrite Hs|by apply run_escaped].
  - intros Hx. change (escape_node (If p th el) c) with
      ('(c1, th) ← escape_list th c; '(c2, el) ← escape_list el c; if decide (c1 = c2) then Some (c1, XIf p th el) else None) in Hx.
    apply bind_Some in Hx as ([c1 th'] & Eth & ([c2 el'] & Eel & Hx)%bind_Some). case_decide as Ec; [|done].
    subst c2. injection Hx as <- <-. intros es Hes.
    change (node_events (XIf p th' el') dot) with
      (v ← value_of d dot p; b ← truth v; if (b : bool) then page_events d th' dot else page_events d el' dot) in Hes.
    change (print_node (XIf p th' el') dot) with
      (v ← value_of d dot p; b ← truth v; if (b : bool) then print_nodes d th' dot else print_nodes d el' dot).
    apply bind_Some in Hes as (v & -> & (b & Hb & Hes)%bind_Some). cbn [mbind option_bind]. rewrite Hb. cbn [mbind option_bind].
    destruct b; [by eapply (list_reads_nodes th)|by eapply (list_reads_nodes el)].
  - intros Hx. change (escape_node (Range p body) c) with
      ('(c1, body) ← escape_list body c; if decide (c1 = c) then Some (c, XRange p body) else None) in Hx.
    apply bind_Some in Hx as ([c1 body'] & Ebody & Hx). case_decide as Ec; [|done]. subst c1.
    injection Hx as <- <-. intros es Hes.
    change (node_events (XRange p body') dot) with
      (v ← value_of d dot p; l ← elements_of v; each [] app (λ e, page_events d body' (Some e)) l) in Hes.
    change (print_node (XRange p body') dot) with
      (v ← value_of d dot p; l ← elements_of v; each "" String.append (λ e, print_nodes d body' (Some e)) l).
    apply bind_Some in Hes as (v & -> & (l & Hl & Hes)%bind_Some). cbn [mbind option_bind]. rewrite Hl. cbn [mbind option_bind].
    eapply reads_each; [|exact Hes]. intros e. by apply (list_reads_nodes body).
Qed.

(** Whatever the data, a page reads as its template with the data in place. *)
Lemma page_reads source xs es :
  compiled source = Some xs → page_events d xs None = Some es →
  ∃ html, execute source d = Some html ∧ run Data html = (Data, chars es).
Proof.
  unfold compiled, execute, compiled. intros Hc He. rewrite Hc. cbn [mbind option_bind].
  apply bind_Some in Hc as (ns & _ & ([c xs'] & Ex & Hc)%bind_Some). case_decide as Hd; [|done]. injection Hc as ->.
  assert (Hall : Forall node_reads ns) by (apply Forall_true, every_node_reads).
  destruct (list_reads_nodes ns Hall _ _ _ None Ex es He) as (s & Hs & Hr). exists s. split; [done|]. cbn [fst] in *. by rewrite Hr, Hd.
Qed.
End reading.

(** ** The page as a browser builds it *)

(** A tag with its attributes, and the text up to the next one (without the
    white space around it). *)
Record element := MkElement { el_close : bool; el_name : string; el_attrs : list (string * string); el_text : string }.
(** What is right of a point of the event stream: text, an unfinished value,
    attributes, the text after the tag they belong to, and the elements. *)
Record suffix := MkSuffix {
  sf_text : string; sf_value : string; sf_attrs : list (string * string); sf_after : string; sf_elements : list element
}.
Definition place (e : event) (r : suffix) : suffix :=
  match e with
  | EText s => MkSuffix (s +:+ sf_text r) (sf_value r) (sf_attrs r) (sf_after r) (sf_elements r)
  | EDone => MkSuffix "" "" [] (sf_text r) (sf_elements r)
  | EValue s => MkSuffix (sf_text r) (s +:+ sf_value r) (sf_attrs r) (sf_after r) (sf_elements r)
  | EAttr n => MkSuffix (sf_text r) "" ((n, sf_value r) :: sf_attrs r) (sf_after r) (sf_elements r)
  | EOpen (close, name) =>
      MkSuffix "" "" [] "" (MkElement close name (sf_attrs r) (TrimSpace (sf_after r)) :: sf_elements r)
  end.
Definition nothing : suffix := MkSuffix "" "" [] "" [].
Definition elements (l : list event) : list element := sf_elements (foldr place nothing l).
Definition read_html (html : string) : option (list element) :=
  match run Data html with (Data, es) => Some (elements es) | _ => None end.

Lemma place_explode e r : foldr place r (explode e) = place e r.
Proof.
  destruct e as [s| | |s|]; try done; cbn [explode].
  - induction s as [|c s IH]; [by destruct r|]. cbn [String.list_ascii_of_string map foldr]. by rewrite IH.
  - induction s as [|c s IH]; [by destruct r|]. cbn [String.list_ascii_of_string map foldr]. by rewrite IH.
Qed.
Lemma elements_chars l : elements (chars l) = elements l.
Proof.
  unfold elements. f_equal. induction l as [|e l IH]; [done|].
  change (chars (e :: l)) with (explode e ++ chars l). rewrite foldr_app, place_explode, IH. done.
Qed.
(** The page of a template, as elements. *)
Lemma page_elements d source xs es :
  compiled source = Some xs → page_events d xs None = Some es →
  ∃ html, execute source d = Some html ∧ read_html html = Some (elements es).
Proof.
  intros Hc He. destruct (page_reads d source xs es Hc He) as (html & Hx & Hr). exists html. split; [done|].
  unfold read_html. by rewrite Hr, elements_chars.
Qed.
