(* ===== verification/Pages.v ===== *)
(** * Pages: the HTML screens of src/internal/ui/ui.go

    The four embedded templates, what each is given, and how a browser reads
    the result.  A double quote of a template is written as a single one, of
    which they have none. *)

From S2P Require Import Prelude GoLib GoUnicode GoHash GoNet GoUrl Schema World Logic Crypto Users Session RateLimit Tokens AuditLog Keyring Outbox Config Ui GoHtml Http Documents OAuth EndUser.

(** ** The templates *)

Definition login_html : string := quotes "<!doctype html>
<html lang='es'>
<head>
  <meta charset='utf-8'>
  <meta name='viewport' content='width=device-width, initial-scale=1'>
  <title>Iniciar sesión</title>
  <link rel='stylesheet' href='{{.BaseURL}}/ui/theme.css'>
  {{if .BrandCSS}}<link rel='stylesheet' href='{{.BaseURL}}/ui/brand.css'>{{end}}
  {{if .ThemeCSSURL}}<link rel='stylesheet' href='{{.ThemeCSSURL}}'>{{end}}
</head>
<body>
  <main class='sesamo-card'>
    {{if .LogoURL}}<img class='sesamo-logo' src='{{.LogoURL}}' alt=''>{{end}}
    <h1>Iniciar sesión</h1>

    {{if .Error}}<div class='sesamo-error' role='alert'>No pudimos iniciar sesión. Probá de nuevo.</div>{{end}}

    {{if .Password}}
    <form method='POST' action='{{.BaseURL}}/login'>
      <input type='hidden' name='csrf_token' value='{{.CSRFToken}}'>
      <div class='sesamo-field'>
        <label for='email'>Email</label>
        <input id='email' name='email' type='email' autocomplete='email' required>
      </div>
      <div class='sesamo-field'>
        <label for='password'>Contraseña</label>
        <input id='password' name='password' type='password' autocomplete='current-password' required>
      </div>
      <button class='sesamo-btn' type='submit'>Entrar</button>
      {{if .MagicLink}}
      <button class='sesamo-btn secondary sesamo-mt' type='submit'
              formaction='{{.BaseURL}}/magiclink' formnovalidate>Enviarme un enlace de acceso</button>
      {{end}}
    </form>
    {{else if .MagicLink}}
    <form method='POST' action='{{.BaseURL}}/magiclink'>
      <input type='hidden' name='csrf_token' value='{{.CSRFToken}}'>
      <div class='sesamo-field'>
        <label for='email'>Email</label>
        <input id='email' name='email' type='email' autocomplete='email' required>
      </div>
      <button class='sesamo-btn' type='submit'>Enviarme un enlace de acceso</button>
    </form>
    {{end}}

    {{if .Providers}}
    <div class='sesamo-sep'>o</div>
    <div class='sesamo-providers'>
      {{range .Providers}}
      <a class='sesamo-btn secondary' href='{{$.BaseURL}}/auth/{{.}}'>Continuar con {{.}}</a>
      {{end}}
    </div>
    {{end}}

    <p class='sesamo-foot'><a href='{{.BaseURL}}/reset'>¿Olvidaste tu contraseña?</a></p>
  </main>
</body>
</html>
".

Definition message_html : string := quotes "<!doctype html>
<html lang='es'>
<head>
  <meta charset='utf-8'>
  <meta name='viewport' content='width=device-width, initial-scale=1'>
  <title>{{.Title}}</title>
  <link rel='stylesheet' href='{{.BaseURL}}/ui/theme.css'>
  {{if .BrandCSS}}<link rel='stylesheet' href='{{.BaseURL}}/ui/brand.css'>{{end}}
  {{if .ThemeCSSURL}}<link rel='stylesheet' href='{{.ThemeCSSURL}}'>{{end}}
</head>
<body>
  <main class='sesamo-card'>
    {{if .LogoURL}}<img class='sesamo-logo' src='{{.LogoURL}}' alt=''>{{end}}
    <h1>{{.Title}}</h1>
    <p class='sesamo-note'>{{.Body}}</p>
    <p class='sesamo-foot'><a href='{{.BaseURL}}/login'>Volver</a></p>
  </main>
</body>
</html>
".

Definition reset_request_html : string := quotes "<!doctype html>
<html lang='es'>
<head>
  <meta charset='utf-8'>
  <meta name='viewport' content='width=device-width, initial-scale=1'>
  <title>Restablecer contraseña</title>
  <link rel='stylesheet' href='{{.BaseURL}}/ui/theme.css'>
  {{if .BrandCSS}}<link rel='stylesheet' href='{{.BaseURL}}/ui/brand.css'>{{end}}
  {{if .ThemeCSSURL}}<link rel='stylesheet' href='{{.ThemeCSSURL}}'>{{end}}
</head>
<body>
  <main class='sesamo-card'>
    {{if .LogoURL}}<img class='sesamo-logo' src='{{.LogoURL}}' alt=''>{{end}}
    <h1>Restablecer contraseña</h1>
    <p class='sesamo-note sesamo-mb'>Ingresá tu email y te enviamos un enlace para elegir una contraseña nueva.</p>
    <form method='POST' action='{{.BaseURL}}/reset'>
      <input type='hidden' name='csrf_token' value='{{.CSRFToken}}'>
      <div class='sesamo-field'>
        <label for='email'>Email</label>
        <input id='email' name='email' type='email' autocomplete='email' required>
      </div>
      <button class='sesamo-btn' type='submit'>Enviarme el enlace</button>
    </form>
    <p class='sesamo-foot'><a href='{{.BaseURL}}/login'>Volver a iniciar sesión</a></p>
  </main>
</body>
</html>
".

Definition reset_confirm_html : string := quotes "<!doctype html>
<html lang='es'>
<head>
  <meta charset='utf-8'>
  <meta name='viewport' content='width=device-width, initial-scale=1'>
  <title>Nueva contraseña</title>
  <link rel='stylesheet' href='{{.BaseURL}}/ui/theme.css'>
  {{if .BrandCSS}}<link rel='stylesheet' href='{{.BaseURL}}/ui/brand.css'>{{end}}
  {{if .ThemeCSSURL}}<link rel='stylesheet' href='{{.ThemeCSSURL}}'>{{end}}
</head>
<body>
  <main class='sesamo-card'>
    {{if .LogoURL}}<img class='sesamo-logo' src='{{.LogoURL}}' alt=''>{{end}}
    <h1>Elegí una contraseña nueva</h1>
    <form method='POST' action='{{.BaseURL}}/reset/confirm'>
      <input type='hidden' name='token' value='{{.Token}}'>
      <input type='hidden' name='csrf_token' value='{{.CSRFToken}}'>
      <div class='sesamo-field'>
        <label for='password'>Nueva contraseña</label>
        <input id='password' name='password' type='password' autocomplete='new-password' minlength='8' required>
      </div>
      <button class='sesamo-btn' type='submit'>Guardar contraseña</button>
    </form>
    <p class='sesamo-foot'><a href='{{.BaseURL}}/login'>Volver a iniciar sesión</a></p>
  </main>
</body>
</html>
".

(** ** ui.go *)
Record LoginData := MkLoginData {
  ld_BaseURL : string; ld_Providers : list string; ld_Password : bool; ld_MagicLink : bool;
  ld_ThemeCSSURL : string; ld_BrandCSS : bool; ld_LogoURL : string; ld_Error : string; ld_CSRFToken : string
}.
Record MessageData := MkMessageData {
  md_BaseURL : string; md_Title : string; md_Body : string;
  md_ThemeCSSURL : string; md_BrandCSS : bool; md_LogoURL : string
}.
Record ResetRequestData := MkResetRequestData {
  rr_BaseURL : string; rr_ThemeCSSURL : string; rr_BrandCSS : bool; rr_LogoURL : string; rr_CSRFToken : string
}.
Record ResetConfirmData := MkResetConfirmData {
  rc_BaseURL : string; rc_ThemeCSSURL : string; rc_BrandCSS : bool; rc_LogoURL : string;
  rc_Token : string; rc_CSRFToken : string
}.

(** The fields a template can name, by name. *)
Definition chrome_fields (base theme : string) (brand : bool) (logo : string) : fields :=
  [("BaseURL", JStr base); ("ThemeCSSURL", JStr theme); ("BrandCSS", JBool brand); ("LogoURL", JStr logo)].
Definition login_fields (d : LoginData) : fields :=
  chrome_fields (ld_BaseURL d) (ld_ThemeCSSURL d) (ld_BrandCSS d) (ld_LogoURL d) ++
  [("Providers", JArr (map JStr (ld_Providers d))); ("Password", JBool (ld_Password d));
   ("MagicLink", JBool (ld_MagicLink d)); ("Error", JStr (ld_Error d)); ("CSRFToken", JStr (ld_CSRFToken d))].
Definition message_fields (d : MessageData) : fields :=
  chrome_fields (md_BaseURL d) (md_ThemeCSSURL d) (md_BrandCSS d) (md_LogoURL d) ++
  [("Title", JStr (md_Title d)); ("Body", JStr (md_Body d))].
Definition reset_request_fields (d : ResetRequestData) : fields :=
  chrome_fields (rr_BaseURL d) (rr_ThemeCSSURL d) (rr_BrandCSS d) (rr_LogoURL d) ++
  [("CSRFToken", JStr (rr_CSRFToken d))].
Definition reset_confirm_fields (d : ResetConfirmData) : fields :=
  chrome_fields (rc_BaseURL d) (rc_ThemeCSSURL d) (rc_BrandCSS d) (rc_LogoURL d) ++
  [("Token", JStr (rc_Token d)); ("CSRFToken", JStr (rc_CSRFToken d))].

(** [template.ParseFS] names a template after its file. *)
Definition template_source (name : string) : option string :=
  if str_eqb name "login.html" then Some login_html
  else if str_eqb name "message.html" then Some message_html
  else if str_eqb name "reset_request.html" then Some reset_request_html
  else if str_eqb name "reset_confirm.html" then Some reset_confirm_html
  else None.
Definition ExecuteTemplate (name : string) (d : fields) : option string :=
  source ← template_source name; execute source d.
Definition RenderLogin (d : LoginData) : option string := ExecuteTemplate "login.html" (login_fields d).
Definition RenderMessage (d : MessageData) : option string := ExecuteTemplate "message.html" (message_fields d).
Definition RenderResetRequest (d : ResetRequestData) : option string :=
  ExecuteTemplate "reset_request.html" (reset_request_fields d).
Definition RenderResetConfirm (d : ResetConfirmData) : option string :=
  ExecuteTemplate "reset_confirm.html" (reset_confirm_fields d).

(** ** The pages *)
Definition start (name : string) (attrs : list (string * string)) (text : string) : element :=
  MkElement false name attrs text.
Definition stop (name : string) : element := MkElement true name [] "".
(** A URL as html/template lets it through. *)
Definition url (s : string) : string := shown (urlNormalize (urlFilter s)).
Definition set (s : string) : bool := negb (str_eqb s "").
Definition page_head (title base theme : string) (brand : bool) (logo : string) : list element :=
  [start "html" [("lang", "es")] ""; start "head" [] ""; start "meta" [("charset", "utf-8")] "";
   start "meta" [("name", "viewport"); ("content", "width=device-width, initial-scale=1")] "";
   start "title" [] title; stop "title";
   start "link" [("rel", "stylesheet"); ("href", url base +:+ "/ui/theme.css")] ""]
  ++ (if brand then [start "link" [("rel", "stylesheet"); ("href", url base +:+ "/ui/brand.css")] ""] else [])
  ++ (if set theme then [start "link" [("rel", "stylesheet"); ("href", url theme)] ""] else [])
  ++ [stop "head"; start "body" [] ""; start "main" [("class", "sesamo-card")] ""]
  ++ (if set logo then [start "img" [("class", "sesamo-logo"); ("src", url logo); ("alt", "")] ""] else []).
Definition page_foot (target text : string) : list element :=
  [start "p" [("class", "sesamo-foot")] ""; start "a" [("href", target)] text; stop "a"; stop "p";
   stop "main"; stop "body"; stop "html"].
Definition post_form (action : string) : element := start "form" [("method", "POST"); ("action", action)] "".
Definition hidden (name value : string) : element :=
  start "input" [("type", "hidden"); ("name", name); ("value", shown value)] "".
Definition email_field : list element :=
  [start "div" [("class", "sesamo-field")] ""; start "label" [("for", "email")] "Email"; stop "label";
   start "input" [("id", "email"); ("name", "email"); ("type", "email"); ("autocomplete", "email"); ("required", "")] "";
   stop "div"].
Definition password_field (label complete : string) (more : list (string * string)) : list element :=
  [start "div" [("class", "sesamo-field")] ""; start "label" [("for", "password")] label; stop "label";
   start "input" ([("id", "password"); ("name", "password"); ("type", "password"); ("autocomplete", complete)] ++ more
     ++ [("required", "")]) ""; stop "div"].
Definition submit (class : string) (more : list (string * string)) (text : string) : list element :=
  [start "button" ([("class", class); ("type", "submit")] ++ more) text; stop "button"].

Definition message_page (d : MessageData) : list element :=
  page_head (TrimSpace (shown (md_Title d))) (md_BaseURL d) (md_ThemeCSSURL d) (md_BrandCSS d) (md_LogoURL d)
  ++ [start "h1" [] (TrimSpace (shown (md_Title d))); stop "h1";
      start "p" [("class", "sesamo-note")] (TrimSpace (shown (md_Body d))); stop "p"]
  ++ page_foot (url (md_BaseURL d) +:+ "/login") "Volver".

Definition message_nodes : list enode := Eval vm_compute in default [] (compiled message_html).
Lemma message_compiled : compiled message_html = Some message_nodes.
Proof. vm_compute. reflexivity. Qed.
Lemma executes name d source xs es page :
  template_source name = Some source → compiled source = Some xs → page_events d xs None = Some es →
  elements es = page → ∃ html, ExecuteTemplate name d = Some html ∧ read_html html = Some page.
Proof.
  intros Hs Hc He <-. unfold ExecuteTemplate. rewrite Hs. by apply (page_elements d source xs es).
Qed.
Ltac elements_compute :=
  lazy -[read_back url shown TrimSpace urlNormalize String.append app]; cbn [String.append]; rewrite ?str_app_nil; reflexivity.
Ltac page_computes nodes :=
  eapply executes; [reflexivity|exact nodes|lazy -[read_back]; reflexivity|elements_compute].
Lemma message_reads d : ∃ html, RenderMessage d = Some html ∧ read_html html = Some (message_page d).
Proof.
  unfold RenderMessage. destruct d as [base title body [|c1 theme] [] [|c2 logo]]; page_computes message_compiled.
Qed.

Definition reset_request_page (d : ResetRequestData) : list element :=
  page_head "Restablecer contraseña" (rr_BaseURL d) (rr_ThemeCSSURL d) (rr_BrandCSS d) (rr_LogoURL d)
  ++ [start "h1" [] "Restablecer contraseña"; stop "h1";
      start "p" [("class", "sesamo-note sesamo-mb")]
        "Ingresá tu email y te enviamos un enlace para elegir una contraseña nueva."; stop "p";
      post_form (url (rr_BaseURL d) +:+ "/reset"); hidden "csrf_token" (rr_CSRFToken d)]
  ++ email_field ++ submit "sesamo-btn" [] "Enviarme el enlace"
  ++ [stop "form"] ++ page_foot (url (rr_BaseURL d) +:+ "/login") "Volver a iniciar sesión".
Definition reset_request_nodes : list enode := Eval vm_compute in default [] (compiled reset_request_html).
Lemma reset_request_compiled : compiled reset_request_html = Some reset_request_nodes.
Proof. vm_compute. reflexivity. Qed.
Lemma reset_request_reads d : ∃ html, RenderResetRequest d = Some html ∧ read_html html = Some (reset_request_page d).
Proof.
  unfold RenderResetRequest. destruct d as [base [|c1 theme] [] [|c2 logo] csrf]; page_computes reset_request_compiled.
Qed.

Definition reset_confirm_page (d : ResetConfirmData) : list element :=
  page_head "Nueva contraseña" (rc_BaseURL d) (rc_ThemeCSSURL d) (rc_BrandCSS d) (rc_LogoURL d)
  ++ [start "h1" [] "Elegí una contraseña nueva"; stop "h1";
      post_form (url (rc_BaseURL d) +:+ "/reset/confirm");
      hidden "token" (rc_Token d); hidden "csrf_token" (rc_CSRFToken d)]
  ++ password_field "Nueva contraseña" "new-password" [("minlength", "8")]
  ++ submit "sesamo-btn" [] "Guardar contraseña"
  ++ [stop "form"] ++ page_foot (url (rc_BaseURL d) +:+ "/login") "Volver a iniciar sesión".
Definition reset_confirm_nodes : list enode := Eval vm_compute in default [] (compiled reset_confirm_html).
Lemma reset_confirm_compiled : compiled reset_confirm_html = Some reset_confirm_nodes.
Proof. vm_compute. reflexivity. Qed.
Lemma reset_confirm_reads d : ∃ html, RenderResetConfirm d = Some html ∧ read_html html = Some (reset_confirm_page d).
Proof.
  unfold RenderResetConfirm. destruct d as [base [|c1 theme] [] [|c2 logo] tok csrf]; page_computes reset_confirm_compiled.
Qed.

Definition provider_link (base p : string) : list element :=
  [start "a" [("class", "sesamo-btn secondary"); ("href", url base +:+ ("/auth/" +:+ shown (urlNormalize p)))]
     (TrimSpace ("Continuar con " +:+ shown p)); stop "a"].
Definition magic_text : string := "Enviarme un enlace de acceso".
Definition login_top (d : LoginData) : list element :=
  page_head "Iniciar sesión" (ld_BaseURL d) (ld_ThemeCSSURL d) (ld_BrandCSS d) (ld_LogoURL d)
  ++ [start "h1" [] "Iniciar sesión"; stop "h1"]
  ++ (if set (ld_Error d)
      then [start "div" [("class", "sesamo-error"); ("role", "alert")] "No pudimos iniciar sesión. Probá de nuevo.";
            stop "div"] else [])
  ++ (if ld_Password d then
        [post_form (url (ld_BaseURL d) +:+ "/login"); hidden "csrf_token" (ld_CSRFToken d)]
        ++ email_field ++ password_field "Contraseña" "current-password" [] ++ submit "sesamo-btn" [] "Entrar"
        ++ (if ld_MagicLink d
            then submit "sesamo-btn secondary sesamo-mt"
                   [("formaction", url (ld_BaseURL d) +:+ "/magiclink"); ("formnovalidate", "")] magic_text
            else [])
        ++ [stop "form"]
      else if ld_MagicLink d then
        [post_form (url (ld_BaseURL d) +:+ "/magiclink"); hidden "csrf_token" (ld_CSRFToken d)]
        ++ email_field ++ submit "sesamo-btn" [] magic_text ++ [stop "form"]
      else []).
Definition login_page (d : LoginData) : list element :=
  login_top d
  ++ match ld_Providers d with
     | [] => []
     | ps => [start "div" [("class", "sesamo-sep")] "o"; stop "div"; start "div" [("class", "sesamo-providers")] ""]
             ++ flat_map (provider_link (ld_BaseURL d)) ps ++ [stop "div"]
     end
  ++ page_foot (url (ld_BaseURL d) +:+ "/reset") "¿Olvidaste tu contraseña?".
Definition login_nodes : list enode := Eval vm_compute in default [] (compiled login_html).
Lemma login_compiled : compiled login_html = Some login_nodes.
Proof. vm_compute. reflexivity. Qed.

(** The list of providers: the only part of the pages that repeats. *)
Lemma page_events_app d a b dot x y :
  page_events d a dot = Some x → page_events d b dot = Some y → page_events d (a ++ b) dot = Some (x ++ y).
Proof.
  unfold page_events. intros Ha Hb. revert x Ha. induction a as [|n a IH]; intros x.
  - by intros [= <-].
  - cbn [walk_list app]. intros (u & -> & (v & Hv & [= <-])%bind_Some)%bind_Some. cbn [mbind option_bind].
    rewrite (IH v Hv). cbn. by rewrite app_assoc.
Qed.
Lemma each_some {M} (e : M) op f g ps :
  (∀ p, f (JStr p) = Some (g p)) → each e op f (map JStr ps) = Some (foldr (λ p r, op (g p) r) e ps).
Proof. intros Hf. induction ps as [|p ps IH]; [done|]. cbn. rewrite Hf. cbn. unfold each in IH. by rewrite IH. Qed.
Definition range_body (n : enode) : list enode :=
  match n with XIf _ [_; XRange _ body; _] _ => body | _ => [] end.
Definition login_head : list enode := Eval vm_compute in take 13 login_nodes.
Definition login_range : enode := Eval vm_compute in nth 13 login_nodes (XText "" []).
Definition login_tail : list enode := Eval vm_compute in drop 14 login_nodes.
Lemma login_split : login_nodes = login_head ++ [login_range] ++ login_tail.
Proof. reflexivity. Qed.
Definition provider_events (base p : string) : list event :=
  [EText (newline +:+ "      "); EOpen (false, "a"); EAttr "class"; EValue "sesamo-btn secondary"; EAttr "href";
   EValue (read_back [URLFilter; URLNormalizer; AttrEscaper] base); EValue "/auth/";
   EValue (read_back [URLNormalizer; AttrEscaper] p); EDone;
   EText "Continuar con "; EText (read_back [HTMLEscaper] p); EOpen (true, "a"); EDone; EText (newline +:+ "      ")].
Lemma range_events d p : 
  page_events (login_fields d) (range_body login_range) (Some (JStr p)) = Some (provider_events (ld_BaseURL d) p).
Proof. lazy -[read_back]. reflexivity. Qed.
Definition list_open : list event :=
  [EText (newline +:+ "    "); EOpen (false, "div"); EAttr "class"; EValue "sesamo-sep"; EDone; EText "o";
   EOpen (true, "div"); EDone; EText (newline +:+ "    "); EOpen (false, "div"); EAttr "class"; EValue "sesamo-providers";
   EDone; EText (newline +:+ "      ")].
Definition list_close : list event :=
  [EText (newline +:+ "    "); EOpen (true, "div"); EDone; EText (newline +:+ "    ")].
Lemma login_range_events d :
  page_events (login_fields d) [login_range] None =
  Some (match ld_Providers d with
        | [] => []
        | ps => list_open ++ foldr (λ p r, provider_events (ld_BaseURL d) p ++ r) [] ps ++ list_close
        end).
Proof.
  pose proof (range_events d) as Hr.
  assert (Hp : value_of (login_fields d) None (Field "Providers") = Some (JArr (map JStr (ld_Providers d)))) by reflexivity.
  change (page_events (login_fields d) [login_range] None) with
    (a ← (v ← value_of (login_fields d) None (Field "Providers"); b ← truth v;
          if (b : bool) then
            (x ← Some list_open;
             y ← (z ← (v ← value_of (login_fields d) None (Field "Providers"); l ← elements_of v;
                       each [] app (λ e, page_events (login_fields d) (range_body login_range) (Some e)) l);
                  t ← (t ← Some list_close; Some (t ++ [])); Some (z ++ t));
             Some (x ++ y))
          else Some []); b ← Some []; Some (a ++ b)).
  rewrite Hp. cbn [mbind option_bind truth elements_of].
  rewrite (each_some _ _ _ _ _ Hr). destruct (ld_Providers d) as [|p ps]; [done|]. cbn [map mbind option_bind].
  by rewrite !app_nil_r.
Qed.
Lemma place_providers base ps r :
  r = MkSuffix (newline +:+ "    ") "" [] "" (sf_elements r) →
  let r' := foldr place r (foldr (λ p r, provider_events base p ++ r) [] ps) in
  sf_elements r' = flat_map (provider_link base) ps ++ sf_elements r
  ∧ ∃ k, r' = MkSuffix (newline +:+ k +:+ "    ") "" [] "" (sf_elements r') ∧ (k = "" ∨ k = "  ").
Proof.
  intros Hr. induction ps as [|p ps [IHe (k & IHr & Hk)]]; cbn zeta in *.
  - split; [done|]. exists "". split; [exact Hr|by left].
  - cbn [foldr]. rewrite foldr_app. cbn [flat_map]. rewrite <-app_assoc, <-IHe.
    set (r1 := foldr place r _) in *. clearbody r1. destruct r1 as [t v at_ af els]. cbn [sf_elements] in *.
    injection IHr as -> -> -> ->. split.
    + destruct Hk as [-> | ->]; elements_compute.
    + exists "  ". split; [|by right]. destruct Hk as [-> | ->]; reflexivity.
Qed.
Lemma login_head_reads d :
  ∃ es, page_events (login_fields d) login_head None = Some es ∧
    ∀ k els, k = "" ∨ k = newline → sf_elements (foldr place (MkSuffix (newline +:+ k +:+ "    ") "" [] "" els) es) = login_top d ++ els.
Proof.
  destruct d as [base ps [] [] [|c1 theme] [] [|c2 logo] [|c3 error] csrf];
    (eexists; split; [lazy -[read_back]; reflexivity|]; intros k els [-> | ->]; elements_compute).
Qed.
Lemma login_tail_reads d :
  ∃ es, page_events (login_fields d) login_tail None = Some es ∧
    foldr place nothing es = MkSuffix (newline +:+ newline +:+ "    ") "" [] ""
      (page_foot (url (ld_BaseURL d) +:+ "/reset") "¿Olvidaste tu contraseña?").
Proof. eexists. split; [lazy -[read_back]; reflexivity|elements_compute]. Qed.

Lemma login_reads d : ∃ html, RenderLogin d = Some html ∧ read_html html = Some (login_page d).
Proof.
  destruct (login_head_reads d) as (es1 & E1 & H1). destruct (login_tail_reads d) as (es3 & E3 & H3).
  pose proof (page_events_app _ _ _ None _ _ (login_range_events d) E3) as E23.
  pose proof (page_events_app _ _ _ None _ _ E1 E23) as E. rewrite <-login_split in E.
  unfold RenderLogin. eapply executes; [reflexivity|exact login_compiled|exact E|].
  unfold elements. rewrite !foldr_app, H3. unfold login_page. clear E E1 E23 E3 H3.
  destruct (ld_Providers d) as [|p ps]; [apply (H1 newline); by right|].
  set (foot := page_foot _ _). rewrite !foldr_app.
  set (r := foldr place _ list_close).
  destruct (place_providers (ld_BaseURL d) (p :: ps) r eq_refl) as (He & k & Hr & Hk).
  assert (Hopen : foldr place (foldr place r (foldr (λ p r, provider_events (ld_BaseURL d) p ++ r) [] (p :: ps))) list_open
    = MkSuffix (newline +:+ "" +:+ "    ") "" [] ""
        ([start "div" [("class", "sesamo-sep")] "o"; stop "div"; start "div" [("class", "sesamo-providers")] ""]
         ++ flat_map (provider_link (ld_BaseURL d)) (p :: ps) ++ sf_elements r)).
  { rewrite Hr, <-He. set (els := sf_elements _). clearbody els. destruct Hk as [-> | ->]; elements_compute. }
  rewrite Hopen, (H1 "") by by left. rewrite <-!app_assoc. reflexivity.
Qed.

(** C15. Pages are what the templates say, whatever the data: rendering never
    fails, and what a browser reads back is exactly the page - its tags, their
    attributes and its texts - with each piece of data in its one place: no
    address, provider name, token, error code or message adds, closes or
    changes a tag or an attribute, or makes a link of a scheme other than http,
    https or mailto. *)
Theorem pages_read_as_written :
  (∀ d, ∃ html, RenderLogin d = Some html ∧ read_html html = Some (login_page d)) ∧
  (∀ d, ∃ html, RenderMessage d = Some html ∧ read_html html = Some (message_page d)) ∧
  (∀ d, ∃ html, RenderResetRequest d = Some html ∧ read_html html = Some (reset_request_page d)) ∧
  (∀ d, ∃ html, RenderResetConfirm d = Some html ∧ read_html html = Some (reset_confirm_page d)).
Proof.
  split_and!; [apply login_reads|apply message_reads|apply reset_request_reads|apply reset_confirm_reads].
Qed.

(** A script URL is replaced; ordinary ones are kept. *)
Example script_url_filtered : url "javascript:alert(1)" = "#ZgotmplZ".
Proof. reflexivity. Qed.
Example https_url_kept : url "https://auth.example.com:8443/a?b=c#d" = "https://auth.example.com:8443/a?b=c#d".
Proof. reflexivity. Qed.
Example markup_in_title :
  read_html <$> RenderMessage (MkMessageData "https://x.com" "</title><script>" "a & b" "" false "")
  = Some (Some (message_page (MkMessageData "https://x.com" "</title><script>" "a & b" "" false ""))).
Proof. vm_compute. reflexivity. Qed.

(** ** The forms of the server *)
Definition body_html (b : body) : option string :=
  match b with BHtml name d => ExecuteTemplate name d | BText s => Some s | BJson _ => None end.
Definition is_form (e : element) : bool := str_eqb (el_name e) "form" && negb (el_close e).
Definition is_csrf_input (e : element) : bool :=
  str_eqb (el_name e) "input" && existsb (λ a, str_eqb (fst a) "name" && str_eqb (snd a) csrfField) (el_attrs e).

Lemma shown_id s : str_forallb (λ c, negb (Ascii.eqb c (byte 0))) s = true → shown s = s.
Proof.
  induction s as [|c s IH]; [done|]. cbn [str_forallb]. intros [Hc Hs]%andb_true_iff. unfold shown. cbn [concat_bytes].
  fold (shown s). rewrite IH by done. unfold shown_byte. by destruct (Ascii.eqb c (byte 0)).
Qed.
Lemma shown_token o w : shown (fst (GenerateToken o w)) = fst (GenerateToken o w).
Proof.
  apply shown_id. destruct (GenerateToken_shape o w) as (_ & Hs & _). eapply str_forallb_impl; [|exact Hs].
  intros [[] [] [] [] [] [] [] []]; vm_compute; done.
Qed.
Lemma csrf_pair r tok :
  tok ≠ "" → FormValue r csrfField = tok → cookieValue r cookieCSRF = tok → csrf_ok r = true.
Proof.
  intros Hn Hf Hc. unfold csrf_ok, csrf_sent, SafeEqual. rewrite Hf, Hc.
  rewrite (proj2 (str_eqb_false tok "") Hn). cbn. rewrite (proj2 (str_eqb_false tok "") Hn). by rewrite str_eqb_refl.
Qed.

Section forms.
Context (cfg : Config) (providers : Registry).
Definition login_data (r : request) (csrf : string) : LoginData :=
  MkLoginData (BaseURL cfg) (Names providers) true true (ThemeCSSURL cfg) (has_brand_css (Brand cfg))
    (LogoURL (Brand cfg)) (QueryGet r "error") csrf.
Definition reset_request_data (csrf : string) : ResetRequestData :=
  MkResetRequestData (BaseURL cfg) (ThemeCSSURL cfg) (has_brand_css (Brand cfg)) (LogoURL (Brand cfg)) csrf.
Definition reset_confirm_data (token csrf : string) : ResetConfirmData :=
  MkResetConfirmData (BaseURL cfg) (ThemeCSSURL cfg) (has_brand_css (Brand cfg)) (LogoURL (Brand cfg)) token csrf.
Definition message_data (title text : string) : MessageData :=
  MkMessageData (BaseURL cfg) title text (ThemeCSSURL cfg) (has_brand_css (Brand cfg)) (LogoURL (Brand cfg)).
(** The handlers give their pages these. *)
Lemma renderMessage_page title text : body_html (message_body cfg title text) = RenderMessage (message_data title text).
Proof. reflexivity. Qed.

Definition form_pages : list ((request → M unit) * string) :=
  [(handleLoginPage cfg providers, "/login"); (handleResetRequestPage cfg, "/reset");
   (handleResetConfirmPage cfg, "/reset/confirm")].
Definition csrf_input (tok : string) : element :=
  start "input" [("type", "hidden"); ("name", "csrf_token"); ("value", tok)] "".

Lemma captureRedirect_fresh r o w : fresh (w_resp w) → fresh (w_resp (snd (captureRedirect cfg r o w))).
Proof. unfold captureRedirect. destruct (str_eqb _ ""); [done|]. by destruct w as [d t i [[] h c []] m]. Qed.
(** A page with its token: one body, the cookie, and 200. *)
Lemma csrf_page name (d : string → fields) o w :
  fresh (w_resp w) →
  let tok := fst (GenerateToken o w) in
  let w' := snd ((csrf ← issueCSRFToken cfg; _ ← setHeader "Content-Type" "text/html; charset=utf-8";
                  Write (BHtml name (d csrf))) o w) in
  rs_status (w_resp w') = Some 200 ∧ rs_body (w_resp w') = [BHtml name (d tok)]
  ∧ ∃ c, c ∈ rs_cookies (w_resp w') ∧ ck_name c = cookieCSRF ∧ ck_value c = tok.
Proof.
  destruct w as [db t i [st h c b] m]. intros [Hs Hb]. cbn in Hs, Hb. subst st b. split_and!; [done|done|].
  eexists. split; [apply elem_of_app; right; by left|done].
Qed.
End forms.

(** The forms and the tokens of each page. *)
Lemma filter_providers base ps f :
  (∀ p, List.filter f (provider_link base p) = []) → List.filter f (flat_map (provider_link base) ps) = [].
Proof. intros Hf. induction ps as [|p ps IH]; [done|]. cbn [flat_map]. by rewrite List.filter_app, Hf, IH. Qed.
Definition one_form (els : list element) (action tok : string) : Prop :=
  List.filter is_form els = [post_form action] ∧ List.filter is_csrf_input els = [csrf_input tok].
Definition form_part (e : element) : bool := is_form e || is_csrf_input e.
Lemma one_form_part els els' action tok :
  List.filter form_part els = List.filter form_part els' → one_form els' action tok → one_form els action tok.
Proof.
  intros He [H1 H2].
  assert (Hf : ∀ f, (∀ e, f e = true → form_part e = true) → List.filter f els = List.filter f els').
  { intros f Hf. assert (Hl : ∀ l, List.filter f l = List.filter f (List.filter form_part l)); [|by rewrite Hl, He, <-Hl].
    induction l as [|e l IH]; [done|]. cbn. destruct (form_part e) eqn:Ep; cbn; rewrite IH; [done|].
    destruct (f e) eqn:E; [|done]. by rewrite (Hf e E) in Ep. }
  split; [rewrite Hf; [exact H1|]|rewrite Hf; [exact H2|]]; intros e Hx; unfold form_part; rewrite Hx; [done|apply orb_true_r].
Qed.
Lemma head_no_forms title base theme brand logo : List.filter form_part (page_head title base theme brand logo) = [].
Proof. unfold page_head. by destruct brand, (set theme), (set logo). Qed.
Lemma login_forms cfg providers r tok :
  one_form (login_page (login_data cfg providers r tok)) (url (BaseURL cfg) +:+ "/login") (shown tok).
Proof.
  eapply (one_form_part _ [post_form (url (BaseURL cfg) +:+ "/login"); csrf_input (shown tok)]); [|done].
  unfold login_page, login_top. rewrite !List.filter_app, head_no_forms.
  assert (Hp : List.filter form_part (flat_map (provider_link (BaseURL cfg)) (Names providers)) = [])
    by (by apply filter_providers).
  cbn [login_data ld_BaseURL ld_Providers ld_Password ld_MagicLink ld_Error ld_CSRFToken].
  destruct (set (QueryGet r "error")), (Names providers) as [|p ps]; rewrite ?List.filter_app, ?Hp; reflexivity.
Qed.
Lemma reset_request_forms cfg tok :
  one_form (reset_request_page (reset_request_data cfg tok)) (url (BaseURL cfg) +:+ "/reset") (shown tok).
Proof.
  eapply (one_form_part _ [post_form (url (BaseURL cfg) +:+ "/reset"); csrf_input (shown tok)]); [|done].
  unfold reset_request_page. by rewrite !List.filter_app, head_no_forms.
Qed.
Lemma reset_confirm_forms cfg token tok :
  one_form (reset_confirm_page (reset_confirm_data cfg token tok)) (url (BaseURL cfg) +:+ "/reset/confirm") (shown tok)
  ∧ hidden "token" token ∈ reset_confirm_page (reset_confirm_data cfg token tok).
Proof.
  split.
  - eapply (one_form_part _ [post_form (url (BaseURL cfg) +:+ "/reset/confirm"); csrf_input (shown tok)]); [|done].
    unfold reset_confirm_page. by rewrite !List.filter_app, head_no_forms.
  - unfold reset_confirm_page. apply elem_of_app. right. apply elem_of_app. left. do 3 right. left.
Qed.

(** What such a page comes to, from its template and its forms. *)
Definition carries_csrf (rs : response) (action : string) (more : list element → Prop) : Prop :=
  ∃ b html els tok,
    rs_status rs = Some 200 ∧ rs_body rs = [b] ∧ body_html b = Some html ∧ read_html html = Some els
    ∧ one_form els action tok ∧ more els
    ∧ (∃ c, c ∈ rs_cookies rs ∧ ck_name c = cookieCSRF ∧ ck_value c = tok)
    ∧ (∀ r', FormValue r' csrfField = tok → cookieValue r' cookieCSRF = tok → csrf_ok r' = true).
Lemma csrf_page_carries cfg name d page action (more : list element → Prop) o w :
  fresh (w_resp w) →
  (∀ tok, ∃ html, ExecuteTemplate name (d tok) = Some html ∧ read_html html = Some (page tok)) →
  (∀ tok, one_form (page tok) action (shown tok) ∧ more (page tok)) →
  carries_csrf (w_resp (snd ((csrf ← issueCSRFToken cfg; _ ← setHeader "Content-Type" "text/html; charset=utf-8";
                              Write (BHtml name (d csrf))) o w))) action more.
Proof.
  intros Hf Hr Hp. destruct (csrf_page cfg name d o w Hf) as (Hs & Hb & Hc).
  set (tok := fst (GenerateToken o w)) in *. destruct (Hr tok) as (html & Hx & He). destruct (Hp tok) as [Hone Hm].
  exists (BHtml name (d tok)), html, (page tok), tok. split_and!; try done.
  - unfold tok in Hone at 2. by rewrite shown_token in Hone.
  - intros r'. apply csrf_pair. destruct (GenerateToken_shape o w) as (Hl & _). intros E. unfold tok in E. by rewrite E in Hl.
Qed.
Lemma form_pages_respond cfg providers h path r : (h, path) ∈ form_pages cfg providers → responds (h r).
Proof.
  unfold form_pages. intros Hin.
  repeat (apply elem_of_cons in Hin as [[= -> ->]|Hin]); [..|by apply elem_of_nil in Hin];
    unfold handleLoginPage, handleResetRequestPage, handleResetConfirmPage, captureRedirect, setTransientTTL; solve_responds.
Qed.

(** C16. The forms of the server work: each page with a form answers 200 with
    one body, which a browser reads as a page with exactly one form, posting
    to the handler of that form, and exactly one CSRF input; its value is the
    cookie the same response sets, so that a POST that sends both back passes
    the CSRF check; the reset form, opened with a token, also carries that
    token, which opening the page has not spent: nothing is written. *)
Theorem forms_pass_csrf cfg providers h path r o w :
  (h, path) ∈ form_pages cfg providers → wantsJSON r = false → fresh (w_resp w) →
  (path = "/reset/confirm" → QueryGet r "token" ≠ "") →
  let w' := snd (h r o w) in
  carries_csrf (w_resp w') (url (BaseURL cfg) +:+ path)
    (λ els, path = "/reset/confirm" → hidden "token" (QueryGet r "token") ∈ els)
  ∧ w_db w' = w_db w.
Proof.
  intros Hin Hj Hf Ht w'. subst w'. split; [|by apply (form_pages_respond cfg providers h path)].
  unfold form_pages in Hin.
  repeat (apply elem_of_cons in Hin as [[= -> ->]|Hin]); [..|by apply elem_of_nil in Hin].
  - unfold handleLoginPage. rewrite Hj, bind_run.
    apply (csrf_page_carries cfg "login.html" (λ tok, login_fields (login_data cfg providers r tok))
      (λ tok, login_page (login_data cfg providers r tok))); [by apply captureRedirect_fresh| |].
    + intros tok. exact (login_reads (login_data cfg providers r tok)).
    + intros tok. by split; [apply login_forms|].
  - unfold handleResetRequestPage. rewrite Hj.
    apply (csrf_page_carries cfg "reset_request.html" (λ tok, reset_request_fields (reset_request_data cfg tok))
      (λ tok, reset_request_page (reset_request_data cfg tok))); [done| |].
    + intros tok. exact (reset_request_reads (reset_request_data cfg tok)).
    + intros tok. by split; [apply reset_request_forms|].
  - specialize (Ht eq_refl). apply str_eqb_false in Ht. unfold handleResetConfirmPage. rewrite Hj, Ht.
    apply (csrf_page_carries cfg "reset_confirm.html" (λ tok, reset_confirm_fields (reset_confirm_data cfg (QueryGet r "token") tok))
      (λ tok, reset_confirm_page (reset_confirm_data cfg (QueryGet r "token") tok))); [done| |].
    + intros tok. exact (reset_confirm_reads (reset_confirm_data cfg (QueryGet r "token") tok)).
    + intros tok. destruct (reset_confirm_forms cfg (QueryGet r "token") tok) as [H1 H2]. by split.
Qed.

Definition toy_open (path : string) (query : list (string * string)) : request :=
  MkRequest "GET" path query [] false [] [] "10.0.0.1:5000" [] None.
(** The plain login and reset pages, and the page of a link. *)
Lemma forms_pass_csrf_witness :
  carries_csrf (w_resp (snd (handleLoginPage toy_config ∅ (toy_open "/login" []) (oracle_at 5) (world_of empty_db))))
    "http://localhost:7777/login" (λ _, True)
  ∧ carries_csrf (w_resp (snd (handleResetRequestPage toy_config (toy_open "/reset" []) (oracle_at 5) (world_of empty_db))))
    "http://localhost:7777/reset" (λ _, True)
  ∧ carries_csrf (w_resp (snd (handleResetConfirmPage toy_config (toy_open "/reset/confirm" [("token", "a<b")]) (oracle_at 5)
      (world_of empty_db)))) "http://localhost:7777/reset/confirm" (λ els, hidden "token" "a<b" ∈ els).
Proof.
  assert (Hw : ∀ rs action more, carries_csrf rs action more → carries_csrf rs action (λ _, True)).
  { intros rs action more (b & html & els & tok & H1 & H2 & H3 & H4 & H5 & _ & H7). by exists b, html, els, tok. }
  split; [|split].
  { destruct (forms_pass_csrf toy_config ∅ (handleLoginPage toy_config ∅) "/login" (toy_open "/login" [])
      (oracle_at 5) (world_of empty_db)) as [Hc _]; [left|reflexivity|by split|discriminate|]. exact (Hw _ _ _ Hc). }
  { destruct (forms_pass_csrf toy_config ∅ (handleResetRequestPage toy_config) "/reset" (toy_open "/reset" [])
      (oracle_at 5) (world_of empty_db)) as [Hc _]; [right; left|reflexivity|by split|discriminate|]. exact (Hw _ _ _ Hc). }
  destruct (forms_pass_csrf toy_config ∅ (handleResetConfirmPage toy_config) "/reset/confirm"
    (toy_open "/reset/confirm" [("token", "a<b")]) (oracle_at 5) (world_of empty_db)) as [Hc _];
    [right; right; left|reflexivity|by split|discriminate|].
  destruct Hc as (b & html & els & tok & H1 & H2 & H3 & H4 & H5 & H6 & H7).
  exists b, html, els, tok. repeat (split; [assumption|]). split; [by apply H6|exact H7].
Defined.
