(* ===== verification/Flows.v ===== *)
(** * Flows: what the remaining flows of src/internal/http/enduser.go guarantee

    Magic links, OAuth callbacks and logout, on the handlers of [EndUser]. *)

From S2P Require Import Prelude GoLib GoHash GoNet GoUrl Schema World Logic Crypto Users Session RateLimit Tokens AuditLog Keyring Outbox OAuth Config Http EndUser.

(** ** What leaves the cookies alone *)
Definition cookies_of (w : world) : list cookie := rs_cookies (w_resp w).
Lemma setHeader_cookies k v : preserves (sees cookies_of) (setHeader k v).
Proof. intros o [d t i [[s|] h c b] m]; done. Qed.
Lemma WriteHeader_cookies s : preserves (sees cookies_of) (WriteHeader s).
Proof. intros o [d t i [[s'|] h c b] m]; done. Qed.
Lemma Write_cookies b : preserves (sees cookies_of) (Write b).
Proof. by intros o w. Qed.
Lemma IncCounter_cookies n : preserves (sees cookies_of) (IncCounter n).
Proof. by intros o w. Qed.
#[export] Hint Resolve setHeader_cookies WriteHeader_cookies Write_cookies IncCounter_cookies : preserves.
Lemma writeError_cookies s c m : preserves (sees cookies_of) (writeError s c m).
Proof. unfold writeError, writeJSON. solve_preserves. Qed.
Lemma internalError_cookies : preserves (sees cookies_of) internalError.
Proof. apply writeError_cookies. Qed.
Lemma renderMessage_cookies cfg s t b : preserves (sees cookies_of) (renderMessage cfg s t b).
Proof. unfold renderMessage. solve_preserves. Qed.
#[export] Hint Resolve writeError_cookies internalError_cookies renderMessage_cookies : preserves.
Lemma sees_resp_cookies {A} (m : M A) : preserves (sees w_resp) m → preserves (sees cookies_of) m.
Proof. intros H o w. unfold sees, cookies_of. by rewrite (H o w). Qed.

(** An answer that sets no cookie and touches no table. *)
Lemma answers_only {A} (m : M A) o w :
  responds m → preserves (sees cookies_of) m →
  w_db (snd (m o w)) = w_db w ∧ cookies_of (snd (m o w)) = cookies_of w.
Proof. intros [Hd _] Hc. split; [apply Hd|apply Hc]. Qed.

(** The driver reports one kind of error. *)
Lemma exec_err {A} ex (s : stmt A) o w e w' : exec ex s o w = (Err e, w') → e = EDb.
Proof.
  destruct ex; unfold exec, exec_pool, exec_tx.
  - destruct (s (o_dbclock o (w_step w)) (w_db w)) as [[a d]|], (o_outcome o (w_step w)); congruence.
  - destruct (w_tx w) as [t|]; [|congruence]. destruct (tx_aborted t); [congruence|].
    destruct (s (tx_now t) (tx_db t)) as [[a d]|], (o_outcome o (w_step w)); congruence.
Qed.



(** ** Magic links *)
Section magic.
Context `{Postgres} (cfg : Config).

Lemma magic_resolve_sees_db tok : preserves (sees w_db) (magic_resolve tok).
Proof. unfold magic_resolve, ConsumeTx, consume, DisabledTx, MarkEmailVerifiedTx, markEmailVerified. solve_preserves. Qed.
Lemma magic_resolve_sees_resp tok : preserves (sees w_resp) (magic_resolve tok).
Proof. unfold magic_resolve, ConsumeTx, consume, DisabledTx, MarkEmailVerifiedTx, markEmailVerified. solve_preserves. Qed.
Lemma magic_resolve_closes tok : preserves closes (magic_resolve tok).
Proof. unfold magic_resolve, ConsumeTx, consume, DisabledTx, MarkEmailVerifiedTx, markEmailVerified. solve_preserves. Qed.

(** The tables once the link is spent and its owner's address verified. *)
Definition magic_db (tok uid : string) (now : Z) (d : db) : db :=
  let d1 := spend (HashToken tok) PurposeMagicLink now d in
  d1 <| users := alter (λ u, u <| u_email_verified := true |> <| u_updated_at := now |>) uid (users d1) |>.

Lemma magic_resolve_ok tok o w uid w1 :
  magic_resolve tok o w = (Ok uid, w1) →
  ∃ t id row u, w_tx w = Some t ∧ tokens (tx_db t) !! id = Some row
    ∧ consumable (HashToken tok) PurposeMagicLink (tx_now t) id row = true ∧ t_user_id row = uid
    ∧ users (tx_db t) !! uid = Some u ∧ u_disabled u = false
    ∧ w_tx w1 = Some (t <| tx_db := magic_db tok uid (tx_now t) (tx_db t) |>).
Proof.
  unfold magic_resolve. rewrite bindE_run.
  destruct (ConsumeTx tok PurposeMagicLink o w) as [[u|] w2] eqn:EC; cbn [fst snd]; [|done].
  apply ConsumeTx_ok in EC as (t & id & row & Ht & Hrow & Hc & <- & Ht2).
  rewrite bindE_run. unfold DisabledTx.
  destruct (queryRow Tx (sql_disabled _) o w2) as [[dis|] w3] eqn:ED; cbn [fst snd]; [|done].
  apply queryRow_tx_ok in ED as (t3 & d3 & Ht3 & Hs3 & Ht3'). rewrite Ht2 in Ht3. injection Ht3 as <-.
  injection Hs3 as Hu <-. destruct dis; [done|]. rewrite bindE_run.
  unfold MarkEmailVerifiedTx, markEmailVerified. case_exec y w4 E4. destruct y as [[]|]; [|done].
  rewrite ret_run. intros [= <- <-].
  apply exec_tx_ok in E4 as (t4 & d4 & Ht4 & _ & Hs4 & ->). rewrite Ht3' in Ht4. injection Ht4 as <-.
  injection Hs4 as <-. apply fmap_Some in Hu as (u & Hu & Hdis).
  exists t, id, row, u. split_and!; done.
Qed.
End magic.

Lemma loginTx_sees_resp `{Postgres} cfg r detail resolve :
  preserves (sees w_resp) resolve → preserves (sees w_resp) (loginTx cfg r detail resolve).
Proof. intros Hr. apply auditedTx_sees_resp, login_action_sees_resp, Hr. Qed.

(** C10. A magic link signs in once, and only its owner: whatever the database
    answers, either nothing changed and no cookie was set (so the link still
    works, also when the account is disabled or the session cannot be
    stored), or a live magic-link token was spent, its owner is enabled and
    now has a verified address, and exactly one session, the owner's, was
    added. *)
Theorem magic_link_sound `{Postgres} cfg r o w :
  w_tx w = None →
  let w' := snd (handleMagicLinkConfirm cfg r o w) in
  (w_db w' = w_db w ∧ cookies_of w' = cookies_of w) ∨
  ∃ id row u now d1,
    tokens (w_db w) !! id = Some row
    ∧ consumable (HashToken (QueryGet r "token")) PurposeMagicLink now id row = true
    ∧ users (w_db w) !! t_user_id row = Some u ∧ u_disabled u = false
    ∧ d1 = magic_db (QueryGet r "token") (t_user_id row) now (w_db w)
    ∧ tokens d1 !! id = Some (row <| t_consumed_at := Some now |>)
    ∧ minted (t_user_id row) d1 (w_db w').
Proof.
  intros Hw w'. subst w'. unfold handleMagicLinkConfirm. set (tok := QueryGet r "token").
  destruct (str_eqb tok "").
  { left. apply answers_only; auto with responds preserves. }
  rewrite bind_run.
  destruct (loginTx_cases cfg r [("method", JStr "magiclink")] (magic_resolve tok) o w
    (magic_resolve_sees_db tok) (magic_resolve_closes tok) Hw)
    as [[Hd Hok]|(uid & w0 & w2 & t0 & t & Ht0 & Hd0 & Hres & Ht & Hm)];
    pose proof (loginTx_sees_resp cfg r [("method", JStr "magiclink")] _ (magic_resolve_sees_resp tok) o w) as Hr;
    unfold sees in Hr.
  - left. destruct (loginTx _ _ _ _ o w) as [[[created u]|e] w1]; cbn [fst snd] in *; [done|].
    assert (Hck : cookies_of w1 = cookies_of w) by (unfold cookies_of; by rewrite Hr).
    rewrite <-Hd, <-Hck. apply answers_only; destruct (_ || _); [destruct (wantsJSON r)| |destruct (wantsJSON r)|];
      auto with responds preserves.
  - right. apply magic_resolve_ok in Hres as (t1 & id & row & u & Ht1 & Hrow & Hc & <- & Hu & Hdis & Ht2).
    rewrite Ht0 in Ht1. injection Ht1 as <-. rewrite Ht in Ht2. injection Ht2 as ->.
    rewrite Hd0 in *. cbn [tx_db set Setter] in Hm.
    exists id, row, u, (tx_now t0), (magic_db tok (t_user_id row) (tx_now t0) (w_db w)).
    split_and!; [done..| |].
    + unfold magic_db, spend. rsimp. by rewrite lookup_update_where, Hrow; simpl; rewrite Hc.
    + destruct (loginTx _ _ _ _ o w) as [[[created v]|e] w1]; cbn [fst snd] in *.
      * rewrite (proj1 (finishLogin_responds cfg r created) o w1). exact Hm.
      * assert (Hfin : ∀ m : M unit, responds m → w_db (snd (m o w1)) = w_db w1) by (by intros m [Hm' _]; apply Hm').
        rewrite Hfin; [exact Hm|]. destruct (_ || _); [destruct (wantsJSON r)|]; auto with responds.
Qed.

Definition toy_link : request :=
  MkRequest "GET" "/magiclink/confirm" [("token", "tok")] [] false [] [] "10.0.0.1:5000" [] None.
Lemma magic_link_sound_witness :
  let w' := snd (handleMagicLinkConfirm toy_config toy_link (oracle_at 5)
              (world_of (toy_with_token PurposeMagicLink))) in
  ∃ row u, t_user_id row = "u1" ∧ users (toy_with_token PurposeMagicLink) !! t_user_id row = Some u
    ∧ u_disabled u = false ∧ size (sessions (w_db w')) = 1%nat.
Proof.
  intros w'. assert (Hsz : size (sessions (w_db w')) = 1%nat) by (vm_compute; reflexivity).
  destruct (magic_link_sound toy_config toy_link (oracle_at 5) (world_of (toy_with_token PurposeMagicLink)) eq_refl)
    as [[Hd _]|(id & row & u & now & d1 & Hrow & _ & Hu & Hdis & _)].
  - fold w' in Hd. rewrite Hd in Hsz. discriminate Hsz.
  - exists row, u. split_and!; [|exact Hu|exact Hdis|exact Hsz].
    assert (Hl : ({["k1" := MkToken "u1" (HashToken "tok") PurposeMagicLink 1000 None 0]} : gmap string token_row)
      !! id = Some row) by exact Hrow.
    by apply lookup_singleton_Some in Hl as [_ <-].
Defined.

(** ** OAuth *)
Section oauth.
Context `{Postgres} (cfg : Config).

(** Resolving the account leaves the sessions alone. *)
Definition sessions_are (c : gmap string session_row) (d : db) : Prop := sessions d = c.
Lemma UpsertByOAuth_sessions c p allow : preserves (keeps (sessions_are c)) (UpsertByOAuth p allow).
Proof.
  assert (H1 : ∀ u f, stmt_ok (sessions_are c) (sql_update_user u f)) by (by intros u f now d a d' Hd [= <- <-]).
  assert (H2 : ∀ i u pr su, stmt_ok (sessions_are c) (sql_insert_identity i u pr su)).
  { intros i u pr su now d a d' Hd. unfold sql_insert_identity.
    destruct (identities d !! _), (users d !! u); intros [=]; subst; done. }
  assert (H3 : ∀ i f, stmt_ok (sessions_are c) (sql_insert_user i f)).
  { intros i f now d a d' Hd. unfold sql_insert_user.
    destruct (users d !! i); [done|]. destruct (user_by_email d _); [done|]. by intros [= <- <-]. }
  assert (H4 : ∀ a b, stmt_ok (sessions_are c) (sql_identity_owner a b)) by (by intros a b now d x d' Hd [= <- <-]).
  assert (H5 : ∀ a, stmt_ok (sessions_are c) (sql_id_disabled_by_email a)) by (by intros a now d x d' Hd [= <- <-]).
  unfold UpsertByOAuth, link_identity, UUIDv7, time_Now, rand_bytes. apply with_tx_keeps. solve_preserves.
Qed.
Lemma UpsertByOAuth_closes p allow : preserves closes (UpsertByOAuth p allow).
Proof. apply with_tx_closes. Qed.
Lemma clearTransient_responds n : responds (clearTransient cfg n).
Proof. apply responds_SetCookie. Qed.
Lemma oauthFail_responds r c m : responds (oauthFail cfg r c m).
Proof. unfold oauthFail, clearSessionCookie. solve_responds. Qed.
Hint Resolve oauthFail_responds : responds.

(** A session of [uid] and nothing else happened to the sessions. *)
Definition one_session (uid : string) (m m' : gmap string session_row) : Prop :=
  ∃ tok s, m !! HashToken tok = None ∧ s_user_id s = uid ∧ m' = <[HashToken tok := s]> m.

Lemma loginTx_sessions r detail uid o w :
  w_tx w = None →
  let out := loginTx cfg r detail (mret (Ok uid)) o w in
  sessions (w_db (snd out)) = sessions (w_db w)
  ∨ one_session uid (sessions (w_db w)) (sessions (w_db (snd out))).
Proof.
  intros Hw out.
  assert (H1 : preserves (sees w_db) (mret (Ok uid) : M (res err string))) by done.
  assert (H2 : preserves closes (mret (Ok uid) : M (res err string))) by (by intros ??).
  destruct (loginTx_cases cfg r detail _ o w H1 H2 Hw)
    as [[Hd _]|(uid' & w0 & w2 & t0 & t & Ht0 & Hd0 & [= <- <-] & Ht & tok & s & Hn & Hu & Hc)].
  - left. subst out. by rewrite Hd.
  - right. rewrite Ht0 in Ht. injection Ht as <-. rewrite Hd0 in *. exists tok, s. split_and!; [done..|].
    apply core_sessions in Hc. exact Hc.
Qed.

Lemma oauth_login_sessions r name p o w :
  w_tx w = None →
  let w' := snd (oauth_login cfg r name p o w) in
  sessions (w_db w') = sessions (w_db w) ∨
  ∃ ur w1, UpsertByOAuth p (negb (str_eqb (Signup_ cfg) SignupDisabled)) o w = (Ok ur, w1)
    ∧ one_session (ur_user_id ur) (sessions (w_db w)) (sessions (w_db w')).
Proof.
  intros Hw w'. subst w'. unfold oauth_login. rewrite bind_run.
  set (allow := negb (str_eqb (Signup_ cfg) SignupDisabled)).
  pose proof (UpsertByOAuth_sessions (sessions (w_db w)) p allow o w) as Hs.
  pose proof (UpsertByOAuth_closes p allow o w Hw) as Ht.
  destruct (UpsertByOAuth p allow o w) as [ru w1] eqn:EU. cbn [fst snd] in *.
  assert (Hs1 : sessions (w_db w1) = sessions (w_db w)).
  { apply Hs. split; [done|]. intros t. by rewrite Hw. }
  assert (Hq : ∀ m : M unit, (∀ c, preserves (keeps (quiet c)) m) →
    sessions (w_db (snd (m o w1))) = sessions (w_db w)).
  { intros m Hm. rewrite <-Hs1. apply core_sessions. by apply quiet_run. }
  destruct ru as [ur|e].
  - rewrite bind_run. pose proof (loginTx_sessions r [("method", JStr "oauth"); ("provider", JStr name)]
      (ur_user_id ur) o w1 Ht) as Hl.
    destruct (loginTx _ _ _ _ o w1) as [lr w2]. cbn [fst snd] in *. rewrite Hs1 in Hl.
    assert (Hfin : ∀ m : M unit, responds m → w_db (snd (m o w2)) = w_db w2) by (by intros m [Hm _]; apply Hm).
    rewrite (Hfin (match lr with Ok _ => _ | Err _ => _ end)) by (destruct lr as [[]|]; auto with responds).
    destruct Hl as [Hl|Hl]; [by left|]. right. by exists ur, w1.
  - left. destruct (errors_Is e ESignupDisabled); [apply Hq; intros c; solve_preserves|].
    destruct (errors_Is e EUserDisabled); apply Hq; intros c; solve_preserves.
Qed.
End oauth.

(** C9. No session without the provider: whatever the database and the
    provider answer, a callback creates a session only if the provider is
    registered, the state of the query is the non-empty one of the cookie, and
    the provider vouched for a profile in exchange for the code and the
    verifier of the cookie; the session is the only one added and belongs to
    the account that profile resolved to, which was enabled in the tables
    that the resolution left. *)
Theorem oauth_callback_sound `{Postgres} cfg providers r o w :
  w_tx w = None →
  let w' := snd (handleOAuthCallback cfg providers r o w) in
  sessions (w_db w') = sessions (w_db w) ∨
  ∃ prov profile ur w1 w2 w3,
    providers !! PathValue r "provider" = Some prov
    ∧ QueryGet r "state" = cookieValue r cookieOAuthState ∧ QueryGet r "state" ≠ "" ∧ QueryGet r "code" ≠ ""
    ∧ Exchange prov (QueryGet r "code") (cookieValue r cookiePKCE) o w1 = (Some (Ok profile), w2)
    ∧ UpsertByOAuth profile (negb (str_eqb (Signup_ cfg) SignupDisabled)) o w2 = (Ok ur, w3)
    ∧ enabled (ur_user_id ur) (w_db w3)
    ∧ one_session (ur_user_id ur) (sessions (w_db w)) (sessions (w_db w')).
Proof.
  intros Hw w'. subst w'. unfold handleOAuthCallback.
  destruct (providers !! PathValue r "provider") as [prov|] eqn:Ep;
    [|left; by rewrite (proj1 (responds_writeError _ _ _) o w)].
  rewrite !bind_run.
  set (wb := snd (clearTransient cfg cookiePKCE o (snd (clearTransient cfg cookieOAuthState o w)))).
  assert (Hdb : w_db wb = w_db w ∧ w_tx wb = w_tx w).
  { split; unfold wb; [rewrite (proj1 (clearTransient_responds cfg cookiePKCE) o _)
                      |rewrite (proj2 (clearTransient_responds cfg cookiePKCE) o _)];
      apply clearTransient_responds. }
  clearbody wb. destruct Hdb as [Hdb Htb]. rewrite Hw in Htb. rewrite <-Hdb.
  assert (Hans : ∀ m : M unit, responds m → sessions (w_db (snd (m o wb))) = sessions (w_db wb))
    by (intros m [Hm _]; by rewrite (Hm o wb)).
  destruct (_ || _) eqn:E1; [left; apply Hans, oauthFail_responds|].
  destruct (str_eqb (cookieValue r cookieOAuthState) "" || _) eqn:E2; [left; apply Hans, oauthFail_responds|].
  apply orb_false_iff in E1 as [E1%str_eqb_false E1'%str_eqb_false].
  apply orb_false_iff in E2 as [E2%str_eqb_false E2'%negb_false_iff]. unfold SafeEqual in E2'.
  apply str_eqb_true in E2'.
  rewrite bind_run. pose proof (Exchange_db prov (QueryGet r "code") (cookieValue r cookiePKCE) o wb) as Hxd.
  pose proof (Exchange_tx prov (QueryGet r "code") (cookieValue r cookiePKCE) o wb) as Hxt. unfold sees in Hxd, Hxt.
  destruct (Exchange prov _ _ o wb) as [x w1] eqn:EX. cbn [fst snd] in *. rewrite <-Hxd.
  destruct x as [[profile|e]|].
  - rewrite Htb in Hxt. destruct (oauth_login_sessions cfg r (PathValue r "provider") profile o w1 Hxt)
      as [Hs|(ur & w3 & HU & Hs)]; [by left|]. right.
    pose proof (UpsertByOAuth_enabled _ _ _ _ _ _ HU). exists prov, profile, ur, wb, w1, w3. by split_and!.
  - left. rewrite bind_run. by rewrite (proj1 (oauthFail_responds cfg _ _ _) o _).
  - left. by rewrite (proj1 responds_recovered o w1).
Qed.

Definition toy_providers : Registry :=
  {["google" := google_provider toy_net toy_google (newJWKSCache googleJWKSURL)]}.
Definition toy_callback (state : string) : request :=
  MkRequest "GET" "/auth/google/callback" [("code", "c"); ("state", state)] [] false []
    [("sesamo_oauth_state", "xyz"); ("sesamo_pkce", "v")] "10.0.0.1:5000" [("provider", "google")] None.
Lemma oauth_callback_sound_witness :
  let w' := snd (handleOAuthCallback toy_config toy_providers (toy_callback "xyz") (oracle_at 5)
              (world_of toy_accounts)) in
  size (sessions (w_db w')) = 1%nat ∧
  ∃ prov profile w1 w2, toy_providers !! "google" = Some prov
    ∧ Exchange prov "c" "v" (oracle_at 5) w1 = (Some (Ok profile), w2).
Proof.
  intros w'. assert (Hsz : size (sessions (w_db w')) = 1%nat) by (vm_compute; reflexivity).
  split; [exact Hsz|].
  destruct (oauth_callback_sound toy_config toy_providers (toy_callback "xyz") (oracle_at 5)
    (world_of toy_accounts) eq_refl) as [Hs|(prov & profile & ur & w1 & w2 & w3 & Hp & _ & _ & _ & HX & _)].
  - fold w' in Hs. rewrite Hs in Hsz. discriminate Hsz.
  - exists prov, profile, w1, w2. split; [exact Hp|exact HX].
Defined.
(** A forged state: refused before anything is exchanged. *)
Example forged_state :
  let w' := snd (handleOAuthCallback toy_config toy_providers (toy_callback "forged") (oracle_at 5)
              (world_of toy_accounts)) in
  sessions (w_db w') = ∅ ∧ w_step w' = 0%nat.
Proof. vm_compute. split; reflexivity. Qed.

(** ** Logout *)
Section logout.
Context `{Postgres} (cfg : Config).

Lemma logout_action_sees_db tok : preserves (sees w_db) (logout_action tok).
Proof. unfold logout_action, RevokeTx, revoke. solve_preserves. Qed.
Lemma logout_action_sees_resp tok : preserves (sees w_resp) (logout_action tok).
Proof. unfold logout_action, RevokeTx, revoke. solve_preserves. Qed.
Lemma logout_action_closes tok : preserves closes (logout_action tok).
Proof. unfold logout_action, RevokeTx, revoke. solve_preserves. Qed.

Lemma logout_action_ok tok o w rec x w1 :
  logout_action tok o w = (Ok (rec, x), w1) →
  ∃ t, w_tx w = Some t
    ∧ w_tx w1 = Some (t <| tx_db := (tx_db t) <| sessions := delete (HashToken tok) (sessions (tx_db t)) |> |>).
Proof.
  unfold logout_action, RevokeTx, revoke. rewrite bindE_run, bind_run. unfold queryRow. rewrite bindE_run.
  case_exec y w2 E. destruct y as [ou|e]; cbn [fst snd].
  - apply exec_tx_ok in E as (t & d & Ht & _ & [= <- <-] & ->). rewrite ret_run.
    destruct (s_user_id <$> _) as [u|]; rewrite ?ret_run; cbn [fst snd];
      destruct (str_eqb _ ""); rewrite ?ret_run; intros [= _ _ <-]; exists t; (split; [done|reflexivity]).
  - apply exec_err in E as ->. by rewrite ret_run.
Qed.

Lemma finish_logout_responds r : responds (finish_logout cfg r).
Proof. unfold finish_logout, clearSessionCookie. solve_responds. Qed.
Lemma http_Redirect_cookies r u c : preserves (sees cookies_of) (http_Redirect r u c).
Proof.
  intros o w. unfold http_Redirect. cbv zeta.
  match goal with |- sees _ w (snd (?m o w)) => cut (preserves (sees cookies_of) m); [auto|] end.
  solve_preserves.
Qed.
Lemma finish_logout_cookies r o w :
  fresh (w_resp w) →
  cookies_of (snd (finish_logout cfg r o w)) = cookies_of w ++
    [MkCookie (CookieName cfg) "" "/" (CookieDomain cfg) (Some 0) (-1) true (CookieSecure cfg) true].
Proof.
  intros [Hf _]. unfold finish_logout. rewrite bind_run.
  set (w1 := snd (clearSessionCookie cfg o w)).
  assert (H1 : cookies_of w1 = cookies_of w ++
    [MkCookie (CookieName cfg) "" "/" (CookieDomain cfg) (Some 0) (-1) true (CookieSecure cfg) true]).
  { unfold w1, clearSessionCookie, http_SetCookie, update_response, cookies_of. cbn. rsimp. by rewrite Hf. }
  rewrite <-H1. destruct (wantsJSON r); [|apply http_Redirect_cookies].
  assert (Hj : preserves (sees cookies_of) (writeJSON 200
    (json_strings [("status", "logged_out"); ("redirect_to", safe_target cfg (FormValue r "redirect_to"))])))
    by (unfold writeJSON; solve_preserves).
  apply Hj.
Qed.
End logout.

(** Logout is honest: whatever the database answers, a logout with the
    CSRF pair and a session cookie is answered 500 and keeps the cookie, or
    it removed the session of the cookie, and that one only, and clears the
    cookie; in no case does another session or account change. *)
Theorem logout_honest `{Postgres} cfg r o w :
  csrf_ok r = true → r_form_error r = false → cookieValue r (CookieName cfg) ≠ "" →
  w_tx w = None → fresh (w_resp w) →
  let w' := snd (handleLogout cfg r o w) in
  let gone := core (w_db w) <| sessions := delete (HashToken (cookieValue r (CookieName cfg))) (sessions (w_db w)) |> in
  (core (w_db w') = gone ∧ cookies_of w' = cookies_of w ++
     [MkCookie (CookieName cfg) "" "/" (CookieDomain cfg) (Some 0) (-1) true (CookieSecure cfg) true])
  ∨ (rs_status (w_resp w') = Some 500 ∧ cookies_of w' = cookies_of w
     ∧ (w_db w' = w_db w ∨ core (w_db w') = gone)).
Proof.
  intros Hc Hfe Htok Hw Hf w' gone. subst w'. unfold handleLogout. rewrite bind_run, checkCSRF_accepts by done.
  cbn [fst snd negb]. set (tok := cookieValue r (CookieName cfg)) in *.
  apply str_eqb_false in Htok as ->.
  destruct (auditedTx_then cfg (clientIP cfg r) (logout_action tok)
    (λ res, match res with Err _ => internalError | Ok _ => finish_logout cfg r end) o w
    (logout_action_sees_db tok) (logout_action_closes tok)
    ltac:(intros [[]|]; [apply finish_logout_responds|apply responds_internalError]) Hw)
    as (rs & w2 & EA & Heq & Hcase).
  pose proof (auditedTx_sees_resp cfg (clientIP cfg r) _ (logout_action_sees_resp tok) o w) as Hs.
  rewrite EA in Hs. unfold sees in Hs. cbn [snd] in Hs.
  rewrite Heq in Hcase |- *. clear Heq.
  assert (Hdone : w_db (snd ((match rs with Err _ => internalError | Ok _ => finish_logout cfg r end) o w2))
                  = w_db w ∧ is_ok rs = false
                  ∨ core (w_db (snd ((match rs with Err _ => internalError | Ok _ => finish_logout cfg r end) o w2)))
                  = gone).
  { destruct Hcase as [?|(rec & a & w0 & t0 & w3 & t & Ht0 & Hd0 & Hact & Ht & Hcom)]; [by left|]. right.
    apply logout_action_ok in Hact as (t1 & Ht1 & Ht3). rewrite Ht0 in Ht1. injection Ht1 as <-.
    rewrite Ht in Ht3. injection Ht3 as ->. apply committed_core in Hcom. rewrite Hcom. unfold gone. by rewrite <-Hd0. }
  clear Hcase. destruct rs as [[]|e].
  - destruct Hdone as [[_ ?]|Hg]; [done|]. left. split; [done|].
    unfold cookies_of. rewrite <-Hs. apply finish_logout_cookies. by rewrite Hs.
  - right. split_and!.
    + unfold internalError. rewrite writeError_answers, resp_error_status; [done|by rewrite Hs].
    + rewrite (internalError_cookies o w2). unfold cookies_of. by rewrite Hs.
    + destruct Hdone as [[Hd _]|Hd]; auto.
Qed.

Definition toy_session_db : db :=
  toy_accounts <| sessions := {[HashToken "tok" := MkSession "u1" 0 1000 0 None None]} |>.
Definition toy_logout : request :=
  toy_form [("csrf_token", "t")] [("sesamo_csrf", "t"); ("sid", "tok")].
Lemma logout_honest_witness :
  let w' := snd (handleLogout toy_config toy_logout (oracle_at 5) (world_of toy_session_db)) in
  sessions (w_db w') = ∅ ∧ length (cookies_of w') = 1%nat.
Proof.
  intros w'.
  assert (Hst : rs_status (w_resp w') = Some 302) by (vm_compute; reflexivity).
  assert (Hc : cookieValue toy_logout (CookieName toy_config) ≠ "") by (vm_compute; discriminate).
  assert (Hf : fresh (w_resp (world_of toy_session_db))) by (split; reflexivity).
  destruct (logout_honest toy_config toy_logout (oracle_at 5) (world_of toy_session_db) eq_refl eq_refl Hc eq_refl Hf)
    as [[Hg Hk]|[Hs _]].
  - fold w' in Hg, Hk. apply core_sessions in Hg. split; [rewrite Hg; vm_compute; reflexivity|].
    rewrite Hk. reflexivity.
  - fold w' in Hs. rewrite Hs in Hst. discriminate Hst.
Defined.

(** ** Signup *)

(** C23. Signing up reveals nothing: past the CSRF check, the policy and the
    length check, the answer is the same 200 whatever the database holds and
    whatever goes wrong in it, so it does not tell whether the address has an
    account. *)
Theorem signup_reveals_nothing `{Postgres} `{PasswordLib} cfg kr r o w hash w1 :
  csrf_ok r = true → r_form_error r = false → Signup_ cfg ≠ SignupDisabled →
  FormValue r "email" ≠ "" → (8 ≤ String.length (FormValue r "password"))%nat →
  HashPassword (FormValue r "password") o w = (Some hash, w1) →
  w_resp (snd (handleSignup cfg kr r o w))
  = resp_json 200 (json_strings [("status", "verification_sent")]) (w_resp w).
Proof.
  intros Hc Hf Hs He Hp Hh. unfold handleSignup. rewrite bind_run, checkCSRF_accepts by done. cbn [fst snd negb].
  apply str_eqb_false in Hs as ->, He as ->. cbv zeta.
  replace (String.length (FormValue r "password") <? 8)%nat with false by (symmetry; apply Nat.ltb_ge; lia).
  cbn [orb]. rewrite bind_run. pose proof (HashPassword_keeps_world (FormValue r "password") o w) as Hk.
  rewrite Hh in *. cbn [fst snd] in *. destruct Hk as (_ & _ & Hr). rewrite <-Hr.
  rewrite bind_run. pose proof (UUIDv7_sees_resp o w1) as Hu. unfold sees in Hu. rewrite <-Hu.
  destruct (UUIDv7 o w1) as [id w2]. cbn [fst snd]. rewrite bind_run.
  assert (Ha : preserves (sees w_resp) (signup_action cfg kr id (FormValue r "email") hash)).
  { unfold signup_action, CreateWithPasswordTx, createWithPassword. solve_preserves. }
  pose proof (auditedTx_sees_resp cfg (clientIP cfg r) _ Ha o w2) as Hx. unfold sees in Hx. rewrite <-Hx.
  destruct (auditedTx _ _ _ o w2) as [res w3]. cbn [fst snd]. rewrite bind_run, writeJSON_answers. f_equal.
  destruct res as [?|e]; [done|]. by destruct (is_audit_error e).
Qed.
Definition toy_signup : request :=
  toy_form [("email", "Ana@x.com"); ("password", "new-password"); ("csrf_token", "t")] [("sesamo_csrf", "t")].
Lemma signup_reveals_nothing_witness :
  w_resp (snd (handleSignup toy_config toy_keyring toy_signup (oracle_at 5) (world_of toy_accounts)))
  = w_resp (snd (handleSignup toy_config toy_keyring toy_signup (oracle_at 5) (world_of empty_db))).
Proof.
  assert (Hh : ∀ d, ∃ h w1, HashPassword "new-password" (oracle_at 5) (world_of d) = (Some h, w1))
    by (intros d; eexists _, _; reflexivity).
  assert (Hs : Signup_ toy_config ≠ SignupDisabled) by (vm_compute; discriminate).
  assert (He : FormValue toy_signup "email" ≠ "") by (vm_compute; discriminate).
  assert (Hp : (8 ≤ String.length (FormValue toy_signup "password"))%nat) by (vm_compute; lia).
  destruct (Hh toy_accounts) as (h1 & w1 & E1). destruct (Hh empty_db) as (h2 & w2 & E2).
  rewrite (signup_reveals_nothing toy_config toy_keyring toy_signup (oracle_at 5) (world_of toy_accounts) h1 w1
    eq_refl eq_refl Hs He Hp E1).
  rewrite (signup_reveals_nothing toy_config toy_keyring toy_signup (oracle_at 5) (world_of empty_db) h2 w2
    eq_refl eq_refl Hs He Hp E2).
  reflexivity.
Defined.
