(* ===== verification/Answer.v ===== *)
(** * Answer: every handler answers

    A small logic for two facts about the computations of the handlers: the
    response once begun has a real status and keeps it, and the headers of the
    middleware are left alone ([calm]); and when the computation ends with a
    given result the response has been begun ([concludes]). *)

From S2P Require Import Prelude GoLib GoUnicode GoHash GoNet GoUrl Schema World Logic Crypto Users Session RateLimit Tokens AuditLog Keyring Outbox OAuth Config Ui Http Webhook Service EndUser Flows.

(** The headers that the middleware sets. *)
Definition middleware_headers : list string :=
  ["X-Content-Type-Options"; "X-Frame-Options"; "Referrer-Policy"; "Content-Security-Policy";
   "Strict-Transport-Security"; "X-Request-Id"].
Definition middleware_values (w : world) : list string :=
  map (header_value (rs_headers (w_resp w))) middleware_headers.

Definition real_status (st : Z) : Prop := 200 ≤ st < 600.
Definition status_ok (w : world) : Prop := ∀ st, rs_status (w_resp w) = Some st → real_status st.
Definition begun (w : world) : Prop := ∃ st, rs_status (w_resp w) = Some st ∧ real_status st.

(** The first header may be set again, to what it was. *)
Definition keeps_stamp (w w' : world) : Prop :=
  ∀ rest, middleware_values w = "nosniff" :: rest → middleware_values w' = "nosniff" :: rest.
Definition undisturbed (w w' : world) : Prop :=
  (status_ok w → status_ok w') ∧ (begun w → begun w') ∧ keeps_stamp w w'.
#[export] Instance undisturbed_preorder : PreOrder undisturbed.
Proof.
  split; [by intros w; split_and!; [..|intros rest]|]. intros w1 w2 w3 (H1 & H2 & H3) (H4 & H5 & H6).
  split_and!; [auto..|intros rest Hr; by apply H6, H3].
Qed.
Definition calm {A} (m : M A) : Prop := preserves undisturbed m.
Definition concludes {A} (P : A → Prop) (m : M A) : Prop :=
  ∀ o w, status_ok w → P (fst (m o w)) → begun (snd (m o w)).

(** ** Rules *)
Lemma calm_ret {A} (a : A) : calm (mret a).
Proof. apply preserves_ret, _. Qed.
Lemma calm_bind {A B} (m : M A) (k : A → M B) : calm m → (∀ a, calm (k a)) → calm (m ≫= k).
Proof. apply preserves_bind, _. Qed.
Lemma calm_bindE {A B} (m : M (res err A)) (k : A → M (res err B)) :
  calm m → (∀ a, calm (k a)) → calm (bindE k m).
Proof. apply preserves_bindE, _. Qed.
Lemma calm_sees {A} (m : M A) : preserves (sees w_resp) m → calm m.
Proof.
  intros Hm o w. specialize (Hm o w). unfold sees in Hm.
  unfold undisturbed, keeps_stamp, status_ok, begun, middleware_values. by rewrite Hm.
Qed.

Section rules.
Context {A B : Type} (P : B → Prop) (Q : A → Prop).
(** The answer is in what follows, except after the results [Q], for which
    it was given already. *)
Lemma concludes_guard (m : M A) (k : A → M B) :
  calm m → concludes Q m → (∀ a, Q a ∨ concludes P (k a)) → (∀ a, calm (k a)) → concludes P (m ≫= k).
Proof.
  intros Hm Hq Hk Hc o w Hw Hp. rewrite bind_run in *. destruct (m o w) as [a w1] eqn:E. cbn [fst snd] in *.
  pose proof (Hm o w) as Hm'. rewrite E in Hm'. destruct Hm' as (Hs & _ & _).
  destruct (Hk a) as [Ha|Ha]; [|apply Ha; auto].
  apply Hc. specialize (Hq o w Hw). rewrite E in Hq. by apply Hq.
Qed.
Lemma concludes_last (m : M A) (k : A → M B) :
  calm m → (∀ a, concludes P (k a)) → concludes P (m ≫= k).
Proof.
  intros Hm Hk o w Hw Hp. rewrite bind_run in *. apply Hk; [|done].
  destruct (Hm o w) as (Hs & _ & _). by apply Hs.
Qed.
Lemma concludes_first (m : M A) (k : A → M B) :
  concludes (λ _, True) m → (∀ a, calm (k a)) → concludes P (m ≫= k).
Proof. intros Hm Hk o w Hw _. rewrite bind_run. apply Hk, Hm; done. Qed.
Lemma concludes_ret (b : B) : ¬ P b → concludes P (mret b).
Proof. intros Hb o w _ Hp. by destruct Hb. Qed.
Lemma concludes_weaken (m : M B) : concludes (λ _, True) m → concludes P m.
Proof. intros Hm o w Hw _. by apply Hm. Qed.
End rules.

(** ** The response writer *)
Lemma header_value_app l l' k :
  header_value (l ++ l') k = if existsb (λ kv, EqualFold k (fst kv)) l then header_value l k else header_value l' k.
Proof.
  induction l as [|[k' v] l IH]; [done|]. cbn. destruct (EqualFold k k'); [done|]. apply IH.
Qed.
Lemma EqualFold_trans_false k k1 k2 :
  EqualFold k k1 = true → EqualFold k2 k = false → EqualFold k2 k1 = false.
Proof. unfold EqualFold. intros ->%str_eqb_true. done. Qed.
Lemma header_value_filter l k k' :
  EqualFold k k' = false → header_value (List.filter (λ kv, negb (EqualFold k' (fst kv))) l) k = header_value l k.
Proof.
  intros Hk. induction l as [|[k1 v] l IH]; [done|]. cbn. destruct (EqualFold k' k1) eqn:E; cbn.
  - rewrite IH. by rewrite (EqualFold_trans_false _ _ _ E Hk).
  - destruct (EqualFold k k1); [done|apply IH].
Qed.
Lemma header_value_set l k k' v :
  EqualFold k k' = false →
  header_value (List.filter (λ kv, negb (EqualFold k' (fst kv))) l ++ [(k', v)]) k = header_value l k.
Proof.
  intros Hk. rewrite header_value_app, (header_value_filter l k k') by done.
  destruct (existsb _ _) eqn:E; [done|]. cbn. rewrite Hk.
  rewrite <-(header_value_filter l k k' Hk).
  clear Hk. induction (List.filter _ l) as [|[k1 v1] l1 IH]; [done|].
  cbn in E |- *. apply orb_false_iff in E as [E1 E2]. rewrite E1. by apply IH.
Qed.

Definition is_middleware_header (k : string) : bool := existsb (λ k', EqualFold k' k) middleware_headers.
Lemma map_header_value_set l hs k v :
  existsb (λ k', EqualFold k' k) l = false →
  map (header_value (List.filter (λ kv, negb (EqualFold k (fst kv))) hs ++ [(k, v)])) l = map (header_value hs) l.
Proof.
  induction l as [|k' l IH]; [done|]. cbn [existsb]. intros [Hk' Hk]%orb_false_iff. cbn [map]. f_equal.
  - by apply header_value_set.
  - by apply IH.
Qed.
Lemma calm_setHeader k v : is_middleware_header k = false → calm (setHeader k v).
Proof.
  intros Hk o [d t i [[st|] hs cs b] m]; [reflexivity|]. split_and!; [done..|]. intros rest <-.
  unfold middleware_values, setHeader, update_response. cbn [snd w_resp set eta rs_headers rs_status].
  by apply map_header_value_set.
Qed.
Lemma header_value_same hs k v :
  header_value (List.filter (λ kv, negb (EqualFold k (fst kv))) hs ++ [(k, v)]) k = v.
Proof.
  assert (Hk : EqualFold k k = true) by (unfold EqualFold; apply str_eqb_refl).
  induction hs as [|[k1 v1] hs IH]; cbn [List.filter app header_value fst]; [by rewrite Hk|].
  destruct (EqualFold k k1) eqn:E; cbn [negb]; [apply IH|]. cbn. rewrite E. apply IH.
Qed.
Lemma calm_nosniff : calm (setHeader "X-Content-Type-Options" "nosniff").
Proof.
  intros o [d t i [[st|] hs cs b] m]; [reflexivity|]. split_and!; [done..|]. intros rest.
  unfold middleware_values, setHeader, update_response, middleware_headers.
  cbn [map snd w_resp set eta rs_headers rs_status]. intros [= _ <-]. f_equal; [by rewrite header_value_same|].
  by apply (map_header_value_set (tl middleware_headers)).
Qed.
Lemma calm_SetCookie c : calm (http_SetCookie c).
Proof. intros o [d t i [[st|] hs cs bs] m]; [reflexivity|]. by split_and!; [..|intros rest]. Qed.
Lemma calm_WriteHeader st : real_status st → calm (WriteHeader st).
Proof.
  intros Hst o [d t i [[st'|] hs cs bs] m]; [reflexivity|].
  split_and!; [by intros _ ? [= <-]|by intros _; exists st|by intros rest].
Qed.
Lemma calm_Write b : calm (Write b).
Proof.
  intros o [d t i [[st|] hs cs bs] m]; [by split_and!; [..|intros rest]|].
  split_and!; [|by intros (st & ? & ?)|by intros rest].
  intros _ st [= <-]. unfold real_status. lia.
Qed.
Lemma concludes_WriteHeader P st : real_status st → concludes P (WriteHeader st).
Proof.
  intros Hst o [d t i [[st'|] hs cs bs] m] Hw _; [by exists st'; split; [|apply Hw]|by exists st].
Qed.
Lemma concludes_Write P b : concludes P (Write b).
Proof.
  intros o [d t i [[st|] hs cs bs] m] Hw _; eexists; (split; [reflexivity|]); [by apply Hw|].
  unfold real_status. cbn. lia.
Qed.

Create HintDb answer.
Ltac real := first [assumption | unfold real_status; lia].
#[export] Hint Extern 1 (real_status _) => real : answer.
#[export] Hint Extern 1 (is_middleware_header _ = false) => vm_compute; reflexivity : answer.
#[export] Hint Resolve calm_nosniff : answer.
#[export] Hint Resolve calm_ret calm_setHeader calm_SetCookie calm_WriteHeader calm_Write
  concludes_WriteHeader concludes_Write : answer.
#[export] Hint Extern 3 (calm _) => apply calm_sees; solve [auto with preserves] : answer.

Ltac calm_step :=
  cbv beta zeta;
  lazymatch goal with
  | |- calm (mbind _ _) => apply calm_bind; [|intros ?]
  | |- calm (bindE _ _) => apply calm_bindE; [|intros ?]
  | |- calm (match ?x with _ => _ end) => destruct x eqn:?
  end.
Ltac solve_calm := repeat first [solve [auto with answer] | calm_step].

(** The last step answers, or the first one does, or the first one is a guard
    that answers when it says no. *)
Ltac solve_concludes :=
  cbv beta zeta;
  first
    [ solve [auto with answer]
    | lazymatch goal with
      | |- concludes _ (match ?x with _ => _ end) => destruct x eqn:?; solve_concludes
      | |- concludes _ (mret _) => apply concludes_ret; naive_solver
      | |- concludes _ (mbind _ _) =>
          first
            [ apply concludes_last; [solve [solve_calm]|intros ?; solve [solve_concludes]]
            | apply concludes_first; [solve [solve_concludes]|intros ?; solve [solve_calm]]
            | apply (concludes_guard _ (λ ok : bool, ok = false));
              [ solve [solve_calm] | solve [solve_concludes]
              | intros []; [right; cbn [negb]; solve [solve_concludes]|by left]
              | intros ?; solve [solve_calm] ] ]
      end ].

(** ** Shared pieces *)
Lemma calm_writeJSON st v : real_status st → calm (writeJSON st v).
Proof. intros Hst. unfold writeJSON. solve_calm. Qed.
Lemma concludes_writeJSON P st v : real_status st → concludes P (writeJSON st v).
Proof. intros Hst. unfold writeJSON. solve_concludes. Qed.
#[export] Hint Resolve calm_writeJSON concludes_writeJSON : answer.
Lemma calm_writeError st c msg : real_status st → calm (writeError st c msg).
Proof. apply calm_writeJSON. Qed.
Lemma concludes_writeError P st c msg : real_status st → concludes P (writeError st c msg).
Proof. apply concludes_writeJSON. Qed.
Lemma calm_internalError : calm internalError.
Proof. by apply calm_writeError. Qed.
Lemma concludes_internalError P : concludes P internalError.
Proof. by apply concludes_writeError. Qed.
#[export] Hint Resolve calm_writeError concludes_writeError calm_internalError concludes_internalError : answer.

(** A computation that looks at the world first. *)
Ltac at_world :=
  lazymatch goal with
  | |- calm _ =>
      intros ? ?; cbv beta zeta;
      lazymatch goal with |- undisturbed _ (snd (?m _ _)) => enough (calm m) by auto end
  | |- concludes _ _ =>
      intros ? ? ? _; cbv beta zeta;
      lazymatch goal with |- begun (snd (?m _ _)) =>
        let H := fresh in enough (concludes (λ _, True) m) as H by (apply H; done) end
  end.
Lemma calm_Redirect r url code : real_status code → calm (http_Redirect r url code).
Proof. intros Hc. unfold http_Redirect. at_world. solve_calm. Qed.
Lemma concludes_Redirect P r url code : real_status code → concludes P (http_Redirect r url code).
Proof. intros Hc. unfold http_Redirect. at_world. solve_concludes. Qed.
Lemma calm_recovered : calm recovered.
Proof. unfold recovered. at_world. solve_calm. Qed.
Lemma concludes_recovered P : concludes P recovered.
Proof.
  intros o w Hw _. unfold recovered. destruct (rs_status (w_resp w)) as [st|] eqn:E.
  - exists st. split; [done|by apply Hw].
  - rewrite bind_run. cbn [fst snd]. apply (concludes_internalError (λ _, True)); [|done].
    by apply calm_sees; [apply IncCounter_sees_resp|].
Qed.
#[export] Hint Resolve calm_Redirect concludes_Redirect calm_recovered concludes_recovered : answer.

Section pieces.
Context `{Postgres} (cfg : Config).

Lemma calm_renderMessage st t b : real_status st → calm (renderMessage cfg st t b).
Proof. intros Hst. unfold renderMessage. solve_calm. Qed.
Lemma concludes_renderMessage P st t b : real_status st → concludes P (renderMessage cfg st t b).
Proof. intros Hst. unfold renderMessage. solve_concludes. Qed.
#[local] Hint Resolve calm_renderMessage concludes_renderMessage : answer.
Lemma calm_checkCSRF r : calm (checkCSRF cfg r).
Proof. unfold checkCSRF. solve_calm. Qed.
Lemma concludes_checkCSRF r : concludes (λ ok, ok = false) (checkCSRF cfg r).
Proof. unfold checkCSRF. solve_concludes. Qed.
Lemma calm_issueCSRFToken : calm (issueCSRFToken cfg).
Proof. unfold issueCSRFToken, setTransientTTL. pose proof GenerateToken_sees_resp. solve_calm. Qed.
Lemma calm_captureRedirect r : calm (captureRedirect cfg r).
Proof. unfold captureRedirect, setTransientTTL. solve_calm. Qed.
Lemma calm_recordAudit r e a d : calm (recordAudit cfg r e a d).
Proof. unfold recordAudit, Record. solve_calm. Qed.
Lemma concludes_recordAudit r e a d : concludes (λ ok, ok = false) (recordAudit cfg r e a d).
Proof. unfold recordAudit, Record. solve_concludes. Qed.
Lemma calm_allow key rule : calm (allow key rule).
Proof. unfold allow. pose proof (Allow_sees_resp key rule). solve_calm. Qed.
Lemma concludes_allow key rule : concludes (λ ok, ok = false) (allow key rule).
Proof. unfold allow. pose proof (Allow_sees_resp key rule). solve_concludes. Qed.
#[local] Hint Resolve calm_allow concludes_allow : answer.
Lemma calm_checkLoginRate r id : calm (checkLoginRate cfg r id).
Proof. unfold checkLoginRate. solve_calm. Qed.
Lemma concludes_checkLoginRate r id : concludes (λ ok, ok = false) (checkLoginRate cfg r id).
Proof. unfold checkLoginRate. solve_concludes. Qed.
End pieces.
#[export] Hint Resolve calm_renderMessage concludes_renderMessage calm_checkCSRF concludes_checkCSRF
  calm_issueCSRFToken calm_captureRedirect calm_recordAudit concludes_recordAudit calm_checkLoginRate
  concludes_checkLoginRate : answer.

(** ** The handlers *)
Definition settles (m : M unit) : Prop := calm m ∧ concludes (λ _, True) m.
Lemma answers_calm m : settles m → calm m.
Proof. by intros [H _]. Qed.
Lemma answers_concludes P m : settles m → concludes P m.
Proof. intros [_ H]. by apply concludes_weaken. Qed.
#[export] Hint Extern 2 (calm _) => apply answers_calm; solve [auto with answer] : answer.
#[export] Hint Extern 2 (concludes _ _) => apply answers_concludes; solve [auto with answer] : answer.
Ltac always := split; [solve_calm|solve_concludes].

Lemma ret_sees_resp {A} (a : A) : preserves (sees w_resp) (mret a).
Proof. apply preserves_ret, _. Qed.
Lemma calm_HashPassword `{PasswordLib} pw : calm (HashPassword pw).
Proof. apply calm_sees. intros o w. apply HashPassword_keeps_world. Qed.

Section enduser_handlers.
Context `{Postgres} `{PasswordLib} (cfg : Config) (kr : Keyring) (providers : Registry).

Lemma calm_auditedTx {A} ip (action : M (res err (auditRecord * A))) :
  preserves (sees w_resp) action → calm (auditedTx cfg ip action).
Proof. intros Ha. apply calm_sees. by apply auditedTx_sees_resp. Qed.
Lemma calm_loginTx r d resolve : preserves (sees w_resp) resolve → calm (loginTx cfg r d resolve).
Proof. intros Ha. apply calm_sees. by apply loginTx_sees_resp. Qed.
#[local] Hint Resolve calm_auditedTx calm_loginTx ret_sees_resp calm_HashPassword GenerateToken_sees_resp
  UUIDv7_sees_resp logout_action_sees_resp magic_resolve_sees_resp reset_action_sees_resp ByEmail_sees_resp
  send_link_sees_resp queueOneTimeLinkTx_sees_resp : answer preserves.

Lemma handleLoginPage_answers r : settles (handleLoginPage cfg providers r).
Proof. unfold handleLoginPage. always. Qed.
Lemma handleResetRequestPage_answers r : settles (handleResetRequestPage cfg r).
Proof. unfold handleResetRequestPage. always. Qed.
Lemma handleResetConfirmPage_answers r : settles (handleResetConfirmPage cfg r).
Proof. unfold handleResetConfirmPage. always. Qed.
Lemma finishLogin_answers r created : settles (finishLogin cfg r created).
Proof. unfold finishLogin, setSessionCookie, clearTransient. always. Qed.
Lemma oauthFail_answers r code msg : settles (oauthFail cfg r code msg).
Proof. unfold oauthFail, clearSessionCookie. always. Qed.
Lemma login_failed_answers r a e reason : settles (login_failed cfg r a e reason).
Proof. unfold login_failed, bad_credentials. always. Qed.
#[local] Hint Resolve finishLogin_answers oauthFail_answers login_failed_answers : answer.
Lemma start_password_session_answers r uid : settles (start_password_session cfg r uid).
Proof. unfold start_password_session. always. Qed.
Lemma rehash_calm uid pw : calm (rehash uid pw).
Proof. unfold rehash, SetPassword, setPassword. solve_calm. Qed.
Lemma rehash_concludes uid pw : concludes (λ ok, ok = false) (rehash uid pw).
Proof. unfold rehash, SetPassword, setPassword. solve_concludes. Qed.
#[local] Hint Resolve start_password_session_answers rehash_calm rehash_concludes : answer.
Lemma password_checked_answers r e pw cred : settles (password_checked cfg r e pw cred).
Proof. unfold password_checked. always. Qed.
#[local] Hint Resolve password_checked_answers : answer.
Lemma handlePasswordLogin_answers r : settles (handlePasswordLogin cfg r).
Proof. unfold handlePasswordLogin, PasswordCredential. always. Qed.

Lemma signup_action_sees_resp id e hash : preserves (sees w_resp) (signup_action cfg kr id e hash).
Proof. unfold signup_action, CreateWithPasswordTx, createWithPassword. solve_preserves. Qed.
#[local] Hint Resolve signup_action_sees_resp : answer.
Lemma handleSignup_answers r : settles (handleSignup cfg kr r).
Proof. unfold handleSignup. always. Qed.
Lemma finish_logout_answers r : settles (finish_logout cfg r).
Proof. unfold finish_logout, clearSessionCookie. always. Qed.
#[local] Hint Resolve finish_logout_answers : answer.
Lemma handleLogout_answers r : settles (handleLogout cfg r).
Proof. unfold handleLogout. always. Qed.
Lemma handleResetRequest_answers r : settles (handleResetRequest cfg kr r).
Proof. unfold handleResetRequest. always. Qed.
Lemma reset_done_answers r res : settles (reset_done cfg r res).
Proof. unfold reset_done. always. Qed.
#[local] Hint Resolve reset_done_answers : answer.
Lemma handleResetConfirm_answers r : settles (handleResetConfirm cfg r).
Proof. unfold handleResetConfirm. always. Qed.
Lemma handleVerify_answers r : settles (handleVerify cfg r).
Proof. unfold handleVerify, Consume, consume, MarkEmailVerified, markEmailVerified. always. Qed.
Lemma handleMagicLinkRequest_answers r : settles (handleMagicLinkRequest cfg kr r).
Proof. unfold handleMagicLinkRequest. always. Qed.
Lemma handleMagicLinkConfirm_answers r : settles (handleMagicLinkConfirm cfg r).
Proof. unfold handleMagicLinkConfirm. always. Qed.

Lemma calm_GenerateOAuthState : calm GenerateOAuthState.
Proof. apply calm_sees. by intros o w. Qed.
Lemma calm_NewPKCE : calm NewPKCE.
Proof. apply calm_sees. by intros o w. Qed.
Lemma calm_Exchange p code v : calm (Exchange p code v).
Proof. apply calm_sees, Exchange_resp. Qed.
Lemma calm_UpsertByOAuth p allow : calm (UpsertByOAuth p allow).
Proof. apply calm_sees. unfold UpsertByOAuth, link_identity. apply with_tx_sees_resp. solve_preserves. Qed.
#[local] Hint Resolve calm_GenerateOAuthState calm_NewPKCE calm_Exchange calm_UpsertByOAuth : answer.
Lemma handleOAuthStart_answers r : settles (handleOAuthStart cfg providers r).
Proof. unfold handleOAuthStart, setTransient, setTransientTTL. always. Qed.
Lemma oauth_login_answers r name p : settles (oauth_login cfg r name p).
Proof. unfold oauth_login. always. Qed.
#[local] Hint Resolve oauth_login_answers : answer.
Lemma handleOAuthCallback_answers r : settles (handleOAuthCallback cfg providers r).
Proof. unfold handleOAuthCallback, clearTransient. always. Qed.
End enduser_handlers.

Section service_handlers.
Context `{Postgres} (cfg : Config).
#[local] Hint Resolve calm_auditedTx Validate_sees_resp ByID_sees_resp set_disabled_sees_resp : answer preserves.

Lemma requireBearer_answers secret unset wrong next r :
  settles (next r) → settles (requireBearer secret unset wrong next r).
Proof. intros Hn. unfold requireBearer. always. Qed.
Lemma handleIntrospect_answers r : settles (handleIntrospect cfg r).
Proof. unfold handleIntrospect. always. Qed.
Lemma handleSessionRevoke_answers r : settles (handleSessionRevoke cfg r).
Proof. unfold handleSessionRevoke, Revoke, revoke. always. Qed.
Lemma handleAdminGetUser_answers r : settles (handleAdminGetUser r).
Proof. unfold handleAdminGetUser. always. Qed.
Lemma handleAdminRevokeUserSessions_answers r : settles (handleAdminRevokeUserSessions cfg r).
Proof. unfold handleAdminRevokeUserSessions, RevokeAllForUser, revokeAllForUser. always. Qed.
Lemma handleAdminSetUserDisabled_answers r : settles (handleAdminSetUserDisabled cfg r).
Proof. unfold handleAdminSetUserDisabled. always. Qed.
Lemma calm_RecordProviderEvent i m t a : calm (RecordProviderEvent i m t a).
Proof. apply calm_sees. unfold RecordProviderEvent, reduceEvent. solve_preserves. Qed.
#[local] Hint Resolve calm_RecordProviderEvent : answer.
Lemma handleResendWebhook_answers r : settles (handleResendWebhook cfg r).
Proof. unfold handleResendWebhook, record_event. always. Qed.
End service_handlers.
#[export] Hint Resolve handleLoginPage_answers handleResetRequestPage_answers handleResetConfirmPage_answers
  handlePasswordLogin_answers handleSignup_answers handleLogout_answers handleResetRequest_answers
  handleResetConfirm_answers handleVerify_answers handleMagicLinkRequest_answers
  handleMagicLinkConfirm_answers handleOAuthStart_answers handleOAuthCallback_answers
  requireBearer_answers handleIntrospect_answers handleSessionRevoke_answers handleAdminGetUser_answers
  handleAdminRevokeUserSessions_answers handleAdminSetUserDisabled_answers handleResendWebhook_answers : answer.

(** ** No handler leaves a transaction open *)
Lemma HashPassword_closes `{PasswordLib} pw : preserves closes (HashPassword pw).
Proof. apply sees_closes. intros o w. apply HashPassword_keeps_world. Qed.
#[export] Hint Resolve HashPassword_closes PasswordCredential_closes UpsertByOAuth_closes : preserves.
#[export] Hint Extern 1 (preserves closes (mret _)) => by intros ?? : preserves.

Section tidy.
Context `{Postgres} `{PasswordLib} (cfg : Config) (kr : Keyring) (providers : Registry).
Lemma GenerateToken_closes : preserves closes GenerateToken.
Proof. apply sees_closes. by intros o w. Qed.
Lemma UUIDv7_closes : preserves closes UUIDv7.
Proof. apply sees_closes. by intros o w. Qed.
Lemma Exchange_closes p code v : preserves closes (Exchange p code v).
Proof. apply sees_closes, Exchange_tx. Qed.
Lemma GenerateOAuthState_closes : preserves closes GenerateOAuthState.
Proof. apply sees_closes. by intros o w. Qed.
Lemma NewPKCE_closes : preserves closes NewPKCE.
Proof. apply sees_closes. by intros o w. Qed.
#[local] Hint Resolve GenerateToken_closes UUIDv7_closes Exchange_closes GenerateOAuthState_closes
  NewPKCE_closes : preserves.
Definition tidy (h : request → M unit) : Prop := ∀ r, preserves closes (h r).
Lemma enduser_pages_tidy :
  tidy (handleLoginPage cfg providers) ∧ tidy (handleResetRequestPage cfg) ∧ tidy (handleResetConfirmPage cfg)
  ∧ tidy (handleOAuthStart cfg providers).
Proof.
  split_and!; intros r; apply responds_closes.
  - unfold handleLoginPage, captureRedirect, setTransientTTL. solve_responds.
  - unfold handleResetRequestPage. solve_responds.
  - unfold handleResetConfirmPage. solve_responds.
  - unfold handleOAuthStart, setTransient, setTransientTTL, captureRedirect, GenerateOAuthState, NewPKCE, rand_bytes.
    solve_responds.
Qed.
Lemma finishLogin_closes r c : preserves closes (finishLogin cfg r c).
Proof. apply responds_closes, finishLogin_responds. Qed.
Lemma login_failed_closes r a e reason : preserves closes (login_failed cfg r a e reason).
Proof. unfold login_failed, bad_credentials. solve_preserves. Qed.
Lemma rehash_closes u pw : preserves closes (rehash u pw).
Proof. unfold rehash, SetPassword, setPassword. solve_preserves. Qed.
#[local] Hint Resolve finishLogin_closes login_failed_closes rehash_closes : preserves.
Lemma start_password_session_closes r u : preserves closes (start_password_session cfg r u).
Proof. unfold start_password_session. solve_preserves. Qed.
#[local] Hint Resolve start_password_session_closes : preserves.
Lemma password_checked_closes r e pw c : preserves closes (password_checked cfg r e pw c).
Proof. unfold password_checked. solve_preserves. Qed.
#[local] Hint Resolve password_checked_closes : preserves.
Lemma handlePasswordLogin_tidy : tidy (handlePasswordLogin cfg).
Proof. intros r. unfold handlePasswordLogin. solve_preserves. Qed.
Lemma handleSignup_tidy : tidy (handleSignup cfg kr).
Proof. intros r. unfold handleSignup. solve_preserves. Qed.
Lemma handleLogout_tidy : tidy (handleLogout cfg).
Proof. intros r. unfold handleLogout, finish_logout, clearSessionCookie. solve_preserves. Qed.
Lemma ByEmail_closes e : preserves closes (ByEmail e).
Proof. unfold ByEmail. auto with preserves. Qed.
Lemma send_link_closes r u e p path subj ev : preserves closes (send_link cfg kr r u e p path subj ev).
Proof. unfold send_link. solve_preserves. Qed.
#[local] Hint Resolve ByEmail_closes send_link_closes : preserves.
Lemma handleResetRequest_tidy : tidy (handleResetRequest cfg kr).
Proof. intros r. unfold handleResetRequest. solve_preserves. Qed.
Lemma handleResetConfirm_tidy : tidy (handleResetConfirm cfg).
Proof. intros r. unfold handleResetConfirm, reset_done. solve_preserves. Qed.
Lemma handleVerify_tidy : tidy (handleVerify cfg).
Proof. intros r. unfold handleVerify, Consume, consume, MarkEmailVerified, markEmailVerified. solve_preserves. Qed.
Lemma handleMagicLinkRequest_tidy : tidy (handleMagicLinkRequest cfg kr).
Proof. intros r. unfold handleMagicLinkRequest. solve_preserves. Qed.
Lemma handleMagicLinkConfirm_tidy : tidy (handleMagicLinkConfirm cfg).
Proof. intros r. unfold handleMagicLinkConfirm. solve_preserves. Qed.
Lemma oauthFail_closes r c m : preserves closes (oauthFail cfg r c m).
Proof. apply responds_closes, oauthFail_responds. Qed.
#[local] Hint Resolve oauthFail_closes : preserves.
Lemma oauth_login_closes r n p : preserves closes (oauth_login cfg r n p).
Proof. unfold oauth_login. solve_preserves. Qed.
#[local] Hint Resolve oauth_login_closes : preserves.
Lemma handleOAuthCallback_tidy : tidy (handleOAuthCallback cfg providers).
Proof. intros r. unfold handleOAuthCallback, clearTransient. solve_preserves. Qed.

Lemma Validate_closes sc tok : preserves closes (Validate sc tok).
Proof. unfold Validate. solve_preserves. Qed.
#[local] Hint Resolve Validate_closes : preserves.
Lemma handleIntrospect_tidy : tidy (handleIntrospect cfg).
Proof. intros r. unfold handleIntrospect. solve_preserves. Qed.
Lemma handleSessionRevoke_tidy : tidy (handleSessionRevoke cfg).
Proof. intros r. unfold handleSessionRevoke, Revoke, revoke. solve_preserves. Qed.
Lemma admin_tidy :
  tidy handleAdminGetUser ∧ tidy (handleAdminRevokeUserSessions cfg) ∧ tidy (handleAdminSetUserDisabled cfg).
Proof.
  split_and!; intros r.
  - unfold handleAdminGetUser, ByID. solve_preserves.
  - unfold handleAdminRevokeUserSessions, RevokeAllForUser, revokeAllForUser. solve_preserves.
  - unfold handleAdminSetUserDisabled, ByID. solve_preserves.
Qed.
Lemma requireBearer_tidy secret unset wrong h : tidy h → tidy (requireBearer secret unset wrong h).
Proof. intros Hh r. specialize (Hh r). unfold requireBearer. solve_preserves. Qed.
Lemma handleResendWebhook_tidy : tidy (handleResendWebhook cfg).
Proof. intros r. unfold handleResendWebhook, record_event, RecordProviderEvent, reduceEvent, time_Now. solve_preserves. Qed.
End tidy.
