(* ===== verification/Server.v ===== *)
(** * Server: src/internal/http/server.go and the routes of the other files

    What [NewServer] builds, the route table, the operational and discovery
    endpoints, the middleware chain, and [ServeHTTP] from the escaped path to
    the response.  The log lines are not modelled. *)

From S2P Require Import Prelude GoLib GoUnicode GoHash GoNet GoUrl GoMux GoJson Schema World Logic Crypto Users Session RateLimit Tokens AuditLog Keyring Outbox OAuth Config ConfigLoad Ui Http Documents Descriptor Webhook Service EndUser Flows Answer.

(** ** Content-Security-Policy *)
Definition extend_csp (directive origin : string) : string :=
  if str_eqb origin "" then directive else directive +:+ " " +:+ origin.
Definition buildCSP (cfg : Config) : string :=
  "default-src 'self'; " +:+ extend_csp "style-src 'self'" (ThemeCSSURL cfg) +:+ "; "
  +:+ extend_csp "img-src 'self' data:" (Origin (LogoURL (Brand cfg))) +:+ "; "
  +:+ extend_csp "font-src 'self'" (Origin (FontURL (Brand cfg)))
  +:+ "; form-action 'self'; frame-ancestors 'none'".

(** ** Request identifiers *)
Definition requestIDHeader : string := "X-Request-Id".
Definition request_id_byte (c : ascii) : bool := let n := N_of_ascii c in ((33 <=? n) && (n <=? 126))%N.
Definition validRequestID (raw : string) : string :=
  let raw := TrimSpace raw in
  if str_eqb raw "" || (128 <? String.length raw)%nat then ""
  else if str_forallb request_id_byte raw then raw else "".
(** [crypto/rand.Read] does not fail: the fallback is dead code. *)
Definition newRequestID : M string := b ← rand_bytes 8; mret (hex_encode b).

Definition statusClass (status : Z) : string :=
  if (200 <=? status) && (status <? 300) then "2xx"
  else if (300 <=? status) && (status <? 400) then "3xx"
  else if (400 <=? status) && (status <? 500) then "4xx"
  else if (500 <=? status) && (status <? 600) then "5xx" else "other".

(** ** The body limit *)
Definition maxBodyBytes : nat := 64 * 1024.
(** [mime.ParseMediaType] as far as [ParseForm] needs it: the type before
    the parameters, without case; none is octets. *)
Definition media_type (r : request) : string :=
  lower_ascii (TrimSpace (fst (fst (Cut (HeaderGet r "Content-Type") ";"%char)))).
Definition form_body (r : request) : bool :=
  str_eqb (media_type r) "application/x-www-form-urlencoded" && existsb (str_eqb (r_method r)) ["POST"; "PUT"; "PATCH"].
(** Reading past the cap fails: the form is what the query holds. *)
Definition limitBody (r : request) : request :=
  match r_body r with
  | Some b =>
      if (String.length b <=? maxBodyBytes)%nat then r
      else r <| r_body := None |> <| r_form := r_query r |>
             <| r_form_error := r_form_error r || form_body r |>
  | None => r
  end.

(** ** The server *)
Record Server := MkServer {
  s_cfg : Config;
  s_keyring : Keyring;
  s_providers : Registry;
  s_csp : string;
  s_brandCSS : option string;
  s_descriptor : json;
  s_openAPI : string
}.

Section server.
Context `{Postgres} `{PasswordLib}.
(** The embedded stylesheet, what the metrics page shows, and the status
    ServeMux redirects with. *)
Context (themeCSS : string) (exposition : oracle → nat → string) (moved : Z).

(** *** Construction *)
Section construction.
Context (net : oracle → nat → out_request → option (Z * string)).
Context {ec_key : Type} (ecdsa_Sign : oracle → nat → ec_key → string → option (Z * Z)).
Context (parseECPrivateKey : string → option ec_key).

(** The providers with empty key caches, as they are at boot. *)
Definition provider_client (p : OAuthProviderConfig) : client :=
  MkClient (pc_ClientID p) (pc_ClientSecret p) (pc_RedirectURI p).
Definition add_if (enabled : bool) (name : string) (p : Provider) (reg : Registry) : Registry :=
  if enabled then <[name := p]> reg else reg.
Definition buildProviders (cfg : Config) : res err Registry :=
  let reg := add_if (provider_Enabled (Google cfg)) "google"
    (google_provider net (provider_client (Google cfg)) (newJWKSCache googleJWKSURL)) ∅ in
  let reg := add_if (provider_Enabled (GitHub cfg)) "github" (github_provider net (provider_client (GitHub cfg))) reg in
  let a := Config.Apple cfg in
  if apple_Enabled a then
    match parseECPrivateKey (ap_PrivateKey a) with
    | None => Err (EOther "apple: parse private key")
    | Some key => Ok (<["apple" := apple_provider net ecdsa_Sign
        (MkApple (ap_ClientID a) (ap_TeamID a) (ap_KeyID a) key (ap_RedirectURI a)) (newJWKSCache appleJWKSURL)]> reg)
    end
  else Ok reg.
Definition buildOutboxKeyring (cfg : Config) : M (res keyring_error Keyring) :=
  if str_eqb (EmailOutboxKeys cfg) "" then k ← NewEphemeralKeyring; mret (Ok k)
  else mret (ParseKeyring (EmailOutboxKeys cfg)).

(** [sesamo describe]: the document, indentation apart. *)
Definition DescribeJSON (cfg : Config) : res err json :=
  match buildProviders cfg with
  | Err e => Err e
  | Ok providers => Ok (descriptor_json (buildDescriptor cfg (Names providers)))
  end.
Definition NewServer (cfg : Config) : M (res err Server) :=
  match buildProviders cfg with
  | Err e => mret (Err e)
  | Ok providers =>
      k ← buildOutboxKeyring cfg;
      mret (match k with
            | Err _ => Err (EOther "email outbox keyring")
            | Ok kr => Ok (MkServer cfg kr providers (buildCSP cfg) (BrandCSS (Brand cfg))
                (descriptor_json (buildDescriptor cfg (Names providers)))
                (openAPIDocument (Version cfg)))
            end)
  end.
End construction.

(** *** Small endpoints *)
Definition http_Error (msg : string) (code : Z) : M unit :=
  _ ← setHeader "Content-Type" "text/plain; charset=utf-8";
  _ ← setHeader "X-Content-Type-Options" "nosniff";
  _ ← WriteHeader code;
  Write (BText (msg +:+ newline)).
Definition http_NotFound : M unit := http_Error "404 page not found" 404.
Definition static_text (ct cache : string) (text : string) : M unit :=
  _ ← setHeader "Content-Type" ct;
  _ ← setHeader "Cache-Control" cache;
  Write (BText text).
(** The embedded stylesheet is always readable. *)
Definition handleThemeCSS (_ : request) : M unit :=
  static_text "text/css; charset=utf-8" "public, max-age=3600" themeCSS.
Definition handleBrandCSS (srv : Server) (_ : request) : M unit :=
  match s_brandCSS srv with
  | Some css =>
      if str_eqb css "" then http_NotFound
      else static_text "text/css; charset=utf-8" "public, max-age=3600" css
  | None => http_NotFound
  end.
Definition get_descriptor (srv : Server) (_ : request) : M unit :=
  _ ← setHeader "Cache-Control" "public, max-age=300";
  writeJSON 200 (s_descriptor srv).
Definition get_openapi (srv : Server) (_ : request) : M unit :=
  static_text "application/json; charset=utf-8" "public, max-age=300" (s_openAPI srv).
Definition get_llms (_ : request) : M unit :=
  static_text "text/plain; charset=utf-8" "public, max-age=300" llmsTxt.

Definition pool_Ping : M (res err unit) :=
  tick (λ o i, match o_outcome o i with Applied => Ok tt | _ => Err EDb end).
Definition get_healthz (_ : request) : M unit := _ ← WriteHeader 200; Write (BText "ok").
Definition get_readyz (_ : request) : M unit :=
  p ← pool_Ping;
  match p with
  | Err _ => _ ← WriteHeader 503; Write (BText "db unavailable")
  | Ok _ => _ ← WriteHeader 200; Write (BText "ready")
  end.
Definition get_metrics (_ : request) : M unit :=
  _ ← setHeader "Content-Type" "text/plain; version=0.0.4; charset=utf-8";
  text ← tick exposition;
  Write (BText text).

(** *** The route table *)
Definition handler : Type := request → M unit.
Definition registerOps : list (route handler) :=
  [MkRoute "GET" "/healthz" get_healthz;
   MkRoute "GET" "/readyz" get_readyz;
   MkRoute "GET" "/metrics" get_metrics].
Definition registerEndUser (srv : Server) : list (route handler) :=
  let cfg := s_cfg srv in let kr := s_keyring srv in let ps := s_providers srv in
  [MkRoute "GET" "/login" (handleLoginPage cfg ps);
   MkRoute "GET" "/ui/theme.css" handleThemeCSS;
   MkRoute "GET" "/ui/brand.css" (handleBrandCSS srv);
   MkRoute "POST" "/login" (handlePasswordLogin cfg);
   MkRoute "POST" "/signup" (handleSignup cfg kr);
   MkRoute "POST" "/logout" (handleLogout cfg);
   MkRoute "GET" "/auth/{provider}" (handleOAuthStart cfg ps);
   MkRoute "GET" "/auth/{provider}/callback" (handleOAuthCallback cfg ps);
   MkRoute "GET" "/reset" (handleResetRequestPage cfg);
   MkRoute "POST" "/reset" (handleResetRequest cfg kr);
   MkRoute "GET" "/reset/confirm" (handleResetConfirmPage cfg);
   MkRoute "POST" "/reset/confirm" (handleResetConfirm cfg);
   MkRoute "GET" "/verify" (handleVerify cfg);
   MkRoute "POST" "/magiclink" (handleMagicLinkRequest cfg kr);
   MkRoute "GET" "/magiclink/confirm" (handleMagicLinkConfirm cfg)].
Definition registerService (srv : Server) : list (route handler) :=
  [MkRoute "POST" "/v1/introspect" (post_introspect (s_cfg srv));
   MkRoute "POST" "/v1/sessions/revoke" (post_sessions_revoke (s_cfg srv))].
Definition registerAdmin (srv : Server) : list (route handler) :=
  [MkRoute "GET" "/v1/admin/users/{id}" (get_admin_user (s_cfg srv));
   MkRoute "POST" "/v1/admin/users/{id}/revoke-sessions" (post_admin_revoke_sessions (s_cfg srv));
   MkRoute "POST" "/v1/admin/users/{id}/disable" (post_admin_disable (s_cfg srv))].
Definition registerWebhooks (srv : Server) : list (route handler) :=
  [MkRoute "POST" "/v1/webhooks/resend" (handleResendWebhook (s_cfg srv))].
Definition registerDescriptor (srv : Server) : list (route handler) :=
  [MkRoute "GET" "/.well-known/sesamo" (get_descriptor srv);
   MkRoute "GET" "/openapi.json" (get_openapi srv);
   MkRoute "GET" "/llms.txt" get_llms].
Definition routes (srv : Server) : list (route handler) :=
  registerOps ++ registerEndUser srv ++ registerService srv ++ registerAdmin srv
  ++ registerWebhooks srv ++ registerDescriptor srv.

(** ServeMux, for a request with this escaped path and raw query. *)
Definition mux_serve (srv : Server) (escaped rawquery : string) (r : request) : M unit :=
  match mux_find (routes srv) (r_method r) escaped rawquery with
  | MuxMoved url => http_Redirect r url moved
  | MuxServe h vals => h (r <| r_path_values := vals |>)
  | MuxNotAllowed ms => _ ← setHeader "Allow" (Join ms ", "); http_Error "Method Not Allowed" 405
  | MuxNotFound => http_NotFound
  end.

(** *** The middleware, innermost last *)
Definition withBodyLimit (next : handler) : handler := λ r, next (limitBody r).
Definition metricHTTPRequests : string := "sesamo_http_requests_total".
Definition count_request : M unit := λ o w,
  (_ ← IncCounter metricHTTPRequests;
   IncCounter (metricHTTPRequests +:+ "_" +:+ statusClass (default 200 (rs_status (w_resp w))))) o w.
Definition withLogging (next : handler) : handler := λ r, _ ← next r; count_request.
Definition withRequestID (next : handler) : handler := λ r,
  id ← (let id := validRequestID (HeaderGet r requestIDHeader) in
        if str_eqb id "" then newRequestID else mret id);
  _ ← setHeader requestIDHeader id;
  next r.
Definition withSecurityHeaders (srv : Server) (next : handler) : handler := λ r,
  _ ← setHeader "X-Content-Type-Options" "nosniff";
  _ ← setHeader "X-Frame-Options" "DENY";
  _ ← setHeader "Referrer-Policy" "strict-origin-when-cross-origin";
  _ ← setHeader "Content-Security-Policy" (s_csp srv);
  _ ← (if CookieSecure (s_cfg srv)
       then setHeader "Strict-Transport-Security" "max-age=31536000; includeSubDomains" else mret tt);
  next r.
(** [withRecover] is at the point of the only panic ([recovered]). *)
Definition ServeHTTP (srv : Server) (escaped rawquery : string) : handler :=
  withSecurityHeaders srv (withRequestID (withLogging (withBodyLimit (mux_serve srv escaped rawquery)))).
End server.

(** ** Small endpoints answer *)
Lemma http_Error_answers msg code : real_status code → settles (http_Error msg code).
Proof. intros Hc. unfold http_Error. always. Qed.
Lemma static_text_answers ct cache text : settles (static_text ct cache text).
Proof. unfold static_text. always. Qed.
#[export] Hint Resolve http_Error_answers static_text_answers : answer.
Lemma http_Error_responds msg code : responds (http_Error msg code).
Proof. unfold http_Error. solve_responds. Qed.
Lemma static_text_responds ct cache text : responds (static_text ct cache text).
Proof. unfold static_text. solve_responds. Qed.
#[export] Hint Resolve http_Error_responds static_text_responds : responds.

Section table.
Context `{Postgres} `{PasswordLib} (themeCSS : string) (exposition : oracle → nat → string).
Context (srv : Server).
Abbreviation table := (routes themeCSS exposition srv).

(** No two routes serve the same request: their order does not matter. *)
Lemma routes_unambiguous : unambiguous table = true.
Proof. reflexivity. Qed.

Lemma small_answer r :
  settles (get_healthz r) ∧ settles (get_readyz r) ∧ settles (get_metrics exposition r)
  ∧ settles (handleThemeCSS themeCSS r) ∧ settles (handleBrandCSS srv r) ∧ settles (get_descriptor srv r)
  ∧ settles (get_openapi srv r) ∧ settles (get_llms r).
Proof.
  unfold get_healthz, get_readyz, pool_Ping, get_metrics, handleThemeCSS, handleBrandCSS, http_NotFound,
    get_descriptor, get_openapi, get_llms.
  split_and!; always.
Qed.
Lemma small_tidy r :
  responds (get_healthz r) ∧ responds (get_readyz r) ∧ responds (get_metrics exposition r)
  ∧ responds (handleThemeCSS themeCSS r) ∧ responds (handleBrandCSS srv r) ∧ responds (get_descriptor srv r)
  ∧ responds (get_openapi srv r) ∧ responds (get_llms r).
Proof.
  unfold get_healthz, get_readyz, pool_Ping, get_metrics, handleThemeCSS, handleBrandCSS, http_NotFound,
    get_descriptor, get_openapi, get_llms.
  split_and!; solve_responds.
Qed.

Lemma guarded_answer secret unset wrong h r :
  (∀ r, settles (h r)) → settles (requireBearer secret unset wrong h r).
Proof. intros Hh. by apply requireBearer_answers. Qed.

Lemma routes_answer rt r : rt ∈ table → settles (rt_handler rt r) ∧ preserves closes (rt_handler rt r).
Proof.
  pose proof (enduser_pages_tidy (s_cfg srv) (s_providers srv)) as (Hp1 & Hp2 & Hp3 & Hp4).
  pose proof (admin_tidy (s_cfg srv)) as (Ha1 & Ha2 & Ha3).
  pose proof (small_answer r) as (? & ? & ? & ? & ? & ? & ? & ?).
  pose proof (small_tidy r) as (? & ? & ? & ? & ? & ? & ? & ?).
  intros Hin. unfold routes in Hin. cbn in Hin.
  repeat (apply elem_of_cons in Hin as [->|Hin]); [..|by apply elem_of_nil in Hin]; cbn [rt_handler].
  all: split.
  all: first
    [ assumption | solve [auto with answer] | solve [by apply responds_closes]
    | solve [apply requireBearer_answers; auto with answer]
    | solve [apply requireBearer_tidy; auto using handleIntrospect_tidy, handleSessionRevoke_tidy]
    | apply Hp1 | apply Hp2 | apply Hp3 | apply Hp4
    | apply handlePasswordLogin_tidy | apply handleSignup_tidy | apply handleLogout_tidy
    | apply handleOAuthCallback_tidy | apply handleResetRequest_tidy | apply handleResetConfirm_tidy
    | apply handleVerify_tidy | apply handleMagicLinkRequest_tidy | apply handleMagicLinkConfirm_tidy
    | apply handleResendWebhook_tidy ].
Qed.

Lemma find_route_in method path h vals :
  find_route table method path = Some (h, vals) → ∃ rt, rt ∈ table ∧ rt_handler rt = h.
Proof.
  unfold find_route. destruct (find_exact table method path) as [[h' v']|] eqn:E.
  - intros [= <- <-]. apply find_exact_in in E as (rt & Hin & _ & Hh & _). eauto.
  - destruct (str_eqb method "HEAD"); [|done]. intros E'. apply find_exact_in in E' as (rt & Hin & _ & Hh & _). eauto.
Qed.
Lemma mux_find_in method path rawq h vals :
  mux_find table method path rawq = MuxServe h vals → ∃ rt, rt ∈ table ∧ rt_handler rt = h.
Proof.
  unfold mux_find. destruct (negb _ && _); [done|].
  destruct (find_route _ _ _) as [[h' v']|] eqn:EF; [|by destruct (matching_methods _ _)].
  intros [= -> ->]. by eapply find_route_in.
Qed.
Lemma mux_serve_answers moved escaped rawq r :
  real_status moved →
  settles (mux_serve themeCSS exposition moved srv escaped rawq r)
  ∧ preserves closes (mux_serve themeCSS exposition moved srv escaped rawq r).
Proof.
  intros Hm. unfold mux_serve. destruct (mux_find _ _ _ _) as [url|h vals|ms|] eqn:E.
  - split; [always|]. apply responds_closes. auto with responds.
  - apply mux_find_in in E as (rt & Hin & <-). by apply routes_answer.
  - split; [always|]. apply responds_closes. solve_responds.
  - unfold http_NotFound. split; [auto with answer|]. apply responds_closes. auto with responds.
Qed.
End table.

(** ** The middleware *)
Lemma hex_digits_graphic c :
  let n := N_of_ascii c in
  request_id_byte (hex_digit (N.shiftr n 4)) && request_id_byte (hex_digit (N.land n 15)) = true.
Proof. destruct c as [[] [] [] [] [] [] [] []]; reflexivity. Qed.
Lemma hex_request_id s : str_forallb request_id_byte (hex_encode s) = true.
Proof.
  induction s as [|c s IH]; [done|]. cbn [hex_encode str_forallb]. rewrite IH, andb_true_r. apply hex_digits_graphic.
Qed.
Lemma length_string_of_list l : String.length (String.string_of_list_ascii l) = length l.
Proof. induction l as [|c l IH]; [done|]. cbn. by rewrite IH. Qed.

(** An identifier fit for a header and a log line. *)
Definition request_id_ok (id : string) : Prop :=
  str_forallb request_id_byte id = true ∧ (1 ≤ String.length id ≤ 128)%nat.
Lemma validRequestID_ok raw : validRequestID raw ≠ "" → request_id_ok (validRequestID raw).
Proof.
  unfold validRequestID. destruct (str_eqb (TrimSpace raw) "" || _) eqn:E; [done|].
  apply orb_false_iff in E as [E1%str_eqb_false E2%Nat.ltb_ge].
  destruct (str_forallb request_id_byte (TrimSpace raw)) eqn:Ef; [|done]. intros _. split; [done|].
  destruct (TrimSpace raw); [done|]. cbn in *. lia.
Qed.
Lemma newRequestID_ok o w : request_id_ok (fst (newRequestID o w)).
Proof.
  unfold newRequestID, rand_bytes. rewrite bind_run, ret_run. cbn [fst]. split; [apply hex_request_id|].
  unfold tick. cbn [fst]. rewrite hex_encode_length, length_string_of_list, length_map, length_seq. lia.
Qed.

(** The middleware's headers, in the order of [middleware_headers]. *)
Definition stamp (srv : Server) (id : string) : list string :=
  ["nosniff"; "DENY"; "strict-origin-when-cross-origin"; s_csp srv;
   if CookieSecure (s_cfg srv) then "max-age=31536000; includeSubDomains" else ""; id].

Section serve.
Context `{Postgres} `{PasswordLib} (themeCSS : string) (exposition : oracle → nat → string) (moved : Z).
Context (srv : Server) (escaped rawquery : string).

Lemma middleware_runs (next : handler) r o w :
  w_resp w = no_response →
  ∃ id w1, withSecurityHeaders srv (withRequestID next) r o w = next r o w1
    ∧ rs_status (w_resp w1) = None ∧ middleware_values w1 = stamp srv id ∧ w_tx w1 = w_tx w ∧ w_db w1 = w_db w
    ∧ request_id_ok id
    ∧ (validRequestID (HeaderGet r requestIDHeader) ≠ "" → id = validRequestID (HeaderGet r requestIDHeader)).
Proof.
  intros Hw. unfold withSecurityHeaders, withRequestID.
  destruct w as [d t i rs m]. cbn in Hw. subst rs.
  set (id := validRequestID (HeaderGet r requestIDHeader)).
  destruct (CookieSecure (s_cfg srv)) eqn:Ec; destruct (str_eqb id "") eqn:Ei;
    rewrite ?bind_run; unfold setHeader, update_response; rewrite ?ret_run; cbn [fst snd].
  all: eexists _, _; split_and!; [reflexivity|..].
  all: try (unfold stamp; rewrite Ec).
  all: try reflexivity.
  all: try (apply str_eqb_true in Ei; by rewrite Ei).
  all: try apply newRequestID_ok.
  all: try (apply str_eqb_false in Ei; by apply validRequestID_ok).
Qed.

(** C24. Every request is answered, whatever it is and whatever the database
    and the providers do: exactly one status is sent and it is a real one, no
    transaction stays open, and the response carries the security headers, the
    content policy of the deployment, HSTS when cookies are secure, and a
    request identifier that is a short printable token, the caller's own when
    that one is acceptable. *)
Theorem every_request_answered r o w :
  real_status moved → w_resp w = no_response → w_tx w = None →
  let w' := snd (ServeHTTP themeCSS exposition moved srv escaped rawquery r o w) in
  (∃ st, rs_status (w_resp w') = Some st ∧ real_status st)
  ∧ w_tx w' = None
  ∧ ∃ id, middleware_values w' = stamp srv id ∧ request_id_ok id
      ∧ (validRequestID (HeaderGet r requestIDHeader) ≠ "" → id = validRequestID (HeaderGet r requestIDHeader)).
Proof.
  intros Hm Hw Ht w'. subst w'. unfold ServeHTTP.
  destruct (middleware_runs (withLogging (withBodyLimit
    (mux_serve themeCSS exposition moved srv escaped rawquery))) r o w Hw)
    as (id & w1 & -> & Hs & Hv & Ht1 & _ & Hid & Hcaller).
  unfold withLogging, withBodyLimit. rewrite bind_run.
  destruct (mux_serve_answers themeCSS exposition srv moved escaped rawquery (limitBody r) Hm)
    as [[Hcalm Hconc] Hclose].
  set (w2 := snd (mux_serve _ _ _ _ _ _ _ o w1)).
  assert (Hcount : ∀ w, sees w_resp w (snd (count_request o w)) ∧ sees w_tx w (snd (count_request o w)))
    by done.
  destruct (Hcount w2) as [Hr2 Ht2]. unfold sees in *.
  split_and!.
  - rewrite Hr2. apply (Hconc o w1); [|done]. intros st. by rewrite Hs.
  - rewrite Ht2. apply Hclose. by rewrite Ht1.
  - exists id. split_and!; [|done|done]. unfold middleware_values. rewrite Hr2.
    destruct (Hcalm o w1) as (_ & _ & Hk). by apply Hk.
Qed.
End serve.

(** ** The descriptor and the table *)

(** The credential a described endpoint names is the guard its route has. *)
Definition guarded_as `{Postgres} (cfg : Config) (auth : string) (h : handler) : Prop :=
  (auth = authServiceToken → ∃ next, h = requireServiceToken cfg next)
  ∧ (auth = authAdminKey → ∃ next, h = requireAdminKey cfg next)
  ∧ (auth = authSvixSignature → h = handleResendWebhook cfg).
Definition described {H} (rt : route H) : Prop :=
  ∃ name e, (name, e) ∈ endpoints ∧ ep_method e = rt_method rt ∧ ep_path e = rt_pattern rt.

(** The descriptor cannot drift from the code: every endpoint it
    publishes is a registered route of that method and pattern, behind the
    guard it names, and every registered route is published but the two
    stylesheets and the verification link. *)
Theorem descriptor_matches_routes `{Postgres} `{PasswordLib} css exposition srv :
  (∀ name e, (name, e) ∈ endpoints →
     ∃ rt, rt ∈ routes css exposition srv ∧ rt_method rt = ep_method e ∧ rt_pattern rt = ep_path e
       ∧ guarded_as (s_cfg srv) (ep_auth e) (rt_handler rt))
  ∧ (∀ rt, rt ∈ routes css exposition srv →
     described rt ∨ rt_pattern rt ∈ ["/ui/theme.css"; "/ui/brand.css"; "/verify"]).
Proof.
  split.
  - assert (Hf : Forall (λ ne : string * descriptorEndpoint,
      Exists (λ rt, rt_method rt = ep_method (snd ne) ∧ rt_pattern rt = ep_path (snd ne)
        ∧ guarded_as (s_cfg srv) (ep_auth (snd ne)) (rt_handler rt)) (routes css exposition srv)) endpoints).
    { unfold endpoints, routes.
      repeat (apply Forall_cons; split); [..|by apply Forall_nil];
        cbn [registerOps registerEndUser registerService registerAdmin registerWebhooks registerDescriptor app fst snd];
        repeat first
          [ apply Exists_cons_hd; split; [reflexivity|]; split; [reflexivity|];
            split_and!; solve [by intros [=]|intros _; eexists; reflexivity|intros _; reflexivity]
          | apply Exists_cons_tl ]. }
    intros name e Hin. rewrite Forall_forall in Hf. specialize (Hf _ Hin). by apply Exists_exists in Hf.
  - assert (Hf : Forall (λ rt : route handler,
      Exists (λ ne : string * descriptorEndpoint, ep_method (snd ne) = rt_method rt ∧ ep_path (snd ne) = rt_pattern rt) endpoints
      ∨ rt_pattern rt ∈ ["/ui/theme.css"; "/ui/brand.css"; "/verify"]) (routes css exposition srv)).
    { unfold routes.
      repeat (apply Forall_cons; split); [..|by apply Forall_nil]; cbn [rt_method rt_pattern];
        first
          [ left; unfold endpoints;
            repeat first [ apply Exists_cons_hd; split; reflexivity | apply Exists_cons_tl ]; fail
          | right; set_solver ]. }
    intros rt Hin. rewrite Forall_forall in Hf. destruct (Hf rt Hin) as [He|]; [left|by right].
    apply Exists_exists in He as ([name e] & He & Hm & Hp). by exists name, e.
Qed.

(** What [sesamo describe] prints is what the server it describes serves, and
    it fails only where the server would not start. *)
Lemma describe_matches_server {ec_key} net sign (parse : string → option ec_key) cfg o w :
  match fst (NewServer net sign parse cfg o w) with
  | Ok srv => DescribeJSON net sign parse cfg = Ok (s_descriptor srv)
  | Err e => DescribeJSON net sign parse cfg = Err e ∨ e = EOther "email outbox keyring"
  end.
Proof.
  unfold NewServer, DescribeJSON. destruct (buildProviders net sign parse cfg) as [providers|e]; [|by left].
  rewrite bind_run, ret_run. cbn [fst].
  destruct (fst (buildOutboxKeyring cfg o w)) as [kr|e]; [done|by right].
Qed.

(** ** Concrete requests *)
Definition toy_server : Server :=
  MkServer toy_config toy_keyring toy_providers (buildCSP toy_config) (BrandCSS (Brand toy_config))
    (descriptor_json (buildDescriptor toy_config (Names toy_providers))) "{}".
Definition toy_get (path : string) : request :=
  MkRequest "GET" path [] [] false [("X-Request-Id", " trace-1 ")] [] "10.0.0.1:5000" [] None.
Definition toy_serve (r : request) (escaped : string) : world :=
  snd (ServeHTTP "css" (λ _ _, "") 301 toy_server escaped "" r (oracle_at 5) (world_of toy_accounts)).
Lemma every_request_answered_witness :
  ∃ id, middleware_values (toy_serve (toy_get "/login") "/login") = stamp toy_server id ∧ id = "trace-1".
Proof.
  assert (Hm : real_status 301) by (unfold real_status; lia).
  destruct (every_request_answered "css" (λ _ _, "") 301 toy_server "/login" "" (toy_get "/login")
    (oracle_at 5) (world_of toy_accounts) Hm eq_refl eq_refl) as (_ & _ & id & Hs & _ & Hid).
  exists id. split; [exact Hs|]. apply Hid. vm_compute. discriminate.
Defined.

Example serve_login : rs_status (w_resp (toy_serve (toy_get "/login") "/login")) = Some 200.
Proof. vm_compute. reflexivity. Qed.
Example serve_wildcard :
  rs_status (w_resp (toy_serve (toy_get "/auth/google") "/auth/google")) = Some 302.
Proof. vm_compute. reflexivity. Qed.
Example serve_unclean :
  let rs := w_resp (toy_serve (toy_get "//login") "//login") in
  rs_status rs = Some 301 ∧ header_value (rs_headers rs) "Location" = "/login".
Proof. vm_compute. split; reflexivity. Qed.
Example serve_wrong_method :
  let rs := w_resp (toy_serve ((toy_get "/login") <| r_method := "DELETE" |>) "/login") in
  rs_status rs = Some 405 ∧ header_value (rs_headers rs) "Allow" = "GET, HEAD, POST".
Proof. vm_compute. split; reflexivity. Qed.
Example serve_unknown : rs_status (w_resp (toy_serve (toy_get "/nope") "/nope")) = Some 404.
Proof. vm_compute. reflexivity. Qed.

(** "*" and ";" are bytes of a host: a validated brand URL can widen the
    policy to every https origin, or add a directive of its own. *)
Example csp_wildcard :
  let b := MkBrand "https://*/logo.svg" "" "" "" in
  brand_validate b = Ok tt ∧ Contains (buildCSP (toy_config <| Brand := b |>)) "img-src 'self' data: https://*;" = true.
Proof. vm_compute. split; reflexivity. Qed.
Example csp_directive_added :
  let b := MkBrand "https://cdn.example;script-src/logo.svg" "" "" "" in
  brand_validate b = Ok tt ∧ Contains (buildCSP (toy_config <| Brand := b |>)) "; font-src" = true
  ∧ Contains (buildCSP (toy_config <| Brand := b |>)) "https://cdn.example;script-src;" = true.
Proof. vm_compute. split_and!; reflexivity. Qed.
