(* ===== verification/OpenApi.v ===== *)
(** * OpenApi: the OpenAPI document against the server

    The document is the template of src/internal/http/descriptor.go with the
    build version in place of the placeholder, whatever that version is; what
    it says of paths, methods, credentials and error codes is what the
    server of [Server] has. *)

From S2P Require Import Prelude GoLib GoUnicode GoNet GoMux GoJson GoText Schema World Crypto Users Config Http Documents Descriptor Webhook Service EndUser Server.

(** ** The document as a value *)
Definition members_of (v : jvalue) : list (string * jvalue) := match v with VObj l => l | _ => [] end.
Definition field (k : string) (v : jvalue) : jvalue :=
  default VNull (snd <$> List.find (λ kv, str_eqb (fst kv) k) (members_of v)).
Definition spec_json : jvalue := default VNull (json_parse openAPISpec).
(** What it says of each path and method, with the credentials it names. *)
Definition method_of (key : string) : string :=
  if str_eqb key "get" then "GET" else if str_eqb key "post" then "POST" else key.
Definition security (op : jvalue) : list string :=
  match field "security" op with VArr l => flat_map (λ v, map fst (members_of v)) l | _ => [] end.
Definition operations (doc : jvalue) : list (string * string * list string) :=
  flat_map (λ pv, map (λ mo, (method_of (fst mo), fst pv, security (snd mo))) (members_of (snd pv)))
    (members_of (field "paths" doc)).
Definition documented_codes (doc : jvalue) : jvalue :=
  foldl (λ v k, field k v) doc ["components"; "schemas"; "Error"; "properties"; "error"; "properties"; "code"; "enum"].

(** ** It parses, whatever the version *)
Definition before : string := str_take 75 openAPISpec.
Definition after : string := str_drop (75 + String.length openAPIVersionPlaceholder) openAPISpec.
Definition depth1 : nat := maxNestingDepth - 1.
Definition depth2 : nat := maxNestingDepth - 2.
Lemma depth_1 : maxNestingDepth = S depth1.
Proof. reflexivity. Qed.
Lemma depth_2 : depth1 = S depth2.
Proof. reflexivity. Qed.

Example before_text : before = quotes "{
  'openapi': '3.1.0',
  'info': {
    'title': 'Sésamo',
    'version': ".
Proof. vm_compute. reflexivity. Qed.
(** Long texts are compared by computing [String.eqb]. *)
Ltac same_text := apply String.eqb_eq; vm_compute; reflexivity.
Lemma spec_split : openAPISpec = before +:+ openAPIVersionPlaceholder +:+ after.
Proof. same_text. Qed.
Lemma replace_in_before new rest :
  replace_first (before +:+ openAPIVersionPlaceholder +:+ rest) openAPIVersionPlaceholder new = before +:+ new +:+ rest.
Proof. rewrite before_text. vm_compute. reflexivity. Qed.
Lemma document_text version : openAPIDocument version = before +:+ json_quote (doc_version version) +:+ after.
Proof. unfold openAPIDocument. rewrite spec_split at 1. apply replace_in_before. Qed.

(** What follows the version in its object, and what follows that object. *)
Definition info_rest : list (string * jvalue) := drop 2 (members_of (field "info" spec_json)).
Definition doc_rest : list (string * jvalue) := drop 2 (members_of spec_json).
Definition after_info : string := default "" (snd <$> object_body depth2 (skip_space (str_drop 1 after))).
Lemma parsed_pair {A} (o : option (A * string)) a : fst <$> o = Some a → o = Some (a, default "" (snd <$> o)).
Proof. destruct o as [[x r]|]; [by intros [= ->]|done]. Qed.
Lemma info_rest_parses : object_body depth2 (skip_space (str_drop 1 after)) = Some (info_rest, after_info).
Proof. apply parsed_pair. vm_compute. reflexivity. Qed.
Lemma doc_rest_parses : object_body depth1 (skip_space (str_drop 1 (skip_space after_info))) = Some (doc_rest, newline).
Proof. vm_compute. reflexivity. Qed.
Lemma after_comma : skip_space after = String ","%char (str_drop 1 after).
Proof. same_text. Qed.
Lemma after_info_comma : skip_space after_info = String ","%char (str_drop 1 (skip_space after_info)).
Proof. same_text. Qed.

(** The two objects the version sits in. *)
Lemma info_parses q t :
  (∀ rest, skip_space (q +:+ rest) = q +:+ rest) → (∀ fuel rest, parse_value fuel (q +:+ rest) = Some (VStr t, rest)) →
  object_body depth2 (quotes "'title': 'Sésamo',
    'version': " +:+ q +:+ after)
  = Some (("title", VStr "Sésamo") :: ("version", VStr t) :: info_rest, after_info).
Proof.
  intros Hs Hq. pose proof after_comma as Hc. pose proof info_rest_parses as Hr.
  generalize dependent after_info. generalize dependent info_rest. generalize dependent after.
  generalize depth2. intros d tl Hc l r Hr.
  eapply object_body_cons; [destruct d; vm_compute; reflexivity|].
  eapply object_body_cons; [|exact Hr].
  transitivity ('(v, r) ← parse_value d (skip_space (q +:+ tl)); Some ("version", v, skip_space r)); [reflexivity|].
  rewrite Hs, Hq. cbn. by rewrite Hc.
Qed.
Definition whole (t : string) : jvalue :=
  VObj (("openapi", VStr "3.1.0") :: ("info", VObj (("title", VStr "Sésamo") :: ("version", VStr t) :: info_rest)) :: doc_rest).
Lemma whole_parses q t :
  (∀ rest, skip_space (q +:+ rest) = q +:+ rest) → (∀ fuel rest, parse_value fuel (q +:+ rest) = Some (VStr t, rest)) →
  json_parse (before +:+ q +:+ after) = Some (whole t).
Proof.
  intros Hs Hq. pose proof (info_parses q t Hs Hq) as Hi. pose proof doc_rest_parses as Hd.
  pose proof after_info_comma as Hc. rewrite before_text. unfold json_parse, whole. rewrite depth_1.
  generalize dependent doc_rest. generalize dependent after_info. generalize dependent info_rest.
  generalize dependent after. revert Hs Hq. pose proof depth_2 as E. generalize dependent depth2.
  intros d2 E Hs Hq tl l s2 Hi Hc dr Hd.
  assert (Hp : parse_value (S depth1) (skip_space (quotes "{
  'openapi': '3.1.0',
  'info': {
    'title': 'Sésamo',
    'version': " +:+ q +:+ tl)) = Some (VObj (("openapi", VStr "3.1.0") ::
      ("info", VObj (("title", VStr "Sésamo") :: ("version", VStr t) :: l)) :: dr), newline)).
  { apply parse_object; [reflexivity|]. revert Hd. rewrite E. clear E. intros Hd.
    eapply object_body_cons; [reflexivity|].
    eapply object_body_cons; [|exact Hd].
    transitivity ('(v, r) ← parse_value (S d2) (String "{" (newline +:+ "    " +:+ quotes "'title': 'Sésamo',
    'version': " +:+ q +:+ tl)); Some ("info", v, skip_space r)); [reflexivity|].
    erewrite parse_object; [|reflexivity|exact Hi]. cbn. by rewrite Hc. }
  rewrite Hp. reflexivity.
Qed.

Lemma document_parses version : json_parse (openAPIDocument version) = Some (whole (valid_text (doc_version version))).
Proof. rewrite document_text. apply whole_parses; [reflexivity|]. intros fuel rest. apply parse_json_quote. Qed.

(** ** It describes the server *)
Definition documented : list (string * string * list string) := Eval vm_compute in operations spec_json.
Lemma operations_whole t : operations (whole t) = documented.
Proof. vm_compute. reflexivity. Qed.
Lemma codes_whole t : documented_codes (whole t) = VArr (map VStr stableErrorCodes).
Proof. vm_compute. reflexivity. Qed.

(** *** Credentials

    What the two guards say to a request without credentials, and what a
    handler says to one. *)
Definition refusals : list (option Z * list body) :=
  map (λ '(st, c, t), (Some st, [BJson (apiError c t)]))
    [(503, codeForbidden, "Introspección no configurada."); (401, codeUnauthorized, "Token de servicio inválido.");
     (503, codeForbidden, "Admin API no configurada."); (401, codeUnauthorized, "Clave de admin inválida.")].
Definition bare : request := MkRequest "GET" "/" [] [] true [] [] "10.0.0.1:5000" [] None.
Definition answer (m : M unit) : option Z * list body :=
  let rs := w_resp (snd (m (oracle_at 0) (world_of empty_db))) in (rs_status rs, rs_body rs).
(** A route is behind the credential its operation names, and one whose
    operation names none is behind neither guard. *)
Definition secured `{Postgres} (cfg : Config) (names : list string) (h : handler) : Prop :=
  (names = ["serviceToken"] ∧ ∃ next, h = requireServiceToken cfg next)
  ∨ (names = ["adminKey"] ∧ ∃ next, h = requireAdminKey cfg next)
  ∨ (names = [] ∧ answer (h bare) ∉ refusals).
(** So that the names follow from the handler. *)
Lemma guards_refuse cfg next :
  answer (requireServiceToken cfg next bare) ∈ refusals ∧ answer (requireAdminKey cfg next bare) ∈ refusals.
Proof.
  unfold requireServiceToken, requireAdminKey, requireBearer.
  split; [destruct (str_eqb (ServiceToken cfg) "")|destruct (str_eqb (AdminAPIKey cfg) "")].
  - left.
  - right. left.
  - do 2 right. left.
  - do 3 right. left.
Qed.

Lemma open_status m st b : answer m = (Some st, b) → st ≠ 401 → st ≠ 503 → answer m ∉ refusals.
Proof.
  intros -> H1 H2 Hin. repeat (apply elem_of_cons in Hin as [Hin|Hin]; [by injection Hin|]). by apply elem_of_nil in Hin.
Qed.
Ltac opens := eapply open_status; [unfold answer; apply f_equal2; reflexivity|discriminate..].
Lemma brand_open srv : answer (handleBrandCSS srv bare) ∉ refusals.
Proof. unfold handleBrandCSS. destruct (s_brandCSS srv) as [c|]; [destruct (str_eqb c "")|]; [opens|opens|opens]. Qed.
Lemma start_open cfg ps : answer (handleOAuthStart cfg ps bare) ∉ refusals.
Proof. unfold handleOAuthStart. destruct (ps !! PathValue bare "provider") as [prov|]; [opens|opens]. Qed.
Lemma callback_open `{Postgres} cfg ps : answer (handleOAuthCallback cfg ps bare) ∉ refusals.
Proof. unfold handleOAuthCallback. destruct (ps !! PathValue bare "provider") as [prov|]; [opens|opens]. Qed.
Lemma webhook_open cfg : answer (handleResendWebhook cfg bare) ∉ refusals.
Proof.
  unfold handleResendWebhook. destruct (str_eqb _ ""); [|opens].
  vm_compute. intros Hin. repeat (apply elem_of_cons in Hin as [Hin|Hin]; [discriminate Hin|]). by apply elem_of_nil in Hin.
Qed.
Ltac solve_secured := first
  [ left; split; [reflexivity|]; eexists; reflexivity
  | right; left; split; [reflexivity|]; eexists; reflexivity
  | right; right; split; [reflexivity|];
    lazymatch goal with
    | |- answer (handleBrandCSS _ _) ∉ _ => apply brand_open
    | |- answer (handleOAuthStart _ _ _) ∉ _ => apply start_open
    | |- answer (handleOAuthCallback _ _ _) ∉ _ => apply callback_open
    | |- answer (handleResendWebhook _ _) ∉ _ => apply webhook_open
    | |- _ => opens
    end ].

(** The route [rt] is what the operation [op] describes. *)
Definition describes `{Postgres} (cfg : Config) (op : string * string * list string) (rt : route handler) : Prop :=
  fst op = (rt_method rt, rt_pattern rt) ∧ secured cfg (snd op) (rt_handler rt).
Definition stylesheets : list string := ["/ui/theme.css"; "/ui/brand.css"].
Ltac find_described := repeat first
  [ apply Exists_cons_hd; split; [reflexivity|]; cbn [rt_handler snd]; solve_secured
  | apply Exists_cons_tl ].
Lemma operations_routed `{Postgres} `{PasswordLib} css exposition srv :
  Forall (λ op, Exists (describes (s_cfg srv) op) (routes css exposition srv)) documented.
Proof.
  unfold documented, routes.
  repeat (apply Forall_cons; split); [..|by apply Forall_nil];
    cbn [registerOps registerEndUser registerService registerAdmin registerWebhooks registerDescriptor app];
    find_described.
Qed.
Lemma routes_documented `{Postgres} `{PasswordLib} css exposition srv :
  Forall (λ rt, Exists (λ op, describes (s_cfg srv) op rt) documented ∨ rt_pattern rt ∈ stylesheets)
    (routes css exposition srv).
Proof.
  unfold routes. repeat (apply Forall_cons; split); [..|by apply Forall_nil]; cbn [rt_pattern];
    first [ left; unfold documented; find_described; fail | right; unfold stylesheets; set_solver ].
Qed.

(** C27. The OpenAPI document is valid whatever the build version is and tells
    the truth: for every version text the served document is one JSON value
    whose version is that text (ill-formed bytes replaced, nothing of it read
    as JSON), every operation it describes is a registered route, described
    once, behind the credential the operation names and behind none when it
    names none; every registered route but the two stylesheets is described
    so; and its list of error codes is the server's. *)
Theorem openapi_document `{Postgres} `{PasswordLib} css exposition srv version :
  ∃ doc, json_parse (openAPIDocument version) = Some doc
  ∧ field "version" (field "info" doc) = VStr (valid_text (doc_version version))
  ∧ NoDup (map fst (operations doc))
  ∧ (∀ op, op ∈ operations doc → ∃ rt, rt ∈ routes css exposition srv ∧ describes (s_cfg srv) op rt)
  ∧ (∀ rt, rt ∈ routes css exposition srv →
      (∃ op, op ∈ operations doc ∧ describes (s_cfg srv) op rt) ∨ rt_pattern rt ∈ stylesheets)
  ∧ documented_codes doc = VArr (map VStr stableErrorCodes).
Proof.
  exists (whole (valid_text (doc_version version))). rewrite operations_whole.
  split_and!; [apply document_parses|reflexivity|by apply (bool_decide_unpack _)|..|apply codes_whole].
  - intros op Hin. pose proof (operations_routed css exposition srv) as Hf. rewrite Forall_forall in Hf.
    apply Hf, Exists_exists in Hin as (rt & H1 & H2). by exists rt.
  - intros rt Hin. pose proof (routes_documented css exposition srv) as Hf. rewrite Forall_forall in Hf.
    destruct (Hf rt Hin) as [(op & H1 & H2)%Exists_exists|]; [left; by exists op|by right].
Qed.
