(* ===== verification/Maintenance.v ===== *)
(** * Maintenance: [runMaintenance] of src/cmd/sesamo/serve.go

    The hourly purge: sessions, one-time tokens, rate-limit buckets, audit
    rows past retention, and finished e-mail jobs.  The loop runs for a given
    number of ticks; a statement that the one-minute context interrupts is a
    statement that fails. *)

From Stdlib Require Import QArith.
From S2P Require Import Prelude GoLib GoHash Schema World Logic Session RateLimit Tokens AuditLog Outbox Config.

(** [time.Hour] and [7 * 24 * time.Hour]. *)
Definition maintenanceInterval : Z := Hour.
Definition outboxRetention : Z := 7 * 24 * Hour.

Section maintenance.
Context (cfg : Config).

Definition removed (r : res err Z) : Z := match r with Ok n => n | Err _ => 0 end.
(** One turn: a purge that fails is logged and the next one runs; the sum is
    what is logged. *)
Definition maintenance_turn : M Z :=
  ns ← PurgeExpired;
  nt ← PurgeExpiredTokens;
  nb ← PurgeStale (24 * Hour);
  na ← (if 0 <? AuditRetention cfg then PurgeOlderThan (AuditRetention cfg) else mret (Ok 0));
  no ← PurgeFinished outboxRetention;
  mret (removed ns + removed nt + removed nb + removed na + removed no).
(** A turn at the start, and one for each tick before the context is done. *)
Fixpoint runMaintenance (ticks : nat) : M Z :=
  match ticks with
  | O => maintenance_turn
  | S ticks => n ← maintenance_turn; m ← runMaintenance ticks; mret (n + m)
  end.
End maintenance.

(** ** Rows of a table, before and after *)

(** Some rows are gone, none of those that [dead] does not select. *)
Definition pruned {K R} `{Countable K} (dead : K → R → bool) (m m' : gmap K R) : Prop :=
  m' ⊆ m ∧ ∀ k r, m !! k = Some r → dead k r = false → m' !! k = Some r.
Definition trimmed {R} (keep : R → Prop) `{∀ r, Decision (keep r)} (l l' : list R) : Prop :=
  sublist l' l ∧ base.filter keep l' = base.filter keep l.

Section tables.
Context {K R : Type} `{Countable K}.
#[export] Instance pruned_preorder (dead : K → R → bool) : PreOrder (pruned dead).
Proof.
  split; [intros m; by split|]. intros m1 m2 m3 [S1 K1] [S2 K2]. split; [by etrans|].
  intros k r Hk Hd. by apply K2, Hd; apply K1.
Qed.
#[export] Instance trimmed_preorder (keep : R → Prop) `{∀ r, Decision (keep r)} : PreOrder (trimmed keep).
Proof. split; [by intros l|]. intros l1 l2 l3 [S1 F1] [S2 F2]. split; [by etrans|by rewrite F2]. Qed.

Lemma delete_where_pruned (p dead : K → R → bool) m :
  (∀ k r, p k r = true → dead k r = true) → pruned dead m (delete_where p m).
Proof.
  intros Hp. split; [apply delete_where_subseteq|]. intros k r Hk Hd. apply lookup_delete_where_Some.
  split; [done|]. destruct (p k r) eqn:E; [|done]. apply Hp in E. congruence.
Qed.
Lemma filter_trimmed (p keep : R → Prop) `{∀ r, Decision (p r)} `{∀ r, Decision (keep r)} l :
  (∀ r, keep r → p r) → trimmed keep l (base.filter p l).
Proof.
  intros Hp. split; [apply sublist_filter|]. induction l as [|r l IH]; [done|].
  rewrite !filter_cons. destruct (decide (p r)) as [Hr|Hr], (decide (keep r)) as [Hk|Hk];
    rewrite ?filter_cons, ?decide_True, ?decide_False by done; rewrite ?IH; try done. by apply Hp in Hk.
Qed.
End tables.

(** ** What a turn may do, with every clock at most [T] *)

(** A job keeps everything but the reference to a token that is not among
    those that are left. *)
Definition same_job (left : gmap string token_row) (b b' : outbox_row) : Prop :=
  b' = b <| ob_token_id := ob_token_id b' |>
  ∧ (ob_token_id b' = ob_token_id b
     ∨ ob_token_id b' = None ∧ ∃ t, ob_token_id b = Some t ∧ left !! t = None).
Record spared (cfg : Config) (T : Z) (d d' : db) : Prop := {
  sp_users : users d' = users d;
  sp_identities : identities d' = identities d;
  sp_sessions : pruned (session_expired T) (sessions d) (sessions d');
  sp_tokens : pruned (token_dead T) (tokens d) (tokens d');
  sp_buckets : pruned (stale (T - 24 * Hour)) (buckets d) (buckets d');
  sp_audit : trimmed (λ r, AuditRetention cfg ≤ 0 ∨ T - AuditRetention cfg ≤ a_occurred_at r)
    (audit_log d) (audit_log d');
  sp_jobs : ∀ id b', outbox d' !! id = Some b' → ∃ b, outbox d !! id = Some b ∧ same_job (tokens d') b b';
  sp_jobs_kept : ∀ id b, outbox d !! id = Some b → finished (T - outboxRetention) id b = false →
    is_Some (outbox d' !! id);
  sp_events : trimmed (λ e, T - outboxRetention ≤ ev_received_at e) (events d) (events d')
}.

Lemma same_job_refl left b : same_job left b b.
Proof. split; [by destruct b|by left]. Qed.
Lemma same_job_trans l2 l3 b1 b2 b3 : l3 ⊆ l2 → same_job l2 b1 b2 → same_job l3 b2 b3 → same_job l3 b1 b3.
Proof.
  intros Hl [E1 H1] [E2 H2]. split; [rewrite E2, E1; by destruct b1|].
  assert (Hgone : ∀ t, l2 !! t = None → l3 !! t = None).
  { intros t Ht. destruct (l3 !! t) eqn:E; [|done]. apply (lookup_weaken _ l2) in E; [congruence|done]. }
  destruct H1 as [H1|(H1 & t & Ht & Hn)].
  - destruct H2 as [H2|(H2 & t & Ht & Hn)]; [left; congruence|]. right. split; [done|]. exists t. by rewrite <-H1.
  - right. split; [|by exists t; auto]. destruct H2 as [H2|[H2 _]]; congruence.
Qed.
Lemma same_job_finished left c id b b' : same_job left b b' → finished c id b' = finished c id b.
Proof. intros [-> _]. done. Qed.
#[export] Instance spared_preorder cfg T : PreOrder (spared cfg T).
Proof.
  split.
  - intros d. split; try done. intros id b Hb. exists b. split; [done|apply same_job_refl].
  - intros d1 d2 d3 [] []. split; try (by etrans); [..|].
    + intros id b3 H3. destruct (sp_jobs1 id b3 H3) as (b2 & H2 & S2).
      destruct (sp_jobs0 id b2 H2) as (b1 & H1 & S1). exists b1. split; [done|].
      eapply same_job_trans; [|done..]. apply sp_tokens1.
    + intros id b1 H1 F1. destruct (sp_jobs_kept0 id b1 H1 F1) as [b2 H2].
      apply (sp_jobs_kept1 id b2 H2). destruct (sp_jobs0 id b2 H2) as (b & Hb & Hs).
      rewrite H1 in Hb. injection Hb as <-. by rewrite (same_job_finished _ _ _ _ _ Hs).
Qed.

(** ** The turn *)
Section turn.
Context (cfg : Config) (T : Z) (o : oracle).
Hypothesis clock : ∀ i, o_dbclock o i ≤ T.

Definition spares {A} (m : M A) : Prop := ∀ w, spared cfg T (w_db w) (w_db (snd (m o w))).
Lemma spares_bind {A B} (m : M A) (k : A → M B) : spares m → (∀ a, spares (k a)) → spares (m ≫= k).
Proof. intros Hm Hk w. rewrite bind_run. etrans; [apply Hm|apply Hk]. Qed.
Lemma spares_bindE {A B} (m : M (res err A)) (k : A → M (res err B)) :
  spares m → (∀ a, spares (k a)) → spares (bindE k m).
Proof. intros Hm Hk. apply spares_bind; [done|]. intros [a|e]; [apply Hk|]. by intros w. Qed.
Lemma exec_spares {A} (s : stmt A) :
  (∀ now d a d', now ≤ T → s now d = Some (a, d') → spared cfg T d d') → spares (exec Pool s).
Proof.
  intros Hs w. unfold exec, exec_pool. specialize (Hs (o_dbclock o (w_step w)) (w_db w)).
  destruct (o_outcome o (w_step w)); [|reflexivity|]; (destruct (s _ _) as [[a d]|]; [|reflexivity]);
    by apply (Hs a).
Qed.
End turn.

(** A statement that leaves a table alone spares it. *)
Lemma same_jobs d d' : outbox d' = outbox d →
  ∀ id b', outbox d' !! id = Some b' → ∃ b, outbox d !! id = Some b ∧ same_job (tokens d') b b'.
Proof. intros -> id b Hb. exists b. split; [done|apply same_job_refl]. Qed.

Section statements.
Context (cfg : Config) (T now : Z).
Hypothesis Hnow : now ≤ T.

Lemma purge_sessions_spared d n d' : sql_purge_sessions now d = Some (n, d') → spared cfg T d d'.
Proof.
  intros [= <- <-]. split; try done; [|by apply same_jobs].
  apply delete_where_pruned. unfold session_expired. intros _ s ?. zb. lia.
Qed.
Lemma purge_tokens_spared d n d' : sql_purge_tokens now d = Some (n, d') → spared cfg T d d'.
Proof.
  intros [= <- <-]. split; try done.
  - apply delete_where_pruned. unfold token_dead. intros _ t [?|?]%orb_true_iff; apply orb_true_iff;
      [left; zb; lia|by right].
  - intros id b'. rsimp. intros (b & <- & Hb)%lookup_fmap_Some. exists b. split; [done|].
    split; [by destruct b|]. cbn. destruct (ob_token_id b) as [t|]; [|by left]. cbn.
    case_decide as E; [by left|right]. split; [done|]. exists t. split; [done|]. by apply eq_None_not_Some.
  - intros id b Hb _. rsimp. rewrite lookup_fmap, Hb. by eexists.
Qed.
Lemma purge_stale_spared d n d' : sql_purge_stale (24 * Hour) now d = Some (n, d') → spared cfg T d d'.
Proof.
  intros [= <- <-]. split; try done; [|by apply same_jobs].
  apply delete_where_pruned. unfold stale. intros _ b ?. zb. lia.
Qed.
Lemma purge_audit_spared d n d' :
  0 < AuditRetention cfg → sql_purge_audit (AuditRetention cfg) now d = Some (n, d') → spared cfg T d d'.
Proof.
  intros Hr [= <- <-]. split; try done; [|by apply same_jobs]. apply filter_trimmed. intros r ?. lia.
Qed.
Lemma purge_jobs_spared d n d' : sql_purge_jobs outboxRetention now d = Some (n, d') → spared cfg T d d'.
Proof.
  intros [= <- <-]. split; try done.
  - rsimp. intros id b [Hb _]%lookup_delete_where_Some. exists b. split; [done|apply same_job_refl].
  - rsimp. intros id b Hb Hf. exists b. apply lookup_delete_where_Some. split; [done|].
    revert Hf. unfold finished. destruct (is_pending b); cbn; rewrite ?orb_false_r; intros ?; zb; lia.
Qed.
Lemma purge_events_spared d n d' : sql_purge_events outboxRetention now d = Some (n, d') → spared cfg T d d'.
Proof. intros [= <- <-]. split; try done; [by apply same_jobs|]. apply filter_trimmed. intros e ?. lia. Qed.
End statements.

Section loop.
Context (cfg : Config) (T : Z) (o : oracle).
Hypothesis clock : ∀ i, o_dbclock o i ≤ T.

Lemma PurgeExpired_spares : spares cfg T o PurgeExpired.
Proof. apply exec_spares; [done|]. intros. by eapply purge_sessions_spared. Qed.
Lemma PurgeExpiredTokens_spares : spares cfg T o PurgeExpiredTokens.
Proof. apply exec_spares; [done|]. intros. by eapply purge_tokens_spared. Qed.
Lemma PurgeStale_spares : spares cfg T o (PurgeStale (24 * Hour)).
Proof. apply exec_spares; [done|]. intros. by eapply purge_stale_spared. Qed.
Lemma PurgeOlderThan_spares :
  spares cfg T o (if 0 <? AuditRetention cfg then PurgeOlderThan (AuditRetention cfg) else mret (Ok 0)).
Proof.
  destruct (0 <? AuditRetention cfg) eqn:E; zb; [|by intros w].
  apply exec_spares; [done|]. intros. by eapply purge_audit_spared.
Qed.
Lemma purge_jobs_spares : spares cfg T o (exec Pool (sql_purge_jobs outboxRetention)).
Proof. apply exec_spares; [done|]. intros. by eapply purge_jobs_spared. Qed.
Lemma purge_events_spares : spares cfg T o (exec Pool (sql_purge_events outboxRetention)).
Proof. apply exec_spares; [done|]. intros. by eapply purge_events_spared. Qed.

Lemma spares_ret {A} (a : A) : spares cfg T o (mret a).
Proof. by intros w. Qed.
End loop.

(** Which rows a computation built from these may remove. *)
Ltac solve_spares :=
  repeat lazymatch goal with
  | |- spares _ _ _ (bindE _ _) => apply spares_bindE
  | |- spares _ _ _ (mbind _ _) => apply spares_bind
  | |- spares _ _ _ (mret _) => apply spares_ret
  | |- spares _ _ _ _ => first
    [ apply PurgeExpired_spares | apply PurgeExpiredTokens_spares | apply PurgeStale_spares
    | apply PurgeOlderThan_spares | apply purge_jobs_spares | apply purge_events_spares ]; assumption
  | |- forall _, _ => intro
  end.
Lemma runMaintenance_spares cfg T o ticks :
  (∀ i, o_dbclock o i ≤ T) → spares cfg T o (runMaintenance cfg ticks).
Proof.
  intros clock. assert (Ht : spares cfg T o (maintenance_turn cfg)).
  { unfold maintenance_turn, PurgeFinished. solve_spares. }
  induction ticks as [|ticks IH]; [done|]. cbn [runMaintenance].
  apply spares_bind; [done|intros n]. apply spares_bind; [done|intros m; apply spares_ret].
Qed.

(** ** What a turn achieves, with every clock at least [since] *)
Record swept (cfg : Config) (since : Z) (d : db) : Prop := {
  sw_sessions : map_Forall (λ h s, session_expired since h s = false) (sessions d);
  sw_tokens : map_Forall (λ h t, token_dead since h t = false) (tokens d);
  sw_buckets : map_Forall (λ k b, stale (since - 24 * Hour) k b = false) (buckets d);
  sw_audit : 0 < AuditRetention cfg → Forall (λ r, since - AuditRetention cfg ≤ a_occurred_at r) (audit_log d);
  sw_jobs : map_Forall (λ id b, finished (since - outboxRetention) id b = false) (outbox d);
  sw_events : Forall (λ e, since - outboxRetention ≤ ev_received_at e) (events d)
}.

Lemma pruned_Forall {K R} `{Countable K} (dead : K → R → bool) (P : K → R → Prop) m m' :
  pruned dead m m' → map_Forall P m → map_Forall P m'.
Proof. intros [S _] HP k r Hk. apply HP. by apply (lookup_weaken _ _ _ _ Hk). Qed.
Lemma trimmed_Forall {R} (keep P : R → Prop) `{∀ r, Decision (keep r)} l l' :
  trimmed keep l l' → Forall P l → Forall P l'.
Proof. intros [S _] HP. apply Forall_forall. intros r Hr. by apply (proj1 (Forall_forall _ _) HP), (elem_of_sublist l'). Qed.
Lemma delete_where_Forall {K R} `{Countable K} (p q : K → R → bool) m :
  (∀ k r, q k r = true → p k r = true) → map_Forall (λ k r, q k r = false) (delete_where p m).
Proof.
  intros Hq k r [_ Hp]%lookup_delete_where_Some. destruct (q k r) eqn:E; [|done]. apply Hq in E. congruence.
Qed.

Section sweep.
Context (cfg : Config) (since T : Z) (o : oracle).
Hypothesis ok : healthy o.
Hypothesis clock : ∀ i, since ≤ o_dbclock o i ≤ T.

Definition lasting (P : db → Prop) : Prop := ∀ d d', spared cfg T d d' → P d → P d'.
Definition reaches {A} (P : db → Prop) (m : M A) : Prop := ∀ w, P (w_db (snd (m o w))).
Lemma reaches_first {A B} P (m : M A) (k : A → M B) :
  lasting P → reaches P m → (∀ a, spares cfg T o (k a)) → reaches P (m ≫= k).
Proof. intros HP Hm Hk w. rewrite bind_run. by apply (HP _ _ (Hk _ _)). Qed.
Lemma reaches_then {A B} P (m : M A) (k : A → M B) : (∀ a, reaches P (k a)) → reaches P (m ≫= k).
Proof. intros Hk w. apply Hk. Qed.
Lemma exec_reaches {A} (s : stmt A) P :
  (∀ now d, since ≤ now → ∃ a d', s now d = Some (a, d') ∧ P d') → reaches P (exec Pool s).
Proof.
  intros Hs w. unfold exec. rewrite exec_pool_healthy by done.
  destruct (Hs (o_dbclock o (w_step w)) (w_db w)) as (a & d' & -> & HP); [apply clock|done].
Qed.
Lemma exec_reaches_then {A B} (s : stmt A) (k : A → M (res err B)) P :
  (∀ now d, is_Some (s now d)) → (∀ a, reaches P (k a)) → reaches P (bindE k (exec Pool s)).
Proof.
  intros Hs Hk w. rewrite bindE_run. unfold exec. rewrite exec_pool_healthy by done.
  destruct (Hs (o_dbclock o (w_step w)) (w_db w)) as [[a d'] ->]. apply Hk.
Qed.
Lemma jobs_last c : lasting (λ d, map_Forall (λ id b, finished c id b = false) (outbox d)).
Proof.
  intros d d' [] HP id b' Hb'. destruct (sp_jobs0 id b' Hb') as (b & Hb & Hs).
  rewrite (same_job_finished _ _ _ _ _ Hs). by apply HP.
Qed.

Ltac lasts := intros d d' [] HP; first
  [ eapply pruned_Forall; [eassumption|exact HP]
  | eapply trimmed_Forall; [eassumption|exact HP]
  | intros Hr; eapply trimmed_Forall; [eassumption|exact (HP Hr)] ].
Lemma turn_sweeps : reaches (swept cfg since) (maintenance_turn cfg).
Proof.
  assert (Hc : ∀ i, o_dbclock o i ≤ T) by (intros i; apply clock).
  intros w. unfold maintenance_turn, PurgeFinished. split; revert w.
  - apply (reaches_first (λ d, map_Forall (λ h s, session_expired since h s = false) (sessions d)));
      [lasts| |solve_spares].
    apply exec_reaches. intros now d Hn. do 2 eexists. split; [done|]. apply delete_where_Forall.
    intros h s. unfold session_expired. intros ?. zb. lia.
  - apply (reaches_then (λ d, map_Forall (λ h t, token_dead since h t = false) (tokens d))); intros ns.
    apply reaches_first; [lasts| |solve_spares].
    apply exec_reaches. intros now d Hn. do 2 eexists. split; [done|]. apply delete_where_Forall.
    intros h t. unfold token_dead. intros [?|?]%orb_true_iff; apply orb_true_iff; [left; zb; lia|by right].
  - apply (reaches_then (λ d, map_Forall (λ k b, stale (since - 24 * Hour) k b = false) (buckets d))); intros ns.
    apply reaches_then; intros nt. apply reaches_first; [lasts| |solve_spares].
    apply exec_reaches. intros now d Hn. do 2 eexists. split; [done|]. apply delete_where_Forall.
    intros k b. unfold stale. intros ?. zb. lia.
  - apply (reaches_then (λ d, 0 < AuditRetention cfg →
      Forall (λ r, since - AuditRetention cfg ≤ a_occurred_at r) (audit_log d))); intros ns.
    apply reaches_then; intros nt. apply reaches_then; intros nb. apply reaches_first; [lasts| |solve_spares].
    destruct (0 <? AuditRetention cfg) eqn:E; zb; [|intros w; lia].
    apply exec_reaches. intros now d Hn. do 2 eexists. split; [done|]. intros _. apply Forall_forall.
    intros r [Hr _]%list_elem_of_filter. lia.
  - do 4 (apply (reaches_then (λ d, map_Forall (λ id b, finished (since - outboxRetention) id b = false) (outbox d)));
      intros ?).
    apply reaches_first; [apply jobs_last| |solve_spares].
    apply reaches_first; [apply jobs_last| |intros [k|e]; solve_spares].
    apply exec_reaches. intros now d Hn. do 2 eexists. split; [done|]. apply delete_where_Forall.
    intros id b. unfold finished. destruct (is_pending b); cbn; rewrite ?orb_false_r; intros ?; zb; lia.
  - do 4 (apply (reaches_then (λ d, Forall (λ e, since - outboxRetention ≤ ev_received_at e) (events d)));
      intros ?).
    apply reaches_first; [lasts| |solve_spares].
    apply exec_reaches_then; [by eexists|]. intros k.
    apply reaches_first; [lasts| |intros [n|e]; solve_spares].
    apply exec_reaches. intros now d Hn. do 2 eexists. split; [done|]. apply Forall_forall.
    intros e [He _]%list_elem_of_filter. lia.
Qed.
Lemma swept_lasts : lasting (swept cfg since).
Proof.
  intros d d' Hs []. pose proof (jobs_last _ _ _ Hs sw_jobs0) as Hj. destruct Hs.
  split; [by eapply pruned_Forall..| |done|by eapply trimmed_Forall].
  intros Hr. by eapply trimmed_Forall, sw_audit0.
Qed.
Lemma runMaintenance_sweeps ticks : reaches (swept cfg since) (runMaintenance cfg ticks).
Proof.
  assert (Hc : ∀ i, o_dbclock o i ≤ T) by (intros i; apply clock).
  destruct ticks as [|ticks]; [apply turn_sweeps|]. cbn [runMaintenance].
  apply reaches_first; [apply swept_lasts|apply turn_sweeps|]. intros n.
  apply spares_bind; [by apply runMaintenance_spares|intros m; apply spares_ret].
Qed.
End sweep.

(** C32. Maintenance spares the living and sweeps the dead: whatever the
    database answers, with its clock at most [T], the purge loop adds nothing,
    leaves every account, removes no session or token that is still live at
    [T], no bucket touched in the last day, no audit row or delivery event
    inside its retention and no e-mail job pending or finished within seven
    days, and changes nothing in the rows it leaves but the reference of a
    job to a token, which is nulled only when that token is gone; and when
    the database answers and its clock is at least [since], one turn is
    enough to leave no row that was dead by then. *)
Theorem maintenance_prunes cfg since T ticks o w :
  (∀ i, since ≤ o_dbclock o i ≤ T) →
  let d' := w_db (snd (runMaintenance cfg ticks o w)) in
  spared cfg T (w_db w) d' ∧ (healthy o → swept cfg since d').
Proof.
  intros clock d'. split.
  - apply runMaintenance_spares. intros i. apply clock.
  - intros ok. by apply (runMaintenance_sweeps cfg since T).
Qed.

(** A session that is live, one that is over, and a bucket of last week. *)
Definition toy_session (expires : Z) : session_row := MkSession "u1" 0 0 expires None None.
Definition toy_rows : db := empty_db
  <| sessions := <["live" := toy_session (10 * 24 * Hour)]> {["over" := toy_session Hour]} |>
  <| buckets := {["b" := MkBucket (1 # 1)%Q 0]} |>.
Lemma maintenance_prunes_witness :
  let now := 9 * 24 * Hour in
  let out := runMaintenance toy_config 2 (oracle_at now) (world_of toy_rows) in
  fst out = 2 ∧ sessions (w_db (snd out)) = {["live" := toy_session (10 * 24 * Hour)]}
  ∧ spared toy_config now toy_rows (w_db (snd out)) ∧ swept toy_config now (w_db (snd out)).
Proof.
  intros now out. split; [by vm_compute|]. split; [by vm_compute|].
  destruct (maintenance_prunes toy_config now now 2 (oracle_at now) (world_of toy_rows)) as [H1 H2]; [done|].
  split; [exact H1|apply H2, oracle_at_healthy].
Defined.
