(* ===== verification/Migrate.v ===== *)
(** * Migrate: the migration runner, src/internal/db/db.go

    Instances that start together run [Migrate] on one database.  Here they
    are runners that interleave statement by statement; the scripts are a
    parameter (SQL files), a statement may fail, a process may die, and a
    transaction works on the state it saw when it began: only the advisory
    lock keeps one runner from overwriting another. *)

From S2P Require Import Prelude GoLib GoHash GoSort Schema World.

(** ** The files *)
Definition is_sql (path : string) : bool := (4 <? String.length path)%nat && HasSuffix path ".sql".
Definition listMigrations (paths : list string) : list string := slices_Sort (List.filter is_sql paths).

Section migrate.
Context {S : Type} (script : string → S → option S) (files : list string).

(** ** The database and the runners *)

(** [d_applied]: the names in schema_migrations in the order of insertion,
    None before the table is created.  [d_lock]: who holds the lock. *)
Record database := MkDatabase { d_schema : S; d_applied : option (list string); d_lock : option nat }.
#[export] Instance database_eta : Eta database := λ d, MkDatabase (d_schema d) (d_applied d) (d_lock d).

(** Where a runner is: before the lock, before CREATE TABLE, in front of the
    loop, inside the transaction of [name] before and after its script and
    after its record, before the unlock with the result, returned.  An unlock
    that fails is ignored: the connection goes back to the pool, and the lock
    with it. *)
Inductive runner :=
| Starting
| Locked
| Looping (todo : list string)
| Begun (name : string) (todo : list string) (seen : S * list string)
| Scripted (name : string) (todo : list string) (staged : S * list string)
| Recorded (name : string) (todo : list string) (staged : S * list string)
| Unlocking (result : bool)
| Returned (result : bool).

Definition applied (d : database) : list string := default [] (d_applied d).
Definition has (names : list string) (name : string) : bool := bool_decide (name ∈ names).

(** The next statement of runner [i], and how the database answers it: a
    statement may take effect although the answer is lost.  None: it waits
    for the lock, or there is none.  A lost connection loses its lock. *)
Definition failed (answer : outcome) : bool := match answer with Applied => false | _ => true end.
Definition next (i : nat) (answer : outcome) (r : runner) (d : database) : option (runner * database) :=
  let fails := failed answer in
  match r with
  | Starting =>
      if fails then Some (Returned false, d) else
      match d_lock d with
      | None => Some (Locked, d <| d_lock := Some i |>)
      | Some _ => None
      end
  | Locked =>
      let created := d <| d_applied := Some (applied d) |> in
      match answer with
      | Applied => Some (Looping files, created)
      | Refused => Some (Unlocking false, d)
      | Lost => Some (Unlocking false, created)
      end
  | Looping [] => Some (Unlocking true, d)
  | Looping (name :: todo) =>
      if fails then Some (Unlocking false, d) else
      if has (applied d) name then Some (Looping todo, d) else
      Some (Begun name todo (d_schema d, applied d), d)
  | Begun name todo seen =>
      match (if fails then None else script name (fst seen)) with
      | Some s => Some (Scripted name todo (s, snd seen), d)
      | None => Some (Unlocking false, d)
      end
  | Scripted name todo staged =>
      if fails || has (snd staged) name then Some (Unlocking false, d) else
      Some (Recorded name todo (fst staged, snd staged ++ [name]), d)
  | Recorded name todo staged =>
      let committed := d <| d_schema := fst staged |> <| d_applied := Some (snd staged) |> in
      match answer with
      | Applied => Some (Looping todo, committed)
      | Refused => Some (Unlocking false, d)
      | Lost => Some (Unlocking false, committed)
      end
  | Unlocking result =>
      Some (Returned result, match answer with Refused => d | _ => d <| d_lock := None |> end)
  | Returned _ => None
  end.
(** The process dies: its connections end, and the lock with them. *)
Definition die (i : nat) (d : database) : database :=
  if bool_decide (d_lock d = Some i) then d <| d_lock := None |> else d.
Definition died (r : runner) : runner := match r with Returned b => Returned b | _ => Returned false end.

Definition system : Type := list runner * database.
Inductive mstep : system → system → Prop :=
| mstep_next i answer r r' rs d d' :
    rs !! i = Some r → next i answer r d = Some (r', d') → mstep (rs, d) (<[i := r']> rs, d')
| mstep_die i r rs d :
    rs !! i = Some r → mstep (rs, d) (<[i := died r]> rs, die i d)
| mstep_boot rs d : mstep (rs, d) (rs ++ [Starting], d).
End migrate.
#[export] Existing Instance database_eta.
Arguments database S : clear implicits.
Arguments runner S : clear implicits.
Arguments system S : clear implicits.

(** ** One runner at a time *)
Section serialized.
Context {S : Type} (script : string → S → option S) (files : list string).
Implicit Types (r : runner S) (d : database S).

(** The scripts of [names], one after the other. *)
Definition apply_all (names : list string) (s : S) : option S :=
  foldl (λ o n, s ← o; script n s) (Some s) names.
Lemma apply_all_snoc names n s : apply_all (names ++ [n]) s = (s' ← apply_all names s; script n s').
Proof. unfold apply_all. by rewrite foldl_app. Qed.

Definition holds r : bool := match r with Starting | Returned _ => false | _ => true end.
(** What a runner knows of the database. *)
Definition informed d r : Prop :=
  match r with
  | Looping todo => ∃ past, files = past ++ todo ∧ past `prefix_of` applied d
  | Begun name todo seen => files = applied d ++ name :: todo ∧ seen = (d_schema d, applied d)
  | Scripted name todo st =>
      files = applied d ++ name :: todo ∧ script name (d_schema d) = Some (fst st) ∧ snd st = applied d
  | Recorded name todo st =>
      files = applied d ++ name :: todo ∧ script name (d_schema d) = Some (fst st) ∧ snd st = applied d ++ [name]
  | Unlocking true | Returned true => applied d = files
  | _ => True
  end.
Record consistent (base : S) d : Prop := {
  co_prefix : applied d `prefix_of` files;
  co_schema : apply_all (applied d) base = Some (d_schema d)
}.
Record serial (base : S) (sys : system S) : Prop := {
  se_db : consistent base (snd sys);
  se_lock : ∀ i r, fst sys !! i = Some r → holds r = true → d_lock (snd sys) = Some i;
  se_owner : ∀ i, d_lock (snd sys) = Some i → is_Some (fst sys !! i);
  se_informed : ∀ i r, fst sys !! i = Some r → informed (snd sys) r
}.

Hypothesis distinct : NoDup files.

(** The loop finds a name in the table exactly when it is behind it. *)
Lemma has_applied d past name todo base :
  consistent base d → files = past ++ name :: todo → past `prefix_of` applied d →
  if has (applied d) name then past ++ [name] `prefix_of` applied d else applied d = past.
Proof.
  intros [Hp _] Hf [mid Hm]. unfold has. destruct Hp as [rest Hr]. rewrite Hm in Hr.
  rewrite Hf, <-app_assoc in Hr. apply app_inv_head in Hr. destruct mid as [|x mid].
  - rewrite app_nil_r in Hm. rewrite bool_decide_eq_false_2; [done|]. rewrite Hm.
    rewrite Hf in distinct. apply NoDup_app in distinct as (_ & Hd & _). intros Hin. apply (Hd name Hin). by left.
  - injection Hr as <- Hr. rewrite bool_decide_eq_true_2 by (rewrite Hm; set_solver).
    rewrite Hm. exists mid. by rewrite <-app_assoc.
Qed.

Lemma next_ok base i answer r d r' d' :
  next script files i answer r d = Some (r', d') → consistent base d → informed d r →
  consistent base d' ∧ informed d' r' ∧ applied d `prefix_of` applied d'.
Proof.
  intros Hn Hc Hi.
  assert (Hsame : ∀ d2, applied d2 = applied d → d_schema d2 = d_schema d →
    consistent base d2 ∧ applied d `prefix_of` applied d2).
  { intros d2 E1 E2. rewrite E1. split; [|done]. destruct Hc. by split; rewrite ?E1, ?E2. }
  assert (Hcommit : ∀ name todo st d2, files = applied d ++ name :: todo →
    script name (d_schema d) = Some (fst st) → snd st = applied d ++ [name] →
    d_schema d2 = fst st → applied d2 = snd st → consistent base d2 ∧ applied d `prefix_of` applied d2).
  { intros name todo st d2 Hf Hs He E1 E2. split; [split|]; rewrite E2, He; [| |by exists [name]].
    - exists todo. by rewrite <-app_assoc.
    - destruct Hc as [_ Hc]. rewrite apply_all_snoc, Hc, E1. done. }
  destruct r as [| |[|name todo]|name todo seen|name todo st|name todo st|b|b]; cbn in Hn, Hi.
  - destruct (failed answer); [by injection Hn as <- <-|]. destruct (d_lock d); [done|].
    injection Hn as <- <-. destruct (Hsame (MkDatabase (d_schema d) (d_applied d) (Some i))); done.
  - destruct (Hsame (MkDatabase (d_schema d) (Some (applied d)) (d_lock d))) as [H1 H2]; [done..|].
    destruct answer; injection Hn as <- <-; split_and!; try done. exists []. split; [done|apply prefix_nil].
  - injection Hn as <- <-. split_and!; try done. destruct Hi as (past & Hf & Hp). rewrite app_nil_r in Hf.
    rewrite <-Hf in Hp. destruct Hc as [Hq _]. cbn. by apply (anti_symm prefix).
  - destruct (failed answer); [by injection Hn as <- <-|]. destruct Hi as (past & Hf & Hp).
    pose proof (has_applied _ _ _ _ _ Hc Hf Hp) as Hh. destruct (has (applied d) name); injection Hn as <- <-.
    + split_and!; try done. exists (past ++ [name]). by rewrite <-app_assoc.
    + split_and!; try done. cbn. by rewrite Hh.
  - destruct Hi as [Hf ->]. destruct (failed answer); [by injection Hn as <- <-|]. cbn in Hn.
    destruct (script name (d_schema d)) as [s'|] eqn:Es; injection Hn as <- <-; by split_and!.
  - destruct Hi as (Hf & Hs & He). destruct (failed answer || has (snd st) name); injection Hn as <- <-;
      split_and!; try done. cbn. by rewrite He.
  - destruct Hi as (Hf & Hs & He). destruct (Hcommit name todo st (MkDatabase (fst st) (Some (snd st)) (d_lock d)) Hf Hs He) as [H1 H2]; [done..|].
    destruct answer; injection Hn as <- <-; split_and!; try done.
    exists (snd st). split; [|done]. by rewrite He, <-app_assoc.
  - destruct (Hsame (MkDatabase (d_schema d) (d_applied d) None)) as [H1 H2]; [done..|].
    destruct answer; injection Hn as <- <-; by destruct b.
  - done.
Qed.
(** What a statement does to the lock. *)
Lemma next_lock i answer r d r' d' :
  next script files i answer r d = Some (r', d') →
  (d_lock d' = d_lock d ∧ (holds r' = true → holds r = true))
  ∨ (d_lock d = None ∧ d_lock d' = Some i ∧ holds r = false ∧ holds r' = true)
  ∨ (d_lock d' = None ∧ holds r = true ∧ holds r' = false).
Proof.
  intros Hn. destruct r as [| |[|name todo]|name todo seen|name todo st|name todo st|b|b]; cbn in Hn.
  - destruct (failed answer); [injection Hn as <- <-; by left|]. destruct (d_lock d) eqn:E; [done|].
    injection Hn as <- <-. right. left. done.
  - destruct answer; injection Hn as <- <-; by left.
  - injection Hn as <- <-. by left.
  - destruct (failed answer); [injection Hn as <- <-; by left|].
    destruct (has (applied d) name); injection Hn as <- <-; by left.
  - destruct (failed answer); [injection Hn as <- <-; by left|].
    destruct (script _ _); injection Hn as <- <-; by left.
  - destruct (failed answer || _); injection Hn as <- <-; by left.
  - destruct answer; injection Hn as <- <-; by left.
  - destruct answer; injection Hn as <- <-; [right; by right|by left|right; by right].
  - done.
Qed.
(** Only the holder of the lock touches the tables. *)
Lemma next_idle i answer r d r' d' :
  next script files i answer r d = Some (r', d') → holds r = false →
  applied d' = applied d ∧ d_schema d' = d_schema d.
Proof.
  intros Hn. destruct r; cbn in *; try done. destruct (failed answer); [by injection Hn as <- <-|].
  destruct (d_lock d); [done|]. by injection Hn as <- <-.
Qed.
Lemma informed_same d d' r :
  applied d' = applied d → d_schema d' = d_schema d → informed d r → informed d' r.
Proof. intros E1 E2. destruct r as [| |todo|name todo seen|name todo st|name todo st|[]|[]]; cbn; by rewrite ?E1, ?E2. Qed.
Lemma informed_idle base d d' r :
  consistent base d' → applied d `prefix_of` applied d' → holds r = false → informed d r → informed d' r.
Proof.
  intros Hc Hp. destruct r as [| |todo|name todo seen|name todo st|name todo st|b|[]]; cbn; try done.
  intros _ Hd. destruct Hc as [Hq _]. rewrite Hd in Hp. by apply (anti_symm prefix).
Qed.

Lemma lookup_update {A} (l : list A) i x y j z :
  l !! i = Some y → <[i:=x]> l !! j = Some z → (j = i ∧ z = x) ∨ (j ≠ i ∧ l !! j = Some z).
Proof.
  intros Hi. destruct (decide (j = i)) as [->|Hj].
  - rewrite list_lookup_insert_eq by (by eapply lookup_lt_Some). intros [= <-]. by left.
  - rewrite list_lookup_insert_ne by done. by right.
Qed.
Lemma update_is_Some {A} (l : list A) i x j : is_Some (l !! j) → is_Some (<[i:=x]> l !! j).
Proof. rewrite !lookup_lt_is_Some. by rewrite length_insert. Qed.

Lemma serial_next base i answer r r' rs d d' :
  serial base (rs, d) → rs !! i = Some r → next script files i answer r d = Some (r', d') →
  serial base (<[i:=r']> rs, d') ∧ applied d `prefix_of` applied d'.
Proof.
  intros [Hc Hl Ho Hi] Hr Hn. cbn [fst snd] in *.
  destruct (next_ok _ _ _ _ _ _ _ Hn Hc (Hi _ _ Hr)) as (Hc' & Hi' & Hp). split; [|done].
  pose proof (next_lock _ _ _ _ _ _ Hn) as Hlock. pose proof (Hl _ _ Hr) as Hli.
  assert (Hothers : ∀ j z, j ≠ i → rs !! j = Some z → holds z = true → holds r = false ∧ d_lock d' = d_lock d).
  { intros j z Hj Hz Hh. pose proof (Hl _ _ Hz Hh) as Hd.
    assert (Hrf : holds r = false).
    { destruct (holds r) eqn:E; [|done]. rewrite (Hli eq_refl) in Hd. congruence. }
    split; [done|]. destruct Hlock as [[? _]|[(? & _)|(_ & ? & _)]]; congruence. }
  split; cbn [fst snd]; [done| | |].
  - intros j z Hz. destruct (lookup_update _ _ _ _ _ _ Hr Hz) as [[-> ->]|[Hj Hz']].
    + destruct Hlock as [[-> Hh]|[(_ & -> & _ & ->)|(-> & _ & ->)]]; naive_solver.
    + intros Hh. destruct (Hothers j z Hj Hz' Hh) as [_ ->]. by apply (Hl _ _ Hz').
  - intros k Hk. destruct (decide (k = i)) as [->|Hki]; [by apply update_is_Some; eexists|].
    apply update_is_Some, Ho. destruct Hlock as [[<- _]|[(_ & E & _)|(E & _)]]; congruence.
  - intros j z Hz. destruct (lookup_update _ _ _ _ _ _ Hr Hz) as [[-> ->]|[Hj Hz']]; [done|].
    destruct (holds z) eqn:Eh; [|by apply (informed_idle base d d'); [..|apply (Hi _ _ Hz')]].
    destruct (Hothers j z Hj Hz' Eh) as [Hrf _]. destruct (next_idle _ _ _ _ _ _ Hn Hrf).
    by apply (informed_same d), (Hi _ _ Hz').
Qed.
Lemma serial_die base i r rs d :
  serial base (rs, d) → rs !! i = Some r → serial base (<[i:=died r]> rs, die i d).
Proof.
  intros [Hc Hl Ho Hi] Hr. cbn [fst snd] in *.
  assert (Hsame : applied (die i d) = applied d ∧ d_schema (die i d) = d_schema d) by (unfold die; by case_bool_decide).
  destruct Hsame as [Ha Hs].
  assert (Hlk : ∀ k, d_lock (die i d) = Some k ↔ k ≠ i ∧ d_lock d = Some k).
  { intros k. unfold die. case_bool_decide as E; cbn; [rewrite E; naive_solver|]. split; [|by intros []].
    intros Hk. split; [congruence|done]. }
  split; cbn [fst snd].
  - destruct Hc. by split; rewrite ?Ha, ?Hs.
  - intros j z Hz Hh. rewrite Hlk. destruct (lookup_update _ _ _ _ _ _ Hr Hz) as [[-> ->]|[Hj Hz']]; [by destruct r|].
    split; [done|by apply (Hl _ _ Hz')].
  - intros k [_ Hk]%Hlk. by apply update_is_Some, Ho.
  - intros j z Hz. destruct (lookup_update _ _ _ _ _ _ Hr Hz) as [[-> ->]|[Hj Hz']];
      apply (informed_same d); try done; [|apply (Hi _ _ Hz')].
    specialize (Hi _ _ Hr). by destruct r.
Qed.
Lemma serial_boot base rs d : serial base (rs, d) → serial base (rs ++ [Starting], d).
Proof.
  intros [Hc Hl Ho Hi]. cbn [fst snd] in *. split; cbn [fst snd]; [done| | |].
  - intros j z [Hz|[Hj Hz]]%lookup_app_Some; [by apply Hl|]. by apply list_lookup_singleton_Some in Hz as [Hj' <-].
  - intros k Hk%Ho. destruct Hk as [z Hz]. exists z. by apply lookup_app_l_Some.
  - intros j z [Hz|[Hj Hz]]%lookup_app_Some; [by apply (Hi _ _ Hz)|].
    apply list_lookup_singleton_Some in Hz as [_ <-]. done.
Qed.
Lemma serial_step base s s' :
  serial base s → mstep script files s s' → serial base s' ∧ applied (snd s) `prefix_of` applied (snd s').
Proof.
  intros Hs Hst. destruct Hst as [i a r r' rs d d' Hr Hn|i r rs d Hr|rs d].
  - by eapply serial_next.
  - split; [by eapply serial_die|]. cbn. unfold die. by case_bool_decide.
  - split; [by apply serial_boot|done].
Qed.
Lemma serial_steps base s s' :
  rtc (mstep script files) s s' → serial base s → serial base s' ∧ applied (snd s) `prefix_of` applied (snd s').
Proof.
  induction 1 as [s|s1 s2 s3 H1 _ IH]; intros Hs; [done|].
  destruct (serial_step _ _ _ Hs H1) as [H2 P2]. destruct (IH H2) as [H3 P3]. split; [done|by etrans].
Qed.
End serialized.

(** ** The loop ends *)
Section progress.
Context {S : Type} (script : string → S → option S) (files : list string).
(** Statements that are left, at most. *)
Definition statements_left (r : runner S) : nat :=
  match r with
  | Starting => 4 * length files + 4
  | Locked => 4 * length files + 3
  | Looping todo => 4 * length todo + 2
  | Begun _ todo _ => 4 * length todo + 5
  | Scripted _ todo _ => 4 * length todo + 4
  | Recorded _ todo _ => 4 * length todo + 3
  | Unlocking _ => 1
  | Returned _ => 0
  end.
Lemma next_decreases i answer r d r' d' :
  next script files i answer r d = Some (r', d') → (statements_left r' < statements_left r)%nat.
Proof.
  intros Hn. destruct r as [| |[|name todo]|name todo seen|name todo st|name todo st|b|b]; cbn in Hn; cbn [statements_left length].
  all: repeat match type of Hn with
    | (if ?x then _ else _) = _ => destruct x
    | match ?x with _ => _ end = _ => destruct x
    end; try done; injection Hn as <- <-; cbn [statements_left length]; lia.
Qed.
(** Only the lock makes a runner wait. *)
Lemma next_moves i answer r d :
  (∀ b, r ≠ Returned b) → (r = Starting → d_lock d = None) → is_Some (next script files i answer r d).
Proof.
  intros Hr Hl. destruct r as [| |[|name todo]|name todo seen|name todo st|name todo st|b|b]; cbn.
  - destruct (failed answer); [by eexists|]. rewrite Hl by done. by eexists.
  - destruct answer; by eexists.
  - by eexists.
  - destruct (failed answer); [by eexists|]. destruct (has _ _); by eexists.
  - destruct (if failed answer then None else _); by eexists.
  - destruct (failed answer || _); by eexists.
  - destruct answer; by eexists.
  - by eexists.
  - by destruct (Hr b).
Qed.
End progress.

(** An instance left to itself: its statements, answered as [answers] says,
    until it returns or has to wait; [fuel] bounds their number. *)
Fixpoint run_alone {S} (script : string → S → option S) (files : list string) (i : nat) (answers : nat → outcome)
    (fuel : nat) (r : runner S) (d : database S) : runner S * database S :=
  match fuel with
  | O => (r, d)
  | Datatypes.S fuel =>
      match next script files i (answers fuel) r d with
      | Some (r, d) => run_alone script files i answers fuel r d
      | None => (r, d)
      end
  end.

Lemma sorted_distinct paths : NoDup paths → NoDup (listMigrations paths).
Proof.
  intros Hnd. unfold listMigrations. rewrite slices_Sort_Permutation. apply NoDup_ListNoDup.
  apply List.NoDup_filter. by apply NoDup_ListNoDup.
Qed.
Lemma serial_start {S} (script : string → S → option S) files base d :
  d_lock d = None → consistent script files base d → serial script files base ([], d).
Proof. intros Hl Hc. split; cbn; [done|by intros i r|by rewrite Hl|by intros i r]. Qed.

(** C25. Migrations run once and in order: however many instances start,
    interleave, lose their connection or die on one database, the table of
    applied files stays a prefix of the sorted list of files and only grows,
    the schema is what its scripts make of the base one after the other, one
    instance at most is past the lock, and an instance that returns without
    an error leaves every file applied. *)
Theorem migrations_once {S} (script : string → S → option S) paths base d0 rs d :
  let files := listMigrations paths in
  NoDup paths → d_lock d0 = None → consistent script files base d0 →
  rtc (mstep script files) ([], d0) (rs, d) →
  consistent script files base d ∧ applied d0 `prefix_of` applied d
  ∧ (∀ i, rs !! i = Some (Returned true) → applied d = files)
  ∧ (∀ i j r r', rs !! i = Some r → rs !! j = Some r' → holds r = true → holds r' = true → i = j).
Proof.
  intros files Hnd Hl Hc Hr.
  pose proof (sorted_distinct paths Hnd) as Hf.
  destruct (serial_steps script files Hf base _ _ Hr) as [[Hc' Hlk Ho Hi] Hp]; [by apply serial_start|].
  cbn [fst snd] in *. split_and!; [done|done| |].
  - intros i Hri. apply (Hi _ _ Hri).
  - intros i j r r' H1 H2 Hh1 Hh2. apply (Hlk _ _ H1) in Hh1. apply (Hlk _ _ H2) in Hh2. congruence.
Qed.

(** The three scripts of the repository, one instance that dies after its
    first file and a second one that finishes. *)
Definition toy_paths : list string := ["embed.go"; "0003_email_outbox.sql"; "0001_init.sql"; "0002_user_disabled.sql"].
Definition toy_script (name : string) (s : list string) : option (list string) := Some (name :: s).
Example migrations_sorted :
  listMigrations toy_paths = ["0001_init.sql"; "0002_user_disabled.sql"; "0003_email_outbox.sql"].
Proof. vm_compute. reflexivity. Qed.

(** A schedule, played. *)
Inductive event := EMove (i : nat) (answer : outcome) | EDie (i : nat) | EBoot.
Section play.
Context {S : Type} (script : string → S → option S) (files : list string).
Definition play_one (e : event) (sys : system S) : option (system S) :=
  let '(rs, d) := sys in
  match e with
  | EMove i answer => r ← rs !! i; '(r', d') ← next script files i answer r d; Some (<[i:=r']> rs, d')
  | EDie i => r ← rs !! i; Some (<[i:=died r]> rs, die i d)
  | EBoot => Some (rs ++ [Starting], d)
  end.
Definition play (l : list event) (sys : system S) : option (system S) := foldl (λ o e, s ← o; play_one e s) (Some sys) l.
Lemma play_one_step e s s' : play_one e s = Some s' → mstep script files s s'.
Proof.
  destruct s as [rs d], e as [i answer|i|]; cbn.
  - intros (r & Hr & ([r' d'] & Hn & [= <-])%bind_Some)%bind_Some. by eapply mstep_next.
  - intros (r & Hr & [= <-])%bind_Some. by eapply mstep_die.
  - intros [= <-]. constructor.
Qed.
Lemma play_steps l s s' : play l s = Some s' → rtc (mstep script files) s s'.
Proof.
  revert s'. induction l as [|e l IH] using rev_ind; intros s'; [by intros [= <-]|].
  unfold play. rewrite foldl_app. intros (s1 & H1 & H2)%bind_Some.
  eapply rtc_r; [by apply IH|by apply (play_one_step e)].
Qed.
End play.
Definition toy_schedule : list event :=
  [EBoot; EBoot] ++ replicate 6 (EMove 0 Applied) ++ [EDie 0] ++ replicate 13 (EMove 1 Applied).
Lemma migrations_once_witness :
  ∃ rs d, play toy_script (listMigrations toy_paths) toy_schedule ([], MkDatabase [] None None) = Some (rs, d)
  ∧ rs = [Returned false; Returned true] ∧ applied d = listMigrations toy_paths
  ∧ d_schema d = ["0003_email_outbox.sql"; "0002_user_disabled.sql"; "0001_init.sql"].
Proof.
  destruct (play toy_script (listMigrations toy_paths) toy_schedule ([], MkDatabase [] None None)) as [[rs d]|] eqn:E;
    [|by vm_compute in E].
  assert (Hrs : rs = [Returned false; Returned true]) by (vm_compute in E; by injection E as <- _).
  exists rs, d. split; [done|]. split; [done|].
  destruct (migrations_once toy_script toy_paths [] (MkDatabase [] None None) rs d) as (_ & _ & Hall & _).
  - apply (bool_decide_unpack _). vm_compute. reflexivity.
  - reflexivity.
  - split; [by apply prefix_nil|reflexivity].
  - by eapply play_steps.
  - split; [by apply (Hall 1%nat); rewrite Hrs|]. vm_compute in E. by injection E as _ <-.
Defined.

(** The unlock of an instance fails: it has migrated and serves, and the next
    one waits for the lock until the first has died. *)
Definition toy_leak : list event :=
  [EBoot; EBoot] ++ replicate 15 (EMove 0 Applied) ++ [EMove 0 Refused].
Example lock_leaks :
  let after l := play toy_script (listMigrations toy_paths) l ([], MkDatabase [] None None) in
  (fst <$> after toy_leak) = Some [Returned true; Starting]
  ∧ (d_lock ∘ snd <$> after toy_leak) = Some (Some 0%nat)
  ∧ after (toy_leak ++ [EMove 1 Applied]) = None
  ∧ (fst <$> after (toy_leak ++ [EDie 0; EMove 1 Applied])) = Some [Returned true; Locked].
Proof. vm_compute. split_and!; reflexivity. Qed.

(** ** An instance that can move reaches the end *)
Section ends.
Context {S : Type} (script : string → S → option S) (files : list string) (i : nat).

Lemma next_keeps_lock answer (r : runner S) (d : database S) r' d' :
  next script files i answer r d = Some (r', d') → d_lock d = None ∨ holds r = true →
  r' = Returned false ∨ r' = Returned true ∨ holds r' = true.
Proof.
  intros Hn Hw. destruct r as [| |[|name todo]|name todo seen|name todo st|name todo st|b|b]; cbn in Hn.
  all: repeat match type of Hn with
    | (if ?x then _ else _) = _ => destruct x
    | match ?x with _ => _ end = _ => destruct x
    end; try done; injection Hn as <- <-; auto.
  destruct b; auto.
Qed.
Lemma run_returns answers fuel (r : runner S) (d : database S) :
  (statements_left files r <= fuel)%nat → d_lock d = None ∨ holds r = true ∨ (∃ b, r = Returned b) →
  ∃ b, fst (run_alone script files i answers fuel r d) = Returned b.
Proof.
  revert r d. induction fuel as [|fuel IH]; intros r d Hf Hw; [destruct r; cbn in Hf; try lia; by eexists|].
  cbn [run_alone].
  assert (Hr : (∃ b, r = Returned b) ∨ (∀ b, r ≠ Returned b)).
  { destruct r; try (right; by intros b). left. by eexists. }
  destruct Hr as [[b ->]|Hr]; [by eexists|].
  destruct (next_moves script files i (answers fuel) r d Hr) as [[r' d'] Hn].
  { intros ->. destruct Hw as [?|[?|[? ?]]]; done. }
  rewrite Hn. apply IH.
  - pose proof (next_decreases _ _ _ _ _ _ _ _ Hn). lia.
  - destruct (next_keeps_lock _ _ _ _ _ Hn) as [->|[->|?]]; [|by eauto..].
    destruct Hw as [?|[?|[b ->]]]; [by left|by right|by destruct (Hr b)].
Qed.
(** Without failures the loop is the scripts one after the other. *)
Definition works (r : runner S) : Prop := r ≠ Unlocking false ∧ r ≠ Returned false.
Lemma run_succeeds fuel (r : runner S) (d : database S) :
  (∀ name s, is_Some (script name s)) → NoDup files → (∃ base, consistent script files base d) →
  informed script files d r → works r → d_lock d = None ∨ holds r = true →
  works (fst (run_alone script files i (λ _, Applied) fuel r d)).
Proof.
  intros Hok Hnd. revert r d. induction fuel as [|fuel IH]; intros r d Hc Hi Hwk Hw; [done|]. cbn [run_alone].
  destruct (next script files i Applied r d) as [[r' d']|] eqn:Hn; [|done].
  destruct Hc as [base Hc]. destruct (next_ok script files Hnd _ _ _ _ _ _ _ Hn Hc Hi) as (Hc' & Hi' & _).
  assert (Hwk' : works r').
  { destruct r as [| |[|name todo]|name todo seen|name todo st|name todo st|b|b]; cbn in Hn, Hi.
    - destruct (d_lock d); [done|]. by injection Hn as <- <-.
    - by injection Hn as <- <-.
    - by injection Hn as <- <-.
    - destruct (has (applied d) name); by injection Hn as <- <-.
    - destruct (Hok name (fst seen)) as [s' Hs]. rewrite Hs in Hn. by injection Hn as <- <-.
    - destruct Hi as (Hf & _ & He).
      assert (Hh : has (snd st) name = false).
      { unfold has. apply bool_decide_eq_false_2. rewrite He. rewrite Hf in Hnd.
        apply NoDup_app in Hnd as (_ & Hx & _). intros Hin. apply (Hx name Hin). by left. }
      rewrite Hh in Hn. by injection Hn as <- <-.
    - by injection Hn as <- <-.
    - injection Hn as <- <-. destruct Hwk as [H1 _]. by destruct b.
    - done. }
  destruct (next_keeps_lock _ _ _ _ _ Hn Hw) as [->|[->|Hh]]; [by destruct Hwk'| |].
  - destruct fuel; done.
  - apply IH; eauto.
Qed.

Lemma statements_left_bound (r : runner S) (d : database S) :
  informed script files d r → (statements_left files r <= 4 * length files + 4)%nat.
Proof.
  destruct r as [| |todo|name todo seen|name todo st|name todo st|b|b]; cbn [statements_left informed]; intros Hi; try lia.
  - destruct Hi as (past & -> & _). rewrite length_app. lia.
  - destruct Hi as [-> _]. rewrite length_app. cbn. lia.
  - destruct Hi as [-> _]. rewrite length_app. cbn. lia.
  - destruct Hi as [-> _]. rewrite length_app. cbn. lia.
Qed.
Lemma run_steps answers fuel rs (r : runner S) (d : database S) :
  rs !! i = Some r →
  let out := run_alone script files i answers fuel r d in
  rtc (mstep script files) (rs, d) (<[i := fst out]> rs, snd out).
Proof.
  revert rs r d. induction fuel as [|fuel IH]; intros rs r d Hr; cbn [run_alone].
  - cbn. by rewrite list_insert_id.
  - destruct (next script files i (answers fuel) r d) as [[r' d']|] eqn:Hn; [|cbn; by rewrite list_insert_id].
    eapply rtc_l; [by eapply mstep_next|].
    assert (Hr' : <[i:=r']> rs !! i = Some r') by (apply list_lookup_insert_eq; by eapply lookup_lt_Some).
    specialize (IH _ _ d' Hr'). cbv zeta in IH. by rewrite list_insert_insert_eq in IH.
Qed.
End ends.

(** C26. A migration run ends: an instance that holds the lock, or finds it
    free, returns within four statements per file and four more, whatever the
    database answers; when the database answers and the scripts apply, it
    returns without an error, and every file is applied. *)
Theorem migrate_ends {S} (script : string → S → option S) paths base d0 rs d i r answers :
  let files := listMigrations paths in
  let bound := (4 * length files + 4)%nat in
  NoDup paths → d_lock d0 = None → consistent script files base d0 →
  rtc (mstep script files) ([], d0) (rs, d) → rs !! i = Some r → d_lock d = None ∨ holds r = true →
  (∃ b, fst (run_alone script files i answers bound r d) = Returned b)
  ∧ ((∀ name s, is_Some (script name s)) → works r →
      let out := run_alone script files i (λ _, Applied) bound r d in
      fst out = Returned true ∧ applied (snd out) = files).
Proof.
  intros files bound Hnd Hl Hc Hrun Hr Hw.
  pose proof (sorted_distinct paths Hnd) as Hf.
  destruct (serial_steps script files Hf base _ _ Hrun) as [Hs _]; [by apply serial_start|].
  pose proof (se_informed _ _ _ _ Hs _ _ Hr) as Hi. cbn [fst snd] in Hi.
  pose proof (statements_left_bound script files r d Hi) as Hb.
  assert (Hw' : d_lock d = None ∨ holds r = true ∨ (∃ b, r = Returned b)) by naive_solver.
  split; [by apply run_returns|]. intros Hok Hwk out.
  destruct (run_returns script files i (λ _, Applied) bound r d Hb Hw') as [b E].
  assert (Hout : works (fst out)).
  { apply run_succeeds; try done. exists base. apply (se_db _ _ _ _ Hs). }
  assert (b = true) as -> by (destruct b; [done|]; unfold out in Hout; rewrite E in Hout; by destruct Hout).
  split; [exact E|].
  destruct (serial_steps script files Hf base _ _ (run_steps script files i (λ _, Applied) bound rs r d Hr) Hs) as [Hs' _].
  apply (se_informed _ _ _ _ Hs' i (Returned true)). cbn [fst]. rewrite E. apply list_lookup_insert_eq.
  by eapply lookup_lt_Some.
Qed.
Lemma migrate_ends_witness :
  let files := listMigrations toy_paths in
  let d0 := MkDatabase [] None None in
  let out := run_alone toy_script files 0 (λ _, Applied) (4 * length files + 4) Starting d0 in
  fst out = Returned true ∧ applied (snd out) = files.
Proof.
  intros files d0 out.
  destruct (migrate_ends toy_script toy_paths [] d0 [Starting] d0 0 Starting (λ _, Refused)) as [_ H].
  - apply (bool_decide_unpack _). vm_compute. reflexivity.
  - reflexivity.
  - split; [by apply prefix_nil|reflexivity].
  - apply rtc_once, (mstep_boot _ _ [] d0).
  - reflexivity.
  - by left.
  - by apply H.
Defined.
