(* ===== verification/Lifecycle.v ===== *)
(** * Lifecycle: the end of [serve], src/cmd/sesamo/serve.go

    What [serve] returns when the process is told to stop, and when, from the
    time its parts need.  Instants are nanoseconds after the signal. *)

From S2P Require Import Prelude GoLib GoHash GoAes Schema World Logic Crypto Keyring Outbox Worker.

Definition shutdownTimeout : Z := 30 * Second.

(** A delivery takes the time of its send and of its record, which their
    contexts bound; the worker, once told to stop, claims nothing more but
    delivers what is left of the batch it holds ([Worker.deliver_all]). *)
Record delivery := MkDelivery { dl_send : Z; dl_finalize : Z }.
Definition delivery_ok (d : delivery) : Prop := 0 ≤ dl_send d ≤ sendTimeout ∧ 0 ≤ dl_finalize d ≤ finalizeTimeout.
Definition drain (left : list delivery) : Z := foldr (λ d n, dl_send d + dl_finalize d + n) 0 left.

Inductive why := Signal | ListenFailed.
Inductive serve_error := HTTPShutdown | WorkerDeadline | Listen.
(** How [serve] returned: the instant, the error, whether the worker was done. *)
Record ending := MkEnding { en_at : Z; en_err : option serve_error; en_worker_done : bool }.

(** [http_need]: how long the open requests go on; [http_fails]: closing the
    listeners fails.  The context of the worker is a child of the one the
    signal ends, so that its drain starts with the signal. *)
Definition serve_end (w : why) (http_need : Z) (http_fails : bool) (left : list delivery) : ending :=
  match w with
  | ListenFailed => MkEnding 0 (Some Listen) (drain left <=? 0)
  | Signal =>
      let deadline := shutdownTimeout <? http_need in
      let http_at := Z.min http_need shutdownTimeout in
      if drain left <=? http_at + shutdownTimeout
      then MkEnding (Z.max http_at (drain left))
             (if deadline then None else if http_fails then Some HTTPShutdown else None) true
      else MkEnding (http_at + shutdownTimeout) (Some WorkerDeadline) false
  end.

Lemma drain_bound left :
  Forall delivery_ok left → 0 ≤ drain left ≤ Z.of_nat (length left) * (sendTimeout + finalizeTimeout).
Proof.
  induction 1 as [|d left [H1 H2] _ IH]; [done|]. cbn [drain foldr length].
  fold (drain left). rewrite Nat2Z.inj_succ. lia.
Qed.

(** The grace is enough for one delivery: with at most one left, [serve]
    returns within a minute of the signal and only when the worker has
    recorded it, however long the requests go on. *)
Theorem shutdown_drains_one http_need http_fails left :
  0 ≤ http_need → Forall delivery_ok left → (length left <= 1)%nat →
  let e := serve_end Signal http_need http_fails left in
  en_worker_done e = true ∧ en_err e ≠ Some WorkerDeadline ∧ 0 ≤ en_at e ≤ 2 * shutdownTimeout.
Proof.
  intros Hh Hl Hn e. pose proof (drain_bound left Hl) as Hd.
  assert (Hb : drain left ≤ sendTimeout + finalizeTimeout).
  { destruct left as [|d [|d' left]]; [done| |cbn in Hn; lia]. cbn [length] in Hd. lia. }
  assert (Hc : sendTimeout + finalizeTimeout ≤ shutdownTimeout) by done.
  assert (0 ≤ shutdownTimeout) by done.
  assert (Hle : (drain left <=? Z.min http_need shutdownTimeout + shutdownTimeout) = true) by (apply Z.leb_le; lia).
  subst e. unfold serve_end. rewrite Hle. cbn [en_worker_done en_err en_at].
  split_and!; [done| |lia..]. by destruct (shutdownTimeout <? http_need), http_fails.
Qed.
(** It is not enough for a batch: with the four deliveries of a claim, each
    within its time limits, an idle server returns with an error while two of
    them are still to be recorded. *)
Example shutdown_cuts_batch :
  let left := replicate claimBatch (MkDelivery (12 * Second) Second) in
  Forall delivery_ok left
  ∧ serve_end Signal 0 false left = MkEnding (30 * Second) (Some WorkerDeadline) false.
Proof. split; [|reflexivity]. repeat constructor; done. Qed.
