(* ===== verification/Upkeep.v ===== *)
(** * Upkeep: what the whole program maintains

    [Maintained cfg kr I] is the interface between an invariant of the tables
    and the program: the statements, and the few transactions, across which
    the invariant has to survive.  Whatever implements it survives every store
    operation, every handler but those that open sessions, the worker, the
    purges and the import, whatever the database answers; with [Enters], the
    two transactions that open a session, the whole of [ServeHTTP]. *)

From S2P Require Import Prelude GoLib GoUnicode GoHash GoNet GoUrl GoMux Schema World Logic Crypto Users ImportCmd Session RateLimit Tokens AuditLog Keyring Outbox Worker OAuth Config Ui Http Descriptor Webhook Service EndUser Flows Answer Server Maintenance.

(** ** The interface *)
Definition both (I J : db → Prop) (d : db) : Prop := I d ∧ J d.
(** The account [uid] has the e-mail address [to]. *)
Definition addressed `{Postgres} (uid to : string) (d : db) : Prop :=
  ∃ u, users d !! uid = Some u ∧ citext (u_email u) = citext to.

(** Path and subject of the link of each purpose. *)
Definition link_kind (p : Purpose) : string * string :=
  match p with
  | PurposeReset => ("/reset/confirm", "Restablecé tu contraseña")
  | PurposeVerify => ("/verify", "Verificá tu email")
  | PurposeMagicLink => ("/magiclink/confirm", "Tu enlace de acceso")
  end.

Class Maintained `{Postgres} (cfg : Config) (kr : Keyring) (I : db → Prop) : Prop := {
  mt_audit d l : I d → I (d <| audit_log := l |>);
  mt_buckets d m : I d → I (d <| buckets := m |>);
  mt_events d l : I d → I (d <| events := l |>);
  mt_insert_user id f : stmt_ok I (sql_insert_user id f);
  mt_insert_user_skip id f : stmt_ok I (sql_insert_user_skip id f);
  mt_update_user id f :
    (∀ u, u_email (f u) = u_email u ∧ u_disabled (f u) = u_disabled u) → stmt_ok I (sql_update_user id f);
  mt_insert_identity iid uid p s : stmt_ok I (sql_insert_identity iid uid p s);
  mt_disable ip id b o w :
    w_tx w = None → I (w_db w) → I (w_db (snd (auditedTx cfg ip (set_disabled_action id b) o w)));
  mt_validate tok : preserves (keeps I) (Validate (session_config cfg) tok);
  mt_revoke h : stmt_ok I (sql_revoke h);
  mt_revoke_all uid : stmt_ok I (sql_revoke_all uid);
  mt_purge_sessions : stmt_ok I sql_purge_sessions;
  mt_consume h p : stmt_ok I (sql_consume h p);
  mt_purge_tokens : stmt_ok I sql_purge_tokens;
  mt_queue uid to p ttl o w :
    winv I w → tx_has (addressed uid to) w →
    winv I (snd (queueOneTimeLinkTx cfg kr uid to p (fst (link_kind p)) (snd (link_kind p)) ttl o w));
  mt_reduce pmid typ at_ : stmt_ok I (sql_reduce pmid typ at_);
  mt_finalize id lease out : stmt_ok I (sql_finalize id lease out);
  mt_retire ids st r : st ≠ pending → stmt_ok I (sql_retire ids st r);
  mt_lease uuid ids : stmt_ok I (sql_lease uuid ids);
  mt_purge_jobs t : stmt_ok I (sql_purge_jobs t)
}.
(** What survives the transactions that open a session, too. *)
Class Enters `{Postgres} (cfg : Config) (kr : Keyring) (I : db → Prop) : Prop := {
  mt_login r detail uid o w :
    w_tx w = None → enabled uid (w_db w) → I (w_db w) →
    I (w_db (snd (loginTx cfg r detail (mret (Ok uid)) o w)));
  mt_magic r detail tok o w :
    w_tx w = None → I (w_db w) → I (w_db (snd (loginTx cfg r detail (magic_resolve tok) o w)))
}.

(** ** Conjunction *)
Lemma stmt_ok_both {A} I J (s : stmt A) : stmt_ok I s → stmt_ok J s → stmt_ok (both I J) s.
Proof. intros HI HJ now d a d' [Hi Hj] Hs. split; [by eapply HI|by eapply HJ]. Qed.
Lemma winv_both I J w : winv (both I J) w ↔ winv I w ∧ winv J w.
Proof. unfold winv, both. naive_solver. Qed.
Lemma keeps_both {A} I J (m : M A) :
  preserves (keeps I) m → preserves (keeps J) m → preserves (keeps (both I J)) m.
Proof. intros HI HJ o w [Hi Hj]%winv_both. apply winv_both. split; [by apply HI|by apply HJ]. Qed.

Section conj.
Context `{Postgres} (cfg : Config) (kr : Keyring) (I J : db → Prop).
Context {HI : Maintained cfg kr I} {HJ : Maintained cfg kr J}.
#[export] Instance both_maintained : Maintained cfg kr (both I J).
Proof.
  destruct HI, HJ. split; intros; try (by apply stmt_ok_both; auto); try (by apply keeps_both; auto).
  all: try (match goal with H : both I J _ |- _ => destruct H end; split; auto).
  match goal with H : winv (both I J) _ |- _ => apply winv_both in H as [? ?] end. apply winv_both. auto.
Qed.
#[export] Instance both_enters {EI : Enters cfg kr I} {EJ : Enters cfg kr J} : Enters cfg kr (both I J).
Proof. destruct EI, EJ. split; intros r detail u o w ?; [intros ? []|intros []]; split; auto. Qed.
End conj.

(** ** From single statements

    An invariant that survives every single statement is maintained. *)
Record by_statement `{Postgres} (cfg : Config) (kr : Keyring) (I : db → Prop) : Prop := {
  bs_audit d l : I d → I (d <| audit_log := l |>);
  bs_buckets d m : I d → I (d <| buckets := m |>);
  bs_events d l : I d → I (d <| events := l |>);
  bs_insert_user id f : stmt_ok I (sql_insert_user id f);
  bs_insert_user_skip id f : stmt_ok I (sql_insert_user_skip id f);
  bs_update_user id f : (∀ u, u_email (f u) = u_email u) → stmt_ok I (sql_update_user id f);
  bs_insert_identity iid uid p s : stmt_ok I (sql_insert_identity iid uid p s);
  bs_validate tok : preserves (keeps I) (Validate (session_config cfg) tok);
  bs_revoke h : stmt_ok I (sql_revoke h);
  bs_revoke_all uid : stmt_ok I (sql_revoke_all uid);
  bs_purge_sessions : stmt_ok I sql_purge_sessions;
  bs_consume h p : stmt_ok I (sql_consume h p);
  bs_purge_tokens : stmt_ok I sql_purge_tokens;
  bs_queue uid to p ttl o w :
    winv I w → tx_has (addressed uid to) w →
    winv I (snd (queueOneTimeLinkTx cfg kr uid to p (fst (link_kind p)) (snd (link_kind p)) ttl o w));
  bs_reduce pmid typ at_ : stmt_ok I (sql_reduce pmid typ at_);
  bs_finalize id lease out : stmt_ok I (sql_finalize id lease out);
  bs_retire ids st r : st ≠ pending → stmt_ok I (sql_retire ids st r);
  bs_lease uuid ids : stmt_ok I (sql_lease uuid ids);
  bs_purge_jobs t : stmt_ok I (sql_purge_jobs t)
}.

Lemma GenerateToken_keeps I : preserves (keeps I) GenerateToken.
Proof. unfold GenerateToken, rand_bytes. solve_preserves. Qed.
(** With no transaction open, the committed tables are all there is. *)
Lemma winv_closed I w : w_tx w = None → I (w_db w) → winv I w.
Proof. intros Hw Hd. split; [done|]. intros t. by rewrite Hw. Qed.

Section audited.
Context `{Postgres} (cfg : Config) (I : db → Prop).
Context (Haudit : ∀ d l, I d → I (d <| audit_log := l |>)).
Lemma record_keeps_I strict ex e a ip dt : preserves (keeps I) (record strict ex e a ip dt).
Proof. unfold record. pose proof (sql_insert_audit_ok I e a (canonical_ip ip) dt Haudit). solve_preserves. Qed.
#[local] Hint Resolve record_keeps_I : preserves.
Lemma auditedTx_keeps_I {A} ip (action : M (res err (auditRecord * A))) :
  preserves (keeps I) action → preserves (keeps I) (auditedTx cfg ip action).
Proof. intros Ha. unfold auditedTx, RecordTx, Record. apply with_tx_keeps. solve_preserves. Qed.
End audited.

Lemma statements_maintain `{Postgres} cfg kr I : by_statement cfg kr I → Maintained cfg kr I.
Proof.
  intros []. split; auto.
  - intros id f Hf. apply bs_update_user0. intros u. apply Hf.
  - intros ip id b o w Hw Hd. apply (auditedTx_keeps_I cfg I bs_audit0); [|by apply winv_closed].
    unfold set_disabled_action, SetDisabledTx, setDisabled, RevokeAllForUserTx, revokeAllForUser. solve_preserves.
Qed.
Lemma statements_enter `{Postgres} cfg kr I :
  by_statement cfg kr I →
  (∀ tok uid now ua ip, stmt_ok I (sql_insert_session (HashToken tok)
     (MkSession uid now now (now + Lifetime (session_config cfg)) ua ip))) →
  Enters cfg kr I.
Proof.
  intros [] Hs. pose proof (GenerateToken_keeps I).
  split; [intros r detail uid o w Hw _ Hd|intros r detail tok o w Hw Hd];
    (apply (auditedTx_keeps_I cfg I bs_audit0); [|by apply winv_closed]);
    unfold login_action, CreateTx, create, time_Now, magic_resolve, ConsumeTx, consume, DisabledTx, MarkEmailVerifiedTx,
      markEmailVerified; solve_preserves.
Qed.

(** ** The operations of the stores *)
Section operations.
Context `{Postgres} `{PasswordLib} (cfg : Config) (kr : Keyring) (I : db → Prop) {MI : Maintained cfg kr I}.

Lemma refill_ok key rule : stmt_ok I (sql_refill key rule).
Proof. intros now d a d' Hd [= <- <-]. by apply MI. Qed.
Lemma spend_ok key : stmt_ok I (sql_spend key).
Proof. intros now d a d' Hd [= <- <-]. by apply MI. Qed.
Lemma purge_audit_ok t : stmt_ok I (sql_purge_audit t).
Proof. intros now d a d' Hd [= <- <-]. by apply MI. Qed.
Lemma purge_stale_ok t : stmt_ok I (sql_purge_stale t).
Proof. intros now d a d' Hd [= <- <-]. by apply MI. Qed.
Lemma insert_event_ok s p t at_ : stmt_ok I (sql_insert_event s p t at_).
Proof.
  intros now d a d' Hd. unfold sql_insert_event. destruct (existsb _ _); intros [= <- <-]; [done|]. by apply MI.
Qed.
Lemma purge_events_ok t : stmt_ok I (sql_purge_events t).
Proof. intros now d a d' Hd [= <- <-]. by apply MI. Qed.
Lemma insert_batch_ok l : stmt_ok I (sql_insert_batch l).
Proof.
  induction l as [|[id rec] l IH]; intros now d a d' Hd; simpl; [by intros [= <- <-]|].
  intros ([n d1] & H1 & ([m d2] & H2 & [= <- <-])%bind_Some)%bind_Some.
  eapply IH; [|exact H2]. eapply mt_insert_user_skip; [exact Hd|exact H1].
Qed.
Lemma update_user_ok id f :
  (∀ u, u_email (f u) = u_email u ∧ u_disabled (f u) = u_disabled u) → stmt_ok I (sql_update_user id f).
Proof. apply MI. Qed.
#[local] Hint Resolve refill_ok spend_ok purge_audit_ok purge_stale_ok insert_event_ok purge_events_ok
  insert_batch_ok mt_insert_user mt_insert_user_skip mt_insert_identity mt_validate mt_revoke
  mt_revoke_all mt_purge_sessions mt_consume mt_purge_tokens mt_reduce mt_finalize mt_lease mt_purge_jobs : preserves.
#[local] Hint Extern 3 (stmt_ok I (sql_update_user _ _)) => apply update_user_ok; done : preserves.
#[local] Hint Extern 2 (stmt_ok I (sql_retire _ _ _)) => apply mt_retire; discriminate : preserves.

Lemma HashPassword_keeps pw : preserves (keeps I) (HashPassword pw).
Proof. apply sees_keeps; intros o w; apply HashPassword_keeps_world. Qed.
#[local] Hint Resolve HashPassword_keeps GenerateToken_keeps UUIDv7_keeps : preserves.
#[local] Hint Extern 5 (preserves (keeps _) _) => apply responds_keeps; solve [solve_responds] : preserves.

Lemma Allow_mt key rule : preserves (keeps I) (Allow key rule).
Proof. unfold Allow. apply with_tx_keeps. solve_preserves. Qed.
Lemma checkLoginRate_mt r id : preserves (keeps I) (checkLoginRate cfg r id).
Proof. unfold checkLoginRate, allow. pose proof Allow_mt. solve_preserves. Qed.
Lemma record_mt strict ex e a ip dt : preserves (keeps I) (record strict ex e a ip dt).
Proof. apply record_keeps_I, MI. Qed.
#[local] Hint Resolve record_mt : preserves.
Lemma recordAudit_mt r e a dt : preserves (keeps I) (recordAudit cfg r e a dt).
Proof. unfold recordAudit, Record. solve_preserves. Qed.
Lemma auditedTx_mt {A} ip (action : M (res err (auditRecord * A))) :
  preserves (keeps I) action → preserves (keeps I) (auditedTx cfg ip action).
Proof. apply auditedTx_keeps_I, MI. Qed.
Lemma revoke_mt ex tok : preserves (keeps I) (revoke ex tok).
Proof. unfold revoke. solve_preserves. Qed.
Lemma revokeAllForUser_mt ex uid : preserves (keeps I) (revokeAllForUser ex uid).
Proof. unfold revokeAllForUser. solve_preserves. Qed.
Lemma consume_mt ex tok p : preserves (keeps I) (consume ex tok p).
Proof. unfold consume. solve_preserves. Qed.
Lemma link_identity_mt p uid b : preserves (keeps I) (link_identity p uid b).
Proof. unfold link_identity. solve_preserves. Qed.
#[local] Hint Resolve Allow_mt checkLoginRate_mt recordAudit_mt auditedTx_mt revoke_mt
  revokeAllForUser_mt consume_mt link_identity_mt : preserves.
Lemma UpsertByOAuth_mt p b : preserves (keeps I) (UpsertByOAuth p b).
Proof. unfold UpsertByOAuth. apply with_tx_keeps. solve_preserves. Qed.
Lemma createWithPassword_mt ex id e h : preserves (keeps I) (createWithPassword ex id e h).
Proof. unfold createWithPassword. solve_preserves. Qed.
Lemma setPassword_mt ex id h : preserves (keeps I) (setPassword ex id h).
Proof. unfold setPassword. solve_preserves. Qed.
Lemma markEmailVerified_mt ex id : preserves (keeps I) (markEmailVerified ex id).
Proof. unfold markEmailVerified. solve_preserves. Qed.
Lemma DisabledTx_mt uid : preserves (keeps I) (DisabledTx uid).
Proof. unfold DisabledTx. solve_preserves. Qed.
Lemma PasswordCredential_mt e : preserves (keeps I) (PasswordCredential e).
Proof. unfold PasswordCredential. solve_preserves. Qed.
Lemma ByID_mt id : preserves (keeps I) (ByID id).
Proof. unfold ByID. solve_preserves. Qed.
#[local] Hint Resolve UpsertByOAuth_mt createWithPassword_mt setPassword_mt markEmailVerified_mt
  DisabledTx_mt PasswordCredential_mt ByID_mt : preserves.

Ltac maintain := repeat first [ preserves_step
  | lazymatch goal with |- preserves _ (auditedTx _ _ _) => apply auditedTx_mt end
  | solve [eauto with preserves] ].

(** *** The handlers that send no mail *)
Lemma finishLogin_mt r c : preserves (keeps I) (finishLogin cfg r c).
Proof. apply responds_keeps, finishLogin_responds. Qed.
Lemma login_failed_mt r a e reason : preserves (keeps I) (login_failed cfg r a e reason).
Proof. unfold login_failed, bad_credentials. maintain. Qed.
#[local] Hint Resolve finishLogin_mt login_failed_mt : preserves.
Lemma handleLogout_mt r : preserves (keeps I) (handleLogout cfg r).
Proof. unfold handleLogout, logout_action, RevokeTx, finish_logout, clearSessionCookie. maintain. Qed.
Lemma handleResetConfirm_mt r : preserves (keeps I) (handleResetConfirm cfg r).
Proof.
  unfold handleResetConfirm, reset_action, ConsumeTx, SetPasswordTx, RevokeAllForUserTx, reset_done. maintain.
Qed.
Lemma handleVerify_mt r : preserves (keeps I) (handleVerify cfg r).
Proof. unfold handleVerify, Consume, MarkEmailVerified. maintain. Qed.
Lemma handleIntrospect_mt r : preserves (keeps I) (handleIntrospect cfg r).
Proof. unfold handleIntrospect. maintain. Qed.
Lemma handleSessionRevoke_mt r : preserves (keeps I) (handleSessionRevoke cfg r).
Proof. unfold handleSessionRevoke, Revoke. maintain. Qed.
Lemma handleAdmin_mt r :
  preserves (keeps I) (handleAdminGetUser r) ∧ preserves (keeps I) (handleAdminRevokeUserSessions cfg r).
Proof. unfold handleAdminGetUser, handleAdminRevokeUserSessions, RevokeAllForUser. split; maintain. Qed.
Lemma reduceEvent_mt pmid typ at_ : preserves (keeps I) (reduceEvent pmid typ at_).
Proof. unfold reduceEvent. maintain. Qed.
#[local] Hint Resolve reduceEvent_mt : preserves.
Lemma handleResendWebhook_mt r : preserves (keeps I) (handleResendWebhook cfg r).
Proof. unfold handleResendWebhook, record_event, RecordProviderEvent, time_Now. maintain. Qed.

(** *** The handlers that sign in, or lock out *)

(** From one state between requests to the next. *)
Definition settled (w w' : world) : Prop :=
  w_tx w = None → I (w_db w) → w_tx w' = None ∧ I (w_db w').
#[export] Instance settled_preorder : PreOrder settled.
Proof.
  split; [by intros w|]. intros w1 w2 w3 H1 H2 Hw Hd. destruct (H1 Hw Hd). by apply H2.
Qed.
Lemma settled_keeps {A} (m : M A) : preserves (keeps I) m → preserves closes m → preserves settled m.
Proof. intros Hk Hc o w Hw Hd. split; [by apply Hc|]. by apply Hk, winv_closed. Qed.
Lemma settled_at {A} (m : M A) o w : preserves (keeps I) m → w_tx w = None → I (w_db w) → I (w_db (snd (m o w))).
Proof. intros Hk Hw Hd. by apply Hk, winv_closed. Qed.
(** An answer after a transaction. *)
Lemma answered {A} (m : M A) (k : A → M unit) o w :
  (∀ a, responds (k a)) → I (w_db (snd (m o w))) → I (w_db (snd ((m ≫= k) o w))).
Proof. intros Hk Hm. rewrite bind_run. by rewrite (proj1 (Hk _) o _). Qed.

Context {EI : Enters cfg kr I}.
Lemma start_password_session_mt r uid o w :
  w_tx w = None → enabled uid (w_db w) → I (w_db w) → I (w_db (snd (start_password_session cfg r uid o w))).
Proof.
  intros Hw He Hd. unfold start_password_session. apply answered; [|by eapply mt_login].
  intros [[c u]|e]; auto with responds.
Qed.
Lemma rehash_keeps J uid pw :
  (∀ h, stmt_ok J (sql_update_user uid (λ u, u <| u_password_hash := Some h |>))) →
  preserves (keeps J) (rehash uid pw).
Proof.
  intros HJ. unfold rehash, SetPassword, setPassword.
  assert (preserves (keeps J) (HashPassword pw)) by (apply sees_keeps; intros o w; apply HashPassword_keeps_world).
  solve_preserves.
Qed.
Lemma password_checked_mt r e pw c o w :
  w_tx w = None → (c_has_password c = true → c_disabled c = false → enabled (c_user_id c) (w_db w)) →
  I (w_db w) → I (w_db (snd (password_checked cfg r e pw c o w))).
Proof.
  intros Hw He Hd. unfold password_checked.
  destruct (negb (c_has_password c) || c_disabled c) eqn:Ec.
  { apply settled_at; [|done..]. maintain. }
  apply orb_false_iff in Ec as [Hp%negb_false_iff Hdis]. specialize (He Hp Hdis).
  destruct (VerifyPassword pw (c_hash c)) as [[] re| |]; try solve [apply settled_at; [maintain|done..]].
  rewrite bind_run. set (pre := if re then _ else _).
  assert (Hpre : I (w_db (snd (pre o w))) ∧ enabled (c_user_id c) (w_db (snd (pre o w))) ∧ w_tx (snd (pre o w)) = None).
  { unfold pre. destruct re; [|done]. split_and!.
    - apply settled_at; [|done..]. apply rehash_keeps. intros h. by apply update_user_ok.
    - apply (rehash_keeps (enabled (c_user_id c))); [|by apply winv_closed]. intros h. by apply update_enabled.
    - by apply rehash_run. }
  destruct (pre o w) as [ok w1]. cbn [fst snd] in *. destruct Hpre as (H1 & H2 & H3).
  destruct ok; [|done]. by apply start_password_session_mt.
Qed.
Lemma handlePasswordLogin_mt r : preserves settled (handlePasswordLogin cfg r).
Proof.
  intros o w Hw Hd. split; [by apply handlePasswordLogin_tidy|]. unfold handlePasswordLogin. rewrite bind_run.
  pose proof (responds_checkCSRF cfg r) as [Hdb Htx]. specialize (Hdb o w). specialize (Htx o w). unfold sees in *.
  destruct (checkCSRF cfg r o w) as [ok w1]. cbn [fst snd] in *. rewrite <-Hdb in Hd. rewrite <-Htx in Hw. clear Hdb Htx.
  destruct ok; cbn [negb]; [|done]. destruct (_ || _); [apply settled_at; [maintain|done..]|].
  set (e := FormValue r "email"). rewrite bind_run.
  pose proof (settled_at _ o w1 (checkLoginRate_mt r e) Hw Hd) as Hd2.
  pose proof (checkLoginRate_closes cfg r e o w1 Hw) as Hw2.
  destruct (checkLoginRate cfg r e o w1) as [ok w2]. cbn [fst snd] in *. destruct ok; cbn [negb]; [|done]. rewrite bind_run.
  pose proof (quiet_run (PasswordCredential e) o w2 (λ c, PasswordCredential_quiet c e) Hw2) as Hq.
  pose proof (settled_at _ o w2 (PasswordCredential_mt e) Hw2 Hd2) as Hd3.
  pose proof (PasswordCredential_closes e o w2 Hw2) as Hw3.
  destruct (PasswordCredential e o w2) as [[c|er] w3] eqn:EP; cbn [fst snd] in *; [|apply settled_at; [maintain|done..]].
  apply password_checked_mt; [done| |done]. intros Hp Hdis.
  destruct (PasswordCredential_found e o w2 c w3 EP Hp) as (u & h & Hu & _ & _ & Hcd).
  apply user_by_email_Some in Hu as [Hu _]. exists u. rewrite (core_users _ _ Hq). split; [done|congruence].
Qed.
Lemma handleMagicLinkConfirm_mt r : preserves settled (handleMagicLinkConfirm cfg r).
Proof.
  intros o w Hw Hd. split; [by apply handleMagicLinkConfirm_tidy|]. unfold handleMagicLinkConfirm.
  destruct (str_eqb _ ""); [apply settled_at; [maintain|done..]|]. apply answered; [|by eapply mt_magic].
  intros [[c u]|e]; [auto with responds|]. destruct (_ || _); [destruct (wantsJSON r)|]; auto with responds.
Qed.

Lemma oauth_login_mt r n p o w :
  w_tx w = None → I (w_db w) → I (w_db (snd (oauth_login cfg r n p o w))).
Proof.
  intros Hw Hd. unfold oauth_login. rewrite bind_run.
  pose proof (settled_at _ o w (UpsertByOAuth_mt p (negb (str_eqb (Signup_ cfg) SignupDisabled))) Hw Hd) as Hd1.
  pose proof (UpsertByOAuth_closes p (negb (str_eqb (Signup_ cfg) SignupDisabled)) o w Hw) as Hw1.
  destruct (UpsertByOAuth _ _ o w) as [[ur|e] w1] eqn:EU; cbn [fst snd] in *.
  - apply UpsertByOAuth_enabled in EU. apply answered; [|by eapply mt_login].
    intros [[c u]|e]; [apply finishLogin_responds|auto with responds].
  - apply settled_at; [|done..]. pose proof (λ c m, responds_keeps I _ (oauthFail_responds cfg r c m)). maintain.
Qed.
Lemma handleOAuthCallback_mt providers r : preserves settled (handleOAuthCallback cfg providers r).
Proof.
  assert (Hr : ∀ A (m : M A), responds m → preserves settled m).
  { intros A m Hm. apply settled_keeps; [by apply responds_keeps|by apply responds_closes]. }
  assert (Hl : ∀ n p, preserves settled (oauth_login cfg r n p)).
  { intros n p o w Hw Hd. split; [by apply oauth_login_closes|by apply oauth_login_mt]. }
  unfold handleOAuthCallback. destruct (providers !! _) as [prov|]; [|auto with responds].
  pose proof (λ c m, Hr _ _ (oauthFail_responds cfg r c m)) as Hf.
  assert (Ht : ∀ n, preserves settled (clearTransient cfg n)) by (intros n; apply Hr; unfold clearTransient; auto with responds).
  assert (He : ∀ c v, preserves settled (Exchange prov c v)).
  { intros c v. apply settled_keeps; [apply sees_keeps; [apply Exchange_db|apply Exchange_tx]|apply sees_closes, Exchange_tx]. }
  assert (Hc : preserves settled (IncCounter metricOAuthExchangeErrors)) by (apply Hr; auto with responds).
  assert (Hv : preserves settled recovered) by (apply Hr; auto with responds).
  solve_preserves.
Qed.
Lemma handleAdminSetUserDisabled_mt r : preserves settled (handleAdminSetUserDisabled cfg r).
Proof.
  intros o w Hw Hd. split; [by apply admin_tidy|]. unfold handleAdminSetUserDisabled.
  destruct (ParseBool _) as [b|]; [|apply settled_at; [maintain|done..]]. rewrite bind_run.
  pose proof (settled_at _ o w (ByID_mt (PathValue r "id")) Hw Hd) as Hd1.
  assert (Hw1 : preserves closes (ByID (PathValue r "id"))) by (unfold ByID; solve_preserves).
  specialize (Hw1 o w Hw).
  destruct (ByID _ o w) as [[u|e] w1]; cbn [fst snd] in *; [|apply settled_at; [maintain|done..]].
  apply answered; [|by eapply mt_disable]. intros [[]|e]; auto with responds.
Qed.
Lemma requireBearer_mt secret unset wrong h r :
  preserves settled (h r) → preserves settled (requireBearer secret unset wrong h r).
Proof.
  intros Hh. assert (Hr : ∀ c k m, preserves settled (writeError c k m)).
  { intros c k m. apply settled_keeps; [apply responds_keeps|apply responds_closes]; auto with responds. }
  unfold requireBearer. by repeat case_match.
Qed.

(** *** The handlers that queue a link *)

(** A transaction whose action needs a fact of the committed tables. *)
Lemma auditedTx_when {A} (F : db → Prop) ip (action : M (res err (auditRecord * A))) o w :
  (∀ w', winv I w' → tx_has F w' → winv I (snd (action o w'))) →
  F (w_db w) → winv I w → winv I (snd (auditedTx cfg ip action o w)).
Proof.
  intros Ha HF Hw. unfold auditedTx, with_tx. rewrite bindE_run.
  pose proof (Begin_keeps I o w Hw) as Hw0. destruct (Begin o w) as [[[]|e] w0] eqn:EB; [|exact Hw0].
  cbn [fst snd] in *. rewrite bind_run, bind_run, ret_run. cbn [snd]. apply Rollback_keeps.
  assert (Ht : tx_has F w0).
  { revert EB. unfold Begin. destruct (o_outcome o (w_step w)); intros [= <-]. by intros t [= <-]. }
  specialize (Ha w0 Hw0 Ht). rewrite bindE_run.
  destruct (action o w0) as [[[rec a]|e] w1]; cbn [fst snd] in *; [|exact Ha].
  match goal with |- winv I (snd (?m o w1)) => cut (preserves (keeps I) m); [intros Hm; by apply Hm|] end.
  unfold RecordTx, Record. maintain.
Qed.
Lemma link_action_mt uid to p ev o w :
  winv I w → tx_has (addressed uid to) w →
  winv I (snd (link_action cfg kr uid to p (fst (link_kind p)) (snd (link_kind p)) ev o w)).
Proof.
  intros Hw Ht. unfold link_action. rewrite bindE_run.
  pose proof (mt_queue (I := I) uid to p (15 * Minute) o w Hw Ht) as Hq.
  destruct (queueOneTimeLinkTx _ _ _ _ _ _ _ _ o w) as [[[]|e] w1]; exact Hq.
Qed.
Lemma send_link_mt r uid to p ev o w :
  addressed uid to (w_db w) → winv I w →
  winv I (snd (send_link cfg kr r uid to p (fst (link_kind p)) (snd (link_kind p)) ev o w)).
Proof.
  intros Ha Hw. unfold send_link. rewrite bind_run.
  assert (Hs : winv I (snd (auditedTx cfg (clientIP cfg r)
    (link_action cfg kr uid to p (fst (link_kind p)) (snd (link_kind p)) ev) o w))).
  { apply (auditedTx_when (addressed uid to)); [|done..]. intros w' Hw' Ht. by apply link_action_mt. }
  destruct (auditedTx _ _ _ o w) as [[[]|e] w1]; exact Hs.
Qed.

Lemma ByEmail_addressed e u o w w' :
  ByEmail e o w = (Ok (Some u), w') → w_db w' = w_db w ∧ addressed (ID u) e (w_db w).
Proof.
  unfold ByEmail. intros (d & Hs & ->)%exec_pool_ok. injection Hs as Hu <-. split; [done|].
  apply fmap_Some in Hu as ([k r] & Hu & ->). apply user_by_email_Some in Hu as [Hk He]. by exists r.
Qed.
Lemma ByEmail_keeps e : preserves (keeps I) (ByEmail e).
Proof. unfold ByEmail. auto with preserves. Qed.
(** What a link request does once the address was looked up. *)
Lemma link_request_mt e (send : User → M unit) (rest : M unit) o w :
  (∀ u w', addressed (ID u) e (w_db w') → winv I w' → winv I (snd (send u o w'))) →
  preserves (keeps I) rest → winv I w →
  winv I (snd ((u ← ByEmail e;
    _ ← (match u with Ok (Some u) => send u | _ => mret tt end); rest) o w)).
Proof.
  intros Hs Hr Hw. rewrite bind_run. pose proof (ByEmail_keeps e o w Hw) as Hw1.
  destruct (ByEmail e o w) as [[[u|]|er] w1] eqn:E; cbn [fst snd] in *; rewrite bind_run; apply Hr; try done.
  apply Hs; [|done]. apply ByEmail_addressed in E as [-> Ha]. exact Ha.
Qed.

(** The guards before the lookup. *)
Ltac before_lookup :=
  repeat lazymatch goal with
  | |- preserves _ (mbind _ (ByEmail _)) => fail
  | |- preserves _ (mbind _ _) => apply preserves_bind; [exact _|maintain|intro]
  | |- preserves _ (if _ then _ else _) => case_match
  end;
  lazymatch goal with |- preserves _ (mbind _ (ByEmail _)) => idtac | |- _ => maintain end.
Lemma handleResetRequest_mt r : preserves (keeps I) (handleResetRequest cfg kr r).
Proof.
  unfold handleResetRequest. before_lookup. intros o w Hw.
  apply (link_request_mt _ (λ u, send_link cfg kr r (ID u) _ _ _ _ _)); [|maintain|done].
  clear Hw. intros u w' Ha Hw. by apply (send_link_mt r (ID u) _ PurposeReset).
Qed.
Lemma handleMagicLinkRequest_mt r : preserves (keeps I) (handleMagicLinkRequest cfg kr r).
Proof.
  unfold handleMagicLinkRequest. before_lookup. intros o w Hw.
  apply (link_request_mt _ (λ u, if Disabled u then mret tt else send_link cfg kr r (ID u) _ _ _ _ _));
    [|maintain|done].
  clear Hw. intros u w' Ha Hw. destruct (Disabled u); [done|]. by apply (send_link_mt r (ID u) _ PurposeMagicLink).
Qed.

Lemma signup_action_mt id e hash o w :
  winv I w → winv I (snd (signup_action cfg kr id e hash o w)).
Proof.
  intros Hw. unfold signup_action, CreateWithPasswordTx, createWithPassword. rewrite bindE_run.
  pose proof (exec_keeps I Tx _ (mt_insert_user (I := I) id (new_password_user e hash)) o w Hw) as Hw1.
  case_exec x w1 E. cbn [snd] in Hw1. destruct x as [[]|er]; [|done].
  assert (Ht : tx_has (addressed id e) w1).
  { apply exec_tx_ok in E as (t & d & _ & _ & Hs & ->). unfold sql_insert_user in Hs.
    destruct (users (tx_db t) !! id); [done|]. destruct (user_by_email _ _); [done|]. injection Hs as <-.
    intros t0 [= <-] _. exists (new_password_user e hash (tx_now t)). rsimp. by rewrite lookup_insert_eq. }
  pose proof (mt_queue (I := I) id e PurposeVerify (24 * Hour) o w1 Hw1 Ht) as Hq.
  rewrite bindE_run. cbn [link_kind fst snd] in Hq.
  destruct (queueOneTimeLinkTx _ _ _ _ _ _ _ _ o w1) as [[[]|e'] w2]; exact Hq.
Qed.
Lemma handleSignup_mt r : preserves (keeps I) (handleSignup cfg kr r).
Proof.
  assert (Ha : ∀ id e hash, preserves (keeps I) (signup_action cfg kr id e hash))
    by (intros id e hash o w Hw; by apply signup_action_mt).
  unfold handleSignup. maintain.
Qed.
End operations.

Create HintDb maintained.
#[export] Hint Resolve handlePasswordLogin_mt handleMagicLinkConfirm_mt handleOAuthCallback_mt
  handleAdminSetUserDisabled_mt : maintained.
(** Those that may run inside a transaction as well. *)
Create HintDb kept.
#[export] Hint Resolve handleSignup_mt handleLogout_mt handleResetRequest_mt handleResetConfirm_mt handleVerify_mt
  handleMagicLinkRequest_mt handleResendWebhook_mt handleIntrospect_mt handleSessionRevoke_mt : kept.

(** ** The server *)
Section server.
Context `{Postgres} `{PasswordLib} (themeCSS : string) (exposition : oracle → nat → string) (moved : Z) (srv : Server).
Context (I : db → Prop) {MI : Maintained (s_cfg srv) (s_keyring srv) I}.
Abbreviation table := (routes themeCSS exposition srv).

Lemma settled_responds {A} (m : M A) : responds m → preserves (settled I) m.
Proof. intros Hm. apply settled_keeps; [by apply responds_keeps|by apply responds_closes]. Qed.
Lemma pages_mt r :
  responds (handleLoginPage (s_cfg srv) (s_providers srv) r)
  ∧ responds (handleResetRequestPage (s_cfg srv) r)
  ∧ responds (handleResetConfirmPage (s_cfg srv) r)
  ∧ responds (handleOAuthStart (s_cfg srv) (s_providers srv) r).
Proof.
  unfold handleLoginPage, handleResetRequestPage, handleResetConfirmPage, handleOAuthStart, setTransient,
    captureRedirect, setTransientTTL, GenerateOAuthState, NewPKCE, rand_bytes.
  split_and!; solve_responds.
Qed.
(** Behind its bearer guard or not, a handler keeps the state settled. *)
Lemma guarded_mt secret unset wrong h r :
  preserves (keeps I) (h r) → tidy h → preserves (settled I) (requireBearer secret unset wrong h r).
Proof. intros Hk Hc. apply requireBearer_mt, settled_keeps; [done|apply Hc]. Qed.
(** The routes that open sessions, and the others. *)
Definition login_routes : list (string * string) :=
  [("POST", "/login"); ("GET", "/auth/{provider}/callback"); ("GET", "/magiclink/confirm")].
Definition opens_session (rt : route handler) : Prop := (rt_method rt, rt_pattern rt) ∈ login_routes.
Ltac on_routes Hin :=
  unfold routes in Hin; cbn in Hin;
  repeat (apply elem_of_cons in Hin as [->|Hin]); [..|by apply elem_of_nil in Hin]; cbn [rt_handler].
Lemma other_routes_mt rt r : rt ∈ table → ¬ opens_session rt → preserves (settled I) (rt_handler rt r).
Proof.
  pose proof (pages_mt r) as (? & ? & ? & ?).
  pose proof (handleAdmin_mt (s_cfg srv) (s_keyring srv) I r) as (? & ?).
  pose proof (admin_tidy (s_cfg srv)) as (? & ? & ?).
  pose proof (small_tidy themeCSS exposition srv r) as (? & ? & ? & ? & ? & ? & ? & ?).
  intros Hin Hno. pose proof (proj2 (routes_answer themeCSS exposition srv rt r Hin)) as Hc. revert Hc Hno.
  on_routes Hin; intros Hc Hno.
  all: first
    [ by apply settled_responds | apply settled_keeps; [solve [eauto with kept]|exact Hc]
    | apply guarded_mt; [solve [eauto with kept]|auto using handleIntrospect_tidy, handleSessionRevoke_tidy]
    | apply requireBearer_mt; solve [eauto with maintained]
    | destruct Hno; unfold opens_session, login_routes; cbn [rt_method rt_pattern]; set_solver ].
Qed.
(** What the server keeps when the handler that is chosen keeps it. *)
Lemma mux_serve_when escaped rawq r :
  (∀ h vals r', mux_find table (r_method r) escaped rawq = MuxServe h vals → preserves (settled I) (h r')) →
  preserves (settled I) (mux_serve themeCSS exposition moved srv escaped rawq r).
Proof.
  intros Hr. unfold mux_serve. destruct (mux_find _ _ _ _) as [url|h vals|ms|] eqn:E.
  - apply settled_responds. auto with responds.
  - by eapply Hr.
  - apply settled_responds. solve_responds.
  - unfold http_NotFound. apply settled_responds. auto with responds.
Qed.
Lemma ServeHTTP_when escaped rawq r :
  (∀ h vals r', mux_find table (r_method r) escaped rawq = MuxServe h vals → preserves (settled I) (h r')) →
  preserves (settled I) (ServeHTTP themeCSS exposition moved srv escaped rawq r).
Proof.
  intros Hr. assert (Hm : r_method (limitBody r) = r_method r) by (unfold limitBody; by repeat case_match).
  rewrite <-Hm in Hr. apply mux_serve_when in Hr. clear Hm.
  assert (Hset : ∀ k v, preserves (settled I) (setHeader k v)) by (intros; apply settled_responds, responds_setHeader).
  assert (Hcount : preserves (settled I) count_request) by (intros o w Hw Hd; by split).
  unfold ServeHTTP, withSecurityHeaders, withRequestID, withLogging, withBodyLimit, newRequestID, rand_bytes.
  solve_preserves.
Qed.

Context {EI : Enters (s_cfg srv) (s_keyring srv) I}.
Lemma routes_mt rt r : rt ∈ table → preserves (settled I) (rt_handler rt r).
Proof.
  intros Hin. destruct (decide (opens_session rt)) as [Ho|Ho]; [|by apply other_routes_mt].
  revert Ho. on_routes Hin; intros Ho; try solve [eauto with maintained];
    unfold opens_session, login_routes in Ho; cbn in Ho; set_solver.
Qed.
(** Whatever the request and whatever the database answers. *)
Lemma ServeHTTP_mt escaped rawq r : preserves (settled I) (ServeHTTP themeCSS exposition moved srv escaped rawq r).
Proof. apply ServeHTTP_when. intros h vals r' (rt & Hin & <-)%mux_find_in. by apply routes_mt. Qed.
End server.

(** ** The worker, the purges and the import *)
Section background.
Context `{Postgres} (cfg : Config) (kr : Keyring) (I : db → Prop) {MI : Maintained cfg kr I}.
#[local] Hint Resolve mt_reduce mt_finalize mt_lease mt_purge_jobs mt_purge_sessions mt_purge_tokens
  mt_insert_user_skip insert_batch_ok purge_audit_ok purge_stale_ok purge_events_ok : preserves.
#[local] Hint Extern 2 (stmt_ok I (sql_retire _ _ _)) => apply mt_retire; discriminate : preserves.

Lemma reduce_all_mt pmid es : preserves (keeps I) (reduce_all pmid es).
Proof. pose proof (reduceEvent_mt cfg kr I pmid). induction es; simpl; solve_preserves. Qed.
#[local] Hint Resolve reduce_all_mt : preserves.
Lemma Finalize_mt id l out : preserves (keeps I) (Finalize id l out).
Proof. unfold Finalize, reconcileEvents. solve_preserves. Qed.
#[local] Hint Resolve Finalize_mt : preserves.
Lemma open_jobs_mt l : preserves (keeps I) (open_jobs kr l).
Proof. induction l; simpl; solve_preserves. Qed.
Lemma claim_tx_mt p l n : preserves (keeps I) (claim_tx p l n).
Proof. unfold claim_tx, retire, lease_jobs, time_Now. apply with_tx_keeps. solve_preserves. Qed.
#[local] Hint Resolve open_jobs_mt claim_tx_mt : preserves.
Lemma Claim_mt p l n : preserves (keeps I) (Claim kr p l n).
Proof. unfold Claim. solve_preserves. Qed.
#[local] Hint Resolve Claim_mt : preserves.

Context `{Sender}.
#[local] Hint Resolve Send_keeps : preserves.
Lemma deliver_mt job : preserves (keeps I) (deliver job).
Proof. unfold deliver. solve_preserves. Qed.
#[local] Hint Resolve deliver_mt : preserves.
Lemma deliver_all_mt jobs : preserves (keeps I) (deliver_all jobs).
Proof. induction jobs; simpl; solve_preserves. Qed.
#[local] Hint Resolve deliver_all_mt : preserves.
Lemma SetGauge_keeps n v : preserves (keeps I) (SetGauge n v).
Proof. by intros o w Hw. Qed.
#[local] Hint Resolve SetGauge_keeps : preserves.
Lemma poll_mt p l last : preserves (keeps I) (poll kr p l last).
Proof. unfold poll, sampleQueue, QueueStats, runOnce, jitterSleep, time_Now. solve_preserves. Qed.
Lemma Run_mt p l turns last : preserves (keeps I) (Run kr p l turns last).
Proof. pose proof poll_mt. revert last. induction turns; intros last; simpl; solve_preserves. Qed.

Lemma maintenance_mt ticks : preserves (keeps I) (runMaintenance cfg ticks).
Proof.
  assert (Ht : preserves (keeps I) (maintenance_turn cfg)).
  { unfold maintenance_turn, PurgeExpired, PurgeExpiredTokens, PurgeStale, PurgeOlderThan, PurgeFinished.
    solve_preserves. }
  induction ticks; simpl; solve_preserves.
Qed.

Lemma replay_rows_mt recs p : preserves (keeps I) (replay_rows recs p).
Proof.
  pose proof UUIDv7_keeps I. revert p. induction recs; intros p; simpl; unfold Import; solve_preserves.
Qed.
#[local] Hint Resolve replay_rows_mt with_ids_keeps : preserves.
Lemma flush_mt p : preserves (keeps I) (flush p).
Proof. unfold flush, ImportBatch. solve_preserves. Qed.
#[local] Hint Resolve flush_mt : preserves.
Lemma import_lines_mt lines p : preserves (keeps I) (import_lines lines p).
Proof. revert p. induction lines; intros p; simpl; unfold import_line; solve_preserves. Qed.
Lemma runImport_mt data : preserves (keeps I) (runImport data).
Proof. pose proof import_lines_mt. unfold runImport. solve_preserves. Qed.
End background.
