(* ===== verification/System.v ===== *)
(** * System: what holds of the tables as a whole

    The invariants that implement [Upkeep.Maintained] and [Upkeep.Enters]:
    references between the tables ([integrity]), payloads only in pending
    jobs ([outbox_ok]), the absolute cap of sessions ([sessions_capped]), no
    secret at rest ([digests]), every pending mail carrying its own link
    ([links_ok]), no session of a disabled account ([live]), and the sessions
    of before ([kept]), which only a login leaves. *)

From S2P Require Import Prelude GoLib GoUnicode GoHash GoAes GoNet GoUrl GoMux Schema World Logic Crypto Users ImportCmd Session RateLimit Tokens AuditLog Keyring Outbox Worker OAuth Config Ui Http Descriptor Webhook Service EndUser Flows Answer Server Maintenance Upkeep.

(** A statement that leaves the tables of the invariant alone. *)
Ltac untouched :=
  intros ? ? ? ? Huntouched Heqs; revert Heqs;
  unfold sql_insert_user, sql_insert_user_skip, sql_update_user, sql_insert_identity, sql_insert_session, sql_revoke,
    sql_revoke_all, sql_purge_sessions, sql_consume, sql_purge_tokens, sql_insert_job, sql_finalize,
    sql_supersede, sql_insert_token, sql_cancel_superseded;
  repeat case_match; intros [=]; subst; exact Huntouched.

(** ** Validation as one operation *)
Lemma exec_pool_winv {A} (I : db → Prop) (s : stmt A) o w :
  winv I w → (∀ now a d, s now (w_db w) = Some (a, d) → I d) → winv I (snd (exec Pool s o w)).
Proof.
  intros [Hd Ht] Hs. unfold exec, exec_pool.
  destruct (o_outcome o (w_step w)); [|done|];
    destruct (s _ _) as [[a d]|] eqn:E; split; rsimp; eauto.
Qed.
Lemma Validate_maintains `{Postgres} (I : db → Prop) sc tok :
  (∀ h, stmt_ok I (sql_delete_session h)) →
  (∀ d h s now e, I d → sessions d !! h = Some s →
     e = newExpiry sc now (s_created_at s) →
     I (d <| sessions := alter (λ s, s <| s_last_used_at := now |> <| s_expires_at := e |>) h (sessions d) |>)) →
  (∀ h now, stmt_ok I (sql_touch_session h now)) →
  preserves (keeps I) (Validate sc tok).
Proof.
  intros Hdel Hren Htouch o w Hw. unfold Validate. rewrite bind_run.
  pose proof (queryRow_keeps_read I Pool (λ d, session_user d (HashToken tok)) o w Hw) as Hw1.
  change (λ (_ : Z) d, Some (session_user d (HashToken tok), d)) with (sql_session_user (HashToken tok)) in Hw1.
  destruct (queryRow Pool _ o w) as [q w1] eqn:Eq. cbn [fst snd] in *.
  apply queryRow_read_ok in Eq as (_ & Hd1 & Hq).
  destruct q as [[s u]|e]; [|destruct e; exact Hw1].
  apply session_user_Some in Hq as [Hs _]. rewrite bind_run. unfold time_Now. cbn [fst snd tick].
  set (now := o_clock o (w_step w1)). set (w2 := w1 <| w_step := S (w_step w1) |>).
  assert (Hw2 : winv I w2) by exact Hw1. assert (Hd2 : w_db w2 = w_db w) by (unfold w2, set; simpl; congruence).
  clearbody w2.
  destruct (session_dead now s u).
  { rewrite bind_run. apply (exec_keeps I Pool _ (Hdel _) o w2 Hw2). }
  destruct (renewal sc now s) as [[e|]|] eqn:Er; [| |exact Hw2].
  - apply renewal_extends in Er as [_ ->].
    assert (Hw3 : winv I (snd (exec Pool (sql_renew_session (HashToken tok) now (newExpiry sc now (s_created_at s))) o w2))).
    { apply exec_pool_winv; [done|]. intros t [] d [= <-]. rewrite Hd2. eapply Hren; [apply Hw|exact Hs|done]. }
    rewrite bindE_run. by destruct (exec Pool _ o w2) as [[[]|er] w3].
  - pose proof (exec_keeps I Pool _ (Htouch (HashToken tok) now) o w2 Hw2) as Hw3.
    rewrite bindE_run. by destruct (exec Pool _ o w2) as [[[]|er] w3].
Qed.

(** Queueing a link, for an invariant that its statements maintain one by one. *)
Lemma queue_maintains `{Postgres} (I : db → Prop) cfg kr uid to p path subj ttl :
  (∀ u p t, stmt_ok I (sql_supersede u p t)) →
  (∀ id u tok p e, stmt_ok I (sql_insert_token id u (HashToken tok) p e)) →
  (∀ u p, stmt_ok I (sql_cancel_superseded u p)) →
  (∀ id q k n c, stmt_ok I (sql_insert_job id (new_job q k n c))) →
  preserves (keeps I) (queueOneTimeLinkTx cfg kr uid to p path subj ttl).
Proof.
  intros H1 H2 H3 H4. pose proof (GenerateToken_keeps I). pose proof (UUIDv7_keeps I).
  unfold queueOneTimeLinkTx, IssueTx, QueueTx, time_Now. solve_preserves.
Qed.

(** Accounts added under a fresh identifier. *)
Lemma inserts_user `{Postgres} (I : db → Prop) :
  (∀ d id u, users d !! id = None → I d → I (d <| users := <[id := u]> (users d) |>)) →
  (∀ id f, stmt_ok I (sql_insert_user id f)) ∧ (∀ id f, stmt_ok I (sql_insert_user_skip id f)).
Proof.
  intros Hi. split; intros id f now d a d' Hd.
  - unfold sql_insert_user. destruct (users d !! id) eqn:E; [done|]. destruct (user_by_email _ _); intros [=]; subst.
    by apply Hi.
  - unfold sql_insert_user_skip. destruct (user_by_email _ _); [by intros [= _ <-]|].
    destruct (users d !! id) eqn:E; [done|]. intros [= _ <-]. by apply Hi.
Qed.
(** Sessions removed by key, by owner, or by date. *)
Lemma removals `{Postgres} (I : db → Prop) :
  (∀ d m, m ⊆ sessions d → I d → I (d <| sessions := m |>)) →
  (∀ h, stmt_ok I (sql_delete_session h)) ∧ (∀ h, stmt_ok I (sql_revoke h))
  ∧ (∀ uid, stmt_ok I (sql_revoke_all uid)) ∧ stmt_ok I sql_purge_sessions.
Proof.
  intros Hm. split_and!.
  1-2: intros h now d a d' Hd [= <- <-]; apply Hm; [apply delete_subseteq|done].
  - intros uid now d a d' Hd [= <- <-]. apply Hm; [apply delete_where_subseteq|done].
  - intros now d a d' Hd [= <- <-]. apply Hm; [apply delete_where_subseteq|done].
Qed.

(** ** References between the tables *)
Section integrity.
Context `{Postgres}.
Lemma integrity_sessions d m :
  map_Forall (λ _ s, is_Some (users d !! s_user_id s)) m → integrity d → integrity (d <| sessions := m |>).
Proof. intros Hm [? ? ? ? ? ?]. by split. Qed.
Lemma integrity_shrink d m : m ⊆ sessions d → integrity d → integrity (d <| sessions := m |>).
Proof.
  intros Hm Hd. apply integrity_sessions; [|done]. intros h s Hs.
  apply (int_session d Hd h). by eapply lookup_weaken.
Qed.
Lemma integrity_alter_session d h f :
  (∀ s, s_user_id (f s) = s_user_id s) → integrity d → integrity (d <| sessions := alter f h (sessions d) |>).
Proof.
  intros Hf Hd. apply integrity_sessions; [|done]. intros k s. rewrite lookup_alter. case_decide; [subst|].
  - intros (s0 & Hs & ->)%fmap_Some. rewrite Hf. by apply (int_session d Hd _ _ Hs).
  - by apply (int_session d Hd k).
Qed.
(** Rows come from rows with the same references. *)
Lemma integrity_outbox d m :
  (∀ id b', m !! id = Some b' → ∃ b, outbox d !! id = Some b ∧ ob_user_id b' = ob_user_id b
     ∧ ob_token_id b' = ob_token_id b) →
  integrity d → integrity (d <| outbox := m |>).
Proof.
  intros Hm [Hu Hi Hs Ht Ho Hot]. split; rsimp; try done.
  - intros id b' Hb. destruct (Hm id b' Hb) as (b & Hb' & -> & _). by apply (Ho id).
  - intros id b' Hb t. destruct (Hm id b' Hb) as (b & Hb' & _ & ->). by apply (Hot id).
Qed.
Lemma integrity_update_where d q f :
  (∀ b, ob_user_id (f b) = ob_user_id b ∧ ob_token_id (f b) = ob_token_id b) →
  integrity d → integrity (d <| outbox := update_where q f (outbox d) |>).
Proof.
  intros Hf. apply integrity_outbox. intros id b'. rewrite lookup_update_where.
  intros (b & Hb & ->)%fmap_Some. exists b. destruct (Hf b). by destruct (q id b).
Qed.
Lemma reduce_row_refs now at_ typ b :
  ob_user_id (reduce_row now at_ typ b) = ob_user_id b ∧ ob_token_id (reduce_row now at_ typ b) = ob_token_id b.
Proof. unfold reduce_row. by destruct (event_kind_of typ), (is_pending b), (ob_status b). Qed.
Lemma sql_insert_job_integrity id row : stmt_ok integrity (sql_insert_job id row).
Proof.
  intros now d a d' [Hu Hi Hs Ht Ho Hot]. unfold sql_insert_job.
  destruct (outbox d !! id); [done|]. destruct (users d !! ob_user_id (row now)) as [u|] eqn:Eu; [|done].
  destruct (match ob_token_id (row now) with Some _ => _ | None => _ end) eqn:Et; [|done]. intros [= <- <-].
  split; rsimp; try done.
  - apply map_Forall_insert_2; [by exists u|done].
  - apply map_Forall_insert_2; [|done]. intros t Hx. rewrite Hx in Et. by apply bool_decide_eq_true in Et.
Qed.

Lemma integrity_statements cfg kr : by_statement cfg kr integrity.
Proof.
  split.
  - intros d l. apply integrity_audit.
  - intros d m [? ? ? ? ? ?]. by split.
  - intros d m [? ? ? ? ? ?]. by split.
  - apply sql_insert_user_ok.
  - apply sql_insert_user_skip_ok.
  - apply sql_update_user_ok.
  - apply sql_insert_identity_ok.
  - intros tok. apply Validate_maintains.
    + apply (removals _ integrity_shrink).
    + intros d h s now e Hd _ _. by apply integrity_alter_session.
    + intros h now t d a d' Hd [= <- <-]. by apply integrity_alter_session.
  - apply (removals _ integrity_shrink).
  - apply (removals _ integrity_shrink).
  - apply (removals _ integrity_shrink).
  - apply sql_consume_ok.
  - apply sql_purge_tokens_ok.
  - intros uid to p ttl o w Hw _. revert Hw. apply queue_maintains.
    + apply sql_supersede_ok.
    + intros. apply sql_insert_token_ok.
    + intros u q now d a d' Hd [= <- <-]. by apply integrity_update_where.
    + intros. apply sql_insert_job_integrity.
  - intros pmid typ at_ now d a d' Hd [= <- <-]. apply integrity_update_where; [|done]. apply reduce_row_refs.
  - intros id lease out now d a d' Hd. unfold sql_finalize. destruct (outbox d !! id) as [b|] eqn:Eb; [|by intros [= _ <-]].
    destruct (finalizes _ _ _); intros [= _ <-]; [|done]. apply integrity_outbox; [|done].
    intros k b'. rewrite lookup_insert. case_decide; [subst|eauto]. intros [= <-]. exists b. by destruct out.
  - intros ids st r _ now d a d' Hd [= <- <-]. apply integrity_update_where; [|done]. by destruct st.
  - intros uuid ids now d a d' Hd [= <- <-]. apply integrity_outbox; [|done]. intros k b'. rewrite map_lookup_imap.
    intros (b & Hb & [= <-])%bind_Some. exists b. by destruct (any_of ids k b).
  - intros t now d a d' Hd [= <- <-]. apply integrity_outbox; [|done].
    intros k b' [Hb _]%lookup_delete_where_Some. eauto.
Qed.
#[export] Instance integrity_maintained cfg kr : Maintained cfg kr integrity := statements_maintain _ _ _ (integrity_statements cfg kr).
#[export] Instance integrity_enters cfg kr : Enters cfg kr integrity.
Proof.
  apply (statements_enter cfg kr _ (integrity_statements cfg kr)).
  intros tok uid t ua ip now d a d' Hd (_ & [u Hu] & ->)%sql_insert_session_inv.
  apply integrity_sessions; [|done]. apply map_Forall_insert_2; [by exists u|apply Hd].
Qed.
End integrity.

(** ** The payload of a job *)
Section payload.
Context `{Postgres}.
Lemma outbox_statements cfg kr : by_statement cfg kr outbox_ok.
Proof.
  split; try (by intros); intros; try untouched.
  - apply Validate_maintains; intros; by try untouched.
  - intros now d a d' Hd [= <- <-] k b. rsimp. rewrite lookup_fmap, fmap_Some. intros (b0 & Hb & ->). exact (Hd k b0 Hb).
  - match goal with Hw : winv _ _ |- _ => revert Hw end.
    apply queue_maintains; intros; try untouched; [apply sql_cancel_superseded_ok|apply sql_insert_job_ok].
  - apply sql_reduce_ok.
  - apply sql_finalize_ok.
  - by apply sql_retire_ok.
  - apply sql_lease_ok.
  - apply sql_purge_jobs_ok.
Qed.
#[export] Instance outbox_maintained cfg kr : Maintained cfg kr outbox_ok := statements_maintain _ _ _ (outbox_statements cfg kr).
#[export] Instance outbox_enters cfg kr : Enters cfg kr outbox_ok.
Proof. apply (statements_enter cfg kr); [apply outbox_statements|]. intros. untouched. Qed.
End payload.

(** ** The absolute cap of a session *)
Section sessions.
Context `{Postgres}.
Definition sessions_capped (cfg : Config) (d : db) : Prop :=
  0 < MaxLifetime (session_config cfg) → capped (session_config cfg) d.

Lemma capped_alter cfg d h f :
  (∀ s, sessions d !! h = Some s → s_expires_at (f s) ≤ s_created_at (f s) + cap (session_config cfg)) →
  sessions_capped cfg d → sessions_capped cfg (d <| sessions := alter f h (sessions d) |>).
Proof.
  intros Hf Hd Hm k s. rsimp. rewrite lookup_alter. case_decide; [subst|by apply Hd].
  intros (s0 & Hs & ->)%fmap_Some. by apply Hf.
Qed.
Lemma capped_sub cfg d m : m ⊆ sessions d → sessions_capped cfg d → sessions_capped cfg (d <| sessions := m |>).
Proof. intros Hm Hd Hx k s Hs. apply (Hd Hx k). by eapply lookup_weaken. Qed.

Lemma capped_statements cfg kr : by_statement cfg kr (sessions_capped cfg).
Proof.
  split; try (by intros); intros; try untouched.
  - apply Validate_maintains.
    + apply (removals _ (capped_sub cfg)).
    + intros d h s t e Hd Hs ->. destruct (decide (0 < MaxLifetime (session_config cfg))) as [Hm|Hm]; [|by intros Hx].
      apply capped_alter; [|done]. intros s0 Hs0. rewrite Hs in Hs0. injection Hs0 as <-. unfold set. cbn [s_expires_at s_created_at].
      pose proof (newExpiry_capped (session_config cfg) t (s_created_at s) Hm). unfold cap. lia.
    + intros h t u d a d' Hd [= <- <-].
      destruct (decide (0 < MaxLifetime (session_config cfg))) as [Hm|Hm]; [|by intros Hx].
      apply capped_alter; [|done]. intros s Hs. cbn. by apply (Hd Hm h).
  - apply (removals _ (capped_sub cfg)).
  - apply (removals _ (capped_sub cfg)).
  - apply (removals _ (capped_sub cfg)).
  - match goal with Hw : winv _ _ |- _ => revert Hw end. apply queue_maintains; intros; untouched.
Qed.
#[export] Instance capped_maintained cfg kr : Maintained cfg kr (sessions_capped cfg) := statements_maintain _ _ _ (capped_statements cfg kr).
#[export] Instance capped_enters cfg kr : Enters cfg kr (sessions_capped cfg).
Proof.
  apply (statements_enter cfg kr); [apply capped_statements|].
  intros tok uid now ua ip t d a d' Hd (_ & _ & ->)%sql_insert_session_inv Hm.
  apply map_Forall_insert_2; [unfold cap; cbn [s_expires_at s_created_at]; lia|by apply Hd].
Qed.

(** ** Secrets at rest *)

(** The tables hold no bearer secret, only digests of them. *)
Definition digests (d : db) : Prop :=
  map_Forall (λ h _, ∃ tok, h = HashToken tok) (sessions d)
  ∧ map_Forall (λ _ t, ∃ tok, t_hash t = HashToken tok) (tokens d).
Lemma digests_sub d m : m ⊆ sessions d → digests d → digests (d <| sessions := m |>).
Proof. intros Hm [Hs Ht]. split; [|done]. intros k s Hk. apply (Hs k s). by eapply lookup_weaken. Qed.
Lemma digests_alter d h f : digests d → digests (d <| sessions := alter f h (sessions d) |>).
Proof.
  intros [Hs Ht]. split; [|done]. intros k s. rsimp. intros Hk. apply (Hs k (default s (sessions d !! k))).
  apply lookup_alter_Some in Hk as [(_ & s0 & -> & _)|[_ ->]]; done.
Qed.
Lemma digests_tokens d q f :
  (∀ t, t_hash (f t) = t_hash t) → digests d → digests (d <| tokens := update_where q f (tokens d) |>).
Proof.
  intros Hf [Hs Ht]. split; [done|]. apply map_Forall_update_where; [exact Ht|].
  intros k t (tok & Htok) _. exists tok. by rewrite Hf.
Qed.
Lemma digests_statements cfg kr : by_statement cfg kr digests.
Proof.
  split; try (by intros); intros; try untouched.
  - apply Validate_maintains.
    + apply (removals _ digests_sub).
    + intros d h s t e Hd _ _. by apply digests_alter.
    + intros h t u d a d' Hd [= <- <-]. by apply digests_alter.
  - apply (removals _ digests_sub).
  - apply (removals _ digests_sub).
  - apply (removals _ digests_sub).
  - intros now d a d' Hd [= <- <-]. by apply digests_tokens.
  - intros now d a d' [Hs Ht] [= <- <-]. split; [done|]. by apply map_Forall_delete_where.
  - match goal with Hw : winv _ _ |- _ => revert Hw end. apply queue_maintains; intros; try untouched.
    + intros now d a d' Hd [= <- <-]. by apply digests_tokens.
    + intros now d a d' [Hs Ht]. unfold sql_insert_token. repeat case_match; intros [=]; subst. split; [done|].
      apply map_Forall_insert_2; [by eexists|done].
Qed.
#[export] Instance digests_maintained cfg kr : Maintained cfg kr digests := statements_maintain _ _ _ (digests_statements cfg kr).
#[export] Instance digests_enters cfg kr : Enters cfg kr digests.
Proof.
  apply (statements_enter cfg kr); [apply digests_statements|].
  intros tok uid now ua ip t d a d' [Hs Ht] (_ & _ & ->)%sql_insert_session_inv. split; [|done].
  apply map_Forall_insert_2; [by eexists|done].
Qed.
End sessions.

(** ** What is mailed, and to whom *)
Section links.
Context `{Postgres} (cfg : Config) (kr : Keyring).

(** The text [queueOneTimeLinkTx] writes for a token. *)
Definition mail_text (p : Purpose) (tok : string) : string :=
  snd (link_kind p) +:+ ":" +:+ newline +:+ newline
  +:+ (BaseURL cfg +:+ fst (link_kind p) +:+ "?token=" +:+ tok) +:+ newline +:+ newline
  +:+ "Este enlace expira pronto y se usa una sola vez.".

(** The token [tok] is the one the row [t] stores the digest of. *)
Definition token_for (d : db) (t tok : string) (uid : string) (p : Purpose) : Prop :=
  ∃ tr, tokens d !! t = Some tr ∧ t_hash tr = HashToken tok ∧ t_purpose tr = p ∧ t_user_id tr = uid.
(** A queued job is addressed to its own account, can be opened, and carries
    the link of the token it refers to. *)
Record mail_ok (d : db) (id : string) (b : outbox_row) : Prop := {
  ml_to : addressed (ob_user_id b) (ob_recipient b) d;
  ml_body : ∃ tok, decrypt_row kr id (ob_provider b) (ob_purpose b) b = Ok (mail_text (ob_purpose b) tok)
    ∧ ∀ t, ob_token_id b = Some t → token_for d t tok (ob_user_id b) (ob_purpose b)
}.
Definition links_ok (d : db) : Prop :=
  map_Forall (λ id b, ob_status b = pending → mail_ok d id b) (outbox d).

(** The same mail: what a pending job keeps while it is pending. *)
Record same_mail (b b' : outbox_row) : Prop := {
  sm_pending : ob_status b' = pending → ob_status b = pending;
  sm_user : ob_user_id b' = ob_user_id b;
  sm_to : ob_recipient b' = ob_recipient b;
  sm_provider : ob_provider b' = ob_provider b;
  sm_purpose : ob_purpose b' = ob_purpose b;
  sm_token : ∀ t, ob_token_id b' = Some t → ob_token_id b = Some t;
  sm_key : ob_status b' = pending → ob_key_id b' = ob_key_id b;
  sm_nonce : ob_status b' = pending → ob_nonce b' = ob_nonce b;
  sm_text : ob_status b' = pending → ob_ciphertext b' = ob_ciphertext b
}.
(** Tokens that stay are the same tokens but for their consumption. *)
Definition tokens_stay (keep : string → Prop) (d d' : db) : Prop :=
  ∀ t tr, keep t → tokens d !! t = Some tr → ∃ tr', tokens d' !! t = Some tr' ∧ t_hash tr' = t_hash tr
    ∧ t_purpose tr' = t_purpose tr ∧ t_user_id tr' = t_user_id tr.
Lemma tokens_stay_refl keep d d' : tokens d' = tokens d → tokens_stay keep d d'.
Proof. intros E t tr _ Ht. rewrite E. eauto. Qed.
Definition accounts_stay (d d' : db) : Prop := ∀ uid to, addressed uid to d → addressed uid to d'.
Lemma accounts_stay_refl d d' : users d' = users d → accounts_stay d d'.
Proof. intros E uid to (u & Hu). exists u. by rewrite E. Qed.

Lemma links_mono d d' :
  accounts_stay d d' →
  (∀ id b', outbox d' !! id = Some b' → ∃ b, outbox d !! id = Some b ∧ same_mail b b') →
  tokens_stay (λ t, ∃ id b', outbox d' !! id = Some b' ∧ ob_token_id b' = Some t) d d' →
  links_ok d → links_ok d'.
Proof.
  intros Ha Hb Ht Hd id b' Hb' Hp. destruct (Hb id b' Hb') as (b & Hrow & []).
  destruct (Hd id b Hrow (sm_pending0 Hp)) as [Hto (tok & Hdec & Htok)].
  split; [rewrite sm_user0, sm_to0; by apply Ha|]. exists tok. rewrite sm_purpose0, sm_provider0, sm_user0. split.
  - rewrite <-Hdec. unfold decrypt_row. by rewrite sm_key0, sm_nonce0, sm_text0.
  - intros t Hbt. destruct (Htok t (sm_token0 t Hbt)) as (tr & Htr & H1 & H2 & H3).
    destruct (Ht t tr) as (tr' & Htr' & E1 & E2 & E3); [by exists id, b'|done|]. exists tr'.
    split_and!; [done|congruence..].
Qed.
(** Statements on other tables, and on the accounts. *)
Lemma links_users d m : accounts_stay d (d <| users := m |>) → links_ok d → links_ok (d <| users := m |>).
Proof.
  intros Ha. apply links_mono; [done| |by apply tokens_stay_refl].
  intros id b Hb. exists b. split; [exact Hb|by split].
Qed.
Lemma links_insert_user d id u :
  users d !! id = None → links_ok d → links_ok (d <| users := <[id := u]> (users d) |>).
Proof.
  intros Hn. apply links_users. intros uid to (v & Hv & Hc). exists v. split; [|done]. rsimp.
  rewrite lookup_insert_ne; [done|]. intros ->. congruence.
Qed.
Lemma links_outbox d m :
  (∀ id b', m !! id = Some b' → ∃ b, outbox d !! id = Some b ∧ same_mail b b') →
  links_ok d → links_ok (d <| outbox := m |>).
Proof. intros Hm. apply links_mono; [by apply accounts_stay_refl|exact Hm|by apply tokens_stay_refl]. Qed.
Lemma links_update_where d q f :
  (∀ b, same_mail b (f b)) → links_ok d → links_ok (d <| outbox := update_where q f (outbox d) |>).
Proof.
  intros Hf. apply links_outbox. intros id b'. rewrite lookup_update_where. intros (b & Hb & ->)%fmap_Some.
  exists b. split; [done|]. destruct (q id b); [apply Hf|by split].
Qed.
Lemma links_tokens d q now :
  links_ok d → links_ok (d <| tokens := update_where q (mark_consumed now) (tokens d) |>).
Proof.
  apply links_mono; [by apply accounts_stay_refl| |].
  - intros id b Hb. exists b. split; [exact Hb|by split].
  - intros t tr _ Ht. rsimp. rewrite lookup_update_where, Ht. simpl. destruct (q t tr); by eexists.
Qed.
Lemma erased_same_mail b st : st ≠ pending → ∀ b', ob_status b' = st →
  ob_user_id b' = ob_user_id b → ob_recipient b' = ob_recipient b → ob_provider b' = ob_provider b →
  ob_purpose b' = ob_purpose b → ob_token_id b' = ob_token_id b → same_mail b b'.
Proof. intros Hst b' Hs ? ? ? ? Ht. split; rewrite ?Hs, ?Ht; done. Qed.

Lemma reduce_row_same_mail now at_ typ b : same_mail b (reduce_row now at_ typ b).
Proof.
  unfold reduce_row. destruct (event_kind_of typ); try (by split).
  - destruct (is_pending b); by split.
  - eapply (erased_same_mail _ (ob_status (on_delivered now at_ b))); try done.
    unfold on_delivered, set. simpl. by destruct (ob_status b).
  - destruct (ob_status b); by split.
Qed.
Lemma finalized_same_mail out now b : same_mail b (finalized out now b).
Proof. destruct out; [by apply (erased_same_mail _ accepted)|by split|by apply (erased_same_mail _ failed)]. Qed.
Lemma retired_same_mail st r now b : st ≠ pending → same_mail b (retired st r now b).
Proof. intros Hst. apply (erased_same_mail _ st Hst); by destruct st. Qed.

Lemma addressed_stays {A} (s : stmt A) uid to :
  (∀ now d a d', s now d = Some (a, d') → users d' = users d) → stmt_ok (addressed uid to) s.
Proof. intros Hs now d a d' (u & Hu) E. exists u. by rewrite (Hs _ _ _ _ E). Qed.
Lemma token_for_stays {A} (s : stmt A) t tok uid p :
  (∀ now d a d', s now d = Some (a, d') → tokens d' = tokens d) → stmt_ok (λ d, token_for d t tok uid p) s.
Proof. intros Hs now d a d' (tr & Htr) E. exists tr. by rewrite (Hs _ _ _ _ E). Qed.

(** Issuing a token: the transaction then holds its digest. *)
Lemma links_insert_token id uid h p e : stmt_ok links_ok (sql_insert_token id uid h p e).
Proof.
  intros now d a d' Hd. unfold sql_insert_token. destruct (tokens d !! id) eqn:En; [done|].
  destruct (users d !! uid); [|done]. intros [= <- <-]. revert Hd. apply links_mono; [by apply accounts_stay_refl| |].
  - intros k b Hb. exists b. split; [exact Hb|by split].
  - intros t tr _ Ht. exists tr. rsimp. rewrite lookup_insert_ne; [done|]. intros ->. congruence.
Qed.
(** Inside the transaction: the invariant, and a fact of its copy. *)
Definition inside (J : db → Prop) (w : world) : Prop := winv links_ok w ∧ tx_has J w.
Lemma inside_sees {A} o J (m : M A) :
  preserves (sees w_db) m → preserves (sees w_tx) m → triple o (inside J) m (λ _, inside J).
Proof.
  intros Hd Ht w [[H1 H2] H3]. split; [split; [by rewrite (Hd o w)|by rewrite (Ht o w)]|].
  intros t. rewrite (Ht o w). apply H3.
Qed.
Lemma inside_exec {A B} o J (s : stmt A) :
  stmt_ok links_ok s → stmt_ok J s →
  triple o (inside J) (exec Tx s) (λ r w, match r with Ok _ => inside J w | Err e => (λ (_ : res err B), winv links_ok) (Err e) w end).
Proof.
  intros Hs HJ w [H1 H2]. pose proof (exec_keeps links_ok Tx s Hs o w H1) as H3.
  pose proof (exec_tx_keeps J s HJ o w H2) as H4. destruct (exec Tx s o w) as [[a|e] w']; [by split|done].
Qed.
Lemma IssueTx_issued uid to p ttl o :
  triple o (inside (addressed uid to)) (IssueTx uid p ttl)
    (λ r w, match r with
            | Ok (tok, tid) => inside (both (addressed uid to) (λ d, token_for d tid tok uid p)) w
            | Err _ => winv links_ok w
            end).
Proof.
  unfold IssueTx. eapply triple_bind; [apply inside_sees; done|]. intros tok. cbv beta.
  eapply triple_bind; [apply inside_sees; done|]. intros now. cbv beta.
  eapply triple_bindE; [apply (inside_exec (B := string * string))|].
  { intros t d a d' Hd [= <- <-]. by apply links_tokens. }
  { apply addressed_stays. by intros t d a d' [= <- <-]. }
  intros []. eapply triple_bind; [apply inside_sees; done|]. intros tid. cbv beta.
  intros w [H1 H2]. rewrite bindE_run.
  pose proof (exec_keeps links_ok Tx _ (links_insert_token tid uid (HashToken tok) p (now + ttl)) o w H1) as H3.
  pose proof (exec_Tx_cases (sql_insert_token tid uid (HashToken tok) p (now + ttl)) o w) as Hc.
  destruct (exec Tx _ o w) as [[[]|e] w']; rewrite ?ret_run; cbn [fst snd] in *; [|done]. split; [done|].
  destruct Hc as (t & d & E1 & E2 & E3 & _ & E5). intros t0. rewrite E5. intros [= <-] _. rsimp.
  unfold sql_insert_token in E3. destruct (tokens (tx_db t) !! tid); [done|]. destruct (users (tx_db t) !! uid); [|done].
  injection E3 as <-. split; [by apply (H2 t E1 E2)|]. eexists. rsimp. by rewrite lookup_insert_eq.
Qed.

(** The row of the new job, where the transaction holds its token. *)
Lemma links_insert_job uid to tid tok p id key nonce subj from prov before d now :
  addressed uid to d → token_for d tid tok uid p →
  aeads kr !! activeID kr = Some key → String.length nonce = nonceSize →
  let q := MkQueueInput uid tid to from subj (mail_text p tok) p prov before in
  links_ok d →
  links_ok (d <| outbox := <[id := new_job q (activeID kr) nonce
    (gcm_Seal key nonce (mail_text p tok) (payloadAAD id prov (purpose_str p))) now]> (outbox d) |>).
Proof.
  intros Ha Ht Hk Hn q Hd. apply map_Forall_insert_2.
  - intros _. split; [exact Ha|]. exists tok. split.
    + change (Decrypt kr (activeID kr) nonce (gcm_Seal key nonce (mail_text p tok) (payloadAAD id prov (purpose_str p)))
        (payloadAAD id prov (purpose_str p)) = Ok (mail_text p tok)).
      unfold Decrypt. rewrite Hk, Hn. cbn [Nat.eqb negb nonceSize]. by rewrite gcm_Open_Seal.
    + cbn [new_job q ob_token_id q_TokenID]. intros t. destruct (str_eqb tid ""); [done|]. by intros [= <-].
  - intros k b Hb Hp. destruct (Hd k b Hb Hp) as [H1 H2]. by split.
Qed.
Lemma Encrypt_sees plain aad : preserves (sees w_db) (Encrypt kr plain aad) ∧ preserves (sees w_tx) (Encrypt kr plain aad).
Proof. unfold Encrypt, rand_bytes. split; solve_preserves. Qed.
Lemma QueueTx_links uid to p tok tid now o :
  triple o (inside (both (addressed uid to) (λ d, token_for d tid tok uid p)))
    (QueueTx kr (MkQueueInput uid tid to (EmailFrom cfg) (snd (link_kind p)) (mail_text p tok) p (EmailProvider cfg) now))
    (λ _, winv links_ok).
Proof.
  unfold QueueTx. cbn [q_Body q_Provider q_Purpose q_UserID].
  eapply triple_bind; [apply inside_sees; done|]. intros id. cbv beta.
  intros w Hw. rewrite bindE_run. destruct (Encrypt _ _ _ o w) as [[[[k n] c]|e] w1] eqn:EE; cbn [fst snd].
  - assert (Hw1 : inside (both (addressed uid to) (λ d, token_for d tid tok uid p)) w1).
    { pose proof (inside_sees o _ (Encrypt kr (mail_text p tok) (payloadAAD id (EmailProvider cfg) (purpose_str p)))
        (proj1 (Encrypt_sees _ _)) (proj2 (Encrypt_sees _ _)) w Hw) as H1. by rewrite EE in H1. }
    apply Encrypt_inv in EE as (key & Hk & -> & Hn & ->). clear Hw. revert w1 Hw1.
    match goal with |- ∀ w1, ?P w1 → ?R (snd (?m o w1)) => change (triple o P m (λ _, R)) end.
    eapply triple_bindE; [apply (inside_exec (B := unit))|].
    { intros t d a d' Hd [= <- <-]. apply links_update_where; [|done]. intros b. by apply (erased_same_mail _ canceled). }
    { apply stmt_ok_both; [apply addressed_stays|apply token_for_stays]; by intros t d a d' [= <- <-]. }
    intros []. intros w2 [H1 H2]. apply exec_Tx_winv; [done|]. intros t a d E1 E2.
    destruct (H2 t E1 E2) as [Ha Ht]. unfold sql_insert_job.
    repeat case_match; intros [=]; subst; (apply links_insert_job; [done..|by apply H1]).
  - assert (H1 : winv links_ok w1); [|exact H1].
    pose proof (Encrypt_keeps links_ok kr (mail_text p tok) (payloadAAD id (EmailProvider cfg) (purpose_str p)) o w) as H1.
    rewrite EE in H1. apply H1, Hw.
Qed.
Lemma queue_links uid to p ttl o w :
  winv links_ok w → tx_has (addressed uid to) w →
  winv links_ok (snd (queueOneTimeLinkTx cfg kr uid to p (fst (link_kind p)) (snd (link_kind p)) ttl o w)).
Proof.
  intros H1 H2. cut (triple o (inside (addressed uid to))
    (queueOneTimeLinkTx cfg kr uid to p (fst (link_kind p)) (snd (link_kind p)) ttl) (λ _, winv links_ok)).
  { intros Ht. by apply Ht. }
  unfold queueOneTimeLinkTx.
  apply (triple_bindE o _ _ _ (λ a, inside (both (addressed uid to) (λ d, token_for d (snd a) (fst a) uid p)))).
  - eapply triple_conseq; [apply (IssueTx_issued uid to p ttl)|done|].
    intros [[tok tid]|e] w'; [|done]. intros Hw'. exact Hw'.
  - intros [tok tid]. eapply triple_bind; [apply inside_sees; done|]. intros now. cbv beta. apply QueueTx_links.
Qed.

(** Only accounts, tokens and the outbox matter. *)
Lemma links_same d d' : users d' = users d → tokens d' = tokens d → outbox d' = outbox d → links_ok d → links_ok d'.
Proof.
  intros Hu Ht Ho. apply links_mono; [by apply accounts_stay_refl| |by apply tokens_stay_refl].
  intros id b. rewrite Ho. intros Hb. exists b. by split.
Qed.
Lemma links_sessions d m : links_ok d → links_ok (d <| sessions := m |>).
Proof. by apply links_same. Qed.
Lemma links_update_user id f : (∀ u, u_email (f u) = u_email u) → stmt_ok links_ok (sql_update_user id f).
Proof.
  intros Hf now d a d' Hd [= <- <-]. apply links_users; [|done]. intros uid to (u & Hu & Hc). unfold addressed. rsimp.
  rewrite lookup_alter. case_decide as Ek; [subst id|by exists u]. rewrite Hu. eexists. split; [reflexivity|].
  rsimp. by rewrite Hf.
Qed.
Lemma links_purge_tokens : stmt_ok links_ok sql_purge_tokens.
Proof.
  intros now d a d' Hd [= <- <-]. revert Hd. apply links_mono; [by apply accounts_stay_refl| |].
  - intros id b'. rsimp. rewrite lookup_fmap, fmap_Some. intros (b & Hb & ->). exists b. split; [done|].
    split; try done. intros t. rsimp. destruct (ob_token_id b) as [x|]; [|done]. simpl. by case_decide.
  - intros t tr (id & b' & Hb' & Hbt) Ht. revert Hb' Hbt. rsimp. rewrite lookup_fmap, fmap_Some.
    intros (b & Hb & ->). rsimp. destruct (ob_token_id b) as [x|]; [|done]. simpl. case_decide as Hx; [|done].
    intros [= ->]. destruct Hx as [tr' Htr']. exists tr'. split; [done|].
    apply lookup_delete_where_Some in Htr' as [Htr' _]. rewrite Ht in Htr'. by injection Htr' as ->.
Qed.

Lemma links_statements : by_statement cfg kr links_ok.
Proof.
  split.
  1-3: intros d l; by apply links_same.
  - apply (inserts_user links_ok), links_insert_user.
  - apply (inserts_user links_ok), links_insert_user.
  - apply links_update_user.
  - intros iid uid p q now d a d' Hd. unfold sql_insert_identity. repeat case_match; intros [=]; subst. by apply (links_same d).
  - intros tok. apply Validate_maintains; [apply (removals links_ok); intros; by apply links_sessions| |].
    + intros d h s now e Hd _ _. by apply links_sessions.
    + intros h now t d a d' Hd [= <- <-]. by apply links_sessions.
  - apply (removals links_ok). intros; by apply links_sessions.
  - apply (removals links_ok). intros; by apply links_sessions.
  - apply (removals links_ok). intros; by apply links_sessions.
  - intros h p now d a d' Hd [= <- <-]. by apply links_tokens.
  - apply links_purge_tokens.
  - apply queue_links.
  - intros pmid typ at_ now d a d' Hd [= <- <-]. apply links_update_where; [|done]. apply reduce_row_same_mail.
  - intros id lease out now d a d' Hd. unfold sql_finalize. destruct (outbox d !! id) as [b|] eqn:Eb; [|by intros [= _ <-]].
    destruct (finalizes _ _ _); intros [= _ <-]; [|done]. apply links_outbox; [|done].
    intros k b'. rewrite lookup_insert. case_decide; [subst|intros Hb; exists b'; by split].
    intros [= <-]. exists b. split; [done|apply finalized_same_mail].
  - intros ids st r Hst now d a d' Hd [= <- <-]. apply links_update_where; [|done]. intros b. by apply retired_same_mail.
  - intros uuid ids now d a d' Hd [= <- <-]. apply links_outbox; [|done]. intros k b'. rewrite map_lookup_imap.
    intros (b & Hb & [= <-])%bind_Some. exists b. split; [done|]. by destruct (any_of ids k b).
  - intros t now d a d' Hd [= <- <-]. apply links_outbox; [|done].
    intros k b' [Hb _]%lookup_delete_where_Some. exists b'. by split.
Qed.
#[export] Instance links_maintained : Maintained cfg kr links_ok := statements_maintain _ _ _ links_statements.
#[export] Instance links_enters : Enters cfg kr links_ok.
Proof.
  apply (statements_enter cfg kr); [apply links_statements|].
  intros tok uid t ua ip now d a d' Hd (_ & _ & ->)%sql_insert_session_inv. by apply links_sessions.
Qed.
End links.

(** ** No session of a disabled account *)
Section live.
Context `{Postgres} (cfg : Config) (kr : Keyring).

(** Every session belongs to an account that may log in. *)
Definition live (d : db) : Prop := map_Forall (λ _ s, enabled (s_user_id s) d) (sessions d).

Definition enabled_stay (d d' : db) : Prop := ∀ uid, enabled uid d → enabled uid d'.
Lemma live_mono d d' :
  enabled_stay d d' →
  (∀ h s', sessions d' !! h = Some s' → ∃ s, sessions d !! h = Some s ∧ s_user_id s' = s_user_id s) →
  live d → live d'.
Proof. intros He Hs Hd h s' Hs'. destruct (Hs h s' Hs') as (s & Hh & ->). by apply He, (Hd h). Qed.
Lemma live_users d m : enabled_stay d (d <| users := m |>) → live d → live (d <| users := m |>).
Proof. intros He. apply live_mono; [done|]. eauto. Qed.
Lemma live_sub d m : m ⊆ sessions d → live d → live (d <| sessions := m |>).
Proof. intros Hm. apply live_mono; [by intros uid Hu|]. intros h s Hs. exists s. split; [by eapply lookup_weaken|done]. Qed.
Lemma live_alter d h f :
  (∀ s, s_user_id (f s) = s_user_id s) → live d → live (d <| sessions := alter f h (sessions d) |>).
Proof.
  intros Hf. apply live_mono; [by intros uid Hu|]. intros k s. rsimp. rewrite lookup_alter. case_decide; [subst|eauto].
  intros (s0 & Hs & ->)%fmap_Some. eauto.
Qed.
Lemma live_insert_user d id u : users d !! id = None → live d → live (d <| users := <[id := u]> (users d) |>).
Proof.
  intros Hn. apply live_users. intros uid (v & Hv & Hd). exists v. split; [|done]. rsimp.
  rewrite lookup_insert_ne; [done|]. intros ->. congruence.
Qed.
Lemma live_minted uid d d' : live d → enabled uid d → minted uid d d' → live d'.
Proof.
  intros Hd He (tok & s & _ & Hs & Hc). unfold live, enabled. rewrite (core_users _ _ Hc), (core_sessions _ _ Hc).
  apply map_Forall_insert_2; [by rewrite Hs|exact Hd].
Qed.
Lemma live_core d d' : core d' = core d → live d → live d'.
Proof. intros Hc. unfold live, enabled. by rewrite (core_users _ _ Hc), (core_sessions _ _ Hc). Qed.
Lemma live_killed k b now d : live d → live (killed k b now d).
Proof.
  intros Hd h s. unfold killed. rsimp. intros Hs. unfold enabled. rsimp.
  assert (Hs' : sessions d !! h = Some s ∧ (b = true → s_user_id s ≠ k)).
  { destruct b; [|done]. apply lookup_delete_where_Some in Hs as [Hs Ho]. split; [done|].
    intros _. by apply str_eqb_false in Ho. }
  destruct Hs' as [Hs' Hne]. destruct (Hd h s Hs') as (u & Hu & Hdis). rewrite lookup_alter. case_decide as Ek; [|eauto].
  subst k. rewrite Hu. eexists. split; [reflexivity|]. rsimp. destruct b; [|done]. by destruct (Hne eq_refl).
Qed.
Lemma live_magic tok uid now d : live d → live (magic_db tok uid now d).
Proof.
  intros Hd. unfold magic_db. apply live_users; [|exact Hd]. intros k (u & Hu & Hdis). unfold enabled. rsimp.
  rewrite lookup_alter. case_decide; [subst|eauto]. rewrite Hu. by eexists.
Qed.
#[export] Instance live_maintained : Maintained cfg kr live.
Proof.
  split; try (by intros); intros; try untouched.
  - apply (inserts_user live), live_insert_user.
  - apply (inserts_user live), live_insert_user.
  - intros now d a d' Hd [= <- <-]. apply live_users; [|done]. intros uid (u & Hu & Hdis). unfold enabled. rsimp.
    rewrite lookup_alter. case_decide; [subst|eauto]. rewrite Hu. eexists. split; [reflexivity|]. rsimp.
    by rewrite (proj2 (H0 u)).
  - pose proof (auditedTx_cases cfg ip _ (set_disabled_sees_db id b) o w) as [[-> _]|(rec & a & t & Hrun & Htx & _ & Hcom & _)];
      [done|]. destruct (Begin o w) as [rb w1] eqn:EB. cbn [snd] in *.
    destruct (set_disabled_action id b o w1) as [x w2] eqn:EA. cbn [fst snd] in *. subst x.
    apply set_disabled_action_ok in EA as (k & t0 & _ & _ & Ht0 & Ht2 & _). rewrite Htx in Ht2. injection Ht2 as ->.
    destruct (Begin_ok _ _ _ _ _ EB ltac:(assumption) Ht0) as [_ Hd0].
    apply committed_core in Hcom. rsimp. rewrite Hd0 in Hcom. apply (live_core _ _ Hcom). by apply live_killed.
  - apply Validate_maintains.
    + apply (removals _ live_sub).
    + intros d h s now e Hd _ _. by apply live_alter.
    + intros h now t d a d' Hd [= <- <-]. by apply live_alter.
  - apply (removals _ live_sub).
  - apply (removals _ live_sub).
  - apply (removals _ live_sub).
  - match goal with Hw : winv _ _ |- _ => revert Hw end. apply queue_maintains; intros; untouched.
Qed.
#[export] Instance live_enters : Enters cfg kr live.
Proof.
  split; intros.
  - assert (Hdb : preserves (sees w_db) (mret (Ok uid) : M (res err string))) by done.
    assert (Htx : preserves closes (mret (Ok uid) : M (res err string))) by (by intros ??).
    destruct (loginTx_cases cfg r detail _ o w Hdb Htx ltac:(assumption))
      as [[-> _]|(uid' & w0 & w2 & t0 & t & Ht0 & Hd0 & [= <- <-] & Ht & Hm)]; [done|].
    rewrite Ht0 in Ht. injection Ht as <-. rewrite Hd0 in Hm. by eapply live_minted.
  - destruct (loginTx_cases cfg r detail _ o w (magic_resolve_sees_db tok) (magic_resolve_closes tok) ltac:(assumption))
      as [[-> _]|(uid' & w0 & w2 & t0 & t & Ht0 & Hd0 & Hr & Ht & Hm)]; [done|].
    apply magic_resolve_ok in Hr as (t1 & i & row & u & Ht1 & _ & _ & _ & Hu & Hdis & Ht2).
    rewrite Ht0 in Ht1. injection Ht1 as <-. rewrite Ht in Ht2. injection Ht2 as ->. rewrite Hd0 in *. rsimp.
    eapply live_minted; [by apply live_magic| |exact Hm]. unfold magic_db, enabled. rsimp. rewrite lookup_alter_eq, Hu. by eexists.
Qed.
End live.

(** ** No new session *)
Section kept.
Context `{Postgres} (cfg : Config) (kr : Keyring) (d0 : db).

(** The sessions are some of those of [d0]: same key, owner and birth. *)
Definition kept (d : db) : Prop :=
  ∀ h s, sessions d !! h = Some s →
    ∃ s0, sessions d0 !! h = Some s0 ∧ s_user_id s = s_user_id s0 ∧ s_created_at s = s_created_at s0.
Lemma kept_sub d m : m ⊆ sessions d → kept d → kept (d <| sessions := m |>).
Proof. intros Hm Hd h s Hs. apply (Hd h). by eapply lookup_weaken. Qed.
Lemma kept_alter d h f :
  (∀ s, s_user_id (f s) = s_user_id s ∧ s_created_at (f s) = s_created_at s) →
  kept d → kept (d <| sessions := alter f h (sessions d) |>).
Proof.
  intros Hf Hd k s. rsimp. rewrite lookup_alter. case_decide; [subst|apply Hd].
  intros (s1 & Hs & ->)%fmap_Some. destruct (Hf s1) as [-> ->]. by apply Hd.
Qed.
Lemma kept_statements : by_statement cfg kr kept.
Proof.
  split; try (by intros); intros; try untouched.
  - apply Validate_maintains.
    + apply (removals _ kept_sub).
    + intros d h s now e Hd _ _. by apply kept_alter.
    + intros h now t d a d' Hd [= <- <-]. by apply kept_alter.
  - apply (removals _ kept_sub).
  - apply (removals _ kept_sub).
  - apply (removals _ kept_sub).
  - match goal with Hw : winv _ _ |- _ => revert Hw end. apply queue_maintains; intros; untouched.
Qed.
#[export] Instance kept_maintained : Maintained cfg kr kept := statements_maintain _ _ _ kept_statements.
End kept.
