(* ===== verification/Deployment.v ===== *)
(** * Deployment: the program and its database over time

    The steps of a deployment on its committed tables, in any order and one
    after the other, and what holds of every state they reach. *)

From stdpp Require Import relations.
From S2P Require Import Prelude GoLib GoUnicode GoHash GoAes GoNet GoUrl GoMux Schema World Logic Crypto Users ImportCmd Session RateLimit Tokens AuditLog Keyring Outbox Worker OAuth Config Ui Http Descriptor Webhook Service EndUser Flows Answer Server Maintenance Upkeep System.

(** A request, some turns of a worker with any sender, some ticks of the purge
    loop, or an import; the environment may answer each as it likes, so that
    a step also stands for one that fails half-way. *)
Inductive sys_step `{Postgres} `{PasswordLib} (srv : Server) : db → db → Prop :=
| request_step theme exposition moved escaped rawq r o d :
    sys_step srv d (w_db (snd (ServeHTTP theme exposition moved srv escaped rawq r o (world_of d))))
| worker_step `{Sender} provider locked turns last o d :
    sys_step srv d (w_db (snd (Run (s_keyring srv) provider locked turns last o (world_of d))))
| purge_step ticks o d : sys_step srv d (w_db (snd (runMaintenance (s_cfg srv) ticks o (world_of d))))
| import_step data o d : sys_step srv d (w_db (snd (runImport data o (world_of d)))).

(** What the migrations leave, and what comes of it. *)
Definition reachable `{Postgres} `{PasswordLib} (srv : Server) : db → Prop := rtc (sys_step srv) empty_db.

Record system_ok `{Postgres} (srv : Server) (d : db) : Prop := {
  so_references : integrity d;
  so_payload : outbox_ok d;
  so_capped : sessions_capped (s_cfg srv) d;
  so_digests : digests d;
  so_live : live d;
  so_links : links_ok (s_cfg srv) (s_keyring srv) d
}.

Section deployment.
Context `{Postgres} `{PasswordLib} (srv : Server).

Lemma maintained_step I {MI : Maintained (s_cfg srv) (s_keyring srv) I} {EI : Enters (s_cfg srv) (s_keyring srv) I} d d' : sys_step srv d d' → I d → I d'.
Proof.
  destruct 1; intros Hd.
  - by apply (ServeHTTP_mt theme exposition moved srv I).
  - by apply (Run_mt (s_cfg srv) (s_keyring srv) I), winv_closed.
  - by apply (maintenance_mt (s_cfg srv) (s_keyring srv) I), winv_closed.
  - by apply (runImport_mt (s_cfg srv) (s_keyring srv) I), winv_closed.
Qed.
Lemma maintained_steps I {MI : Maintained (s_cfg srv) (s_keyring srv) I} {EI : Enters (s_cfg srv) (s_keyring srv) I} d d' : rtc (sys_step srv) d d' → I d → I d'.
Proof. induction 1 as [|d d1 d2 Hs _ IH]; [done|]. intros Hd. by apply IH, (maintained_step I d). Qed.

(** The six at once. *)
Definition invariants : db → Prop :=
  both integrity (both outbox_ok (both (sessions_capped (s_cfg srv))
    (both digests (both live (links_ok (s_cfg srv) (s_keyring srv)))))).
Lemma invariants_ok d : invariants d ↔ system_ok srv d.
Proof. unfold invariants, both. split; [by intros (?&?&?&?&?&?); split|by intros []]. Qed.
Lemma invariants_empty : invariants empty_db.
Proof. by apply invariants_ok; split. Qed.
Lemma reachable_ok d : reachable srv d → system_ok srv d.
Proof.
  intros Hr. apply invariants_ok. apply (maintained_steps invariants empty_db); [exact Hr|exact invariants_empty].
Qed.
End deployment.

(** ** The links a worker is handed *)
Section mail.
Context `{Postgres}.

Lemma Claim_keeps_any (I : db → Prop) kr p locked n :
  (∀ ids st r, stmt_ok I (sql_retire ids st r)) → (∀ uuid ids, stmt_ok I (sql_lease uuid ids)) →
  (∀ id l out, stmt_ok I (sql_finalize id l out)) → (∀ pmid typ at_, stmt_ok I (sql_reduce pmid typ at_)) →
  preserves (keeps I) (Claim kr p locked n).
Proof.
  intros H1 H2 H3 H4. assert (Hr : ∀ ids st r, preserves (keeps I) (retire ids st r)) by (intros; unfold retire; solve_preserves).
  assert (Ht : preserves (keeps I) (claim_tx p locked n)).
  { unfold claim_tx, lease_jobs, time_Now. apply with_tx_keeps. solve_preserves. }
  assert (He : ∀ pmid es, preserves (keeps I) (reduce_all pmid es)).
  { intros pmid es. induction es; simpl; unfold reduceEvent; solve_preserves. }
  assert (Hf : ∀ id l out, preserves (keeps I) (Finalize id l out)) by (intros; unfold Finalize, reconcileEvents; solve_preserves).
  assert (Ho : ∀ l, preserves (keeps I) (open_jobs kr l)) by (intros l; induction l; simpl; solve_preserves).
  unfold Claim. solve_preserves.
Qed.
(** A claim touches the outbox alone, and no transaction outlives it. *)
Lemma Claim_tokens kr p locked n o w :
  w_tx w = None → tokens (w_db (snd (Claim kr p locked n o w))) = tokens (w_db w).
Proof.
  intros Hw. apply (Claim_keeps_any (λ d, tokens d = tokens (w_db w))); [..|by apply winv_closed].
  - by intros ids st r now d a d' Hd [= <- <-].
  - by intros uuid ids now d a d' Hd [= <- <-].
  - intros id l out now d a d' Hd. unfold sql_finalize. repeat case_match; intros [= _ <-]; done.
  - by intros pmid typ at_ now d a d' Hd [= <- <-].
Qed.
Lemma Claim_closes kr p locked n : preserves closes (Claim kr p locked n).
Proof.
  assert (He : ∀ pmid es, preserves closes (reduce_all pmid es)).
  { intros pmid es. induction es; simpl; unfold reduceEvent; solve_preserves. }
  assert (Hf : ∀ id l out, preserves closes (Finalize id l out)) by (intros; unfold Finalize, reconcileEvents; solve_preserves).
  assert (Ho : ∀ l, preserves closes (open_jobs kr l)) by (intros l; induction l; simpl; solve_preserves).
  assert (Ht : preserves closes (claim_tx p locked n)) by (apply with_tx_closes).
  assert (Hm : ∀ (l : list string) name, preserves closes (count_metric l name)) by (intros l name; induction l; simpl; solve_preserves).
  unfold Claim. solve_preserves.
Qed.

(** A live token that no other row shares its digest with is worth its account. *)
Lemma Consume_live tok p t row o w :
  healthy o → w_tx w = None → tokens (w_db w) !! t = Some row →
  consumable (HashToken tok) p (o_dbclock o (w_step w)) t row = true →
  (∀ k tr, tokens (w_db w) !! k = Some tr → t_hash tr = HashToken tok → k = t) →
  fst (Consume tok p o w) = Ok (t_user_id row).
Proof.
  intros Ho Hw Hrow Hc Hu. destruct w as [d tx i rs m]. cbn in *. subst tx.
  assert (Hs : head (select_where (consumable (HashToken tok) p (o_dbclock o i)) (tokens d)) = Some (t, row)).
  { apply select_where_unique; [done..|]. intros k tr Hk (Hh & _)%consumable_spec. by eapply Hu. }
  unfold Consume, consume, queryRow. rewrite bind_run, bindE_run.
  erewrite (exec_Pool_lit _ Ho); [|by unfold sql_consume; rewrite Hs]. done.
Qed.
End mail.

Section mailed.
Context `{Postgres} `{PasswordLib} (srv : Server).

Lemma token_live_consumable d nw b t row tok p uid :
  ob_token_id b = Some t → token_live d nw b = true → tokens d !! t = Some row → token_for d t tok uid p →
  consumable (HashToken tok) p nw t row = true ∧ t_user_id row = uid.
Proof.
  intros Hb Hl Hrow (tr & Htr & Hh & Hp & Hu). rewrite Hrow in Htr. injection Htr as <-. split; [|done].
  unfold token_live in Hl. rewrite Hb in Hl. cbn in Hl. rewrite Hrow in Hl. apply andb_true_iff in Hl as [Hc He].
  apply consumable_spec. apply bool_decide_eq_true in Hc. apply Z.ltb_lt in He. done.
Qed.

(** The path of every link is a page of the server. *)
Lemma links_routed theme exposition p :
  ∃ rt, rt ∈ routes theme exposition srv ∧ rt_method rt = "GET" ∧ rt_pattern rt = fst (link_kind p).
Proof.
  apply Exists_exists. unfold routes. destruct p; cbn [link_kind fst app];
    repeat (first [apply Exists_cons_hd; split; reflexivity | apply Exists_cons_tl]).
Qed.
End mailed.

(** C4. The mail works: in every state the deployment can reach, a job that a
    worker is handed is addressed to its own account's address and its body
    is the text of that purpose with one link; as long as the row still
    refers to its token, the link carries exactly that token, which is
    unused, unexpired and of that account and purpose, so that the database,
    when it answers before the expiry, exchanges it for that account (but
    for a repeated 256-bit digest). *)
Theorem mailed_links_work `{Postgres} `{PasswordLib} srv provider locked limit d o jobs w' j :
  reachable srv d → healthy o →
  Claim (s_keyring srv) provider locked limit o (world_of d) = (Ok jobs, w') → j ∈ jobs →
  ∃ b tok,
    outbox d !! j_ID j = Some b ∧ addressed (j_UserID j) (j_To j) d
    ∧ j_Body j = mail_text (s_cfg srv) (j_Purpose j) tok
    ∧ ∀ t, ob_token_id b = Some t → ∃ row,
        tokens d !! t = Some row ∧ t_user_id row = j_UserID j
        ∧ consumable (HashToken tok) (j_Purpose j) (o_dbclock o 0) t row = true
        ∧ ((∀ k r, tokens d !! k = Some r → t_hash r = HashToken tok → k = t) →
           ∀ o', healthy o' → o_dbclock o' (w_step w') < t_expires_at row →
           fst (Consume tok (j_Purpose j) o' w') = Ok (j_UserID j)).
Proof.
  intros Hr Ho HC Hin. destruct (reachable_ok srv d Hr) as [Hi _ _ _ _ Hlinks].
  destruct (Claim_jobs _ _ _ _ _ _ _ _ Ho HC) as (_ & _ & Hj). destruct (Hj j Hin) as (b & lease & Hdel & Hdec & -> & _).
  cbn [j_ID j_Body j_Purpose j_UserID j_To job_from world_of w_db w_step] in *.
  destruct Hdel as [Hrow Hp _ _ _ _ _ _ Htok]. destruct (Hlinks _ b Hrow Hp) as [Hto (tok & Hdec' & Htf)].
  rewrite Hdec' in Hdec. injection Hdec as Hbody. exists b, tok. split_and!; [done|done|done|].
  intros t Ht. specialize (Htf t Ht). destruct Htf as (row & Hrow' & Hh & Hpu & Hu).
  destruct (token_live_consumable d (o_dbclock o 0) b t row tok (ob_purpose b) (ob_user_id b) Ht (Htok t Ht) Hrow'
    (ex_intro _ row (conj Hrow' (conj Hh (conj Hpu Hu))))) as [Hc _].
  exists row. split_and!; [done|done|done|]. intros Huniq o' Ho' He.
  pose proof (Claim_tokens (s_keyring srv) provider locked limit o (world_of d) eq_refl) as Htk.
  pose proof (Claim_closes (s_keyring srv) provider locked limit o (world_of d) eq_refl) as Htx.
  rewrite HC in Htk, Htx. cbn [snd world_of w_db] in Htk, Htx.
  rewrite <-Hu. eapply Consume_live; [done|done|rewrite Htk; exact Hrow'| |by rewrite Htk].
  apply consumable_spec. apply consumable_spec in Hc as (_ & _ & Hnc & _). done.
Qed.

(** C2. The deployment keeps its promises: from an empty database on, under
    any sequence of HTTP requests, worker turns (whatever the provider
    answers), purges and imports, each against any answers and failures of
    the environment, every reachable state has sound references and unique
    addresses, holds an encrypted payload only in pending jobs, has no session
    past the absolute cap, no session of a disabled or deleted account, no
    bearer secret in its session and token tables but their digests, and
    every pending mail can be opened, is addressed to its own account and
    carries the link of the token it refers to. *)
Theorem system_invariant `{Postgres} `{PasswordLib} srv d : reachable srv d → system_ok srv d.
Proof. apply reachable_ok. Qed.

(** C3. Only a login opens a session: whatever the request and whatever the
    database and the providers answer, unless the request is routed to POST
    /login, to the callback of a provider or to the confirmation of a magic
    link, every session afterwards was there before, with the same owner and
    the same birth; and no turn of a worker, purge or import opens one. *)
Theorem only_logins_open_sessions `{Postgres} `{PasswordLib} srv d :
  (∀ theme exposition moved escaped rawq r o,
     kept d (w_db (snd (ServeHTTP theme exposition moved srv escaped rawq r o (world_of d))))
     ∨ ∃ rt vals, rt ∈ routes theme exposition srv ∧ opens_session rt
         ∧ mux_find (routes theme exposition srv) (r_method r) escaped rawq = MuxServe (rt_handler rt) vals) ∧
  (∀ (S : Sender) provider locked turns last o,
     kept d (w_db (snd (Run (s_keyring srv) provider locked turns last o (world_of d))))) ∧
  (∀ ticks o, kept d (w_db (snd (runMaintenance (s_cfg srv) ticks o (world_of d))))) ∧
  (∀ data o, kept d (w_db (snd (runImport data o (world_of d))))).
Proof.
  assert (Hd : kept d d) by (intros h s Hs; by exists s). split_and!.
  - intros theme exposition moved escaped rawq r o.
    pose proof (ServeHTTP_when theme exposition moved srv (kept d) escaped rawq r) as Hs.
    destruct (mux_find (routes theme exposition srv) (r_method r) escaped rawq) as [u|h vals|ms|] eqn:E;
      [by left; apply Hs| |by left; apply Hs..].
    destruct (mux_find_in theme exposition srv _ _ _ _ _ E) as (rt & Hin & <-).
    destruct (decide (opens_session rt)) as [Ho|Ho]; [right; by exists rt, vals|left]. apply Hs; [|done..].
    intros h' vals' r' [= <- <-]. by apply (other_routes_mt theme exposition srv (kept d)).
  - intros S provider locked turns last o. by apply (Run_mt (s_cfg srv) (s_keyring srv) (kept d)), winv_closed.
  - intros ticks o. by apply (maintenance_mt (s_cfg srv) (s_keyring srv) (kept d)), winv_closed.
  - intros data o. by apply (runImport_mt (s_cfg srv) (s_keyring srv) (kept d)), winv_closed.
Qed.

(** ** A signup and its mail *)
Definition toy_post_signup : request :=
  toy_signup <| r_path := "/signup" |> <| r_path_values := [] |>.
Definition toy_signed_up : db :=
  w_db (snd (ServeHTTP "css" (λ _ _, "") 301 toy_server "/signup" "" toy_post_signup (oracle_at 5) (world_of empty_db))).
Lemma toy_reachable : reachable toy_server toy_signed_up.
Proof. apply rtc_once, request_step. Qed.

Lemma system_invariant_witness :
  system_ok toy_server toy_signed_up ∧ size (users toy_signed_up) = 1%nat ∧ size (outbox toy_signed_up) = 1%nat.
Proof.
  split; [apply (system_invariant toy_server), toy_reachable|]. split; vm_compute; reflexivity.
Defined.
Lemma single_job (r : res err (list Job) * world) (P : Job → Prop) :
  (match fst r with Ok [j] => P j | _ => False end) → ∃ j w', r = (Ok [j], w') ∧ P j.
Proof. destruct r as [[[|j [|]]|] w']; try done. eauto. Qed.
Definition toy_token_id : string := "00000000-0000-771e-a52c-333a41484f56".
Lemma toy_mail :
  ∃ j w', Claim toy_keyring "log" (λ _, false) 4 (oracle_at 6) (world_of toy_signed_up) = (Ok [j], w')
    ∧ j_To j = "Ana@x.com" ∧ j_Purpose j = PurposeVerify
    ∧ (ob_token_id <$> outbox toy_signed_up !! j_ID j) = Some (Some toy_token_id).
Proof. apply single_job. vm_compute. done. Qed.
Lemma toy_mail_token :
  ∃ row, tokens toy_signed_up = {[toy_token_id := row]} ∧ t_expires_at row = 86400000000005.
Proof. eexists. split; vm_compute; reflexivity. Qed.
Lemma mailed_links_work_witness :
  ∃ j tok w', Claim toy_keyring "log" (λ _, false) 4 (oracle_at 6) (world_of toy_signed_up) = (Ok [j], w')
    ∧ j_To j = "Ana@x.com" ∧ j_Body j = mail_text toy_config PurposeVerify tok
    ∧ fst (Consume tok PurposeVerify (oracle_at 7) w') = Ok (j_UserID j).
Proof.
  destruct toy_mail as (j & w' & E & H1 & H2 & H3).
  destruct (mailed_links_work toy_server "log" (λ _, false) 4 toy_signed_up (oracle_at 6) [j] w' j
    toy_reachable (oracle_at_healthy 6) E) as (b & tok & Hb & _ & Hbody & Ht); [left|].
  rewrite Hb in H3. injection H3 as H3. destruct (Ht _ H3) as (row & Hrow & _ & _ & Hcons). rewrite H2 in *.
  destruct toy_mail_token as (row' & Hall & He). rewrite Hall, lookup_singleton_eq in Hrow. injection Hrow as <-.
  exists j, tok, w'. split_and!; [exact E|done|done|]. apply Hcons; [|apply oracle_at_healthy|].
  - intros k r. rewrite Hall. by intros [<- _]%lookup_singleton_Some.
  - by rewrite He.
Defined.

(** A link that was used while its mail was being retried is dropped by
    [Claim] as long as its token is there, and mailed once the purge has
    removed the token: the reference is then null and nothing is checked. *)
Definition toy_spent_link : db :=
  empty_db <| users := {["u1" := MkUser "ana@x.com" true None None None 0 0 [] false]} |>
    <| tokens := {["k1" := MkToken "u1" (HashToken "tok") PurposeReset (Hour) (Some 3) 0]} |>
    <| outbox := {["j1" := toy_pending <| ob_token_id := Some "k1" |>]} |>.
Definition toy_claim (w : world) : res err (list Job) :=
  fst (Claim toy_keyring "resend" (λ _, false) 25 (oracle_at 5) w).
Example purged_token_mails_dead_link :
  toy_claim (world_of toy_spent_link) = Ok []
  ∧ (map j_ID) <$> (match toy_claim (snd (PurgeExpiredTokens (oracle_at 4) (world_of toy_spent_link))) with
                    | Ok l => Some l | Err _ => None end) = Some ["j1"].
Proof. split; vm_compute; reflexivity. Qed.
