(* ===== verification/Commands.v ===== *)
(** * Commands: src/cmd/sesamo/main.go, admin.go and describe.go

    What each subcommand does, in order, and its exit code.  Connecting,
    migrating ([Migrate]) and serving ([Server], [Worker], [Maintenance]) are
    steps that succeed or fail; reading the export and its import are those
    of [ImportCmd]. *)

From S2P Require Import Prelude GoLib GoHash GoNet Schema World Logic Crypto Users ImportCmd Session OAuth Config ConfigLoad Http Server.

(** What the process did that is visible from outside. *)
Inductive action :=
| Connected (dsn : string)
| Migrated
| Served (cfg : Config)
| Imported (p : progress)
| Printed (doc : json)
| PrintedVersion (version : string).

(** Whether the outside lets a step succeed. *)
Record outside := MkOutside {
  connects : string → bool;
  migrates : bool;
  serves : Config → bool;            (* false: serve returns an error *)
  export : string → option string    (* the contents of a file *)
}.

Section commands.
Context `{Postgres} (net : oracle → nat → out_request → option (Z * string)).
Context {ec_key : Type} (ecdsa_Sign : oracle → nat → ec_key → string → option (Z * Z)).
Context (parseECPrivateKey : string → option ec_key).
Context (version : string) (env : string → string) (out : outside).

(** Load the configuration and connect; a failure exits with 1. *)
Definition connected (k : Config → M (Z * list action)) : M (Z * list action) :=
  match Load env with
  | Err _ => mret (1, [])
  | Ok cfg =>
      if connects out (DatabaseURL cfg)
      then r ← k cfg; mret (fst r, Connected (DatabaseURL cfg) :: snd r)
      else mret (1, [])
  end.
Definition runMigrate : M (Z * list action) :=
  connected (λ _, mret (if migrates out then (0, [Migrated]) else (1, []))).
Definition runServe : M (Z * list action) :=
  connected (λ cfg,
    let cfg := cfg <| Version := version |> in
    mret (if migrates out
          then (if serves out cfg then 0 else 1, [Migrated; Served cfg])
          else (1, []))).
Definition import_file (args : list string) : M (Z * list action) :=
  match args with
  | [] => mret (2, [])
  | path :: _ =>
      connected (λ _, match export out path with
                      | None => mret (1, [])
                      | Some data => r ← runImport data; mret (fst r, [Imported (snd r)])
                      end)
  end.
Definition runAdmin (args : list string) : M (Z * list action) :=
  match args with
  | [] => mret (2, [])
  | sub :: args => if str_eqb sub "import" then import_file args else mret (2, [])
  end.
Definition runDescribe (args : list string) : M (Z * list action) :=
  if negb (forallb (λ a, str_eqb a "--json") args) then mret (2, []) else
  match LoadForDescribe env with
  | Err _ => mret (1, [])
  | Ok cfg =>
      match DescribeJSON net ecdsa_Sign parseECPrivateKey (cfg <| Version := version |>) with
      | Err _ => mret (1, [])
      | Ok doc => mret (0, [Printed doc])
      end
  end.
(** The arguments after the program's name. *)
Definition main (args : list string) : M (Z * list action) :=
  match args with
  | [] => mret (2, [])
  | cmd :: args =>
      if str_eqb cmd "migrate" then runMigrate
      else if str_eqb cmd "serve" then runServe
      else if str_eqb cmd "admin" then runAdmin args
      else if str_eqb cmd "describe" then runDescribe args
      else if str_eqb cmd "version" then mret (0, [PrintedVersion version])
      else mret (2, [])
  end.
End commands.

(** ** Guards *)
Section guards.
Context `{Postgres} (version : string) (env : string → string) (out : outside).

Lemma connected_actions k o w :
  (connected env out k o w = ((1, []), w))
  ∨ ∃ cfg, Load env = Ok cfg ∧ connects out (DatabaseURL cfg) = true
      ∧ fst (connected env out k o w)
        = (fst (fst (k cfg o w)), Connected (DatabaseURL cfg) :: snd (fst (k cfg o w)))
      ∧ snd (connected env out k o w) = snd (k cfg o w).
Proof.
  unfold connected. destruct (Load env) as [cfg|e]; [|by left].
  destruct (connects out (DatabaseURL cfg)) eqn:E; [|by left]. right. exists cfg.
  rewrite bind_run, ret_run. done.
Qed.

Lemma serve_actions o w cfg :
  Served cfg ∈ snd (fst (runServe version env out o w)) →
  ∃ c, Load env = Ok c ∧ cfg = c <| Version := version |>
    ∧ snd (fst (runServe version env out o w)) = [Connected (DatabaseURL c); Migrated; Served cfg] ∧ migrates out = true.
Proof.
  unfold runServe.
  match goal with |- context [connected env out ?k] => pose proof (connected_actions k o w) as Hc end.
  destruct Hc as [Hr|(c & Hc & _ & Hr & _)]; rewrite Hr.
  - by intros ?%elem_of_nil.
  - cbv zeta. rewrite ret_run. cbn [fst snd]. destruct (migrates out); cbn [snd]; intros Hin.
    + exists c. assert (cfg = c <| Version := version |>) as -> by set_solver. done.
    + set_solver.
Qed.
(** The other commands never serve. *)
Lemma others_never_serve {ec_key} net sign (parse : string → option ec_key) args o w cfg :
  head args ≠ Some "serve" → Served cfg ∉ snd (fst (main net sign parse version env out args o w)).
Proof.
  intros Hs Hin. destruct args as [|cmd args]; [by apply elem_of_nil in Hin|]. unfold main in Hin.
  destruct (str_eqb cmd "migrate") eqn:E1.
  { unfold runMigrate in Hin. destruct (connected_actions (λ _, mret (if migrates out then (0, [Migrated]) else (1, []))) o w)
      as [Hr|(c & _ & _ & Hr & _)]; rewrite Hr in Hin; cbn in Hin; [set_solver|destruct (migrates out); set_solver]. }
  destruct (str_eqb cmd "serve") eqn:E2; [apply str_eqb_true in E2 as ->; by destruct Hs|].
  destruct (str_eqb cmd "admin") eqn:E3.
  { unfold runAdmin in Hin. destruct args as [|sub args]; [set_solver|]. destruct (str_eqb sub "import"); [|set_solver].
    destruct args as [|path args]; [set_solver|]. unfold import_file in Hin.
    match type of Hin with context [connected env out ?k] =>
      destruct (connected_actions k o w) as [Hr|(c & _ & _ & Hr & _)]; rewrite Hr in Hin end; [set_solver|].
    cbn [snd] in Hin. destruct (export out path) as [data|]; [rewrite bind_run, ret_run in Hin|]; cbn in Hin; set_solver. }
  destruct (str_eqb cmd "describe") eqn:E4.
  { unfold runDescribe in Hin. destruct (negb _); [set_solver|]. destruct (LoadForDescribe env); [|set_solver].
    destruct (DescribeJSON _ _ _ _); set_solver. }
  destruct (str_eqb cmd "version"); set_solver.
Qed.
End guards.

(** Nothing is served before the configuration was accepted, the database
    reached and every migration applied: whatever the arguments and the
    environment are, a process that served did so as its last step, with the
    configuration [Load] accepted and the version it was built with, on the
    database it migrated. *)
Theorem serve_guarded `{Postgres} {ec_key} net sign (parse : string → option ec_key) version env out args o w cfg :
  let actions := snd (fst (main net sign parse version env out args o w)) in
  Served cfg ∈ actions →
  ∃ c, Load env = Ok c ∧ cfg = c <| Version := version |>
    ∧ actions = [Connected (DatabaseURL c); Migrated; Served cfg]
    ∧ migrates out = true ∧ head args = Some "serve".
Proof.
  intros actions Hin. destruct (decide (head args = Some "serve")) as [Hh|Hh].
  - destruct args as [|cmd args]; [done|]. injection Hh as ->.
    destruct (serve_actions version env out o w cfg Hin) as (c & Hc & E & Ha & Hm). exists c. split_and!; done.
  - by destruct (others_never_serve version env out net sign parse args o w cfg Hh).
Qed.
Definition toy_outside : outside := MkOutside (λ _, true) true (λ _, true) (λ _, None).
Lemma serve_guarded_witness :
  let cfg := toy_loaded <| Version := "v1" |> in
  migrates toy_outside = true
  ∧ fst (main (λ _ _ _, None) (λ _ _ (_ : unit) _, None) (λ _, None) "v1" toy_env toy_outside ["serve"]
      (oracle_at 0) (world_of empty_db)) = (0, [Connected (DatabaseURL toy_loaded); Migrated; Served cfg]).
Proof.
  intros cfg. split; [|reflexivity].
  destruct (serve_guarded (λ _ _ _, None) (λ _ _ (_ : unit) _, None) (λ _, None) "v1" toy_env toy_outside ["serve"]
    (oracle_at 0) (world_of empty_db) cfg) as (c & _ & _ & _ & Hm & _); [|exact Hm].
  apply elem_of_cons. right. apply elem_of_cons. right. apply elem_of_cons. by left.
Defined.
